(** * Apple DART IOMMU driver: a shallow embedding of
      drivers/iommu/apple-dart.c and the properties of its specification.

    Integers of the C code are [Z] with their wrap-around written out,
    MMIO windows and memory are total maps, pointers to hardware units are
    optional indices into a store of units, and the external page-table
    engine (io-pgtable) is an interface. *)

From Stdlib Require Import ZArith List Bool Lia.
From Stdlib Require Import Strings.Byte.
Import ListNotations.
Local Open Scope Z_scope.

(** ** Kernel helpers *)

Definition u32 (x : Z) : Z := x mod 2 ^ 32.
Definition u64 (x : Z) : Z := x mod 2 ^ 64.

Definition BIT (n : Z) : Z := Z.shiftl 1 n.

(* DMA_BIT_MASK(n) = ((n) == 64) ? ~0ULL : ((1ULL << (n)) - 1) *)
Definition DMA_BIT_MASK (n : Z) : Z :=
  if n =? 64 then 2 ^ 64 - 1 else u64 (u64 (Z.shiftl 1 n) - 1).

(* ~x on a 64-bit unsigned value *)
Definition not64 (x : Z) : Z := Z.lxor x (2 ^ 64 - 1).

(* fls64: 1-based index of the most significant set bit, 0 for 0 *)
Definition fls64 (x : Z) : Z := if x =? 0 then 0 else Z.log2 x + 1.

(* min_t(u32, a, b) *)
Definition min_u32 (a b : Z) : Z := Z.min (u32 a) (u32 b).

Definition BITS_PER_LONG : Z := 64.
Definition BITS_TO_LONGS (n : Z) : Z := (n + BITS_PER_LONG - 1) / BITS_PER_LONG.

Definition EINVAL : Z := 22.
Definition ENOMEM : Z := 12.
Definition ENODEV : Z := 19.

Definition SZ_4K : Z := 4096.
Definition SZ_16K : Z := 16384.

(** ** Driver constants *)

Definition DART_MAX_STREAMS : Z := 256.
Definition DART_MAX_TTBR : Z := 4.
Definition MAX_DARTS_PER_DEVICE : nat := 3.

Definition DART_T8020_STREAMS_ENABLE : Z := 0xfc.
Definition DART_T8020_ERROR : Z := 0x40.
Definition DART_T8020_CONFIG : Z := 0x60.
Definition DART_T8020_CONFIG_LOCK : Z := BIT 15.
Definition DART_T8020_TCR : Z := 0x100.
Definition DART_T8020_TCR_TRANSLATE_ENABLE : Z := BIT 7.
Definition DART_T8020_TCR_BYPASS_DART : Z := BIT 8.
Definition DART_T8020_TCR_BYPASS_DAPF : Z := BIT 12.
Definition DART_T8020_TTBR : Z := 0x200.
Definition DART_T8020_USB4_TTBR : Z := 0x400.
Definition DART_T8020_TTBR_VALID : Z := BIT 31.
Definition DART_T8020_TTBR_ADDR_FIELD_SHIFT : Z := 0.
Definition DART_T8020_TTBR_SHIFT : Z := 12.

Definition DART_T8110_ERROR : Z := 0x100.
Definition DART_T8110_PROTECT : Z := 0x200.
Definition DART_T8110_PROTECT_TTBR_TCR : Z := BIT 0.
Definition DART_T8110_ENABLE_STREAMS : Z := 0xc00.
Definition DART_T8110_TCR : Z := 0x1000.
Definition DART_T8110_TCR_FOUR_LEVEL : Z := BIT 3.
Definition DART_T8110_TCR_BYPASS_DAPF : Z := BIT 2.
Definition DART_T8110_TCR_BYPASS_DART : Z := BIT 1.
Definition DART_T8110_TCR_TRANSLATE_ENABLE : Z := BIT 0.
Definition DART_T8110_TTBR : Z := 0x1400.
Definition DART_T8110_TTBR_VALID : Z := BIT 0.
Definition DART_T8110_TTBR_ADDR_FIELD_SHIFT : Z := 2.
Definition DART_T8110_TTBR_SHIFT : Z := 14.

Inductive dart_type : Type := DART_T8020 | DART_T6000 | DART_T8110.

Inductive io_pgtable_fmt : Type := APPLE_DART | APPLE_DART2.

(* The two implementations behind hw->invalidate_tlb. *)
Inductive tlb_method : Type :=
| apple_dart_t8020_hw_invalidate_tlb
| apple_dart_t8110_hw_invalidate_tlb.

(** struct apple_dart_hw *)
Module Hw.
Record t : Type := mk {
  type : dart_type;
  invalidate_tlb : tlb_method;
  oas : Z;
  fmt : io_pgtable_fmt;
  max_sid_count : Z;
  lock : Z;
  lock_bit : Z;
  error : Z;
  enable_streams : Z;
  tcr : Z;
  tcr_enabled : Z;
  tcr_disabled : Z;
  tcr_bypass : Z;
  tcr_4level : Z;
  ttbr : Z;
  ttbr_valid : Z;
  ttbr_addr_field_shift : Z;
  ttbr_shift : Z;
  ttbr_count : Z
}.
End Hw.

Definition apple_dart_hw_t8103 : Hw.t := {|
  Hw.type := DART_T8020;
  Hw.invalidate_tlb := apple_dart_t8020_hw_invalidate_tlb;
  Hw.oas := 36;
  Hw.fmt := APPLE_DART;
  Hw.max_sid_count := 16;
  Hw.lock := DART_T8020_CONFIG;
  Hw.lock_bit := DART_T8020_CONFIG_LOCK;
  Hw.error := DART_T8020_ERROR;
  Hw.enable_streams := DART_T8020_STREAMS_ENABLE;
  Hw.tcr := DART_T8020_TCR;
  Hw.tcr_enabled := DART_T8020_TCR_TRANSLATE_ENABLE;
  Hw.tcr_disabled := 0;
  Hw.tcr_bypass := Z.lor DART_T8020_TCR_BYPASS_DAPF DART_T8020_TCR_BYPASS_DART;
  Hw.tcr_4level := 0;
  Hw.ttbr := DART_T8020_TTBR;
  Hw.ttbr_valid := DART_T8020_TTBR_VALID;
  Hw.ttbr_addr_field_shift := DART_T8020_TTBR_ADDR_FIELD_SHIFT;
  Hw.ttbr_shift := DART_T8020_TTBR_SHIFT;
  Hw.ttbr_count := 4
|}.

Definition apple_dart_hw_t8103_usb4 : Hw.t := {|
  Hw.type := DART_T8020;
  Hw.invalidate_tlb := apple_dart_t8020_hw_invalidate_tlb;
  Hw.oas := 36;
  Hw.fmt := APPLE_DART;
  Hw.max_sid_count := 64;
  Hw.lock := DART_T8020_CONFIG;
  Hw.lock_bit := DART_T8020_CONFIG_LOCK;
  Hw.error := DART_T8020_ERROR;
  Hw.enable_streams := DART_T8020_STREAMS_ENABLE;
  Hw.tcr := DART_T8020_TCR;
  Hw.tcr_enabled := DART_T8020_TCR_TRANSLATE_ENABLE;
  Hw.tcr_disabled := 0;
  Hw.tcr_bypass := 0;
  Hw.tcr_4level := 0;
  Hw.ttbr := DART_T8020_USB4_TTBR;
  Hw.ttbr_valid := DART_T8020_TTBR_VALID;
  Hw.ttbr_addr_field_shift := DART_T8020_TTBR_ADDR_FIELD_SHIFT;
  Hw.ttbr_shift := DART_T8020_TTBR_SHIFT;
  Hw.ttbr_count := 4
|}.

Definition apple_dart_hw_t6000 : Hw.t := {|
  Hw.type := DART_T6000;
  Hw.invalidate_tlb := apple_dart_t8020_hw_invalidate_tlb;
  Hw.oas := 42;
  Hw.fmt := APPLE_DART2;
  Hw.max_sid_count := 16;
  Hw.lock := DART_T8020_CONFIG;
  Hw.lock_bit := DART_T8020_CONFIG_LOCK;
  Hw.error := DART_T8020_ERROR;
  Hw.enable_streams := DART_T8020_STREAMS_ENABLE;
  Hw.tcr := DART_T8020_TCR;
  Hw.tcr_enabled := DART_T8020_TCR_TRANSLATE_ENABLE;
  Hw.tcr_disabled := 0;
  Hw.tcr_bypass := Z.lor DART_T8020_TCR_BYPASS_DAPF DART_T8020_TCR_BYPASS_DART;
  Hw.tcr_4level := 0;
  Hw.ttbr := DART_T8020_TTBR;
  Hw.ttbr_valid := DART_T8020_TTBR_VALID;
  Hw.ttbr_addr_field_shift := DART_T8020_TTBR_ADDR_FIELD_SHIFT;
  Hw.ttbr_shift := DART_T8020_TTBR_SHIFT;
  Hw.ttbr_count := 4
|}.

(* .oas is left out of the initializer in the source, hence zero. *)
Definition apple_dart_hw_t8110 : Hw.t := {|
  Hw.type := DART_T8110;
  Hw.invalidate_tlb := apple_dart_t8110_hw_invalidate_tlb;
  Hw.oas := 0;
  Hw.fmt := APPLE_DART2;
  Hw.max_sid_count := 256;
  Hw.lock := DART_T8110_PROTECT;
  Hw.lock_bit := DART_T8110_PROTECT_TTBR_TCR;
  Hw.error := DART_T8110_ERROR;
  Hw.enable_streams := DART_T8110_ENABLE_STREAMS;
  Hw.tcr := DART_T8110_TCR;
  Hw.tcr_enabled := DART_T8110_TCR_TRANSLATE_ENABLE;
  Hw.tcr_disabled := 0;
  Hw.tcr_bypass := Z.lor DART_T8110_TCR_BYPASS_DAPF DART_T8110_TCR_BYPASS_DART;
  Hw.tcr_4level := DART_T8110_TCR_FOUR_LEVEL;
  Hw.ttbr := DART_T8110_TTBR;
  Hw.ttbr_valid := DART_T8110_TTBR_VALID;
  Hw.ttbr_addr_field_shift := DART_T8110_TTBR_ADDR_FIELD_SHIFT;
  Hw.ttbr_shift := DART_T8110_TTBR_SHIFT;
  Hw.ttbr_count := 1
|}.

(* apple_dart_of_match: the descriptors a probed unit can carry. *)
Definition apple_dart_of_match : list Hw.t :=
  [apple_dart_hw_t8103; apple_dart_hw_t8103_usb4;
   apple_dart_hw_t8110; apple_dart_hw_t6000].

(** struct apple_dart.  [regs] is the MMIO window (byte offset to 32-bit
    value); [locked_ttbr] and [shadow_ttbr] hold pointers into memory,
    indexed by stream id and table slot, 0 being NULL. *)
Module Dart.
Record t : Type := mk {
  hw : Hw.t;
  regs : Z -> Z;
  ias : Z;
  oas : Z;
  pgsize : Z;
  num_streams : Z;
  supports_bypass : bool;
  locked : bool;
  four_level : bool;
  dma_min : Z;
  dma_max : Z;
  locked_ttbr : Z -> Z -> Z;
  shadow_ttbr : Z -> Z -> Z
}.

Definition set_regs (d : t) (r : Z -> Z) : t :=
  mk (hw d) r (ias d) (oas d) (pgsize d) (num_streams d) (supports_bypass d)
     (locked d) (four_level d) (dma_min d) (dma_max d)
     (locked_ttbr d) (shadow_ttbr d).

Definition set_locked_ttbr (d : t) (l : Z -> Z -> Z) : t :=
  mk (hw d) (regs d) (ias d) (oas d) (pgsize d) (num_streams d)
     (supports_bypass d) (locked d) (four_level d) (dma_min d) (dma_max d)
     l (shadow_ttbr d).

Definition set_shadow_ttbr (d : t) (s : Z -> Z -> Z) : t :=
  mk (hw d) (regs d) (ias d) (oas d) (pgsize d) (num_streams d)
     (supports_bypass d) (locked d) (four_level d) (dma_min d) (dma_max d)
     (locked_ttbr d) s.
End Dart.

(** struct apple_dart_stream_map: a unit (a pointer, [None] for NULL) and a
    bitmap of DART_MAX_STREAMS stream ids, bit [sid] of [sidmap]. *)
Module StreamMap.
Record t : Type := mk {
  dart : option nat;
  sidmap : Z
}.
End StreamMap.

(** What the driver does to the outside, in program order. *)
Inductive event : Type :=
| EvWarn                                   (* a WARN_ON whose condition held *)
| EvWritel (dart : nat) (val off : Z)
| EvMemset (p len : Z)
| EvMemunmap (p : Z)
| EvMutexLock
| EvMutexUnlock
| EvReadFinalized (b : bool)
| EvAllocPgtable (ok : bool)
| EvDevInfo
| EvDevErr
| EvPmGet (dart : nat)      (* a runtime-PM reference on the unit taken:
                              pm_runtime_get_sync, pm_runtime_get_noresume *)
| EvPmPut (dart : nat).     (* pm_runtime_put *)

(** The state shared by all calls: the hardware units, byte-addressed
    memory holding the first-level tables, and the event log. *)
Record world : Type := mkWorld {
  darts : nat -> Dart.t;
  mem : Z -> byte;
  log : list event
}.

Definition emit (e : event) (w : world) : world :=
  mkWorld (darts w) (mem w) (log w ++ [e]).

Definition set_dart (w : world) (p : nat) (d : Dart.t) : world :=
  mkWorld (fun q => if Nat.eqb q p then d else darts w q) (mem w) (log w).

Definition set_mem (w : world) (m : Z -> byte) : world :=
  mkWorld (darts w) m (log w).

(* Diagnostics: warnings and dev_info / dev_err messages. *)
Definition is_diag (e : event) : bool :=
  match e with
  | EvWarn | EvDevInfo | EvDevErr => true
  | _ => false
  end.

(* Calls of alloc_io_pgtable_ops among the events. *)
Definition count_allocs (l : list event) : nat :=
  List.length
    (filter (fun e => match e with EvAllocPgtable _ => true | _ => false end)
            l).

(* WARN_ON(cond): reports and carries on. *)
Definition WARN_ON (cond : bool) (w : world) : world :=
  if cond then emit EvWarn w else w.

(* [w'] is [w] with diagnostics added to the log and nothing else changed. *)
Definition diag_extends (w w' : world) : Prop :=
  darts w' = darts w /\ mem w' = mem w /\
  exists evs, log w' = log w ++ evs /\ forallb is_diag evs = true.

(** Outcome of a call: it returns, it dereferences NULL, the model's
    loop bound ran out, or it writes outside the object it was given. *)
Inductive exec (A : Type) : Type :=
| Done (a : A)
| NullDeref
| OutOfFuel
| OutOfBounds.
Arguments Done {A} a.
Arguments NullDeref {A}.
Arguments OutOfFuel {A}.
Arguments OutOfBounds {A}.

Definition bind {A B : Type} (c : exec A) (k : A -> exec B) : exec B :=
  match c with
  | Done a => k a
  | NullDeref => NullDeref
  | OutOfFuel => OutOfFuel
  | OutOfBounds => OutOfBounds
  end.

Notation "x <- c ;; k" := (bind c (fun x => k))
  (at level 100, c at next level, right associativity).

Definition deref {A : Type} (p : option A) : exec A :=
  match p with
  | Some a => Done a
  | None => NullDeref
  end.

(** ** Register access *)

Definition readl (w : world) (p : nat) (off : Z) : Z :=
  Dart.regs (darts w p) off.

Definition writel (w : world) (p : nat) (val off : Z) : world :=
  let d := darts w p in
  emit (EvWritel p (u32 val) off)
    (set_dart w p
       (Dart.set_regs d (fun o => if o =? off then u32 val else Dart.regs d o))).

(* DART_TCR(dart, sid) = hw->tcr + (sid << 2), in u32 arithmetic *)
Definition DART_TCR (dart : Dart.t) (sid : Z) : Z :=
  u32 (Hw.tcr (Dart.hw dart) + Z.shiftl sid 2).

(* DART_TTBR(dart, sid, idx) =
   hw->ttbr + ((hw->ttbr_count * sid) << 2) + (idx << 2) *)
Definition DART_TTBR (dart : Dart.t) (sid idx : Z) : Z :=
  u32 (Hw.ttbr (Dart.hw dart)
       + Z.shiftl (Hw.ttbr_count (Dart.hw dart) * sid) 2
       + Z.shiftl idx 2).

(* for_each_set_bit(sid, sidmap, size): the set bits below [size], ascending *)
Definition for_each_set_bit (sidmap size : Z) : list Z :=
  filter (Z.testbit sidmap) (map Z.of_nat (seq 0 (Z.to_nat size))).

(** ** Stream control *)

Definition apple_dart_hw_disable_dma (w : world) (sm : StreamMap.t)
  : exec world :=
  p <- deref (StreamMap.dart sm) ;;
  let dart := darts w p in
  let w := WARN_ON (Dart.locked dart) w in
  Done (fold_left
          (fun w sid =>
             writel w p (Hw.tcr_disabled (Dart.hw dart)) (DART_TCR dart sid))
          (for_each_set_bit (StreamMap.sidmap sm) (Dart.num_streams dart)) w).

Definition apple_dart_hw_enable_bypass (w : world) (sm : StreamMap.t)
  : exec world :=
  p <- deref (StreamMap.dart sm) ;;
  let dart := darts w p in
  let w := WARN_ON (Dart.locked dart) w in
  let w := WARN_ON (negb (Dart.supports_bypass dart)) w in
  Done (fold_left
          (fun w sid =>
             writel w p (Hw.tcr_bypass (Dart.hw dart)) (DART_TCR dart sid))
          (for_each_set_bit (StreamMap.sidmap sm) (Dart.num_streams dart)) w).

(** ** Locked units: the shadow first-level tables *)

(* a[sid][idx] = v *)
Definition upd2 (a : Z -> Z -> Z) (sid idx v : Z) : Z -> Z -> Z :=
  fun s i => if (s =? sid) && (i =? idx) then v else a s i.

(* memset(p, c, len) *)
Definition memset (m : Z -> byte) (p : Z) (c : byte) (len : Z) : Z -> byte :=
  fun a => if (p <=? a) && (a <? p + len) then c else m a.

(* ttbrep[entry] = ptep[entry], on u64 *: the eight bytes of the entry *)
Definition copy_entry (m : Z -> byte) (ttbrep ptep : Z) (entry : Z)
  : Z -> byte :=
  fun a =>
    if (ttbrep + 8 * entry <=? a) && (a <? ttbrep + 8 * entry + 8)
    then m (ptep + 8 * entry + (a - (ttbrep + 8 * entry)))
    else m a.

(* for (entry = 0; entry < n; entry++) ttbrep[entry] = ptep[entry]; *)
Definition copy_table (m : Z -> byte) (ttbrep ptep : Z) (n : Z) : Z -> byte :=
  fold_left (fun m entry => copy_entry m ttbrep ptep entry)
            (map Z.of_nat (seq 0 (Z.to_nat n))) m.

(* Body of the loop over streams in apple_dart_hw_clear_locked_ttbr. *)
Definition clear_locked_ttbr_sid (p : nat) (idx : Z) (w : world) (sid : Z)
  : world :=
  let dart := darts w p in
  let l := Dart.locked_ttbr dart sid idx in
  let w :=
    if l =? 0 then w
    else emit (EvMemunmap l)
           (emit (EvMemset l (Dart.pgsize dart))
              (set_mem w (memset (mem w) l x00 (Dart.pgsize dart)))) in
  let w :=
    set_dart w p
      (Dart.set_locked_ttbr (darts w p)
         (upd2 (Dart.locked_ttbr (darts w p)) sid idx 0)) in
  let s := Dart.shadow_ttbr (darts w p) sid idx in
  let w := if s =? 0 then w else emit (EvMemunmap s) w in
  set_dart w p
    (Dart.set_shadow_ttbr (darts w p)
       (upd2 (Dart.shadow_ttbr (darts w p)) sid idx 0)).

Definition apple_dart_hw_clear_locked_ttbr (w : world) (sm : StreamMap.t)
    (idx : Z) : exec (Z * world) :=
  p <- deref (StreamMap.dart sm) ;;
  let dart := darts w p in
  let w := WARN_ON (negb (Dart.locked dart)) w in
  Done (0, fold_left (clear_locked_ttbr_sid p idx)
             (for_each_set_bit (StreamMap.sidmap sm) (Dart.num_streams dart))
             w).

(* Body of the loop over table slots in apple_dart_hw_sync_locked. *)
Definition sync_locked_idx (dart : Dart.t) (sid : Z) (m : Z -> byte) (idx : Z)
  : Z -> byte :=
  let ttbrep := Dart.locked_ttbr dart sid idx in
  let ptep := Dart.shadow_ttbr dart sid idx in
  if (ttbrep =? 0) || (ptep =? 0) then m
  else copy_table m ttbrep ptep (Dart.pgsize dart / 8).

Definition sync_locked_sid (dart : Dart.t) (m : Z -> byte) (sid : Z)
  : Z -> byte :=
  fold_left (sync_locked_idx dart sid)
    (map Z.of_nat (seq 0 (Z.to_nat (Hw.ttbr_count (Dart.hw dart))))) m.

Definition apple_dart_hw_sync_locked (w : world) (sm : StreamMap.t)
  : exec (Z * world) :=
  p <- deref (StreamMap.dart sm) ;;
  let dart := darts w p in
  let w := WARN_ON (negb (Dart.locked dart)) w in
  Done (0, set_mem w
             (fold_left (sync_locked_sid dart)
                (for_each_set_bit (StreamMap.sidmap sm)
                   (Dart.num_streams dart))
                (mem w))).

(* What the body of the clear loop does to the outside for one stream. *)
Definition clear_events (dart : Dart.t) (idx sid : Z) : list event :=
  (if Dart.locked_ttbr dart sid idx =? 0 then []
   else [EvMemset (Dart.locked_ttbr dart sid idx) (Dart.pgsize dart);
         EvMemunmap (Dart.locked_ttbr dart sid idx)])
  ++ (if Dart.shadow_ttbr dart sid idx =? 0 then []
      else [EvMemunmap (Dart.shadow_ttbr dart sid idx)]).

(* Whether byte [a] lies in the locked table of slot [idx] of one of the
   streams [sids]. *)
Definition in_locked_table (dart : Dart.t) (idx : Z) (sids : list Z) (a : Z)
  : bool :=
  existsb (fun sid =>
             negb (Dart.locked_ttbr dart sid idx =? 0)
             && ((Dart.locked_ttbr dart sid idx <=? a)
                 && (a <? Dart.locked_ttbr dart sid idx + Dart.pgsize dart)))
          sids.

(** The slots a sync call copies: streams of the map below num_streams,
    table slots below ttbr_count, both mappings present. *)
Definition sync_slot (dart : Dart.t) (sidmap sid idx : Z) : Prop :=
  0 <= sid < Dart.num_streams dart /\ Z.testbit sidmap sid = true /\
  0 <= idx < Hw.ttbr_count (Dart.hw dart) /\
  Dart.locked_ttbr dart sid idx <> 0 /\ Dart.shadow_ttbr dart sid idx <> 0.

(** The locked tables and the shadow tables are different memory: no byte
    of a locked table of a copied slot lies in a shadow table of one, and
    a byte shared by the locked tables of two slots sits over the same
    shadow byte in both. *)
Definition tables_apart (dart : Dart.t) (sidmap : Z) : Prop :=
  let n := 8 * (Dart.pgsize dart / 8) in
  forall sid idx sid' idx' off off',
    sync_slot dart sidmap sid idx -> sync_slot dart sidmap sid' idx' ->
    0 <= off < n -> 0 <= off' < n ->
    Dart.locked_ttbr dart sid idx + off
      <> Dart.shadow_ttbr dart sid' idx' + off' /\
    (Dart.locked_ttbr dart sid idx + off
       = Dart.locked_ttbr dart sid' idx' + off' ->
     Dart.shadow_ttbr dart sid idx + off
       = Dart.shadow_ttbr dart sid' idx' + off').

(** ** The page-table engine and the platform *)

(** struct io_pgtable_cfg, the fields the driver sets or reads;
    [n_levels] is apple_dart_cfg.n_levels, filled in by the engine. *)
Module PgtblCfg.
Record t : Type := mk {
  pgsize_bitmap : Z;
  ias : Z;
  oas : Z;
  coherent_walk : bool;
  iommu_dev : nat;
  n_levels : Z
}.

Definition set_ias (c : t) (v : Z) : t :=
  mk (pgsize_bitmap c) v (oas c) (coherent_walk c) (iommu_dev c) (n_levels c).
End PgtblCfg.

(** struct io_pgtable_ops and alloc_io_pgtable_ops: the external engine.
    [alloc_io_pgtable_ops] hands back the engine instance and the
    configuration as the engine completed it, or nothing on failure;
    [map_pages] takes and returns the running total behind its
    [size_t *mapped] argument. *)
Class IoPgtable (pgtable : Type) : Type := {
  alloc_io_pgtable_ops :
    io_pgtable_fmt -> PgtblCfg.t -> option (pgtable * PgtblCfg.t);
  map_pages :
    pgtable -> forall (iova paddr pgsize pgcount prot gfp mapped : Z),
    Z * Z * pgtable;
  unmap_pages :
    pgtable -> forall (iova pgsize pgcount : Z), Z * pgtable;
  iova_to_phys : pgtable -> Z -> Z
}.

Inductive iommu_resv_type : Type :=
| IOMMU_RESV_DIRECT
| IOMMU_RESV_RESERVED
| IOMMU_RESV_MSI
| IOMMU_RESV_TRANSLATED.

(** struct iommu_resv_region *)
Module Resv.
Record t : Type := mk {
  start : Z;
  dva : Z;
  length : Z;
  prot : Z;
  type : iommu_resv_type
}.
End Resv.

(** What the driver takes from the rest of the kernel: the CPU page size,
    the firmware's reserved regions of a device, and the result of
    pm_runtime_get_sync on a unit. *)
Class Platform : Type := {
  PAGE_SIZE : Z;
  of_iommu_get_resv_regions : nat -> list Resv.t;
  pm_runtime_get_sync : nat -> Z
}.

Definition GFP_KERNEL : Z := 0xcc0.

(** struct apple_dart_master_cfg *)
Module MasterCfg.
Record t : Type := mk {
  supports_bypass : bool;
  stream_maps : nat -> StreamMap.t
}.
End MasterCfg.

(** struct apple_dart_domain, with the fields of the embedded
    struct iommu_domain that the driver writes. *)
Module Domain.
Record t {pgtable : Type} : Type := mk {
  pgtbl_ops : option pgtable;
  finalized : bool;
  mask : Z;
  stream_maps : nat -> StreamMap.t;
  pgsize_bitmap : Z;
  aperture_start : Z;
  aperture_end : Z;
  force_aperture : bool
}.
Arguments t : clear implicits.
Arguments mk {pgtable}.

Definition set_pgtbl_ops {pgtable} (d : t pgtable) (o : option pgtable)
  : t pgtable :=
  mk o (finalized d) (mask d) (stream_maps d) (pgsize_bitmap d)
     (aperture_start d) (aperture_end d) (force_aperture d).

Definition set_stream_maps {pgtable} (d : t pgtable)
    (s : nat -> StreamMap.t) : t pgtable :=
  mk (pgtbl_ops d) (finalized d) (mask d) s (pgsize_bitmap d)
     (aperture_start d) (aperture_end d) (force_aperture d).

Definition set_mask {pgtable} (d : t pgtable) (m : Z) : t pgtable :=
  mk (pgtbl_ops d) (finalized d) m (stream_maps d) (pgsize_bitmap d)
     (aperture_start d) (aperture_end d) (force_aperture d).

(* kzalloc'ed *)
Definition zero {pgtable} : t pgtable :=
  mk None false 0 (fun _ => StreamMap.mk None 0) 0 0 0 false.

(* Two states of a domain that differ at most in what the page-table
   engine holds. *)
Definition same_but_pgtable {pgtable} (d d' : t pgtable) : Prop :=
  finalized d' = finalized d /\ mask d' = mask d /\
  stream_maps d' = stream_maps d /\ pgsize_bitmap d' = pgsize_bitmap d /\
  aperture_start d' = aperture_start d /\
  aperture_end d' = aperture_end d /\
  force_aperture d' = force_aperture d /\
  (pgtbl_ops d <> None -> pgtbl_ops d' <> None).
End Domain.

(* for_each_stream_map: the leading slots whose dart pointer is set,
   at most MAX_DARTS_PER_DEVICE of them *)
Fixpoint stream_maps_from (maps : nat -> StreamMap.t) (i n : nat)
  : list (nat * StreamMap.t) :=
  match n with
  | O => []
  | S n' =>
      match StreamMap.dart (maps i) with
      | None => []
      | Some p => (p, maps i) :: stream_maps_from maps (S i) n'
      end
  end.

Definition for_each_stream_map (maps : nat -> StreamMap.t)
  : list (nat * StreamMap.t) :=
  stream_maps_from maps 0 MAX_DARTS_PER_DEVICE.

Section Driver.
Context {pgtable : Type} `{IoPgtable pgtable} `{Platform}.

(** ** Per-page operations *)

Definition apple_dart_iova_to_phys (dd : Domain.t pgtable) (iova : Z) : Z :=
  match Domain.pgtbl_ops dd with
  | None => 0
  | Some ops => iova_to_phys ops (Z.land iova (Domain.mask dd))
  end.

Definition apple_dart_map_pages (dd : Domain.t pgtable)
    (iova paddr pgsize pgcount prot gfp mapped : Z)
  : Z * Z * Domain.t pgtable :=
  match Domain.pgtbl_ops dd with
  | None => (- ENODEV, mapped, dd)
  | Some ops =>
      let '(ret, mapped', ops') :=
        map_pages ops (Z.land iova (Domain.mask dd)) paddr pgsize pgcount
                  prot gfp mapped in
      (ret, mapped', Domain.set_pgtbl_ops dd (Some ops'))
  end.

(* No test of [ops] here: a NULL handle is dereferenced. *)
Definition apple_dart_unmap_pages (dd : Domain.t pgtable)
    (iova pgsize pgcount : Z) : exec (Z * Domain.t pgtable) :=
  ops <- deref (Domain.pgtbl_ops dd) ;;
  let '(unmapped, ops') :=
    unmap_pages ops (Z.land iova (Domain.mask dd)) pgsize pgcount in
  Done (unmapped, Domain.set_pgtbl_ops dd (Some ops')).

(** ** Domain finalize *)

(* while (mapped < region->length) { ... } of apple_dart_setup_resv_locked *)
Fixpoint setup_resv_region (fuel : nat) (dd : Domain.t pgtable)
    (region : Resv.t) (pgsize mapped : Z) : exec (Z * Domain.t pgtable) :=
  if mapped <? Resv.length region then
    match fuel with
    | O => OutOfFuel
    | S fuel' =>
        let paddr := u64 (Resv.start region + mapped) in
        let iova := u64 (Resv.dva region + mapped) in
        let length := u64 (Resv.length region - mapped) in
        let pgcount := length / pgsize in
        let '(ret, mapped', dd') :=
          apple_dart_map_pages dd iova paddr pgsize pgcount
                               (Resv.prot region) GFP_KERNEL mapped in
        if ret =? 0 then setup_resv_region fuel' dd' region pgsize mapped'
        else Done (ret, dd')
    end
  else Done (0, dd).

Fixpoint setup_resv_regions (fuel : nat) (dd : Domain.t pgtable)
    (regions : list Resv.t) (pgsize : Z) : exec (Z * Domain.t pgtable) :=
  match regions with
  | [] => Done (0, dd)
  | region :: rest =>
      match Resv.type region with
      | IOMMU_RESV_TRANSLATED =>
          r <- setup_resv_region fuel dd region pgsize 0 ;;
          let '(ret, dd') := r in
          if ret =? 0 then setup_resv_regions fuel dd' rest pgsize
          else Done (ret, dd')
      | _ => setup_resv_regions fuel dd rest pgsize
      end
  end.

Definition apple_dart_setup_resv_locked (fuel : nat) (dd : Domain.t pgtable)
    (dev : nat) (pgsize : Z) : exec (Z * Domain.t pgtable) :=
  setup_resv_regions fuel dd (of_iommu_get_resv_regions dev) pgsize.

(* atomic_long_set over the first [longs] words of a stream bitmap *)
Definition copy_longs (longs : Z) (src dst : Z) : Z :=
  Z.lor (Z.land src (Z.ones (BITS_PER_LONG * longs)))
        (Z.ldiff dst (Z.ones (BITS_PER_LONG * longs))).

(* find_first_bit(sidmap, size): [size] when no bit is set *)
Definition find_first_bit (sidmap size : Z) : Z :=
  match for_each_set_bit sidmap size with
  | [] => size
  | sid :: _ => sid
  end.

Definition bitmap_weight (sidmap size : Z) : Z :=
  Z.of_nat (List.length (for_each_set_bit sidmap size)).

(** The block of finalize under [if (dart->locked)]: the level count that
    is active in hardware is kept.  It yields the page-table configuration
    and the upper end of the aperture, or the error it leaves with. *)
Definition finalize_locked (w : world) (p : nat) (sidmap : Z)
    (ias dma_max : Z) (pgtbl_cfg : PgtblCfg.t)
  : world * (PgtblCfg.t * Z + Z) :=
  let dart := darts w p in
  let sid := find_first_bit sidmap (Dart.num_streams dart) in
  let w := WARN_ON ((sid <? 0)
                    || (1 <? bitmap_weight sidmap (Dart.num_streams dart)))
                   w in
  let ttbr := readl w p (DART_TTBR dart sid 0) in
  let w := WARN_ON (Z.land ttbr (Hw.ttbr_valid (Dart.hw dart)) =? 0) w in
  if negb (Hw.tcr_4level (Dart.hw dart) =? 0) && (36 <? Dart.ias dart) then
    if negb (Z.land (readl w p (DART_TCR dart sid))
                    (Hw.tcr_4level (Dart.hw dart)) =? 0) then
      if ias <? 37 then
        (emit EvDevInfo w, inl (PgtblCfg.set_ias pgtbl_cfg 37, dma_max))
      else (w, inl (pgtbl_cfg, dma_max))
    else if 36 <? ias then
      let w := emit EvDevInfo w in
      let pgtbl_cfg := PgtblCfg.set_ias pgtbl_cfg 36 in
      if (Dart.dma_min dart =? 0)
         && (dma_max =? DMA_BIT_MASK (Dart.ias dart)) then
        (w, inl (pgtbl_cfg, DMA_BIT_MASK (PgtblCfg.ias pgtbl_cfg)))
      else if negb (Z.land (Z.lxor (Dart.dma_min dart) dma_max)
                           (not64 (DMA_BIT_MASK 36)) =? 0) then
        (emit EvDevErr w, inr (- ENOMEM))
      else (w, inl (pgtbl_cfg, dma_max))
    else (w, inl (pgtbl_cfg, dma_max))
  else (w, inl (pgtbl_cfg, dma_max)).

(* The if / else if chain that sets dart_domain->mask. *)
Definition finalize_mask (dart : Dart.t) (pgtbl_cfg : PgtblCfg.t) (old : Z)
  : Z :=
  if PgtblCfg.pgsize_bitmap pgtbl_cfg =? SZ_4K then
    DMA_BIT_MASK (min_u32 (Dart.ias dart) 32)
  else if PgtblCfg.n_levels pgtbl_cfg =? 3 then
    DMA_BIT_MASK (min_u32 (Dart.ias dart) 36)
  else if PgtblCfg.n_levels pgtbl_cfg =? 4 then
    DMA_BIT_MASK (min_u32 (Dart.ias dart) 47)
  else old.

(* The configuration finalize starts from. *)
Definition finalize_pgtbl_cfg (p : nat) (dart : Dart.t) (ias : Z)
  : PgtblCfg.t :=
  PgtblCfg.mk (Dart.pgsize dart) ias (Dart.oas dart) true p 0.

Definition apple_dart_finalize_domain (fuel : nat) (w : world)
    (dart_domain : Domain.t pgtable) (dev : nat) (cfg : MasterCfg.t)
  : exec (Z * Domain.t pgtable * world) :=
  p <- deref (StreamMap.dart (MasterCfg.stream_maps cfg 0%nat)) ;;
  let dart := darts w p in
  let dma_max := Dart.dma_max dart in
  let ias := min_u32 (Dart.ias dart) (fls64 dma_max) in
  if PAGE_SIZE <? Dart.pgsize dart then Done (- EINVAL, dart_domain, w)
  else
    let w := emit EvMutexLock w in
    let w := emit (EvReadFinalized (Domain.finalized dart_domain)) w in
    if Domain.finalized dart_domain
    then Done (0, dart_domain, emit EvMutexUnlock w)
    else
      let dart_domain :=
        Domain.set_stream_maps dart_domain
          (fun i =>
             if (i <? MAX_DARTS_PER_DEVICE)%nat then
               StreamMap.mk
                 (StreamMap.dart (MasterCfg.stream_maps cfg i))
                 (copy_longs (BITS_TO_LONGS (Dart.num_streams dart))
                    (StreamMap.sidmap (MasterCfg.stream_maps cfg i))
                    (StreamMap.sidmap (Domain.stream_maps dart_domain i)))
             else Domain.stream_maps dart_domain i) in
      let pgtbl_cfg := finalize_pgtbl_cfg p dart ias in
      let '(w, r) :=
        if Dart.locked dart then
          finalize_locked w p
            (StreamMap.sidmap (MasterCfg.stream_maps cfg 0%nat))
            ias dma_max pgtbl_cfg
        else (w, inl (pgtbl_cfg, dma_max)) in
      match r with
      | inr ret => Done (ret, dart_domain, emit EvMutexUnlock w)
      | inl (pgtbl_cfg, dma_max) =>
          match alloc_io_pgtable_ops (Hw.fmt (Dart.hw dart)) pgtbl_cfg with
          | None =>
              (* dart_domain->pgtbl_ops is NULL now *)
              Done (- ENOMEM, Domain.set_pgtbl_ops dart_domain None,
                    emit EvMutexUnlock (emit (EvAllocPgtable false) w))
          | Some (ops, pgtbl_cfg) =>
              let w := emit (EvAllocPgtable true) w in
              let dart_domain :=
                Domain.mk (Some ops) true
                  (finalize_mask dart pgtbl_cfg (Domain.mask dart_domain))
                  (Domain.stream_maps dart_domain)
                  (PgtblCfg.pgsize_bitmap pgtbl_cfg)
                  (Dart.dma_min dart) dma_max true in
              r <- apple_dart_setup_resv_locked fuel dart_domain dev
                     (Dart.pgsize dart) ;;
              let '(ret, dart_domain) := r in
              Done (ret, dart_domain, emit EvMutexUnlock w)
          end
      end.

(** ** Attach to the identity domain *)

Fixpoint fold_exec {A B : Type} (f : A -> B -> exec A) (l : list B) (a : A)
  : exec A :=
  match l with
  | [] => Done a
  | b :: rest => a' <- f a b ;; fold_exec f rest a'
  end.

(* for_each_stream_map(i, cfg, stream_map)
     WARN_ON(pm_runtime_get_sync(stream_map->dart->dev) < 0); *)
Definition pm_get_stream_maps (w : world) (cfg : MasterCfg.t) : world :=
  fold_left
    (fun w ps => WARN_ON (pm_runtime_get_sync (fst ps) <? 0)
                         (emit (EvPmGet (fst ps)) w))
    (for_each_stream_map (MasterCfg.stream_maps cfg)) w.

(* for_each_stream_map(i, cfg, stream_map)
     pm_runtime_put(stream_map->dart->dev); *)
Definition pm_put_stream_maps (w : world) (cfg : MasterCfg.t) : world :=
  fold_left (fun w ps => emit (EvPmPut (fst ps)) w)
    (for_each_stream_map (MasterCfg.stream_maps cfg)) w.

Definition apple_dart_attach_dev_identity (w : world) (cfg : MasterCfg.t)
  : exec (Z * world) :=
  if negb (MasterCfg.supports_bypass cfg) then Done (- EINVAL, w)
  else
    p0 <- deref (StreamMap.dart (MasterCfg.stream_maps cfg 0%nat)) ;;
    if Dart.locked (darts w p0) then Done (- EINVAL, w)
    else
      let w := pm_get_stream_maps w cfg in
      w <- fold_exec (fun w ps => apple_dart_hw_enable_bypass w (snd ps))
             (for_each_stream_map (MasterCfg.stream_maps cfg)) w ;;
      Done (0, pm_put_stream_maps w cfg).

Definition apple_dart_attach_dev_blocked (w : world) (cfg : MasterCfg.t)
  : exec (Z * world) :=
  let w := pm_get_stream_maps w cfg in
  w <- fold_exec (fun w ps => apple_dart_hw_disable_dma w (snd ps))
         (for_each_stream_map (MasterCfg.stream_maps cfg)) w ;;
  Done (0, pm_put_stream_maps w cfg).

End Driver.

(** ** Firmware specifiers *)

(* int sid = args->args[0], the argument being a u32 *)
Definition int_of_u32 (x : Z) : Z :=
  if u32 x <? 2 ^ 31 then u32 x else u32 x - 2 ^ 32.

(* set_bit(sid, sidmap) on a bitmap declared with DART_MAX_STREAMS bits:
   a bit number outside it makes the write land outside the bitmap. *)
Definition set_bit (sid : Z) (sidmap : Z) : exec Z :=
  if (0 <=? sid) && (sid <? DART_MAX_STREAMS)
  then Done (Z.setbit sidmap sid)
  else OutOfBounds.

Definition set_stream_map (maps : nat -> StreamMap.t) (i : nat)
    (sm : StreamMap.t) : nat -> StreamMap.t :=
  fun j => if Nat.eqb j i then sm else maps j.

(* The first index in [i, i + n) whose slot satisfies [f]. *)
Fixpoint find_stream_map (f : StreamMap.t -> bool)
    (maps : nat -> StreamMap.t) (i n : nat) : option nat :=
  match n with
  | O => None
  | S n' => if f (maps i) then Some i else find_stream_map f maps (S i) n'
  end.

Definition dart_is (dart : nat) (sm : StreamMap.t) : bool :=
  match StreamMap.dart sm with
  | Some q => Nat.eqb q dart
  | None => false
  end.

Definition dart_is_null (sm : StreamMap.t) : bool :=
  match StreamMap.dart sm with
  | Some _ => false
  | None => true
  end.

(* kzalloc'ed master config with supports_bypass set *)
Definition fresh_master_cfg : MasterCfg.t :=
  MasterCfg.mk true (fun _ => StreamMap.mk None 0).

(** apple_dart_of_xlate.  [priv] is dev_iommu_priv_get(dev), [dart] the
    unit the specifier's node resolves to, [kzalloc_ok] whether the
    allocation of a first config succeeds.  Returns the error code and
    the device's private pointer afterwards. *)
Definition apple_dart_of_xlate (w : world) (priv : option MasterCfg.t)
    (dart : nat) (args_count : Z) (args0 : Z) (kzalloc_ok : bool)
  : exec (Z * option MasterCfg.t) :=
  if negb (args_count =? 1) then Done (- EINVAL, priv)
  else
    let sid := int_of_u32 args0 in
    cfg <- match priv with
           | Some cfg => Done cfg
           | None => if kzalloc_ok then Done fresh_master_cfg else NullDeref
           end ;;
    let mismatch :=
      match StreamMap.dart (MasterCfg.stream_maps cfg 0%nat) with
      | Some cfg_dart =>
          negb (Dart.pgsize (darts w cfg_dart) =? Dart.pgsize (darts w dart))
      | None => false
      end in
    if mismatch then Done (- EINVAL, Some cfg)
    else
      let cfg :=
        if negb (Dart.supports_bypass (darts w dart))
        then MasterCfg.mk false (MasterCfg.stream_maps cfg)
        else cfg in
      let maps := MasterCfg.stream_maps cfg in
      match find_stream_map (dart_is dart) maps 0 MAX_DARTS_PER_DEVICE with
      | Some i =>
          sidmap <- set_bit sid (StreamMap.sidmap (maps i)) ;;
          Done (0, Some (MasterCfg.mk (MasterCfg.supports_bypass cfg)
                  (set_stream_map maps i
                     (StreamMap.mk (StreamMap.dart (maps i)) sidmap))))
      | None =>
          match find_stream_map dart_is_null maps 0 MAX_DARTS_PER_DEVICE with
          | Some i =>
              sidmap <- set_bit sid (StreamMap.sidmap (maps i)) ;;
              Done (0, Some (MasterCfg.mk (MasterCfg.supports_bypass cfg)
                      (set_stream_map maps i
                         (StreamMap.mk (Some dart) sidmap))))
          | None => Done (- EINVAL, Some cfg)
          end
      end.

(** ** Small configurations to run the definitions on *)

(* A t8103 unit as probe leaves it: 16 streams, 16K pages, not locked. *)
Definition dart_t8103 : Dart.t :=
  Dart.mk apple_dart_hw_t8103 (fun _ => 0) 32 36 SZ_16K 16 true false false
          0 (DMA_BIT_MASK 32) (fun _ _ => 0) (fun _ _ => 0).

Definition world_t8103 : world :=
  mkWorld (fun _ => dart_t8103) (fun _ => x00) [].

(* Streams 1 and 3 of unit 0. *)
Definition streams_1_3 : StreamMap.t := StreamMap.mk (Some 0%nat) 10.

(** A small page-table engine to run the driver against: the mapped pages
    as a list of (iova, phys) page bases.  It accepts the configurations
    the driver's formats are documented for and picks 3 levels up to 36
    bits of address, 4 above. *)
Record toy_pgtable : Type := mkToy {
  toy_cfg : PgtblCfg.t;
  toy_pages : list (Z * Z)
}.

Definition toy_alloc (fmt : io_pgtable_fmt) (cfg : PgtblCfg.t)
  : option (toy_pgtable * PgtblCfg.t) :=
  if PgtblCfg.coherent_walk cfg
     && (PgtblCfg.ias cfg <=? PgtblCfg.oas cfg)
     && ((PgtblCfg.pgsize_bitmap cfg =? SZ_4K)
         || (PgtblCfg.pgsize_bitmap cfg =? SZ_16K))
  then
    let cfg' :=
      PgtblCfg.mk (PgtblCfg.pgsize_bitmap cfg) (PgtblCfg.ias cfg)
        (PgtblCfg.oas cfg) true (PgtblCfg.iommu_dev cfg)
        (if PgtblCfg.ias cfg <=? 36 then 3 else 4) in
    Some (mkToy cfg' [], cfg')
  else None.

Definition toy_map (pt : toy_pgtable)
    (iova paddr pgsize pgcount prot gfp mapped : Z) : Z * Z * toy_pgtable :=
  (0, mapped + pgsize * pgcount,
   mkToy (toy_cfg pt)
     (map (fun k => (iova + Z.of_nat k * pgsize, paddr + Z.of_nat k * pgsize))
          (seq 0 (Z.to_nat pgcount)) ++ toy_pages pt)).

Definition toy_unmap (pt : toy_pgtable) (iova pgsize pgcount : Z)
  : Z * toy_pgtable :=
  (pgsize * pgcount,
   mkToy (toy_cfg pt)
     (filter (fun e => negb ((iova <=? fst e)
                             && (fst e <? iova + pgsize * pgcount)))
             (toy_pages pt))).

Definition toy_lookup (pt : toy_pgtable) (iova : Z) : Z :=
  let pg := PgtblCfg.pgsize_bitmap (toy_cfg pt) in
  match find (fun e => (fst e <=? iova) && (iova <? fst e + pg))
             (toy_pages pt) with
  | Some e => snd e + (iova - fst e)
  | None => 0
  end.

#[export] Instance toy_engine : IoPgtable toy_pgtable := {|
  alloc_io_pgtable_ops := toy_alloc;
  map_pages := toy_map;
  unmap_pages := toy_unmap;
  iova_to_phys := toy_lookup
|}.

(* A domain as apple_dart_domain_alloc_paging leaves it without a device. *)
Definition fresh_domain : Domain.t toy_pgtable := Domain.zero.

(* A finalized domain on 16K pages with one page mapped at 0x4000. *)
Definition toy_domain : Domain.t toy_pgtable :=
  Domain.mk
    (Some (mkToy (PgtblCfg.mk SZ_16K 32 36 true 0%nat 3) [(0x4000, 0x80000)]))
    true (DMA_BIT_MASK 32) (fun _ => StreamMap.mk None 0)
    SZ_16K 0 (DMA_BIT_MASK 32) true.

(* A locked t8110 unit: the boot stage left stream 0 translating through
   a 3-level table at 0x10000; the driver's shadow of it is at 0x20000. *)
Definition dart_t8110_locked : Dart.t :=
  Dart.mk apple_dart_hw_t8110
    (fun off =>
       if off =? DART_T8110_TCR then DART_T8110_TCR_TRANSLATE_ENABLE
       else if off =? DART_T8110_TTBR then 0x11
       else 0)
    42 42 SZ_16K 16 true true true 0 (DMA_BIT_MASK 42)
    (fun sid idx => if (sid =? 0) && (idx =? 0) then 0x10000 else 0)
    (fun sid idx => if (sid =? 0) && (idx =? 0) then 0x20000 else 0).

(* Memory with one non-zero byte, the first of the shadow table. *)
Definition world_t8110_locked : world :=
  mkWorld (fun _ => dart_t8110_locked)
          (fun a => if a =? 0x20000 then x2a else x00) [].

Definition stream_0 : StreamMap.t := StreamMap.mk (Some 0%nat) 1.

(* The platform of the examples: 16K CPU pages, one translated reserved
   region declared for device 1, runtime resume always succeeding. *)
#[export] Instance toy_platform : Platform := {|
  PAGE_SIZE := SZ_16K;
  of_iommu_get_resv_regions := fun dev =>
    match dev with
    | 1%nat => [Resv.mk 0x800000 0x4000 0x8000 3 IOMMU_RESV_TRANSLATED]
    | _ => []
    end;
  pm_runtime_get_sync := fun _ => 0
|}.

(* An unlocked t8110 unit with a 42-bit address space. *)
Definition dart_t8110 : Dart.t :=
  Dart.mk apple_dart_hw_t8110 (fun _ => 0) 42 42 SZ_16K 16 true false true
          0 (DMA_BIT_MASK 42) (fun _ _ => 0) (fun _ _ => 0).

(* Unit 0 unlocked, unit 1 locked; both support bypass, both on 16K pages. *)
Definition world_two_units : world :=
  mkWorld (fun q => if Nat.eqb q 1 then dart_t8110_locked else dart_t8110)
          (fun _ => x00) [].

(* A t8103 unit on 4K pages without bypass support. *)
Definition dart_t8103_4k : Dart.t :=
  Dart.mk apple_dart_hw_t8103 (fun _ => 0) 32 36 SZ_4K 16 false false false
          0 (DMA_BIT_MASK 32) (fun _ _ => 0) (fun _ _ => 0).

(* Unit 0 on 16K pages, unit 1 on 4K pages. *)
Definition world_two_sizes : world :=
  mkWorld (fun q => if Nat.eqb q 1 then dart_t8103_4k else dart_t8103)
          (fun _ => x00) [].

(* The config of a device with stream 0 of unit 0 only. *)
Definition cfg_unit_0 : MasterCfg.t :=
  MasterCfg.mk true
    (set_stream_map (fun _ => StreamMap.mk None 0) 0
       (StreamMap.mk (Some 0%nat) 1)).

(* The config of a device with stream 0 of unit 0 and stream 0 of unit 1. *)
Definition cfg_units_0_1 : MasterCfg.t :=
  MasterCfg.mk true
    (set_stream_map (MasterCfg.stream_maps cfg_unit_0) 1
       (StreamMap.mk (Some 1%nat) 1)).

(* An engine that has run out of memory: every allocation fails. *)
#[export] Instance exhausted_engine : IoPgtable unit := {|
  alloc_io_pgtable_ops := fun _ _ => None;
  map_pages := fun pt _ _ _ _ _ _ mapped => (- ENOMEM, mapped, pt);
  unmap_pages := fun pt _ _ _ => (0, pt);
  iova_to_phys := fun _ _ => 0
|}.

(* The locked unit with a DMA window declared by the firmware,
   0x10000000 .. 2^37 - 1, which crosses a 36-bit boundary. *)
Definition dart_t8110_locked_window : Dart.t :=
  Dart.mk apple_dart_hw_t8110 (Dart.regs dart_t8110_locked)
    42 42 SZ_16K 16 true true true 0x10000000 (2 ^ 37 - 1)
    (Dart.locked_ttbr dart_t8110_locked) (Dart.shadow_ttbr dart_t8110_locked).

Definition world_t8110_locked_window : world :=
  mkWorld (fun _ => dart_t8110_locked_window) (fun _ => x00) [].

(* The same unit with the window 2^36 .. 2^37 - 1: one aligned block of
   36 bits, above the first. *)
Definition dart_t8110_locked_high : Dart.t :=
  Dart.mk apple_dart_hw_t8110 (Dart.regs dart_t8110_locked)
    42 42 SZ_16K 16 true true true (2 ^ 36) (2 ^ 37 - 1)
    (Dart.locked_ttbr dart_t8110_locked) (Dart.shadow_ttbr dart_t8110_locked).

Definition world_t8110_locked_high : world :=
  mkWorld (fun _ => dart_t8110_locked_high) (fun _ => x00) [].

Definition world_t8110 : world :=
  mkWorld (fun _ => dart_t8110) (fun _ => x00) [].

(* An unlocked t8110 unit with 4K pages. *)
Definition dart_t8110_4k : Dart.t :=
  Dart.mk apple_dart_hw_t8110 (fun _ => 0) 42 42 SZ_4K 16 true false true
          0 (DMA_BIT_MASK 42) (fun _ _ => 0) (fun _ _ => 0).

Definition world_t8110_4k : world :=
  mkWorld (fun _ => dart_t8110_4k) (fun _ => x00) [].

(** ** Groups, stream bookkeeping and the default domain type *)

(* Pointer comparison of two units. *)
Definition dart_ptr_eqb (a b : option nat) : bool :=
  match a, b with
  | Some p, Some q => Nat.eqb p q
  | None, None => true
  | _, _ => false
  end.

(* bitmap_or(dst, src1, src2, nbits): the words that hold the first
   [nbits] bits are ORed, the rest of [dst] is kept. *)
Definition bitmap_or (dst src1 src2 nbits : Z) : Z :=
  copy_longs (BITS_TO_LONGS nbits) (Z.lor src1 src2) dst.

(** apple_dart_merge_master_cfg: returns the error code and [dst]
    afterwards. *)
Definition apple_dart_merge_master_cfg (w : world) (dst src : MasterCfg.t)
  : exec (Z * MasterCfg.t) :=
  if negb (dart_is_null (MasterCfg.stream_maps src 1%nat))
  then Done (- EINVAL, dst)
  else if negb (dart_is_null (MasterCfg.stream_maps dst 1%nat))
  then Done (- EINVAL, dst)
  else if negb (dart_ptr_eqb
                  (StreamMap.dart (MasterCfg.stream_maps src 0%nat))
                  (StreamMap.dart (MasterCfg.stream_maps dst 0%nat)))
  then Done (- EINVAL, dst)
  else
    p <- deref (StreamMap.dart (MasterCfg.stream_maps dst 0%nat)) ;;
    let dst0 := MasterCfg.stream_maps dst 0%nat in
    Done (0, MasterCfg.mk (MasterCfg.supports_bypass dst)
               (set_stream_map (MasterCfg.stream_maps dst) 0
                  (StreamMap.mk (StreamMap.dart dst0)
                     (bitmap_or (StreamMap.sidmap dst0)
                        (StreamMap.sidmap dst0)
                        (StreamMap.sidmap
                           (MasterCfg.stream_maps src 0%nat))
                        (Dart.num_streams (darts w p)))))).

(* atomic_long_or / atomic_long_and(~...) over the first [longs] words *)
Definition mod_stream_words (longs : Z) (add_streams : bool)
    (master domain : Z) : Z :=
  if add_streams
  then Z.lor domain (Z.land master (Z.ones (BITS_PER_LONG * longs)))
  else Z.ldiff domain (Z.land master (Z.ones (BITS_PER_LONG * longs))).

(* The second loop of apple_dart_mod_streams, from slot [i] on for at
   most [n] slots; it stops at the first slot without a unit. *)
Fixpoint mod_streams_from (w : world) (domain_maps master_maps
    : nat -> StreamMap.t) (add_streams : bool) (i n : nat)
  : nat -> StreamMap.t :=
  match n with
  | O => domain_maps
  | S n' =>
      match StreamMap.dart (domain_maps i) with
      | None => domain_maps
      | Some p =>
          mod_streams_from w
            (set_stream_map domain_maps i
               (StreamMap.mk (Some p)
                  (mod_stream_words
                     (BITS_TO_LONGS (Dart.num_streams (darts w p)))
                     add_streams
                     (StreamMap.sidmap (master_maps i))
                     (StreamMap.sidmap (domain_maps i)))))
            master_maps add_streams (S i) n'
      end
  end.

(** apple_dart_mod_streams: returns the error code and the domain's
    stream maps afterwards. *)
Definition apple_dart_mod_streams (w : world)
    (domain_maps master_maps : nat -> StreamMap.t) (add_streams : bool)
  : Z * (nat -> StreamMap.t) :=
  if forallb (fun i => dart_ptr_eqb (StreamMap.dart (domain_maps i))
                                    (StreamMap.dart (master_maps i)))
             (seq 0 MAX_DARTS_PER_DEVICE)
  then (0, mod_streams_from w domain_maps master_maps add_streams 0
             MAX_DARTS_PER_DEVICE)
  else (- EINVAL, domain_maps).

Definition apple_dart_domain_add_streams {pgtable : Type} (w : world)
    (domain : Domain.t pgtable) (cfg : MasterCfg.t)
  : Z * Domain.t pgtable :=
  let '(ret, maps) :=
    apple_dart_mod_streams w (Domain.stream_maps domain)
                           (MasterCfg.stream_maps cfg) true in
  (ret, Domain.set_stream_maps domain maps).

(* enum values of the IOMMU core: __IOMMU_DOMAIN_PT and
   __IOMMU_DOMAIN_PAGING | __IOMMU_DOMAIN_DMA_API *)
Definition IOMMU_DOMAIN_IDENTITY : Z := 4.
Definition IOMMU_DOMAIN_DMA : Z := 3.

Definition apple_dart_def_domain_type `{Platform} (w : world)
    (cfg : MasterCfg.t) : exec Z :=
  p <- deref (StreamMap.dart (MasterCfg.stream_maps cfg 0%nat)) ;;
  if PAGE_SIZE <? Dart.pgsize (darts w p) then Done IOMMU_DOMAIN_IDENTITY
  else if negb (MasterCfg.supports_bypass cfg) then Done IOMMU_DOMAIN_DMA
  else if Dart.locked (darts w p) then Done IOMMU_DOMAIN_DMA
  else Done 0.

(** ** Translation control and table bases *)

Definition u8 (x : Z) : Z := x mod 2 ^ 8.

Definition apple_dart_hw_enable_translation (w : world) (sm : StreamMap.t)
    (levels : Z) : exec world :=
  p <- deref (StreamMap.dart sm) ;;
  let dart := darts w p in
  let w := WARN_ON (negb (levels =? 3) && negb (levels =? 4)) w in
  let w := WARN_ON ((levels =? 4) && negb (Dart.four_level dart)) w in
  let w := WARN_ON (Dart.locked dart) w in
  Done (fold_left
          (fun w sid =>
             writel w p
               (Z.lor (Hw.tcr_enabled (Dart.hw dart))
                      (if levels =? 4 then Hw.tcr_4level (Dart.hw dart)
                       else 0))
               (DART_TCR dart sid))
          (for_each_set_bit (StreamMap.sidmap sm) (Dart.num_streams dart)) w).

(* hw->ttbr_valid | (paddr >> hw->ttbr_shift) << hw->ttbr_addr_field_shift,
   on a 64-bit paddr *)
Definition ttbr_value (hw : Hw.t) (paddr : Z) : Z :=
  Z.lor (Hw.ttbr_valid hw)
        (u64 (Z.shiftl (Z.shiftr (u64 paddr) (Hw.ttbr_shift hw))
                       (Hw.ttbr_addr_field_shift hw))).

(* paddr & ((1 << hw->ttbr_shift) - 1) *)
Definition ttbr_misaligned (hw : Hw.t) (paddr : Z) : bool :=
  negb (Z.land paddr (Z.shiftl 1 (Hw.ttbr_shift hw) - 1) =? 0).

Definition apple_dart_hw_set_ttbr (w : world) (sm : StreamMap.t)
    (idx paddr : Z) : exec world :=
  p <- deref (StreamMap.dart sm) ;;
  let dart := darts w p in
  let w := WARN_ON (Dart.locked dart) w in
  let w := WARN_ON (ttbr_misaligned (Dart.hw dart) paddr) w in
  Done (fold_left
          (fun w sid =>
             writel w p (ttbr_value (Dart.hw dart) paddr)
                    (DART_TTBR dart sid idx))
          (for_each_set_bit (StreamMap.sidmap sm) (Dart.num_streams dart)) w).

Definition apple_dart_hw_clear_ttbr (w : world) (sm : StreamMap.t) (idx : Z)
  : exec world :=
  p <- deref (StreamMap.dart sm) ;;
  let dart := darts w p in
  let w := WARN_ON (Dart.locked dart) w in
  Done (fold_left
          (fun w sid => writel w p 0 (DART_TTBR dart sid idx))
          (for_each_set_bit (StreamMap.sidmap sm) (Dart.num_streams dart)) w).

(* for (i = 0; i < hw->ttbr_count; ++i) apple_dart_hw_clear_ttbr(.., i),
   the index being passed as a u8 *)
Definition apple_dart_hw_clear_all_ttbrs (w : world) (sm : StreamMap.t)
  : exec world :=
  p <- deref (StreamMap.dart sm) ;;
  fold_exec (fun w i => apple_dart_hw_clear_ttbr w sm (u8 i))
    (map Z.of_nat
         (seq 0 (Z.to_nat (Hw.ttbr_count (Dart.hw (darts w p)))))) w.

(* The physical address apple_dart_hw_set_locked_ttbr reads out of a TTBR
   value: ttbr &= ~valid; if (field_shift) ttbr >>= field_shift;
   phys = (phys_addr_t)ttbr << ttbr_shift *)
Definition ttbr_phys (hw : Hw.t) (ttbr : Z) : Z :=
  let ttbr := Z.ldiff ttbr (Hw.ttbr_valid hw) in
  let ttbr := if Hw.ttbr_addr_field_shift hw =? 0 then ttbr
              else Z.shiftr ttbr (Hw.ttbr_addr_field_shift hw) in
  u64 (Z.shiftl ttbr (Hw.ttbr_shift hw)).

(* The loop of apple_dart_hw_set_locked_ttbr over the streams; it leaves
   at the first mapping that fails.  [devm_memremap phys size] is the
   address the kernel maps the range at, 0 on failure. *)
Fixpoint set_locked_ttbr_loop (devm_memremap : Z -> Z -> Z) (p : nat)
    (idx paddr : Z) (sids : list Z) (w : world) : Z * world :=
  match sids with
  | [] => (0, w)
  | sid :: rest =>
      let dart := darts w p in
      let ttbr := readl w p (DART_TTBR dart sid idx) in
      let w := WARN_ON (Z.land ttbr (Hw.ttbr_valid (Dart.hw dart)) =? 0) w in
      let l1_tbl :=
        devm_memremap (ttbr_phys (Dart.hw dart) ttbr) (Dart.pgsize dart) in
      if l1_tbl =? 0 then (- ENOMEM, w)
      else
        let l1_shadow := devm_memremap paddr (Dart.pgsize dart) in
        if l1_shadow =? 0 then (- ENOMEM, w)
        else
          let w :=
            set_dart w p
              (Dart.set_locked_ttbr (darts w p)
                 (upd2 (Dart.locked_ttbr (darts w p)) sid idx l1_tbl)) in
          let w :=
            set_dart w p
              (Dart.set_shadow_ttbr (darts w p)
                 (upd2 (Dart.shadow_ttbr (darts w p)) sid idx l1_shadow)) in
          set_locked_ttbr_loop devm_memremap p idx paddr rest w
  end.

Definition apple_dart_hw_set_locked_ttbr (devm_memremap : Z -> Z -> Z)
    (w : world) (sm : StreamMap.t) (idx paddr : Z) : exec (Z * world) :=
  p <- deref (StreamMap.dart sm) ;;
  let dart := darts w p in
  let w := WARN_ON (negb (Dart.locked dart)) w in
  let w := WARN_ON (ttbr_misaligned (Dart.hw dart) paddr) w in
  Done (set_locked_ttbr_loop devm_memremap p idx paddr
          (for_each_set_bit (StreamMap.sidmap sm) (Dart.num_streams dart)) w).

(** ** Runtime power references *)

(* Replays a log against the count of references held on each unit:
   a put needs a reference to drop, a register write needs one held.
   Yields the counts at the end, or nothing if the log breaks this. *)
Fixpoint pm_checked (held : nat -> Z) (l : list event)
  : option (nat -> Z) :=
  match l with
  | [] => Some held
  | EvPmGet q :: l' =>
      pm_checked (fun r => if Nat.eqb r q then held r + 1 else held r) l'
  | EvPmPut q :: l' =>
      if 0 <? held q
      then pm_checked (fun r => if Nat.eqb r q then held r - 1 else held r) l'
      else None
  | EvWritel q _ _ :: l' =>
      if 0 <? held q then pm_checked held l' else None
  | _ :: l' => pm_checked held l'
  end.

(* The log is in order from [held] and ends with the counts [held']. *)
Definition pm_ok (held : nat -> Z) (l : list event) (held' : nat -> Z)
  : Prop :=
  exists h, pm_checked held l = Some h /\ forall q, h q = held' q.

(* How many slots of a list of stream maps are on unit [q]. *)
Definition slots_on (q : nat) (l : list (nat * StreamMap.t)) : Z :=
  Z.of_nat (List.length (filter (fun ps => Nat.eqb (fst ps) q) l)).

(* Two states of a unit that differ at most in its registers. *)
Definition dart_same_but_regs (d d' : Dart.t) : Prop :=
  Dart.hw d' = Dart.hw d /\ Dart.ias d' = Dart.ias d /\
  Dart.oas d' = Dart.oas d /\ Dart.pgsize d' = Dart.pgsize d /\
  Dart.num_streams d' = Dart.num_streams d /\
  Dart.supports_bypass d' = Dart.supports_bypass d /\
  Dart.locked d' = Dart.locked d /\ Dart.four_level d' = Dart.four_level d /\
  Dart.dma_min d' = Dart.dma_min d /\ Dart.dma_max d' = Dart.dma_max d /\
  Dart.locked_ttbr d' = Dart.locked_ttbr d /\
  Dart.shadow_ttbr d' = Dart.shadow_ttbr d.

(* Two states of the world that differ at most in registers and log. *)
Definition only_regs_changed (w w' : world) : Prop :=
  mem w' = mem w /\ forall q, dart_same_but_regs (darts w q) (darts w' q).

(** ** The register map *)

(* No two TCR or TTBR registers of the streams and table slots of a unit
   share an offset. *)
Definition regs_apart (dart : Dart.t) : Prop :=
  let n := Dart.num_streams dart in
  let c := Hw.ttbr_count (Dart.hw dart) in
  (forall sid sid', 0 <= sid < n -> 0 <= sid' < n ->
     DART_TCR dart sid = DART_TCR dart sid' -> sid = sid') /\
  (forall sid idx sid' idx',
     0 <= sid < n -> 0 <= sid' < n -> 0 <= idx < c -> 0 <= idx' < c ->
     DART_TTBR dart sid idx = DART_TTBR dart sid' idx' ->
     sid = sid' /\ idx = idx') /\
  (forall sid sid' idx, 0 <= sid < n -> 0 <= sid' < n -> 0 <= idx < c ->
     DART_TCR dart sid <> DART_TTBR dart sid' idx).

(** ** Stream and TLB commands, reset *)

Definition ETIMEDOUT : Z := 110.
Definition U32_MAX : Z := 2 ^ 32 - 1.
Definition BITS_TO_U32 (n : Z) : Z := (n + 32 - 1) / 32.

Definition DART_T8020_STREAM_COMMAND : Z := 0x20.
Definition DART_T8020_STREAM_COMMAND_INVALIDATE : Z := BIT 20.
Definition DART_T8020_STREAM_SELECT : Z := 0x34.
Definition DART_T8110_TLB_CMD : Z := 0x80.
Definition DART_T8110_TLB_CMD_OP : Z := 0x700.       (* GENMASK(10, 8) *)
Definition DART_T8110_TLB_CMD_OP_FLUSH_SID : Z := 1.
Definition DART_T8110_TLB_CMD_STREAM : Z := 0xff.    (* GENMASK(7, 0) *)
Definition DART_T8110_ERROR_MASK : Z := 0x104.

(* 0, 1, ..., n - 1 *)
Definition upto (n : Z) : list Z := map Z.of_nat (seq 0 (Z.to_nat n)).

(* readl_poll_timeout_atomic on a command register.  What the unit
   answers is not the driver's: [acks] gives it, one entry per poll, true
   when the busy bit is seen clear before the timeout. *)
Definition poll_busy (acks : list bool) : exec (Z * list bool) :=
  match acks with
  | [] => OutOfFuel
  | true :: rest => Done (0, rest)
  | false :: rest => Done (- ETIMEDOUT, rest)
  end.

(* stream_map->sidmap[i], a word of the bitmap *)
Definition sidmap_word (sidmap i : Z) : Z :=
  u64 (Z.shiftr sidmap (BITS_PER_LONG * i)).

Definition apple_dart_t8020_hw_stream_command (w : world) (sm : StreamMap.t)
    (command : Z) (acks : list bool) : exec (Z * world * list bool) :=
  p <- deref (StreamMap.dart sm) ;;
  let w :=
    fold_left
      (fun w i => writel w p (sidmap_word (StreamMap.sidmap sm) i)
                         (DART_T8020_STREAM_SELECT + 4 * i))
      (upto (BITS_TO_U32 (Dart.num_streams (darts w p)))) w in
  let w := writel w p command DART_T8020_STREAM_COMMAND in
  r <- poll_busy acks ;;
  let '(ret, acks) := r in
  if negb (ret =? 0) then Done (ret, emit EvDevErr w, acks)
  else Done (0, w, acks).

(* FIELD_PREP(mask, val) for a mask whose lowest set bit is [shift] *)
Definition FIELD_PREP (mask shift val : Z) : Z :=
  Z.land (Z.shiftl val shift) mask.

(* FIELD_PREP(DART_T8110_TLB_CMD_OP, command) |
   FIELD_PREP(DART_T8110_TLB_CMD_STREAM, sid) *)
Definition tlb_cmd_word (command sid : Z) : Z :=
  Z.lor (FIELD_PREP DART_T8110_TLB_CMD_OP 8 command)
        (FIELD_PREP DART_T8110_TLB_CMD_STREAM 0 sid).

(* The loop of apple_dart_t8110_hw_tlb_command: one command per stream,
   left at the first one the unit does not acknowledge. *)
Fixpoint tlb_command_loop (p : nat) (command : Z) (sids : list Z)
    (w : world) (acks : list bool) : exec (Z * world * list bool) :=
  match sids with
  | [] => Done (0, w, acks)
  | sid :: rest =>
      let w := writel w p (tlb_cmd_word command sid) DART_T8110_TLB_CMD in
      r <- poll_busy acks ;;
      let '(ret, acks) := r in
      if negb (ret =? 0) then Done (ret, w, acks)
      else tlb_command_loop p command rest w acks
  end.

Definition apple_dart_t8110_hw_tlb_command (w : world) (sm : StreamMap.t)
    (command : Z) (acks : list bool) : exec (Z * world * list bool) :=
  p <- deref (StreamMap.dart sm) ;;
  r <- tlb_command_loop p command
         (for_each_set_bit (StreamMap.sidmap sm)
            (Dart.num_streams (darts w p))) w acks ;;
  let '(ret, w, acks) := r in
  if negb (ret =? 0) then Done (ret, emit EvDevErr w, acks)
  else Done (0, w, acks).

(* stream_map->dart->hw->invalidate_tlb(stream_map) *)
Definition invalidate_tlb (w : world) (sm : StreamMap.t) (acks : list bool)
  : exec (Z * world * list bool) :=
  p <- deref (StreamMap.dart sm) ;;
  match Hw.invalidate_tlb (Dart.hw (darts w p)) with
  | apple_dart_t8020_hw_invalidate_tlb =>
      apple_dart_t8020_hw_stream_command w sm
        DART_T8020_STREAM_COMMAND_INVALIDATE acks
  | apple_dart_t8110_hw_invalidate_tlb =>
      apple_dart_t8110_hw_tlb_command w sm DART_T8110_TLB_CMD_OP_FLUSH_SID
        acks
  end.

Definition is_t8110 (t : dart_type) : bool :=
  match t with
  | DART_T8110 => true
  | _ => false
  end.

(* The stream map apple_dart_hw_reset builds: all streams of the unit. *)
Definition all_streams (w : world) (p : nat) : StreamMap.t :=
  StreamMap.mk (Some p) (Z.ones (Dart.num_streams (darts w p))).

Definition apple_dart_hw_reset (w : world) (p : nat) (acks : list bool)
  : exec (Z * world * list bool) :=
  let sm := all_streams w p in
  w <- apple_dart_hw_disable_dma w sm ;;
  w <- apple_dart_hw_clear_all_ttbrs w sm ;;
  let hw := Dart.hw (darts w p) in
  let w :=
    fold_left
      (fun w i => writel w p U32_MAX (Hw.enable_streams hw + 4 * i))
      (upto (BITS_TO_U32 (Dart.num_streams (darts w p)))) w in
  let w := writel w p (readl w p (Hw.error hw)) (Hw.error hw) in
  let w := if is_t8110 (Hw.type hw)
           then writel w p 0 DART_T8110_ERROR_MASK else w in
  invalidate_tlb w sm acks.

(** ** Suspend and resume *)

(** save_tcr and save_ttbr of struct apple_dart *)
Module Saved.
Record t : Type := mk {
  save_tcr : Z -> Z;
  save_ttbr : Z -> Z -> Z
}.
End Saved.

Definition in_range (lo hi x : Z) : bool := (lo <=? x) && (x <? hi).

Definition apple_dart_suspend (w : world) (p : nat) (saved : Saved.t)
  : Z * Saved.t :=
  let dart := darts w p in
  (0, Saved.mk
        (fun sid =>
           if in_range 0 (Dart.num_streams dart) sid
           then readl w p (DART_TCR dart sid)
           else Saved.save_tcr saved sid)
        (fun sid idx =>
           if in_range 0 (Dart.num_streams dart) sid
              && in_range 0 (Hw.ttbr_count (Dart.hw dart)) idx
           then readl w p (DART_TTBR dart sid idx)
           else Saved.save_ttbr saved sid idx)).

(* The body of the loop over streams in apple_dart_resume. *)
Definition resume_stream (p : nat) (saved : Saved.t) (w : world) (sid : Z)
  : world :=
  let dart := darts w p in
  let w :=
    fold_left
      (fun w idx => writel w p (Saved.save_ttbr saved sid idx)
                           (DART_TTBR dart sid idx))
      (upto (Hw.ttbr_count (Dart.hw dart))) w in
  writel w p (Saved.save_tcr saved sid) (DART_TCR dart sid).

Definition apple_dart_resume (w : world) (p : nat) (saved : Saved.t)
    (acks : list bool) : exec (Z * world * list bool) :=
  if Dart.locked (darts w p) then Done (0, w, acks)
  else
    r <- apple_dart_hw_reset w p acks ;;
    let '(ret, w, acks) := r in
    if negb (ret =? 0) then Done (ret, emit EvDevErr w, acks)
    else
      Done (0,
            fold_left (resume_stream p saved)
                      (upto (Dart.num_streams (darts w p))) w,
            acks).

(* From [w] to [w'] nothing but registers and the log changed, and of the
   registers only those of unit [p] at offsets in [P]. *)
Definition writes_within (P : Z -> Prop) (p : nat) (w w' : world) : Prop :=
  only_regs_changed w w' /\
  (forall q o, q <> p \/ ~ P o -> readl w' q o = readl w q o) /\
  exists evs,
    log w' = log w ++ evs /\
    Forall (fun e => is_diag e = true \/
                     exists v o, e = EvWritel p v o /\ P o) evs.

(* A t8103 USB4 unit as probe sets it up: 64 streams, no bypass. *)
Definition dart_t8103_usb4 : Dart.t :=
  Dart.mk apple_dart_hw_t8103_usb4 (fun _ => 0) 32 36 SZ_16K 64 false false
          false 0 (DMA_BIT_MASK 32) (fun _ _ => 0) (fun _ _ => 0).

Definition world_t8103_usb4 : world :=
  mkWorld (fun _ => dart_t8103_usb4) (fun _ => x00) [].

(** ** Releasing a device *)

(* The body of the loop over stream maps in apple_dart_release_device. *)
Definition release_stream_map (w : world) (ps : nat * StreamMap.t)
  : exec world :=
  if Dart.locked (darts w (fst ps)) then
    fold_exec
      (fun w i =>
         r <- apple_dart_hw_clear_locked_ttbr w (snd ps) (u8 i) ;;
         Done (snd r))
      (upto (Hw.ttbr_count (Dart.hw (darts w (fst ps))))) w
  else Done w.

Definition apple_dart_release_device (w : world) (cfg : MasterCfg.t)
  : exec world :=
  fold_exec release_stream_map
    (for_each_stream_map (MasterCfg.stream_maps cfg)) w.

(* All of a unit but its locked and shadow table pointers. *)
Definition dart_same_but_tables (d d' : Dart.t) : Prop :=
  Dart.hw d' = Dart.hw d /\ Dart.regs d' = Dart.regs d /\
  Dart.ias d' = Dart.ias d /\ Dart.oas d' = Dart.oas d /\
  Dart.pgsize d' = Dart.pgsize d /\
  Dart.num_streams d' = Dart.num_streams d /\
  Dart.supports_bypass d' = Dart.supports_bypass d /\
  Dart.locked d' = Dart.locked d /\ Dart.four_level d' = Dart.four_level d /\
  Dart.dma_min d' = Dart.dma_min d /\ Dart.dma_max d' = Dart.dma_max d.

(* Events of unmapping tables: a warning, a memset, an unmap. *)
Definition is_unmap_event (e : event) : bool :=
  match e with
  | EvWarn | EvMemset _ _ | EvMemunmap _ => true
  | _ => false
  end.

(* From [w] to [w'] table pointers were dropped and table memory zeroed,
   and nothing else was done: no pointer was set, no byte got another
   value than zero, no register was written. *)
Definition tables_cleared (w w' : world) : Prop :=
  (forall q, dart_same_but_tables (darts w q) (darts w' q)) /\
  (forall q, Dart.locked (darts w q) = false -> darts w' q = darts w q) /\
  (forall q s i,
     Dart.locked_ttbr (darts w' q) s i = Dart.locked_ttbr (darts w q) s i \/
     Dart.locked_ttbr (darts w' q) s i = 0) /\
  (forall q s i,
     Dart.shadow_ttbr (darts w' q) s i = Dart.shadow_ttbr (darts w q) s i \/
     Dart.shadow_ttbr (darts w' q) s i = 0) /\
  (forall a, mem w' a = mem w a \/ mem w' a = x00) /\
  exists evs, log w' = log w ++ evs /\ forallb is_unmap_event evs = true.

(** ** TLB flush of a domain *)

Section Flush.
Context `{Platform}.

(* The body of the loop over stream maps in apple_dart_domain_flush_tlb.
   [stack] is what the sidmap of the local stream_map holds when the
   turn starts; the words the copy does not reach keep it. *)
Definition flush_stream_map (st : world * Z * list bool)
    (ps : nat * StreamMap.t) : exec (world * Z * list bool) :=
  let '(w, stack, acks) := st in
  let p := fst ps in
  let sidmap :=
    copy_longs (BITS_TO_LONGS (Dart.num_streams (darts w p)))
               (StreamMap.sidmap (snd ps)) stack in
  let sm := StreamMap.mk (Some p) sidmap in
  let w := WARN_ON (pm_runtime_get_sync p <? 0) (emit (EvPmGet p) w) in
  w <- (if Dart.locked (darts w p)
        then r <- apple_dart_hw_sync_locked w sm ;; Done (snd r)
        else Done w) ;;
  r <- invalidate_tlb w sm acks ;;
  let '(_, w, acks) := r in
  Done (emit (EvPmPut p) w, sidmap, acks).

Definition apple_dart_domain_flush_tlb {pgtable : Type} (w : world)
    (domain : Domain.t pgtable) (stack : Z) (acks : list bool)
  : exec (world * list bool) :=
  r <- fold_exec flush_stream_map
         (for_each_stream_map (Domain.stream_maps domain))
         (w, stack, acks) ;;
  let '(w, _, acks) := r in
  Done (w, acks).

Definition apple_dart_iotlb_sync_map {pgtable : Type} (w : world)
    (domain : Domain.t pgtable) (stack : Z) (acks : list bool)
  : exec (Z * world * list bool) :=
  r <- apple_dart_domain_flush_tlb w domain stack acks ;;
  Done (0, fst r, snd r).

End Flush.

(* The registers a TLB invalidation writes: the TLB command register of
   the t8110 family, the stream command and select registers of the t8020
   family. *)
Definition tlb_regs (dart : Dart.t) (o : Z) : Prop :=
  o = DART_T8110_TLB_CMD \/ o = DART_T8020_STREAM_COMMAND \/
  exists i, 0 <= i < BITS_TO_U32 (Dart.num_streams dart) /\
            o = DART_T8020_STREAM_SELECT + 4 * i.

(** ** Fault interrupts *)




(* FIELD_GET(mask, val) for a mask whose lowest set bit is [shift] *)
Definition FIELD_GET (mask shift val : Z) : Z :=
  Z.shiftr (Z.land val mask) shift.

(* The names the handlers print: "READ FAULT", "WRITE FAULT",
   "NO PTE FOR IOVA", "NO PMD FOR IOVA", "NO PGD FOR IOVA",
   "NO TTBR FOR IOVA", "unknown". *)
Inductive fault_name : Type :=
| READ_FAULT | WRITE_FAULT | NO_PTE | NO_PMD | NO_PGD | NO_TTBR
| unknown_fault.

(** What the handlers report with dev_err_ratelimited. *)
Module Fault.
Record t : Type := mk {
  status : Z;
  stream : Z;
  code : Z;
  name : fault_name;
  addr : Z
}.
End Fault.






(** ** Attach to a paging domain *)

(** io_pgtable_ops_to_pgtable(ops)->cfg.apple_dart_cfg, the part of the
    configuration the engine filled in when the table was allocated: the
    addresses of the first-level tables, how many there are, and the
    number of levels. *)
Class IoPgtableDartCfg (pgtable : Type) : Type := {
  cfg_ttbr : pgtable -> Z -> Z;
  cfg_n_ttbrs : pgtable -> Z;
  cfg_n_levels : pgtable -> Z
}.

(* lo, lo + 1, ..., hi - 1 *)
Definition from_to (lo hi : Z) : list Z :=
  map (fun k => lo + Z.of_nat k) (seq 0 (Z.to_nat (hi - lo))).

Section AttachPaging.
Context {pgtable : Type} `{IoPgtable pgtable} `{IoPgtableDartCfg pgtable}
        `{Platform}.
Variable devm_memremap : Z -> Z -> Z.

Definition apple_dart_setup_translation (w : world)
    (domain : Domain.t pgtable) (sm : StreamMap.t) (acks : list bool)
  : exec (world * list bool) :=
  ops <- deref (Domain.pgtbl_ops domain) ;;
  p <- deref (StreamMap.dart sm) ;;
  let n_ttbrs := cfg_n_ttbrs ops in
  let ttbr_count := Hw.ttbr_count (Dart.hw (darts w p)) in
  w <- (if Dart.locked (darts w p) then
          w <- fold_exec
                 (fun w i =>
                    r <- apple_dart_hw_set_locked_ttbr devm_memremap w sm
                           (u8 i) (cfg_ttbr ops i) ;;
                    Done (snd r))
                 (upto n_ttbrs) w ;;
          w <- fold_exec
                 (fun w i =>
                    r <- apple_dart_hw_clear_locked_ttbr w sm (u8 i) ;;
                    Done (snd r))
                 (from_to n_ttbrs ttbr_count) w ;;
          r <- apple_dart_hw_sync_locked w sm ;;
          Done (snd r)
        else
          w <- fold_exec
                 (fun w i => apple_dart_hw_set_ttbr w sm (u8 i)
                               (cfg_ttbr ops i))
                 (upto n_ttbrs) w ;;
          w <- fold_exec (fun w i => apple_dart_hw_clear_ttbr w sm (u8 i))
                 (from_to n_ttbrs ttbr_count) w ;;
          apple_dart_hw_enable_translation w sm (cfg_n_levels ops)) ;;
  r <- invalidate_tlb w sm acks ;;
  let '(_, w, acks) := r in
  Done (w, acks).

Definition apple_dart_attach_dev_paging (fuel : nat) (w : world)
    (dart_domain : Domain.t pgtable) (dev : nat) (cfg : MasterCfg.t)
    (acks : list bool)
  : exec (Z * Domain.t pgtable * world * list bool) :=
  let w := pm_get_stream_maps w cfg in
  r <- apple_dart_finalize_domain fuel w dart_domain dev cfg ;;
  let '(ret, dart_domain, w) := r in
  if negb (ret =? 0)
  then Done (ret, dart_domain, pm_put_stream_maps w cfg, acks)
  else
    let '(ret, dart_domain) :=
      apple_dart_domain_add_streams w dart_domain cfg in
    if negb (ret =? 0)
    then Done (ret, dart_domain, pm_put_stream_maps w cfg, acks)
    else
      r <- fold_exec
             (fun st ps =>
                apple_dart_setup_translation (fst st) dart_domain (snd ps)
                  (snd st))
             (for_each_stream_map (MasterCfg.stream_maps cfg)) (w, acks) ;;
      Done (ret, dart_domain, pm_put_stream_maps (fst r) cfg, snd r).

(* The result of apple_dart_domain_alloc_paging: NULL, an ERR_PTR or the
   new domain. *)
Inductive domain_ptr : Type :=
| NullPtr
| ErrPtr (err : Z)
| DomainPtr (d : Domain.t pgtable).

(* [kzalloc_ok] tells whether the allocation of the domain succeeds;
   [dev] is the device's number and config, or nothing for a NULL dev. *)
Definition apple_dart_domain_alloc_paging (fuel : nat) (w : world)
    (kzalloc_ok : bool) (dev : option (nat * MasterCfg.t))
  : exec (domain_ptr * world) :=
  if negb kzalloc_ok then Done (NullPtr, w)
  else
    let dart_domain := Domain.zero in
    match dev with
    | Some (dev, cfg) =>
        r <- apple_dart_finalize_domain fuel w dart_domain dev cfg ;;
        let '(ret, dart_domain, w) := r in
        if negb (ret =? 0) then Done (ErrPtr ret, w)
        else Done (DomainPtr dart_domain, w)
    | None => Done (DomainPtr dart_domain, w)
    end.

End AttachPaging.

(* The toy engine keeps one first-level table, at 0x80004000. *)
#[export] Instance toy_dart_cfg : IoPgtableDartCfg toy_pgtable := {|
  cfg_ttbr := fun _ i => if i =? 0 then 0x80004000 else 0;
  cfg_n_ttbrs := fun _ => 1;
  cfg_n_levels := fun pt => PgtblCfg.n_levels (toy_cfg pt)
|}.

(* Events that neither write a register nor take or drop a power
   reference. *)
Definition pm_neutral (e : event) : bool :=
  match e with
  | EvWritel _ _ _ | EvPmGet _ | EvPmPut _ => false
  | _ => true
  end.

(* What [w'] adds to the log of [w]: register writes to unit [p] and
   events that concern neither registers nor power references. *)
Definition logs_under (p : nat) (w w' : world) : Prop :=
  exists evs,
    log w' = log w ++ evs /\
    Forall (fun e => pm_neutral e = true \/ exists v o, e = EvWritel p v o)
           evs.

(* The exhausted engine holds no table. *)
#[export] Instance exhausted_dart_cfg : IoPgtableDartCfg unit := {|
  cfg_ttbr := fun _ _ => 0;
  cfg_n_ttbrs := fun _ => 0;
  cfg_n_levels := fun _ => 0
|}.

(* From [w] to [w'] no register was written: units differ at most in
   their table pointers, and the log grew by events that are no register
   writes and no power references.  Memory may have changed. *)
Definition regs_kept (w w' : world) : Prop :=
  (forall q, dart_same_but_tables (darts w q) (darts w' q)) /\
  exists evs, log w' = log w ++ evs /\ forallb pm_neutral evs = true.

(** ** Probe *)

Definition DART_PARAMS1 : Z := 0x00.
Definition DART_PARAMS1_PAGE_SHIFT : Z := 0x0f000000.      (* GENMASK(27, 24) *)
Definition DART_PARAMS2 : Z := 0x04.
Definition DART_PARAMS2_BYPASS_SUPPORT : Z := BIT 0.
Definition DART_T8110_PARAMS3 : Z := 0x08.
Definition DART_T8110_PARAMS3_PA_WIDTH : Z := 0x3f000000.  (* GENMASK(29, 24) *)
Definition DART_T8110_PARAMS3_VA_WIDTH : Z := 0x003f0000.  (* GENMASK(21, 16) *)
Definition DART_T8110_PARAMS4 : Z := 0x0c.
Definition DART_T8110_PARAMS4_NUM_SIDS : Z := 0x1ff.       (* GENMASK(8, 0) *)

Definition apple_dart_is_locked (w : world) (p : nat) : bool :=
  negb (Z.land (readl w p (Hw.lock (Dart.hw (darts w p))))
               (Hw.lock_bit (Dart.hw (darts w p))) =? 0).

(** What the rest of the kernel answers during a probe. *)
Module ProbeEnv.
Record t : Type := mk {
  devm_kzalloc : bool;            (* whether the allocation succeeds *)
  match_data : Hw.t;              (* of_device_get_match_data *)
  ioremap : Z + Z;                (* the error, or resource_size(res) *)
  platform_get_irq : Z;
  devm_clk_bulk_get_all : Z;
  clk_bulk_prepare_enable : Z;
  devm_pm_runtime_enable : Z;
  dma_range : Z * (Z * Z);        (* of_property_read_u64_array on
                                     "apple,dma-range": result, values *)
  request_irq : Z;
  iommu_device_sysfs_add : Z;
  iommu_device_register : Z
}.
End ProbeEnv.

(** What a probe has in hand when it returns, besides the unit's state:
    its result, whether the clocks are left running, whether the
    interrupt is left requested and whether the unit is left registered
    with the IOMMU core. *)
Module Probed.
Record t : Type := mk {
  ret : Z;
  clks_enabled : bool;
  irq_requested : bool;
  registered : bool
}.
End Probed.

(* A return before the clocks are on: nothing is left behind. *)
Definition probe_returns (ret : Z) (w : world) (acks : list bool)
  : exec (Probed.t * world * list bool) :=
  Done (Probed.mk ret false false false, w, acks).

(* The label err_clk_disable, which err_free_irq and err_sysfs_remove
   fall through to: pm_runtime_put(dev), clk_bulk_disable_unprepare,
   return ret. *)
Definition err_clk_disable (p : nat) (ret : Z) (w : world)
    (acks : list bool) : exec (Probed.t * world * list bool) :=
  Done (Probed.mk ret false false false, emit (EvPmPut p) w, acks).

(* The structure as devm_kzalloc hands it out, with hw and regs set. *)
Definition probe_alloc (hw : Hw.t) (regs : Z -> Z) : Dart.t :=
  Dart.mk hw regs 0 0 0 0 false false false 0 0
          (fun _ _ => 0) (fun _ _ => 0).

(* The parameter registers: pgsize and supports_bypass, then ias, oas,
   num_streams and four_level by generation, then the default window
   dma_min = 0, dma_max = DMA_BIT_MASK(ias). *)
Definition probe_read_params (w : world) (p : nat) : world :=
  let d := darts w p in
  let hw := Dart.hw d in
  let params0 := u32 (readl w p DART_PARAMS1) in
  let params1 := u32 (readl w p DART_PARAMS2) in
  let pgsize :=
    u32 (Z.shiftl 1 (FIELD_GET DART_PARAMS1_PAGE_SHIFT 24 params0)) in
  let supports_bypass :=
    negb (Z.land params1 DART_PARAMS2_BYPASS_SUPPORT =? 0) in
  let filled (ias oas num_streams : Z) (four_level : bool) :=
    Dart.mk hw (Dart.regs d) ias oas pgsize num_streams supports_bypass
            (Dart.locked d) four_level 0 (DMA_BIT_MASK ias)
            (Dart.locked_ttbr d) (Dart.shadow_ttbr d) in
  set_dart w p
    match Hw.type hw with
    | DART_T8020 | DART_T6000 =>
        filled 32 (Hw.oas hw) (u32 (Hw.max_sid_count hw)) (Dart.four_level d)
    | DART_T8110 =>
        let params2 := u32 (readl w p DART_T8110_PARAMS3) in
        let params3 := u32 (readl w p DART_T8110_PARAMS4) in
        let ias := FIELD_GET DART_T8110_PARAMS3_VA_WIDTH 16 params2 in
        filled ias
               (FIELD_GET DART_T8110_PARAMS3_PA_WIDTH 24 params2)
               (FIELD_GET DART_T8110_PARAMS4_NUM_SIDS 0 params3)
               (36 <? ias)
    end.

Definition set_dma_window (d : Dart.t) (dma_min dma_max : Z) : Dart.t :=
  Dart.mk (Dart.hw d) (Dart.regs d) (Dart.ias d) (Dart.oas d)
          (Dart.pgsize d) (Dart.num_streams d) (Dart.supports_bypass d)
          (Dart.locked d) (Dart.four_level d) dma_min dma_max
          (Dart.locked_ttbr d) (Dart.shadow_ttbr d).

Definition set_locked (d : Dart.t) (locked : bool) : Dart.t :=
  Dart.mk (Dart.hw d) (Dart.regs d) (Dart.ias d) (Dart.oas d)
          (Dart.pgsize d) (Dart.num_streams d) (Dart.supports_bypass d)
          locked (Dart.four_level d) (Dart.dma_min d) (Dart.dma_max d)
          (Dart.locked_ttbr d) (Dart.shadow_ttbr d).

(* The look at "apple,dma-range": the state afterwards and, where the
   probe leaves at once (goto err_clk_disable), the value of ret it
   leaves with. *)
Definition probe_dma_range (env : ProbeEnv.t) (w : world) (p : nat)
  : world * option Z :=
  let '(ret, (range0, range1)) := ProbeEnv.dma_range env in
  if ret =? - EINVAL then (w, None)
  else if negb (ret =? 0) then (w, Some ret)
  else
    let dma_min := u64 range0 in
    let dma_max := u64 (range0 + range1 - 1) in
    let w := set_dart w p (set_dma_window (darts w p) dma_min dma_max) in
    if negb (Z.land (Z.lxor dma_min dma_max)
                    (not64 (DMA_BIT_MASK (Dart.ias (darts w p)))) =? 0)
    then (emit EvDevErr w, Some ret)
    else (emit EvDevInfo w, None).

(* From the check of num_streams to the end. *)
Definition probe_register (env : ProbeEnv.t) (w : world) (p : nat)
    (acks : list bool) : exec (Probed.t * world * list bool) :=
  if DART_MAX_STREAMS <? Dart.num_streams (darts w p)
  then err_clk_disable p (- EINVAL) (emit EvDevErr w) acks
  else
    let locked := apple_dart_is_locked w p in
    let w := set_dart w p (set_locked (darts w p) locked) in
    r <- (if locked then Done (0, w, acks)
          else apple_dart_hw_reset w p acks) ;;
    let '(ret, w, acks) := r in
    if negb (ret =? 0) then err_clk_disable p ret w acks
    else if negb (ProbeEnv.request_irq env =? 0)
    then err_clk_disable p (ProbeEnv.request_irq env) w acks
    else if negb (ProbeEnv.iommu_device_sysfs_add env =? 0)
    then err_clk_disable p (ProbeEnv.iommu_device_sysfs_add env) w acks
    else if negb (ProbeEnv.iommu_device_register env =? 0)
    then err_clk_disable p (ProbeEnv.iommu_device_register env) w acks
    else
      (* pm_runtime_put(dev), then the dev_info *)
      Done (Probed.mk 0 true true true,
            emit EvDevInfo (emit (EvPmPut p) w), acks).

Definition apple_dart_probe (env : ProbeEnv.t) (w : world) (p : nat)
    (acks : list bool) : exec (Probed.t * world * list bool) :=
  if negb (ProbeEnv.devm_kzalloc env) then probe_returns (- ENOMEM) w acks
  else
    match ProbeEnv.ioremap env with
    | inl err => probe_returns err w acks
    | inr size =>
        let w :=
          set_dart w p
            (probe_alloc (ProbeEnv.match_data env) (Dart.regs (darts w p))) in
        if size <? 0x4000
        then probe_returns (- EINVAL) (emit EvDevErr w) acks
        else if ProbeEnv.platform_get_irq env <? 0
        then probe_returns (- ENODEV) w acks
        else if ProbeEnv.devm_clk_bulk_get_all env <? 0
        then probe_returns (ProbeEnv.devm_clk_bulk_get_all env) w acks
        else if negb (ProbeEnv.clk_bulk_prepare_enable env =? 0)
        then probe_returns (ProbeEnv.clk_bulk_prepare_enable env) w acks
        else
          (* pm_runtime_get_noresume(dev): a reference on the unit,
             taken without resuming it; the unit is then marked active *)
          let w := emit (EvPmGet p) w in
          if negb (ProbeEnv.devm_pm_runtime_enable env =? 0)
          then err_clk_disable p (ProbeEnv.devm_pm_runtime_enable env) w acks
          else
            let w := probe_read_params w p in
            let '(w, leave) := probe_dma_range env w p in
            match leave with
            | Some ret => err_clk_disable p ret w acks
            | None => probe_register env w p acks
            end
    end.

(* A probe of a t8103 unit in which every service succeeds and the
   device tree has no "apple,dma-range". *)
Definition probe_env_t8103 : ProbeEnv.t :=
  ProbeEnv.mk true apple_dart_hw_t8103 (inr 0x4000) 5 1 0 0
              (- EINVAL, (0, 0)) 0 0 0.

(* The same with a window of 512M that starts 256M below 4G. *)
Definition probe_env_bad_range : ProbeEnv.t :=
  ProbeEnv.mk true apple_dart_hw_t8103 (inr 0x4000) 5 1 0 0
              (0, (0xf0000000, 0x20000000)) 0 0 0.

(** ** IOMMU groups *)

(** The groups as the driver sees them.  A group is named by a number.
    [sid2group] is the table of every unit, indexed by unit and stream id
    (None is NULL); [iommudata] is what iommu_group_get_iommudata
    answers; [refs] counts the references held on a group. *)
Module Groups.
Record t : Type := mk {
  sid2group : nat -> Z -> option nat;
  iommudata : nat -> option MasterCfg.t;
  refs : nat -> Z
}.
End Groups.

(* An ERR_PTR or a group. *)
Inductive group_ptr : Type :=
| GroupErr (err : Z)
| GroupPtr (group : nat).

(* Pointer comparison of two groups. *)
Definition group_ptr_eqb (a b : option nat) : bool :=
  match a, b with
  | Some g, Some g' => Nat.eqb g g'
  | None, None => true
  | _, _ => false
  end.

Definition is_null {A : Type} (a : option A) : bool :=
  match a with
  | None => true
  | Some _ => false
  end.

(* for_each_stream_map(i, cfg, stream_map)
     for_each_set_bit(sid, stream_map->sidmap, stream_map->dart->num_streams):
   the (unit, stream id) pairs in the order the loops visit them *)
Definition cfg_streams (w : world) (cfg : MasterCfg.t) : list (nat * Z) :=
  flat_map
    (fun ps : nat * StreamMap.t =>
       map (pair (fst ps))
           (for_each_set_bit (StreamMap.sidmap (snd ps))
                             (Dart.num_streams (darts w (fst ps)))))
    (for_each_stream_map (MasterCfg.stream_maps cfg)).

(* The first loop of apple_dart_device_group, entered with [group]:
   None where it leaves with ERR_PTR(-EINVAL), else [group] after the
   loop. *)
Fixpoint scan_groups (sid2group : nat -> Z -> option nat)
    (streams : list (nat * Z)) (group : option nat) : option (option nat) :=
  match streams with
  | [] => Some group
  | (p, sid) :: rest =>
      let stream_group := sid2group p sid in
      if negb (is_null group) && negb (group_ptr_eqb group stream_group)
      then None
      else scan_groups sid2group rest stream_group
  end.

(* Whether unit [p], stream [sid] is the stream [ps]. *)
Definition is_stream (p : nat) (sid : Z) (ps : nat * Z) : bool :=
  Nat.eqb p (fst ps) && (sid =? snd ps).

(* stream_map->dart->sid2group[sid] = group, for the streams given *)
Definition set_sid2group (sid2group : nat -> Z -> option nat)
    (streams : list (nat * Z)) (group : option nat)
  : nat -> Z -> option nat :=
  fold_left
    (fun (t : nat -> Z -> option nat) (ps : nat * Z) =>
       fun p sid => if is_stream p sid ps then group else t p sid)
    streams sid2group.

(* iommu_group_ref_get and iommu_group_put *)
Definition group_ref (gs : Groups.t) (group : nat) (by_ : Z) : Groups.t :=
  Groups.mk (Groups.sid2group gs) (Groups.iommudata gs)
            (fun g => if Nat.eqb g group then Groups.refs gs g + by_
                      else Groups.refs gs g).

(* iommu_group_set_iommudata, and the group's data changed in place *)
Definition set_iommudata (gs : Groups.t) (group : nat) (cfg : MasterCfg.t)
  : Groups.t :=
  Groups.mk (Groups.sid2group gs)
            (fun g => if Nat.eqb g group then Some cfg
                      else Groups.iommudata gs g)
            (Groups.refs gs).

Definition assign_streams (w : world) (gs : Groups.t) (cfg : MasterCfg.t)
    (group : option nat) : Groups.t :=
  Groups.mk (set_sid2group (Groups.sid2group gs) (cfg_streams w cfg) group)
            (Groups.iommudata gs) (Groups.refs gs).

(** apple_dart_device_group.  [device_group] is what pci_device_group or
    generic_device_group returns: NULL, or a group with a reference for
    the caller; [kmemdup_ok] whether kmemdup succeeds. *)
Definition apple_dart_device_group (w : world) (gs : Groups.t)
    (cfg : MasterCfg.t) (device_group : option nat) (kmemdup_ok : bool)
  : exec (group_ptr * world * Groups.t) :=
  match scan_groups (Groups.sid2group gs) (cfg_streams w cfg) None with
  | None => Done (GroupErr (- EINVAL), w, gs)
  | Some (Some group) => Done (GroupPtr group, w, group_ref gs group 1)
  | Some None =>
      match device_group with
      | None => Done (GroupErr (- ENOMEM), w, gs)
      | Some group =>
          let gs := group_ref gs group 1 in
          match Groups.iommudata gs group with
          | Some group_master_cfg =>
              r <- apple_dart_merge_master_cfg w group_master_cfg cfg ;;
              let '(ret, group_master_cfg) := r in
              if negb (ret =? 0)
              then Done (GroupErr ret, emit EvDevErr w,
                         group_ref gs group (-1))
              else
                let gs := set_iommudata gs group group_master_cfg in
                Done (GroupPtr group, w, assign_streams w gs cfg (Some group))
          | None =>
              if negb kmemdup_ok
              then Done (GroupErr (- ENOMEM), w, group_ref gs group (-1))
              else
                let gs := set_iommudata gs group cfg in
                Done (GroupPtr group, w, assign_streams w gs cfg (Some group))
          end
      end
  end.

(* apple_dart_release_group, called with the group's data *)
Definition apple_dart_release_group (w : world) (gs : Groups.t)
    (group_master_cfg : MasterCfg.t) : Groups.t :=
  assign_streams w gs group_master_cfg None.

(* No stream belongs to a group, no group has data. *)
Definition no_groups : Groups.t :=
  Groups.mk (fun _ _ => None) (fun _ => None) (fun _ => 0).

(* ================================================================== *)
(** * Properties *)

(** ** Basic facts on the helpers *)

Lemma in_for_each_set_bit : forall sidmap size sid,
  In sid (for_each_set_bit sidmap size) <->
  0 <= sid < size /\ Z.testbit sidmap sid = true.
Proof.
  intros sidmap size sid. unfold for_each_set_bit.
  rewrite filter_In, in_map_iff. split.
  - intros [[n [Hn Hin]] Hb]. apply in_seq in Hin. subst sid.
    split; [lia | assumption].
  - intros [Hr Hb]. split; [| assumption].
    exists (Z.to_nat sid). split; [lia |]. apply in_seq. lia.
Qed.

Lemma log_emit : forall e w, log (emit e w) = log w ++ [e].
Proof. reflexivity. Qed.

Lemma darts_emit : forall e w, darts (emit e w) = darts w.
Proof. reflexivity. Qed.

Lemma darts_WARN_ON : forall c w, darts (WARN_ON c w) = darts w.
Proof. intros [] w; reflexivity. Qed.

Lemma mem_WARN_ON : forall c w, mem (WARN_ON c w) = mem w.
Proof. intros [] w; reflexivity. Qed.

(** ** Writing one value to the TCR of every stream of a map *)

Section WriteLoop.
Variables (p : nat) (val : Z) (off : Z -> Z).

Let step := fun (w : world) (sid : Z) => writel w p val (off sid).

Lemma write_loop_static : forall l w q,
  Dart.hw (darts (fold_left step l w) q) = Dart.hw (darts w q) /\
  Dart.num_streams (darts (fold_left step l w) q)
    = Dart.num_streams (darts w q) /\
  Dart.locked (darts (fold_left step l w) q) = Dart.locked (darts w q) /\
  Dart.supports_bypass (darts (fold_left step l w) q)
    = Dart.supports_bypass (darts w q).
Proof.
  induction l as [| sid l IH]; intros w q; simpl; [auto |].
  destruct (IH (step w sid) q) as (H1 & H2 & H3 & H4).
  rewrite H1, H2, H3, H4. unfold step, writel. simpl.
  destruct (Nat.eqb q p) eqn:E; auto.
  apply Nat.eqb_eq in E. subst q. auto.
Qed.

Lemma write_loop_hit : forall l w sid,
  In sid l ->
  readl (fold_left step l w) p (off sid) = u32 val.
Proof.
  induction l as [| s l IH] using rev_ind; intros w sid Hin; [inversion Hin |].
  rewrite fold_left_app. simpl.
  unfold step at 1. unfold writel, readl. simpl.
  rewrite Nat.eqb_refl. simpl.
  destruct (off sid =? off s) eqn:E; [reflexivity |].
  apply in_app_or in Hin. destruct Hin as [Hin | [Heq | []]].
  - apply (IH w) in Hin. exact Hin.
  - subst s. rewrite Z.eqb_refl in E. discriminate.
Qed.

Lemma write_loop_miss : forall l w o,
  (forall sid, In sid l -> off sid <> o) ->
  readl (fold_left step l w) p o = readl w p o.
Proof.
  induction l as [| s l IH]; intros w o Hno; [reflexivity |].
  simpl. rewrite IH by (intros; apply Hno; right; assumption).
  unfold step, writel, readl. simpl. rewrite Nat.eqb_refl. simpl.
  destruct (o =? off s) eqn:E; [| reflexivity].
  apply Z.eqb_eq in E. exfalso. apply (Hno s); [left; reflexivity | auto].
Qed.

End WriteLoop.

Lemma DART_TCR_hw : forall d1 d2 sid,
  Dart.hw d1 = Dart.hw d2 -> DART_TCR d1 sid = DART_TCR d2 sid.
Proof. intros d1 d2 sid E. unfold DART_TCR. rewrite E. reflexivity. Qed.

Lemma of_match_tcr_disabled : forall h,
  In h apple_dart_of_match -> Hw.tcr_disabled h = 0.
Proof.
  intros h Hin. simpl in Hin.
  destruct Hin as [E | [E | [E | [E | []]]]]; subst h; reflexivity.
Qed.

(** C8.  Enable-bypass followed by disable-dma on a stream map: both calls
    return, and the TCR of every stream of the bitmap (a set bit below the
    unit's stream count) then holds the unit's disabled value, the last
    value written.  It is not the OR of the bypass and the disabled value
    where the two differ, and for the hardware generations the driver
    knows the register reads 0: neither the translate-enable nor a bypass
    bit is set.  This holds for every unit, an unlocked one in
    particular. *)
Theorem bypass_then_disable_dma_tcr :
  forall (w : world) (sm : StreamMap.t) (p : nat),
    StreamMap.dart sm = Some p ->
    exists w1 w2,
      apple_dart_hw_enable_bypass w sm = Done w1 /\
      apple_dart_hw_disable_dma w1 sm = Done w2 /\
      forall sid,
        0 <= sid < Dart.num_streams (darts w p) ->
        Z.testbit (StreamMap.sidmap sm) sid = true ->
        let hw := Dart.hw (darts w p) in
        let tcr := readl w2 p (DART_TCR (darts w p) sid) in
        tcr = u32 (Hw.tcr_disabled hw) /\
        (u32 (Z.lor (Hw.tcr_bypass hw) (Hw.tcr_disabled hw))
           <> u32 (Hw.tcr_disabled hw) ->
         tcr <> u32 (Z.lor (Hw.tcr_bypass hw) (Hw.tcr_disabled hw))) /\
        (In hw apple_dart_of_match ->
         tcr = 0 /\
         Z.land tcr (Z.lor (Hw.tcr_enabled hw) (Hw.tcr_bypass hw)) = 0).
Proof.
  intros w sm p Hp.
  unfold apple_dart_hw_enable_bypass. rewrite Hp. cbn [bind deref].
  set (w0 := WARN_ON (negb (Dart.supports_bypass (darts w p)))
               (WARN_ON (Dart.locked (darts w p)) w)).
  set (w1 := fold_left _ _ w0).
  assert (Hst : Dart.hw (darts w1 p) = Dart.hw (darts w p) /\
                Dart.num_streams (darts w1 p) = Dart.num_streams (darts w p)).
  { destruct (write_loop_static p (Hw.tcr_bypass (Dart.hw (darts w p)))
                (DART_TCR (darts w p))
                (for_each_set_bit (StreamMap.sidmap sm)
                   (Dart.num_streams (darts w p))) w0 p) as (H1 & H2 & _).
    unfold w0 in H1, H2. rewrite !darts_WARN_ON in H1, H2. auto. }
  destruct Hst as [Hhw Hns].
  exists w1. unfold apple_dart_hw_disable_dma. rewrite Hp. cbn [bind deref].
  eexists. split; [reflexivity |]. split; [reflexivity |].
  intros sid Hsid Hbit. cbv zeta.
  match goal with
  | |- ?t = _ /\ _ => assert (Htcr : t = u32 (Hw.tcr_disabled (Dart.hw (darts w p))))
  end.
  { rewrite <- (DART_TCR_hw _ _ sid Hhw), <- Hhw.
    apply (write_loop_hit p (Hw.tcr_disabled (Dart.hw (darts w1 p)))
             (DART_TCR (darts w1 p))).
    apply in_for_each_set_bit. rewrite Hns. auto. }
  split; [exact Htcr |]. split.
  - intros Hne. rewrite Htcr. auto.
  - intros Hin. rewrite Htcr, (of_match_tcr_disabled _ Hin).
    split; reflexivity.
Qed.

Lemma bypass_then_disable_dma_tcr_witness :
  exists w2,
    (w1 <- apple_dart_hw_enable_bypass world_t8103 streams_1_3 ;;
     apple_dart_hw_disable_dma w1 streams_1_3) = Done w2 /\
    readl w2 0 (DART_TCR dart_t8103 3) = 0.
Proof.
  destruct (bypass_then_disable_dma_tcr world_t8103 streams_1_3 0%nat eq_refl)
    as (w1 & w2 & H1 & H2 & H3).
  exists w2. rewrite H1. simpl. split; [exact H2 |].
  destruct (H3 3) as (_ & _ & H4).
  - vm_compute. split; [discriminate | reflexivity].
  - reflexivity.
  - apply H4. simpl. auto.
Defined.

(** ** Per-page operations *)

Section PerPage.
Context {pgtable : Type} `{IoPgtable pgtable}.

(** C9.  On a paging domain whose page-table handle is absent, map-range
    returns -ENODEV and iova-to-phys returns 0, the domain (and the running
    total of mapped bytes) being left as they were; unmap-range has no
    such test and dereferences the absent handle. *)
Theorem unfinalized_domain_ops :
  forall (dd : Domain.t pgtable)
         (iova paddr pgsize pgcount prot gfp mapped : Z),
    Domain.pgtbl_ops dd = None ->
    apple_dart_map_pages dd iova paddr pgsize pgcount prot gfp mapped
      = (- ENODEV, mapped, dd) /\
    apple_dart_iova_to_phys dd iova = 0 /\
    apple_dart_unmap_pages dd iova pgsize pgcount = NullDeref.
Proof.
  intros dd iova paddr pgsize pgcount prot gfp mapped Hops.
  unfold apple_dart_map_pages, apple_dart_iova_to_phys,
    apple_dart_unmap_pages.
  rewrite Hops. repeat split.
Qed.

(** C10.  On a finalized domain, map-range, unmap-range and iova-to-phys
    hand the page-table engine the IOVA masked with the domain's mask, so
    two IOVAs that agree on the mask bits give the same results and the
    same domain afterwards, whatever the engine. *)
Theorem per_page_ops_mask_iova :
  forall (dd : Domain.t pgtable) (ops : pgtable) (iova1 iova2 : Z)
         (paddr pgsize pgcount prot gfp mapped : Z),
    Domain.pgtbl_ops dd = Some ops ->
    Z.land iova1 (Domain.mask dd) = Z.land iova2 (Domain.mask dd) ->
    (apple_dart_map_pages dd iova1 paddr pgsize pgcount prot gfp mapped
       = (let '(ret, mapped', ops') :=
            map_pages ops (Z.land iova1 (Domain.mask dd)) paddr pgsize
                      pgcount prot gfp mapped in
          (ret, mapped', Domain.set_pgtbl_ops dd (Some ops'))) /\
     apple_dart_unmap_pages dd iova1 pgsize pgcount
       = (let '(unmapped, ops') :=
            unmap_pages ops (Z.land iova1 (Domain.mask dd)) pgsize pgcount in
          Done (unmapped, Domain.set_pgtbl_ops dd (Some ops'))) /\
     apple_dart_iova_to_phys dd iova1
       = iova_to_phys ops (Z.land iova1 (Domain.mask dd))) /\
    apple_dart_map_pages dd iova1 paddr pgsize pgcount prot gfp mapped
      = apple_dart_map_pages dd iova2 paddr pgsize pgcount prot gfp mapped /\
    apple_dart_unmap_pages dd iova1 pgsize pgcount
      = apple_dart_unmap_pages dd iova2 pgsize pgcount /\
    apple_dart_iova_to_phys dd iova1 = apple_dart_iova_to_phys dd iova2.
Proof.
  intros dd ops iova1 iova2 paddr pgsize pgcount prot gfp mapped Hops Hmask.
  unfold apple_dart_map_pages, apple_dart_iova_to_phys,
    apple_dart_unmap_pages.
  rewrite Hops, Hmask. cbn [bind deref]. repeat split.
Qed.

End PerPage.

Lemma unfinalized_domain_ops_witness :
  apple_dart_map_pages fresh_domain 0x4000 0x80000 SZ_16K 1 3 GFP_KERNEL 0
    = (- ENODEV, 0, fresh_domain) /\
  apple_dart_iova_to_phys fresh_domain 0x4000 = 0 /\
  apple_dart_unmap_pages fresh_domain 0x4000 SZ_16K 1 = NullDeref.
Proof.
  apply (unfinalized_domain_ops fresh_domain 0x4000 0x80000 SZ_16K 1 3
           GFP_KERNEL 0).
  reflexivity.
Defined.

Lemma per_page_ops_mask_iova_witness :
  apple_dart_iova_to_phys toy_domain (2 ^ 32 + 0x4010)
    = apple_dart_iova_to_phys toy_domain 0x4010 /\
  apple_dart_iova_to_phys toy_domain 0x4010 = 0x80010.
Proof.
  destruct (per_page_ops_mask_iova toy_domain
              (mkToy (PgtblCfg.mk SZ_16K 32 36 true 0%nat 3)
                     [(0x4000, 0x80000)])
              (2 ^ 32 + 0x4010) 0x4010 0 SZ_16K 1 3 GFP_KERNEL 0
              eq_refl eq_refl) as (_ & _ & _ & H).
  split; [exact H | reflexivity].
Defined.

(** ** Locked units: sync of the shadow tables *)

Lemma fold_left_invariant :
  forall (A B C : Type) (f : A -> B -> A) (P : A -> Prop)
         (E : B -> A -> Prop) (K : C -> A -> Prop) (l : list B),
    (forall b a, In b l -> P a ->
       P (f a b) /\ E b (f a b) /\
       (forall b', E b' a -> E b' (f a b)) /\
       (forall c, K c a -> K c (f a b))) ->
    forall a, P a ->
      P (fold_left f l a) /\
      (forall b, In b l -> E b (fold_left f l a)) /\
      (forall c, K c a -> K c (fold_left f l a)).
Proof.
  intros A B C f P E K l. induction l as [| b l IH]; intros Hstep a Pa.
  - cbn [fold_left]. repeat split; [assumption | intros b [] | auto].
  - cbn [fold_left].
    destruct (Hstep b a (or_introl eq_refl) Pa) as (P1 & E1 & E2 & K1).
    destruct (IH (fun b' a' Hin => Hstep b' a' (or_intror Hin)) (f a b) P1)
      as (P2 & E3 & K2).
    repeat split; [assumption | | auto].
    intros b' [F | Hin]; [subst b' | apply E3; exact Hin].
    clear - E1 E2 Hstep P1. revert P1 E1.
    generalize (f a b) as a1.
    assert (Hs : forall b' a', In b' l -> P a' ->
              P (f a' b') /\ (E b a' -> E b (f a' b'))).
    { intros b' a' Hin Pa'.
      destruct (Hstep b' a' (or_intror Hin) Pa') as (Q1 & _ & Q2 & _).
      split; [exact Q1 | apply Q2]. }
    clear Hstep E2. induction l as [| b1 l IHl]; intros a1 P1 E1.
    + exact E1.
    + cbn [fold_left].
      destruct (Hs b1 a1 (or_introl eq_refl) P1) as [Q1 Q2].
      apply IHl; [intros; apply Hs; [right |]; assumption | exact Q1 | auto].
Qed.

Lemma range_true : forall lo hi a,
  lo <= a < hi -> (lo <=? a) && (a <? hi) = true.
Proof.
  intros lo hi a Hr. apply andb_true_intro.
  split; [apply Z.leb_le | apply Z.ltb_lt]; lia.
Qed.

Lemma range_false : forall lo hi a,
  ~ (lo <= a < hi) -> (lo <=? a) && (a <? hi) = false.
Proof.
  intros lo hi a Hr. apply andb_false_iff.
  destruct (Z.le_gt_cases lo a) as [Hle | Hgt].
  - right. apply Z.ltb_ge. lia.
  - left. apply Z.leb_gt. lia.
Qed.

Lemma range_dec : forall lo hi a, {lo <= a < hi} + {~ (lo <= a < hi)}.
Proof.
  intros lo hi a.
  destruct (Z_le_dec lo a); destruct (Z_lt_dec a hi);
    (left; lia) || (right; lia).
Qed.

Lemma copy_table_apart : forall (k : nat) (m : Z -> byte) (L S : Z),
  (forall off off', 0 <= off < 8 * Z.of_nat k -> 0 <= off' < 8 * Z.of_nat k ->
     L + off <> S + off') ->
  forall a,
    fold_left (fun m entry => copy_entry m L S entry)
              (map Z.of_nat (seq 0 k)) m a
    = if (L <=? a) && (a <? L + 8 * Z.of_nat k)
      then m (S + (a - L)) else m a.
Proof.
  induction k as [| k IH]; intros m L S Hap a.
  - cbn [seq map fold_left]. rewrite range_false by lia. reflexivity.
  - rewrite seq_S, map_app, fold_left_app. cbn [map fold_left Nat.add].
    unfold copy_entry at 1.
    assert (Hap' : forall off off',
               0 <= off < 8 * Z.of_nat k -> 0 <= off' < 8 * Z.of_nat k ->
               L + off <> S + off') by (intros; apply Hap; lia).
    rewrite !(IH m L S Hap').
    destruct (range_dec (L + 8 * Z.of_nat k) (L + 8 * Z.of_nat k + 8) a)
      as [E | E].
    + rewrite (range_true _ _ a E).
      rewrite (range_true L (L + 8 * Z.of_nat (Datatypes.S k)) a) by lia.
      rewrite range_false.
      * f_equal. lia.
      * intros F.
        apply (Hap (S + 8 * Z.of_nat k + (a - (L + 8 * Z.of_nat k)) - L)
                   (a - L)); lia.
    + rewrite (range_false _ _ a E).
      destruct (range_dec L (L + 8 * Z.of_nat k) a) as [F | F].
      * rewrite (range_true _ _ a F).
        rewrite (range_true L (L + 8 * Z.of_nat (Datatypes.S k)) a) by lia.
        reflexivity.
      * rewrite (range_false _ _ a F).
        rewrite (range_false L (L + 8 * Z.of_nat (Datatypes.S k)) a) by lia.
        reflexivity.
Qed.

Section SyncLocked.
Variables (dart : Dart.t) (sidmap : Z) (m0 : Z -> byte).
Hypothesis Hapart : tables_apart dart sidmap.

Let n : Z := 8 * (Dart.pgsize dart / 8).
Let L : Z -> Z -> Z := Dart.locked_ttbr dart.
Let S : Z -> Z -> Z := Dart.shadow_ttbr dart.

(* Every byte is as before the sync or a copy of the shadow byte under it. *)
Let copied_or_kept (m : Z -> byte) : Prop :=
  forall a,
    m a = m0 a \/
    exists sid idx off,
      sync_slot dart sidmap sid idx /\ 0 <= off < n /\
      a = L sid idx + off /\ m a = m0 (S sid idx + off).

(* The locked table of a slot holds what its shadow held. *)
Let slot_synced (slot : Z * Z) (m : Z -> byte) : Prop :=
  sync_slot dart sidmap (fst slot) (snd slot) ->
  forall off, 0 <= off < n ->
    m (L (fst slot) (snd slot) + off) = m0 (S (fst slot) (snd slot) + off).

Lemma shadow_bytes_kept : forall m sid idx off,
  copied_or_kept m -> sync_slot dart sidmap sid idx -> 0 <= off < n ->
  m (S sid idx + off) = m0 (S sid idx + off).
Proof.
  intros m sid idx off Hm Hslot Hoff.
  destruct (Hm (S sid idx + off)) as [E | (s & i & o & Hs & Ho & Ea & _)];
    [exact E |].
  exfalso. destruct (Hapart s i sid idx o off Hs Hslot Ho Hoff) as [Hne _].
  apply Hne. symmetry. exact Ea.
Qed.

Lemma sync_locked_idx_step : forall sid idx m,
  0 <= sid < Dart.num_streams dart -> Z.testbit sidmap sid = true ->
  0 <= idx < Hw.ttbr_count (Dart.hw dart) ->
  copied_or_kept m ->
  copied_or_kept (sync_locked_idx dart sid m idx) /\
  slot_synced (sid, idx) (sync_locked_idx dart sid m idx) /\
  (forall slot, slot_synced slot m ->
                slot_synced slot (sync_locked_idx dart sid m idx)).
Proof.
  intros sid idx m Hsid Hbit Hidx Hm. unfold sync_locked_idx.
  fold (L sid idx). fold (S sid idx).
  destruct (L sid idx =? 0) eqn:EL.
  { apply Z.eqb_eq in EL. cbn [orb].
    repeat split; [exact Hm | | auto].
    intros (_ & _ & _ & Hl & _). exfalso. apply Hl. exact EL. }
  destruct (S sid idx =? 0) eqn:ES.
  { apply Z.eqb_eq in ES. cbn [orb].
    repeat split; [exact Hm | | auto].
    intros (_ & _ & _ & _ & Hs). exfalso. apply Hs. exact ES. }
  cbn [orb]. apply Z.eqb_neq in EL. apply Z.eqb_neq in ES.
  assert (Hslot : sync_slot dart sidmap sid idx)
    by (unfold sync_slot; auto).
  assert (Hc : 0 <= Dart.pgsize dart / 8 ->
               8 * Z.of_nat (Z.to_nat (Dart.pgsize dart / 8)) = n)
    by (intros; unfold n; lia).
  assert (Hspec : forall a,
            copy_table m (L sid idx) (S sid idx) (Dart.pgsize dart / 8) a
            = if (L sid idx <=? a) && (a <? L sid idx + n)
              then m0 (S sid idx + (a - L sid idx)) else m a).
  { intros a. unfold copy_table.
    destruct (Z_le_dec 0 (Dart.pgsize dart / 8)) as [Hpos | Hneg].
    - rewrite copy_table_apart.
      + rewrite (Hc Hpos).
        destruct (range_dec (L sid idx) (L sid idx + n) a) as [E | E].
        * rewrite (range_true _ _ a E).
          replace (S sid idx + (a - L sid idx))
            with (S sid idx + (a - L sid idx)) by reflexivity.
          apply shadow_bytes_kept; [exact Hm | exact Hslot | lia].
        * rewrite (range_false _ _ a E). reflexivity.
      + rewrite (Hc Hpos). intros off off' Ho Ho'.
        apply (Hapart sid idx sid idx off off' Hslot Hslot Ho Ho').
    - replace (Z.to_nat (Dart.pgsize dart / 8)) with 0%nat by lia.
      cbn [seq map fold_left].
      rewrite range_false; [reflexivity | unfold n; lia]. }
  repeat split.
  - intros a. rewrite Hspec.
    destruct (range_dec (L sid idx) (L sid idx + n) a) as [E | E].
    + rewrite (range_true _ _ a E). right.
      exists sid, idx, (a - L sid idx).
      split; [exact Hslot |]. split; [lia |]. split; [lia |].
      reflexivity.
    + rewrite (range_false _ _ a E). apply Hm.
  - intros _ off Hoff. cbn [fst snd]. rewrite Hspec.
    rewrite range_true by lia. f_equal. lia.
  - intros [s i] Hsi Hs off Hoff. cbn [fst snd] in *. rewrite Hspec.
    destruct (range_dec (L sid idx) (L sid idx + n) (L s i + off)) as [E | E].
    + rewrite (range_true _ _ _ E). f_equal.
      destruct (Hapart s i sid idx off (L s i + off - L sid idx) Hs Hslot Hoff)
        as [_ Heq]; [lia |].
      unfold L, S in *. assert (Heq' := Heq ltac:(lia)). lia.
    + rewrite (range_false _ _ _ E). apply Hsi; assumption.
Qed.

Lemma sync_locked_all : forall sids,
  (forall sid, In sid sids ->
     0 <= sid < Dart.num_streams dart /\ Z.testbit sidmap sid = true) ->
  let m := fold_left (sync_locked_sid dart) sids m0 in
  copied_or_kept m /\
  forall sid idx, In sid sids -> slot_synced (sid, idx) m.
Proof.
  intros sids Hsids m.
  destruct (fold_left_invariant (Z -> byte) Z (Z * Z) (sync_locked_sid dart)
              copied_or_kept
              (fun sid m => forall idx, slot_synced (sid, idx) m)
              slot_synced sids) with (a := m0) as (H1 & H2 & _).
  - intros sid m1 Hin Hm1. unfold sync_locked_sid.
    destruct (fold_left_invariant (Z -> byte) Z (Z * Z)
                (sync_locked_idx dart sid) copied_or_kept
                (fun idx m => slot_synced (sid, idx) m) slot_synced
                (map Z.of_nat
                   (seq 0 (Z.to_nat (Hw.ttbr_count (Dart.hw dart))))))
      with (a := m1) as (Q1 & Q2 & Q3).
    + intros idx m2 Hidx Hm2. apply in_map_iff in Hidx.
      destruct Hidx as (k & Hk & Hkin). apply in_seq in Hkin.
      destruct (Hsids sid Hin) as [Hr Hb].
      destruct (sync_locked_idx_step sid idx m2 Hr Hb) as (R1 & R2 & R3);
        [lia | exact Hm2 |].
      repeat split; [exact R1 | exact R2 | | exact R3].
      intros idx'. apply R3.
    + exact Hm1.
    + repeat split; [exact Q1 | | | exact Q3].
      * intros idx Hslot. apply Q2; [| exact Hslot].
        destruct Hslot as (_ & _ & Hi & _). cbn [fst snd] in Hi.
        apply in_map_iff. exists (Z.to_nat idx). split; [lia |].
        apply in_seq. lia.
      * intros sid' Hs idx. apply Q3. apply Hs.
  - intros a. left. reflexivity.
  - split; [exact H1 |]. intros sid idx Hin. apply H2. exact Hin.
Qed.

End SyncLocked.

(** C2.  On a locked unit, whatever the shadow tables hold, one call of
    the sync operation returns 0 and leaves, for every stream of the map
    and every table slot with both mappings present, the locked table
    equal to its shadow table byte for byte over the 8-byte entries of
    the page (all of the page when its size is a multiple of 8), the
    shadow table itself being as it was.  The locked and the shadow
    tables are taken to be different memory ([tables_apart]). *)
Theorem sync_locked_tables_identical :
  forall (w : world) (sm : StreamMap.t) (p : nat),
    StreamMap.dart sm = Some p ->
    Dart.locked (darts w p) = true ->
    tables_apart (darts w p) (StreamMap.sidmap sm) ->
    exists w',
      apple_dart_hw_sync_locked w sm = Done (0, w') /\
      darts w' = darts w /\ log w' = log w /\
      forall sid idx,
        sync_slot (darts w p) (StreamMap.sidmap sm) sid idx ->
        let locked := Dart.locked_ttbr (darts w p) sid idx in
        let shadow := Dart.shadow_ttbr (darts w p) sid idx in
        (forall off, 0 <= off < 8 * (Dart.pgsize (darts w p) / 8) ->
           mem w' (locked + off) = mem w' (shadow + off) /\
           mem w' (shadow + off) = mem w (shadow + off)) /\
        (Dart.pgsize (darts w p) mod 8 = 0 ->
         forall off, 0 <= off < Dart.pgsize (darts w p) ->
           mem w' (locked + off) = mem w' (shadow + off)).
Proof.
  intros w sm p Hp Hlocked Hapart.
  unfold apple_dart_hw_sync_locked. rewrite Hp. cbn [bind deref].
  rewrite Hlocked. cbn [negb WARN_ON].
  eexists. split; [reflexivity |].
  split; [reflexivity |]. split; [reflexivity |].
  intros sid idx Hslot. cbv zeta. cbn [mem set_mem].
  destruct (sync_locked_all (darts w p) (StreamMap.sidmap sm) (mem w) Hapart
              (for_each_set_bit (StreamMap.sidmap sm)
                 (Dart.num_streams (darts w p))))
    as [Hkept Hsynced].
  { intros s Hin. apply in_for_each_set_bit. exact Hin. }
  assert (Hin : In sid (for_each_set_bit (StreamMap.sidmap sm)
                          (Dart.num_streams (darts w p)))).
  { apply in_for_each_set_bit. destruct Hslot as (Hr & Hb & _). auto. }
  assert (Hall : forall off,
            0 <= off < 8 * (Dart.pgsize (darts w p) / 8) ->
            fold_left (sync_locked_sid (darts w p))
              (for_each_set_bit (StreamMap.sidmap sm)
                 (Dart.num_streams (darts w p))) (mem w)
              (Dart.locked_ttbr (darts w p) sid idx + off)
            = fold_left (sync_locked_sid (darts w p))
                (for_each_set_bit (StreamMap.sidmap sm)
                   (Dart.num_streams (darts w p))) (mem w)
                (Dart.shadow_ttbr (darts w p) sid idx + off) /\
            fold_left (sync_locked_sid (darts w p))
              (for_each_set_bit (StreamMap.sidmap sm)
                 (Dart.num_streams (darts w p))) (mem w)
              (Dart.shadow_ttbr (darts w p) sid idx + off)
            = mem w (Dart.shadow_ttbr (darts w p) sid idx + off)).
  { intros off Hoff.
    pose proof (shadow_bytes_kept (darts w p) (StreamMap.sidmap sm) (mem w)
                  Hapart _ sid idx off Hkept Hslot Hoff) as Hs.
    pose proof (Hsynced sid idx Hin Hslot off Hoff) as Hl.
    cbn [fst snd] in Hl. split; [| exact Hs].
    rewrite Hs. exact Hl. }
  split; [exact Hall |].
  intros Hmod off Hoff. apply Hall.
  rewrite <- Z.div_exact in Hmod by lia. lia.
Qed.

Lemma sync_locked_tables_identical_witness :
  exists w',
    apple_dart_hw_sync_locked world_t8110_locked stream_0 = Done (0, w') /\
    mem world_t8110_locked 0x10000 = x00 /\
    mem w' 0x10000 = mem w' 0x20000 /\ mem w' 0x20000 = x2a.
Proof.
  destruct (sync_locked_tables_identical world_t8110_locked stream_0 0%nat
              eq_refl eq_refl) as (w' & Hrun & _ & _ & Hsync).
  - intros sid idx sid' idx' off off' Hs Hs' Ho Ho'.
    destruct Hs as (_ & _ & _ & Hl & _). destruct Hs' as (_ & _ & _ & Hl' & _).
    cbn in Hl, Hl' |- *.
    destruct ((sid =? 0) && (idx =? 0)); [| contradiction].
    destruct ((sid' =? 0) && (idx' =? 0)); [| contradiction].
    change (8 * (Dart.pgsize (darts world_t8110_locked 0) / 8))
      with 16384 in Ho, Ho'. lia.
  - exists w'. split; [exact Hrun |]. split; [reflexivity |].
    destruct (Hsync 0 0) as [Hb _].
    + cbv. repeat split; discriminate.
    + destruct (Hb 0) as [H1 H2]; [vm_compute; split; [discriminate | reflexivity] |].
      split; [exact H1 | exact H2].
Defined.

(** ** Locked units: clearing a table slot *)

Lemma for_each_set_bit_NoDup : forall sidmap size,
  NoDup (for_each_set_bit sidmap size).
Proof.
  intros sidmap size. unfold for_each_set_bit.
  apply NoDup_filter. apply NoDup_map_NoDup_ForallPairs.
  - intros x y _ _ E. lia.
  - apply seq_NoDup.
Qed.

Lemma clear_locked_ttbr_sid_spec : forall p idx w sid,
  let dart := darts w p in
  let w' := clear_locked_ttbr_sid p idx w sid in
  Dart.pgsize (darts w' p) = Dart.pgsize dart /\
  Dart.locked_ttbr (darts w' p) = upd2 (Dart.locked_ttbr dart) sid idx 0 /\
  Dart.shadow_ttbr (darts w' p) = upd2 (Dart.shadow_ttbr dart) sid idx 0 /\
  mem w' = (if Dart.locked_ttbr dart sid idx =? 0 then mem w
            else memset (mem w) (Dart.locked_ttbr dart sid idx) x00
                        (Dart.pgsize dart)) /\
  log w' = log w ++ clear_events dart idx sid.
Proof.
  intros p idx w sid dart w'. subst dart w'.
  unfold clear_locked_ttbr_sid, clear_events.
  destruct (Dart.locked_ttbr (darts w p) sid idx =? 0);
    cbn; rewrite ?Nat.eqb_refl; cbn;
    destruct (Dart.shadow_ttbr (darts w p) sid idx =? 0);
    cbn; rewrite ?Nat.eqb_refl; cbn; rewrite ?app_nil_r, <- ?app_assoc;
    repeat split; reflexivity.
Qed.

Lemma existsb_ext_in : forall (A : Type) (f g : A -> bool) (l : list A),
  (forall x, In x l -> f x = g x) -> existsb f l = existsb g l.
Proof.
  intros A f g l. induction l as [| x l IH]; intros Hext; [reflexivity |].
  cbn [existsb]. rewrite (Hext x (or_introl eq_refl)).
  rewrite IH by (intros; apply Hext; right; assumption). reflexivity.
Qed.

Lemma flat_map_ext_in : forall (A B : Type) (f g : A -> list B) (l : list A),
  (forall x, In x l -> f x = g x) -> flat_map f l = flat_map g l.
Proof.
  intros A B f g l. induction l as [| x l IH]; intros Hext; [reflexivity |].
  cbn [flat_map]. rewrite (Hext x (or_introl eq_refl)).
  rewrite IH by (intros; apply Hext; right; assumption). reflexivity.
Qed.

Lemma existsb_eqb_In : forall (s : Z) (l : list Z),
  existsb (Z.eqb s) l = true <-> In s l.
Proof.
  intros s l. rewrite existsb_exists. split.
  - intros (x & Hin & E). apply Z.eqb_eq in E. subst x. exact Hin.
  - intros Hin. exists s. split; [exact Hin | apply Z.eqb_refl].
Qed.

Lemma clear_locked_ttbr_loop : forall p idx sids w,
  NoDup sids ->
  let dart := darts w p in
  let w' := fold_left (clear_locked_ttbr_sid p idx) sids w in
  Dart.pgsize (darts w' p) = Dart.pgsize dart /\
  (forall s i,
     Dart.locked_ttbr (darts w' p) s i
     = if existsb (Z.eqb s) sids && (i =? idx) then 0
       else Dart.locked_ttbr dart s i) /\
  (forall s i,
     Dart.shadow_ttbr (darts w' p) s i
     = if existsb (Z.eqb s) sids && (i =? idx) then 0
       else Dart.shadow_ttbr dart s i) /\
  (forall a,
     mem w' a = if in_locked_table dart idx sids a then x00 else mem w a) /\
  log w' = log w ++ flat_map (clear_events dart idx) sids.
Proof.
  intros p idx sids. induction sids as [| sid l IH]; intros w Hnd dart w'.
  - subst dart w'. cbn. rewrite app_nil_r. repeat split.
  - inversion Hnd as [| x l' Hnotin Hnd']. subst x l'.
    subst w'. cbn [fold_left].
    destruct (clear_locked_ttbr_sid_spec p idx w sid)
      as (Spg & Sl & Ss & Sm & Slog).
    destruct (IH (clear_locked_ttbr_sid p idx w sid) Hnd')
      as (Ipg & Il & Is & Im & Ilog).
    fold dart in Spg, Sl, Ss, Sm, Slog.
    set (w1 := clear_locked_ttbr_sid p idx w sid) in *.
    assert (Hl1 : forall s, In s l ->
              Dart.locked_ttbr (darts w1 p) s idx = Dart.locked_ttbr dart s idx).
    { intros s Hin. rewrite Sl. unfold upd2.
      destruct (s =? sid) eqn:E; [| reflexivity].
      apply Z.eqb_eq in E. subst s. contradiction. }
    assert (Hs1 : forall s, In s l ->
              Dart.shadow_ttbr (darts w1 p) s idx = Dart.shadow_ttbr dart s idx).
    { intros s Hin. rewrite Ss. unfold upd2.
      destruct (s =? sid) eqn:E; [| reflexivity].
      apply Z.eqb_eq in E. subst s. contradiction. }
    split; [rewrite Ipg; exact Spg |].
    split; [| split; [| split]].
    + intros s i. rewrite Il, Sl. unfold upd2. cbn [existsb].
      destruct (s =? sid), (existsb (Z.eqb s) l), (i =? idx); reflexivity.
    + intros s i. rewrite Is, Ss. unfold upd2. cbn [existsb].
      destruct (s =? sid), (existsb (Z.eqb s) l), (i =? idx); reflexivity.
    + intros a. rewrite Im, Sm. unfold in_locked_table. cbn [existsb].
      rewrite (existsb_ext_in _ _
                 (fun sid0 =>
                    negb (Dart.locked_ttbr dart sid0 idx =? 0)
                    && ((Dart.locked_ttbr dart sid0 idx <=? a)
                        && (a <? Dart.locked_ttbr dart sid0 idx
                                 + Dart.pgsize dart))) l).
      * destruct (existsb _ l); [rewrite orb_true_r; reflexivity |].
        rewrite orb_false_r. unfold memset.
        destruct (Dart.locked_ttbr dart sid idx =? 0); reflexivity.
      * intros s Hin. rewrite (Hl1 s Hin), Spg. reflexivity.
    + rewrite Ilog, Slog. rewrite <- app_assoc. f_equal. cbn [flat_map].
      f_equal. apply flat_map_ext_in. intros s Hin. unfold clear_events.
      rewrite (Hl1 s Hin), (Hs1 s Hin), Spg. reflexivity.
Qed.

(** C3, as the code has it.  On a locked unit, clearing table slot [idx]
    for the streams of a map returns 0 and leaves both the locked-table
    pointer and the shadow pointer of every such stream NULL, each mapping
    that was present having been unmapped.  The memory it zeroes is that
    of the locked table, over the whole page and immediately before that
    table is unmapped; no shadow table is zeroed: only locked tables are
    memset, and every byte outside them keeps its value. *)
Theorem clear_locked_ttbr_zeroes_locked_table :
  forall (w : world) (sm : StreamMap.t) (p : nat) (idx : Z),
    StreamMap.dart sm = Some p ->
    Dart.locked (darts w p) = true ->
    let dart := darts w p in
    let selected := fun sid =>
      0 <= sid < Dart.num_streams dart /\
      Z.testbit (StreamMap.sidmap sm) sid = true in
    exists w' evs,
      apple_dart_hw_clear_locked_ttbr w sm idx = Done (0, w') /\
      log w' = log w ++ evs /\
      (forall sid, selected sid ->
         Dart.locked_ttbr (darts w' p) sid idx = 0 /\
         Dart.shadow_ttbr (darts w' p) sid idx = 0) /\
      (forall sid, selected sid -> Dart.locked_ttbr dart sid idx <> 0 ->
         (forall off, 0 <= off < Dart.pgsize dart ->
            mem w' (Dart.locked_ttbr dart sid idx + off) = x00) /\
         exists pre post,
           evs = pre ++ [EvMemset (Dart.locked_ttbr dart sid idx)
                                  (Dart.pgsize dart);
                         EvMemunmap (Dart.locked_ttbr dart sid idx)] ++ post) /\
      (forall sid, selected sid -> Dart.shadow_ttbr dart sid idx <> 0 ->
         In (EvMemunmap (Dart.shadow_ttbr dart sid idx)) evs) /\
      (forall q len, In (EvMemset q len) evs ->
         exists sid, selected sid /\ q = Dart.locked_ttbr dart sid idx /\
                     q <> 0) /\
      (forall a,
         (forall sid, selected sid -> Dart.locked_ttbr dart sid idx <> 0 ->
            ~ (Dart.locked_ttbr dart sid idx <= a
               < Dart.locked_ttbr dart sid idx + Dart.pgsize dart)) ->
         mem w' a = mem w a).
Proof.
  intros w sm p idx Hp Hlocked dart selected.
  unfold apple_dart_hw_clear_locked_ttbr. rewrite Hp. cbn [bind deref].
  rewrite Hlocked. cbn [negb WARN_ON]. fold dart.
  set (sids := for_each_set_bit (StreamMap.sidmap sm) (Dart.num_streams dart)).
  destruct (clear_locked_ttbr_loop p idx sids w
              (for_each_set_bit_NoDup _ _)) as (_ & Hl & Hs & Hm & Hlog).
  fold dart in Hl, Hs, Hm, Hlog.
  assert (Hsel : forall sid, selected sid <-> In sid sids).
  { intros sid. unfold selected, sids. symmetry.
    apply in_for_each_set_bit. }
  eexists. exists (flat_map (clear_events dart idx) sids).
  split; [reflexivity |]. split; [exact Hlog |].
  split; [| split; [| split; [| split]]].
  - intros sid Hsid. apply Hsel, existsb_eqb_In in Hsid.
    rewrite Hl, Hs, Hsid, Z.eqb_refl. split; reflexivity.
  - intros sid Hsid Hne. apply Hsel in Hsid. split.
    + intros off Hoff. rewrite Hm.
      replace (in_locked_table dart idx sids
                 (Dart.locked_ttbr dart sid idx + off)) with true;
        [reflexivity |].
      symmetry. apply existsb_exists. exists sid. split; [exact Hsid |].
      apply Z.eqb_neq in Hne. rewrite Hne. cbn [negb andb].
      apply range_true. lia.
    + destruct (in_split sid sids Hsid) as (l1 & l2 & E).
      exists (flat_map (clear_events dart idx) l1).
      exists ((if Dart.shadow_ttbr dart sid idx =? 0 then []
               else [EvMemunmap (Dart.shadow_ttbr dart sid idx)])
              ++ flat_map (clear_events dart idx) l2).
      rewrite E, flat_map_app. cbn [flat_map]. f_equal.
      unfold clear_events at 1. apply Z.eqb_neq in Hne. rewrite Hne.
      rewrite <- !app_assoc. reflexivity.
  - intros sid Hsid Hne. apply Hsel in Hsid.
    apply in_flat_map. exists sid. split; [exact Hsid |].
    unfold clear_events. apply in_or_app. right.
    apply Z.eqb_neq in Hne. rewrite Hne. left. reflexivity.
  - intros q len Hin. apply in_flat_map in Hin.
    destruct Hin as (sid & Hsid & Hin). exists sid.
    split; [apply Hsel; exact Hsid |].
    unfold clear_events in Hin. apply in_app_or in Hin.
    destruct Hin as [Hin | Hin].
    + destruct (Dart.locked_ttbr dart sid idx =? 0) eqn:E; [destruct Hin |].
      apply Z.eqb_neq in E.
      destruct Hin as [F | [F | []]]; [| discriminate].
      injection F as F1 F2. split; [symmetry; exact F1 | rewrite <- F1; exact E].
    + destruct (Dart.shadow_ttbr dart sid idx =? 0); [destruct Hin |].
      destruct Hin as [F | []]. discriminate.
  - intros a Hout. rewrite Hm.
    destruct (in_locked_table dart idx sids a) eqn:E; [| reflexivity].
    exfalso. unfold in_locked_table in E. apply existsb_exists in E.
    destruct E as (sid & Hsid & E).
    apply andb_prop in E. destruct E as [E1 E2].
    apply andb_prop in E2. destruct E2 as [E2 E3].
    apply negb_true_iff, Z.eqb_neq in E1.
    apply Z.leb_le in E2. apply Z.ltb_lt in E3.
    apply (Hout sid); [apply Hsel; exact Hsid | exact E1 | lia].
Qed.

(** C3 as worded: the shadow memory is not zeroed.  Stream 0 of the locked
    unit has its locked table at 0x10000 and its shadow at 0x20000, whose
    first byte is 0x2a; clearing slot 0 unmaps both and leaves that byte
    0x2a. *)
Lemma clear_locked_ttbr_keeps_shadow_bytes :
  exists w',
    apple_dart_hw_clear_locked_ttbr world_t8110_locked stream_0 0
      = Done (0, w') /\
    Dart.shadow_ttbr (darts world_t8110_locked 0) 0 0 = 0x20000 /\
    mem world_t8110_locked 0x20000 = x2a /\
    Dart.shadow_ttbr (darts w' 0) 0 0 = 0 /\
    mem w' 0x20000 = x2a /\
    mem w' 0x20000 <> x00 /\
    log w' = [EvMemset 0x10000 SZ_16K; EvMemunmap 0x10000; EvMemunmap 0x20000].
Proof.
  eexists. split; [reflexivity |].
  repeat split; try reflexivity. discriminate.
Qed.

Lemma clear_locked_ttbr_zeroes_locked_table_witness :
  exists w',
    apple_dart_hw_clear_locked_ttbr world_t8110_locked stream_0 0
      = Done (0, w') /\
    Dart.locked_ttbr (darts w' 0) 0 0 = 0 /\
    Dart.shadow_ttbr (darts w' 0) 0 0 = 0 /\
    mem w' 0x10000 = x00.
Proof.
  destruct (clear_locked_ttbr_zeroes_locked_table world_t8110_locked stream_0
              0%nat 0 eq_refl eq_refl)
    as (w' & evs & Hrun & _ & Hptr & Hzero & _).
  exists w'. split; [exact Hrun |].
  assert (Hsel : 0 <= 0 < Dart.num_streams (darts world_t8110_locked 0) /\
                 Z.testbit (StreamMap.sidmap stream_0) 0 = true)
    by (split; [cbn; lia | reflexivity]).
  destruct (Hptr 0 Hsel) as [Hl Hs].
  split; [exact Hl |]. split; [exact Hs |].
  destruct (Hzero 0 Hsel) as [Hz _]; [cbn; lia |].
  apply (Hz 0). cbn. unfold SZ_16K. lia.
Defined.

(** ** Attach to the identity domain *)

(** The part of C4 the code implements: when the config's bypass flag is
    clear, or the unit of its first slot is locked, the attach returns
    -EINVAL and nothing has been touched, no register written. *)
Lemma attach_dev_identity_rejects :
  forall (Pl : Platform) (w : world) (cfg : MasterCfg.t) (p0 : nat),
    StreamMap.dart (MasterCfg.stream_maps cfg 0%nat) = Some p0 ->
    MasterCfg.supports_bypass cfg = false \/ Dart.locked (darts w p0) = true ->
    apple_dart_attach_dev_identity w cfg = Done (- EINVAL, w).
Proof.
  intros Pl w cfg p0 Hp0 Hbad. unfold apple_dart_attach_dev_identity.
  destruct (MasterCfg.supports_bypass cfg); cbn [negb]; [| reflexivity].
  rewrite Hp0. cbn [bind deref].
  destruct Hbad as [Hb | Hl]; [discriminate | rewrite Hl; reflexivity].
Qed.

(** C4 at a device whose second unit is locked.  The two specifiers
    (unit 0, stream 0) and (unit 1, stream 0) are accepted by of_xlate and
    give a config with the bypass flag set; unit 1 is locked.  The attach
    to the identity domain returns 0, not -EINVAL, having written the
    bypass value to the TCR of stream 0 of the locked unit, the WARN_ON
    of enable-bypass firing on the way. *)
Theorem attach_dev_identity_second_unit_locked :
  (r <- apple_dart_of_xlate world_two_units None 0%nat 1 0 true ;;
   apple_dart_of_xlate world_two_units (snd r) 1%nat 1 0 true)
    = Done (0, Some cfg_units_0_1) /\
  MasterCfg.supports_bypass cfg_units_0_1 = true /\
  Dart.supports_bypass (darts world_two_units 1) = true /\
  Dart.locked (darts world_two_units 1) = true /\
  exists w',
    apple_dart_attach_dev_identity world_two_units cfg_units_0_1
      = Done (0, w') /\
    log w' = [EvPmGet 0%nat; EvPmGet 1%nat;
              EvWritel 0%nat 6 0x1000;
              EvWarn; EvWritel 1%nat 6 0x1000;
              EvPmPut 0%nat; EvPmPut 1%nat] /\
    readl world_two_units 1 0x1000 = 1 /\
    readl w' 1 0x1000 = 6.
Proof.
  split; [reflexivity |].
  repeat split; try reflexivity.
  eexists. split; [reflexivity |]. repeat split; reflexivity.
Qed.

(** ** Firmware specifiers *)

Lemma find_stream_map_Some : forall f maps n s i,
  find_stream_map f maps s n = Some i ->
  (s <= i < s + n)%nat /\ f (maps i) = true /\
  forall j, (s <= j < i)%nat -> f (maps j) = false.
Proof.
  intros f maps n. induction n as [| n IH]; intros s i Hfind.
  - discriminate.
  - cbn [find_stream_map] in Hfind. destruct (f (maps s)) eqn:E.
    + injection Hfind as Hfind. subst i.
      repeat split; [lia | lia | exact E | intros j Hj; lia].
    + destruct (IH (S s) i Hfind) as (Hr & Hf & Hlt).
      repeat split; [lia | lia | exact Hf |].
      intros j Hj. destruct (Nat.eq_dec j s) as [-> | Hne]; [exact E |].
      apply Hlt. lia.
Qed.

Lemma find_stream_map_None : forall f maps n s,
  find_stream_map f maps s n = None ->
  forall j, (s <= j < s + n)%nat -> f (maps j) = false.
Proof.
  intros f maps n. induction n as [| n IH]; intros s Hfind j Hj.
  - lia.
  - cbn [find_stream_map] in Hfind. destruct (f (maps s)) eqn:E;
      [discriminate |].
    destruct (Nat.eq_dec j s) as [-> | Hne]; [exact E |].
    apply (IH (S s) Hfind). lia.
Qed.

Lemma dart_is_true : forall dart sm,
  dart_is dart sm = true <-> StreamMap.dart sm = Some dart.
Proof.
  intros dart sm. unfold dart_is. destruct (StreamMap.dart sm) as [q |].
  - rewrite Nat.eqb_eq. split; [intros -> | intros [= ->]]; reflexivity.
  - split; discriminate.
Qed.

Lemma dart_is_null_true : forall sm,
  dart_is_null sm = true <-> StreamMap.dart sm = None.
Proof.
  intros sm. unfold dart_is_null. destruct (StreamMap.dart sm);
    split; (reflexivity || discriminate).
Qed.

Lemma int_of_u32_small : forall x, 0 <= x < 2 ^ 31 -> int_of_u32 x = x.
Proof.
  intros x Hx. unfold int_of_u32, u32.
  rewrite Z.mod_small by lia.
  destruct (x <? 2 ^ 31) eqn:E; [reflexivity |].
  apply Z.ltb_ge in E. lia.
Qed.

Lemma of_xlate_in_range :
  forall (w : world) (priv : option MasterCfg.t) (dart : nat) (sid : Z)
         (kzalloc_ok : bool),
    let cfg0 := match priv with
                | Some cfg => cfg
                | None => fresh_master_cfg
                end in
    let maps := MasterCfg.stream_maps cfg0 in
    (priv = None -> kzalloc_ok = true) ->
    0 <= sid < DART_MAX_STREAMS ->
    (forall q, StreamMap.dart (maps 0%nat) = Some q ->
               Dart.pgsize (darts w q) = Dart.pgsize (darts w dart)) ->
    exists ret cfg',
      apple_dart_of_xlate w priv dart 1 sid kzalloc_ok
        = Done (ret, Some cfg') /\
      (priv = None ->
       MasterCfg.supports_bypass cfg0 = true /\
       forall i, StreamMap.dart (maps i) = None) /\
      MasterCfg.supports_bypass cfg'
        = MasterCfg.supports_bypass cfg0
          && Dart.supports_bypass (darts w dart) /\
      let maps' := MasterCfg.stream_maps cfg' in
      let named := fun i => StreamMap.dart (maps i) = Some dart in
      let free := fun i => StreamMap.dart (maps i) = None in
      let set_in := fun i =>
        ret = 0 /\ (i < MAX_DARTS_PER_DEVICE)%nat /\
        StreamMap.dart (maps' i) = Some dart /\
        (forall b, 0 <= b ->
           Z.testbit (StreamMap.sidmap (maps' i)) b
           = (b =? sid) || Z.testbit (StreamMap.sidmap (maps i)) b) /\
        (forall j, j <> i -> maps' j = maps j) in
      ((exists i, (i < MAX_DARTS_PER_DEVICE)%nat /\ named i) ->
       exists i, named i /\ (forall j, (j < i)%nat -> ~ named j) /\
                 set_in i) /\
      ((forall i, (i < MAX_DARTS_PER_DEVICE)%nat -> ~ named i) ->
       (exists i, (i < MAX_DARTS_PER_DEVICE)%nat /\ free i) ->
       exists i, free i /\ (forall j, (j < i)%nat -> ~ free j) /\
                 set_in i) /\
      ((forall i, (i < MAX_DARTS_PER_DEVICE)%nat -> ~ named i /\ ~ free i) ->
       ret = - EINVAL /\ maps' = maps).
Proof.
  intros w priv dart sid kz cfg0 maps Hkz Hsid Hpg.
  unfold apple_dart_of_xlate. cbn [Z.eqb Pos.eqb negb].
  rewrite int_of_u32_small by (unfold DART_MAX_STREAMS in Hsid; lia).
  assert (Hcfg : match priv with
                 | Some cfg => Done cfg
                 | None => if kz then Done fresh_master_cfg else NullDeref
                 end = Done cfg0).
  { subst cfg0. destruct priv; [reflexivity |].
    rewrite (Hkz eq_refl). reflexivity. }
  rewrite Hcfg. cbn [bind]. fold maps.
  assert (Hmm : match StreamMap.dart (maps 0%nat) with
                | Some cfg_dart =>
                    negb (Dart.pgsize (darts w cfg_dart)
                          =? Dart.pgsize (darts w dart))
                | None => false
                end = false).
  { destruct (StreamMap.dart (maps 0%nat)) as [q |]; [| reflexivity].
    rewrite (Hpg q eq_refl), Z.eqb_refl. reflexivity. }
  rewrite Hmm. cbv zeta.
  set (cfg1 := if negb (Dart.supports_bypass (darts w dart))
               then MasterCfg.mk false maps
               else cfg0).
  assert (Hmaps1 : MasterCfg.stream_maps cfg1 = maps)
    by (subst cfg1; destruct (Dart.supports_bypass (darts w dart));
        reflexivity).
  assert (Hsb1 : MasterCfg.supports_bypass cfg1
                 = MasterCfg.supports_bypass cfg0
                   && Dart.supports_bypass (darts w dart)).
  { subst cfg1. destruct (Dart.supports_bypass (darts w dart)); cbn;
      [rewrite andb_true_r | rewrite andb_false_r]; reflexivity. }
  rewrite Hmaps1.
  assert (Hfresh : priv = None ->
                   MasterCfg.supports_bypass cfg0 = true /\
                   forall i, StreamMap.dart (maps i) = None).
  { intros ->. subst maps cfg0. split; reflexivity. }
  assert (Hbits : forall old b, 0 <= b ->
            Z.testbit (Z.setbit old sid) b = (b =? sid) || Z.testbit old b).
  { intros old b Hb. rewrite Z.setbit_eqb by lia.
    rewrite (Z.eqb_sym sid b). reflexivity. }
  assert (Hset : forall old, set_bit sid old = Done (Z.setbit old sid)).
  { intros old. unfold set_bit.
    replace ((0 <=? sid) && (sid <? DART_MAX_STREAMS)) with true;
      [reflexivity |].
    symmetry. apply andb_true_intro.
    split; [apply Z.leb_le | apply Z.ltb_lt]; lia. }
  destruct (find_stream_map (dart_is dart) maps 0 MAX_DARTS_PER_DEVICE)
    as [i |] eqn:Fnamed.
  - apply find_stream_map_Some in Fnamed.
    destruct Fnamed as (Hi & Hf & Hlt). apply dart_is_true in Hf.
    rewrite Hset. cbn [bind].
    eexists. eexists. split; [reflexivity |]. cbn [MasterCfg.supports_bypass
      MasterCfg.stream_maps]. split; [exact Hfresh |]. split; [exact Hsb1 |].
    split; [| split].
    + intros _. exists i. split; [exact Hf |]. split.
      * intros j Hj Hn. apply dart_is_true in Hn.
        rewrite Hlt in Hn by lia. discriminate.
      * split; [reflexivity |]. split; [lia |].
        unfold set_stream_map. rewrite Nat.eqb_refl.
        cbn [StreamMap.dart StreamMap.sidmap].
        split; [exact Hf |]. split; [apply Hbits |].
        intros j Hj. apply Nat.eqb_neq in Hj. rewrite Hj. reflexivity.
    + intros Hnone. exfalso. apply (Hnone i); [lia | exact Hf].
    + intros Hnone. exfalso. destruct (Hnone i) as [Hn _]; [lia |].
      apply Hn. exact Hf.
  - pose proof (find_stream_map_None _ _ _ _ Fnamed) as Hnn.
    assert (Hnot : forall j, (j < MAX_DARTS_PER_DEVICE)%nat ->
                     StreamMap.dart (maps j) <> Some dart).
    { intros j Hj Hn. apply dart_is_true in Hn.
      rewrite Hnn in Hn by lia. discriminate. }
    destruct (find_stream_map dart_is_null maps 0 MAX_DARTS_PER_DEVICE)
      as [i |] eqn:Ffree.
    + apply find_stream_map_Some in Ffree.
      destruct Ffree as (Hi & Hf & Hlt). apply dart_is_null_true in Hf.
      rewrite Hset. cbn [bind].
      eexists. eexists. split; [reflexivity |].
      cbn [MasterCfg.supports_bypass MasterCfg.stream_maps].
      split; [exact Hfresh |]. split; [exact Hsb1 |].
      split; [| split].
      * intros (j & Hj & Hn). exfalso. apply (Hnot j Hj Hn).
      * intros _ _. exists i. split; [exact Hf |]. split.
        -- intros j Hj Hn. apply dart_is_null_true in Hn.
           rewrite Hlt in Hn by lia. discriminate.
        -- split; [reflexivity |]. split; [lia |].
           unfold set_stream_map. rewrite Nat.eqb_refl.
           cbn [StreamMap.dart StreamMap.sidmap].
           split; [reflexivity |]. split; [apply Hbits |].
           intros j Hj. apply Nat.eqb_neq in Hj. rewrite Hj. reflexivity.
      * intros Hnone. exfalso. destruct (Hnone i) as [_ Hn]; [lia |].
        apply Hn. exact Hf.
    + pose proof (find_stream_map_None _ _ _ _ Ffree) as Hnf.
      eexists. eexists. split; [reflexivity |].
      split; [exact Hfresh |]. split; [exact Hsb1 |].
      split; [| split].
      * intros (j & Hj & Hn). exfalso. apply (Hnot j Hj Hn).
      * intros _ (j & Hj & Hn). exfalso. apply dart_is_null_true in Hn.
        rewrite Hnf in Hn by lia. discriminate.
      * intros _. split; [reflexivity | exact Hmaps1].
Qed.

(** C7, as the code has it.  A specifier with another number of
    arguments than one is rejected with -EINVAL, and so is one whose unit
    has another page size than the unit in the config's first slot;
    neither changes anything.  For a specifier with exactly one argument,
    a stream id below DART_MAX_STREAMS, whose unit has the page size of
    the unit in the config's first slot (if there is one): a device
    without a config gets a fresh one whose bypass flag starts true and
    whose slots are empty; the unit's bypass support is ANDed into the
    flag; the call returns 0 with the stream's bit set in the first slot
    that already names the unit, else in the first free slot among the
    MAX_DARTS_PER_DEVICE, which then names the unit, all other slots and
    bits being as before; and it returns -EINVAL, the slots untouched,
    when all slots name other units.  The stream id is not checked: with
    one outside the bitmap, and a slot to set it in, the write lands
    outside the bitmap. *)
Theorem of_xlate_sets_stream :
  forall (w : world) (priv : option MasterCfg.t) (dart : nat)
         (args_count sid : Z) (kzalloc_ok : bool),
    let cfg0 := match priv with
                | Some cfg => cfg
                | None => fresh_master_cfg
                end in
    let maps := MasterCfg.stream_maps cfg0 in
    (priv = None -> kzalloc_ok = true) ->
    (args_count <> 1 ->
     apple_dart_of_xlate w priv dart args_count sid kzalloc_ok
     = Done (- EINVAL, priv)) /\
    (forall q,
       args_count = 1 ->
       StreamMap.dart (maps 0%nat) = Some q ->
       Dart.pgsize (darts w q) <> Dart.pgsize (darts w dart) ->
       apple_dart_of_xlate w priv dart args_count sid kzalloc_ok
       = Done (- EINVAL, priv)) /\
    (args_count = 1 ->
     (forall q, StreamMap.dart (maps 0%nat) = Some q ->
                Dart.pgsize (darts w q) = Dart.pgsize (darts w dart)) ->
     ~ 0 <= int_of_u32 sid < DART_MAX_STREAMS ->
     (exists i, (i < MAX_DARTS_PER_DEVICE)%nat /\
                (StreamMap.dart (maps i) = Some dart \/
                 StreamMap.dart (maps i) = None)) ->
     apple_dart_of_xlate w priv dart args_count sid kzalloc_ok
     = OutOfBounds) /\
    (args_count = 1 ->
     0 <= sid < DART_MAX_STREAMS ->
     (forall q, StreamMap.dart (maps 0%nat) = Some q ->
                Dart.pgsize (darts w q) = Dart.pgsize (darts w dart)) ->
     exists ret cfg',
       apple_dart_of_xlate w priv dart args_count sid kzalloc_ok
         = Done (ret, Some cfg') /\
       (priv = None ->
        MasterCfg.supports_bypass cfg0 = true /\
        forall i, StreamMap.dart (maps i) = None) /\
       MasterCfg.supports_bypass cfg'
         = MasterCfg.supports_bypass cfg0
           && Dart.supports_bypass (darts w dart) /\
       let maps' := MasterCfg.stream_maps cfg' in
       let named := fun i => StreamMap.dart (maps i) = Some dart in
       let free := fun i => StreamMap.dart (maps i) = None in
       let set_in := fun i =>
         ret = 0 /\ (i < MAX_DARTS_PER_DEVICE)%nat /\
         StreamMap.dart (maps' i) = Some dart /\
         (forall b, 0 <= b ->
            Z.testbit (StreamMap.sidmap (maps' i)) b
            = (b =? sid) || Z.testbit (StreamMap.sidmap (maps i)) b) /\
         (forall j, j <> i -> maps' j = maps j) in
       ((exists i, (i < MAX_DARTS_PER_DEVICE)%nat /\ named i) ->
        exists i, named i /\ (forall j, (j < i)%nat -> ~ named j) /\
                  set_in i) /\
       ((forall i, (i < MAX_DARTS_PER_DEVICE)%nat -> ~ named i) ->
        (exists i, (i < MAX_DARTS_PER_DEVICE)%nat /\ free i) ->
        exists i, free i /\ (forall j, (j < i)%nat -> ~ free j) /\
                  set_in i) /\
       ((forall i, (i < MAX_DARTS_PER_DEVICE)%nat -> ~ named i /\ ~ free i) ->
        ret = - EINVAL /\ maps' = maps)).
Proof.
  intros w priv dart args_count sid kz cfg0 maps Hkz.
  assert (Hcfg : match priv with
                 | Some cfg => Done cfg
                 | None => if kz then Done fresh_master_cfg else NullDeref
                 end = Done cfg0).
  { subst cfg0. destruct priv; [reflexivity |].
    rewrite (Hkz eq_refl). reflexivity. }
  split; [| split; [| split]].
  - intros Hne. unfold apple_dart_of_xlate.
    apply Z.eqb_neq in Hne. rewrite Hne. reflexivity.
  - intros q -> Hq Hpg. unfold apple_dart_of_xlate.
    cbn [Z.eqb Pos.eqb negb]. rewrite Hcfg. cbn [bind]. fold maps.
    rewrite Hq. apply Z.eqb_neq in Hpg. rewrite Hpg. cbn [negb].
    destruct priv as [cfg |]; [reflexivity |].
    subst maps cfg0. discriminate Hq.
  - intros -> Hpg Hout (i & Hi & Hslot). unfold apple_dart_of_xlate.
    cbn [Z.eqb Pos.eqb negb]. rewrite Hcfg. cbn [bind]. fold maps.
    assert (Hmm : match StreamMap.dart (maps 0%nat) with
                  | Some cfg_dart =>
                      negb (Dart.pgsize (darts w cfg_dart)
                            =? Dart.pgsize (darts w dart))
                  | None => false
                  end = false).
    { destruct (StreamMap.dart (maps 0%nat)) as [q |]; [| reflexivity].
      rewrite (Hpg q eq_refl), Z.eqb_refl. reflexivity. }
    rewrite Hmm. cbv zeta.
    assert (Hmaps1 : MasterCfg.stream_maps
                       (if negb (Dart.supports_bypass (darts w dart))
                        then MasterCfg.mk false maps
                        else cfg0) = maps)
      by (destruct (Dart.supports_bypass (darts w dart)); reflexivity).
    rewrite Hmaps1.
    assert (Hset : forall old, set_bit (int_of_u32 sid) old = OutOfBounds).
    { intros old. unfold set_bit.
      destruct ((0 <=? int_of_u32 sid)
                && (int_of_u32 sid <? DART_MAX_STREAMS)) eqn:E;
        [| reflexivity].
      apply andb_prop in E. destruct E as [E1 E2].
      apply Z.leb_le in E1. apply Z.ltb_lt in E2. exfalso. apply Hout. lia. }
    destruct (find_stream_map (dart_is dart) maps 0 MAX_DARTS_PER_DEVICE)
      as [j |] eqn:Fnamed; [rewrite Hset; reflexivity |].
    destruct (find_stream_map dart_is_null maps 0 MAX_DARTS_PER_DEVICE)
      as [j |] eqn:Ffree; [rewrite Hset; reflexivity |].
    exfalso.
    pose proof (find_stream_map_None _ _ _ _ Fnamed) as Hnn.
    pose proof (find_stream_map_None _ _ _ _ Ffree) as Hnf.
    destruct Hslot as [Hs | Hs].
    + apply dart_is_true in Hs. rewrite Hnn in Hs by lia. discriminate.
    + apply dart_is_null_true in Hs. rewrite Hnf in Hs by lia. discriminate.
  - intros -> Hsid Hpg.
    exact (of_xlate_in_range w priv dart sid kz Hkz Hsid Hpg).
Qed.

(** C7 as worded fails at a specifier whose unit has another page size
    than the config's first unit.  The config holds unit 0 (16K pages)
    only; the specifier names unit 1 (4K pages, no bypass support).  The
    call returns -EINVAL although two slots are free, the bypass flag
    stays set, and no slot names unit 1. *)
Lemma of_xlate_page_size_mismatch :
  apple_dart_of_xlate world_two_sizes (Some cfg_unit_0) 1%nat 1 0 true
    = Done (- EINVAL, Some cfg_unit_0) /\
  Dart.supports_bypass (darts world_two_sizes 1) = false /\
  MasterCfg.supports_bypass cfg_unit_0 = true /\
  StreamMap.dart (MasterCfg.stream_maps cfg_unit_0 0%nat) = Some 0%nat /\
  StreamMap.dart (MasterCfg.stream_maps cfg_unit_0 1%nat) = None /\
  StreamMap.dart (MasterCfg.stream_maps cfg_unit_0 2%nat) = None.
Proof. repeat split; reflexivity. Qed.

Lemma of_xlate_sets_stream_witness :
  exists cfg',
    apple_dart_of_xlate world_two_units (Some cfg_unit_0) 1%nat 1 3 true
      = Done (0, Some cfg') /\
    MasterCfg.supports_bypass cfg' = true /\
    StreamMap.dart (MasterCfg.stream_maps cfg' 1%nat) = Some 1%nat /\
    Z.testbit (StreamMap.sidmap (MasterCfg.stream_maps cfg' 1%nat)) 3 = true.
Proof.
  destruct (of_xlate_sets_stream world_two_units (Some cfg_unit_0) 1%nat 1 3
              true)
    as (_ & _ & _ & Hset).
  - discriminate.
  - destruct Hset as (ret & cfg' & Hrun & _ & Hsb & _).
    + reflexivity.
    + unfold DART_MAX_STREAMS. lia.
    + intros q Hq. cbn in Hq. injection Hq as <-. reflexivity.
    + exists cfg'. split; [| split; [rewrite Hsb; reflexivity |]].
      * rewrite Hrun. cbn in Hrun. injection Hrun as <- _. reflexivity.
      * cbn in Hrun. injection Hrun as _ <-. split; reflexivity.
Defined.

(** ** Domain finalize *)

Lemma log_WARN_ON : forall c w,
  log (WARN_ON c w) = log w ++ (if c then [EvWarn] else []).
Proof. intros [] w; cbn; [reflexivity | rewrite app_nil_r; reflexivity]. Qed.

Lemma DMA_BIT_MASK_ones : forall n,
  0 <= n < 64 -> DMA_BIT_MASK n = Z.ones n.
Proof.
  intros n Hn. unfold DMA_BIT_MASK, u64.
  destruct (n =? 64) eqn:E; [apply Z.eqb_eq in E; lia |].
  rewrite Z.shiftl_1_l, Z.ones_equiv.
  assert (0 < 2 ^ n) by (apply Z.pow_pos_nonneg; lia).
  assert (2 ^ n < 2 ^ 64) by (apply Z.pow_lt_mono_r; lia).
  rewrite (Z.mod_small (2 ^ n)) by lia.
  rewrite Z.mod_small by lia. lia.
Qed.

(* The test finalize makes on a locked 3-level unit: the two ends of the
   DMA range differ above bit 35 exactly when they do not lie in the same
   window of 2^36 bytes. *)
Lemma dma_range_window_36 : forall dma_min dma_max,
  0 <= dma_min < 2 ^ 64 -> 0 <= dma_max < 2 ^ 64 ->
  (Z.land (Z.lxor dma_min dma_max) (not64 (DMA_BIT_MASK 36)) = 0 <->
   dma_min / 2 ^ 36 = dma_max / 2 ^ 36).
Proof.
  intros a b Ha Hb.
  rewrite DMA_BIT_MASK_ones by lia. unfold not64.
  replace (2 ^ 64 - 1) with (Z.ones 64) by reflexivity.
  rewrite <- !Z.shiftr_div_pow2 by lia.
  split; intros E.
  - apply Z.bits_inj'. intros k Hk.
    rewrite !Z.shiftr_spec by lia.
    assert (F : Z.testbit (Z.land (Z.lxor a b)
                             (Z.lxor (Z.ones 36) (Z.ones 64))) (k + 36)
                = false) by (rewrite E; apply Z.bits_0).
    rewrite Z.land_spec, !Z.lxor_spec in F.
    rewrite (Z.ones_spec_high 36) in F by lia.
    destruct (Z_lt_dec (k + 36) 64) as [Hlt | Hge].
    + rewrite Z.ones_spec_low in F by lia. cbn in F.
      rewrite andb_true_r in F.
      destruct (Z.testbit a (k + 36)), (Z.testbit b (k + 36));
        (reflexivity || discriminate).
    + assert (Ta : Z.testbit a (k + 36) = false).
      { apply Z.bits_above_log2; [lia |].
        destruct (Z.eq_dec a 0) as [-> | Hne]; [cbn; lia |].
        apply Z.log2_lt_pow2; [lia |].
        apply Z.lt_le_trans with (2 ^ 64); [lia |].
        apply Z.pow_le_mono_r; lia. }
      assert (Tb : Z.testbit b (k + 36) = false).
      { apply Z.bits_above_log2; [lia |].
        destruct (Z.eq_dec b 0) as [-> | Hne]; [cbn; lia |].
        apply Z.log2_lt_pow2; [lia |].
        apply Z.lt_le_trans with (2 ^ 64); [lia |].
        apply Z.pow_le_mono_r; lia. }
      rewrite Ta, Tb. reflexivity.
  - apply Z.bits_inj'. intros k Hk. rewrite Z.bits_0.
    rewrite Z.land_spec, !Z.lxor_spec.
    destruct (Z_lt_dec k 36) as [Hlt | Hge].
    + rewrite !Z.ones_spec_low by lia. cbn. apply andb_false_r.
    + assert (F : Z.testbit (Z.shiftr a 36) (k - 36)
                  = Z.testbit (Z.shiftr b 36) (k - 36)) by (rewrite E; reflexivity).
      rewrite !Z.shiftr_spec in F by lia.
      replace (k - 36 + 36) with k in F by lia.
      rewrite F, xorb_nilpotent. reflexivity.
Qed.

Section Finalize.
Context {pgtable : Type} `{IoPgtable pgtable} `{Platform}.

Lemma same_but_pgtable_refl : forall dd : Domain.t pgtable,
  Domain.same_but_pgtable dd dd.
Proof. intros dd. unfold Domain.same_but_pgtable. repeat split; auto. Qed.

Lemma same_but_pgtable_trans : forall d1 d2 d3 : Domain.t pgtable,
  Domain.same_but_pgtable d1 d2 -> Domain.same_but_pgtable d2 d3 ->
  Domain.same_but_pgtable d1 d3.
Proof.
  intros d1 d2 d3 (A1 & A2 & A3 & A4 & A5 & A6 & A7 & A8)
                  (B1 & B2 & B3 & B4 & B5 & B6 & B7 & B8).
  unfold Domain.same_but_pgtable.
  rewrite B1, B2, B3, B4, B5, B6, B7. repeat split; auto.
Qed.

Lemma map_pages_same_but_pgtable :
  forall (dd : Domain.t pgtable) iova paddr pgsize pgcount prot gfp mapped,
    Domain.same_but_pgtable dd
      (snd (apple_dart_map_pages dd iova paddr pgsize pgcount prot gfp
                                 mapped)).
Proof.
  intros dd iova paddr pgsize pgcount prot gfp mapped.
  unfold apple_dart_map_pages.
  destruct (Domain.pgtbl_ops dd) as [ops |] eqn:E.
  - destruct (map_pages ops _ _ _ _ _ _ _) as [[ret mapped'] ops'].
    cbn [snd]. unfold Domain.same_but_pgtable. cbn.
    repeat split; auto. discriminate.
  - cbn [snd]. apply same_but_pgtable_refl.
Qed.

Lemma setup_resv_region_same :
  forall fuel (dd : Domain.t pgtable) region pgsize mapped ret dd',
    setup_resv_region fuel dd region pgsize mapped = Done (ret, dd') ->
    Domain.same_but_pgtable dd dd'.
Proof.
  induction fuel as [| fuel IH]; intros dd region pgsize mapped ret dd' Hrun;
    cbn [setup_resv_region] in Hrun;
    destruct (mapped <? Resv.length region).
  - discriminate.
  - injection Hrun as _ <-. apply same_but_pgtable_refl.
  - pose proof (map_pages_same_but_pgtable dd
                  (u64 (Resv.dva region + mapped))
                  (u64 (Resv.start region + mapped)) pgsize
                  (u64 (Resv.length region - mapped) / pgsize)
                  (Resv.prot region) GFP_KERNEL mapped) as Hsame.
    destruct (apple_dart_map_pages dd _ _ _ _ _ _ _) as [[r m'] d1].
    cbn [snd] in Hsame. destruct (r =? 0).
    + apply (same_but_pgtable_trans _ d1); [exact Hsame |].
      apply (IH _ _ _ _ _ _ Hrun).
    + injection Hrun as _ <-. exact Hsame.
  - injection Hrun as _ <-. apply same_but_pgtable_refl.
Qed.

Lemma setup_resv_regions_same :
  forall fuel regions (dd : Domain.t pgtable) pgsize ret dd',
    setup_resv_regions fuel dd regions pgsize = Done (ret, dd') ->
    Domain.same_but_pgtable dd dd'.
Proof.
  intros fuel regions.
  induction regions as [| region rest IH]; intros dd pgsize ret dd' Hrun;
    cbn [setup_resv_regions] in Hrun.
  - injection Hrun as _ <-. apply same_but_pgtable_refl.
  - destruct (Resv.type region); try (apply (IH _ _ _ _ Hrun)).
    destruct (setup_resv_region fuel dd region pgsize 0)
      as [[r d1] | | |] eqn:E; cbn [bind] in Hrun; try discriminate.
    apply setup_resv_region_same in E. destruct (r =? 0).
    + apply (same_but_pgtable_trans _ d1); [exact E |].
      apply (IH _ _ _ _ Hrun).
    + injection Hrun as _ <-. exact E.
Qed.

Lemma diag_extends_refl : forall w, diag_extends w w.
Proof.
  intros w. repeat split. exists []. rewrite app_nil_r. split; reflexivity.
Qed.

Lemma diag_extends_emit : forall e w w',
  is_diag e = true -> diag_extends w w' -> diag_extends w (emit e w').
Proof.
  intros e w w' He (Hd & Hm & evs & Hl & Hf). repeat split; auto.
  exists (evs ++ [e]). cbn [emit log]. rewrite Hl, app_assoc.
  split; [reflexivity |]. rewrite forallb_app, Hf. cbn. rewrite He.
  reflexivity.
Qed.

Lemma diag_extends_WARN_ON : forall c w w',
  diag_extends w w' -> diag_extends w (WARN_ON c w').
Proof.
  intros [] w w' Hext; cbn [WARN_ON]; [| exact Hext].
  apply diag_extends_emit; [reflexivity | exact Hext].
Qed.

Lemma finalize_locked_effects :
  forall w p sidmap ias dma_max pgtbl_cfg,
    diag_extends w (fst (finalize_locked w p sidmap ias dma_max pgtbl_cfg)).
Proof.
  intros w p sidmap ias dma_max pgtbl_cfg.
  unfold finalize_locked. cbv zeta.
  repeat match goal with
         | |- context [if ?c then (_, _) else _] => destruct c
         end; cbn [fst];
    repeat first [ apply diag_extends_emit; [reflexivity |]
                 | apply diag_extends_WARN_ON
                 | apply diag_extends_refl ].
Qed.

Lemma finalize_locked_error :
  forall w p sidmap ias dma_max pgtbl_cfg r,
    snd (finalize_locked w p sidmap ias dma_max pgtbl_cfg) = inr r ->
    r = - ENOMEM.
Proof.
  intros w p sidmap ias dma_max pgtbl_cfg r. unfold finalize_locked.
  cbv zeta.
  repeat match goal with
         | |- context [if ?c then (_, _) else _] => destruct c
         end; cbn [snd]; intros E; try discriminate;
    injection E as <-; reflexivity.
Qed.

Lemma finalize_unfinalized_cases :
  forall fuel w (dd : Domain.t pgtable) dev cfg ret dd' w',
    Domain.finalized dd = false ->
    apple_dart_finalize_domain fuel w dd dev cfg = Done (ret, dd', w') ->
    exists p,
      StreamMap.dart (MasterCfg.stream_maps cfg 0%nat) = Some p /\
      darts w' = darts w /\ mem w' = mem w /\
      ((PAGE_SIZE < Dart.pgsize (darts w p) /\
        ret = - EINVAL /\ dd' = dd /\ w' = w) \/
       (Dart.pgsize (darts w p) <= PAGE_SIZE /\
        exists evs,
          forallb is_diag evs = true /\
          ((ret = - ENOMEM /\ Domain.finalized dd' = false /\
            (Domain.pgtbl_ops dd' = Domain.pgtbl_ops dd \/
             Domain.pgtbl_ops dd' = None) /\
            Domain.mask dd' = Domain.mask dd /\
            exists tail,
              (tail = [EvMutexUnlock] \/
               tail = [EvAllocPgtable false; EvMutexUnlock]) /\
              log w' = log w ++ [EvMutexLock; EvReadFinalized false]
                             ++ evs ++ tail) \/
           (Domain.finalized dd' = true /\
            Domain.pgtbl_ops dd' <> None /\
            (exists req ops pgtbl_cfg,
               alloc_io_pgtable_ops (Hw.fmt (Dart.hw (darts w p))) req
                 = Some (ops, pgtbl_cfg) /\
               (Dart.locked (darts w p) = false ->
                req = finalize_pgtbl_cfg p (darts w p)
                        (min_u32 (Dart.ias (darts w p))
                                 (fls64 (Dart.dma_max (darts w p))))) /\
               Domain.mask dd'
                 = finalize_mask (darts w p) pgtbl_cfg (Domain.mask dd)) /\
            log w' = log w ++ [EvMutexLock; EvReadFinalized false]
                           ++ evs ++ [EvAllocPgtable true; EvMutexUnlock])))).
Proof.
  intros fuel w dd dev cfg ret dd' w' Hfin Hrun.
  unfold apple_dart_finalize_domain in Hrun.
  destruct (StreamMap.dart (MasterCfg.stream_maps cfg 0%nat)) as [p |];
    [| discriminate].
  cbn [bind deref] in Hrun. exists p. split; [reflexivity |].
  destruct (PAGE_SIZE <? Dart.pgsize (darts w p)) eqn:Epg.
  { injection Hrun as <- <- <-. apply Z.ltb_lt in Epg.
    split; [reflexivity |]. split; [reflexivity |]. left. auto. }
  apply Z.ltb_ge in Epg. rewrite Hfin in Hrun. cbv zeta in Hrun.
  set (w2 := emit (EvReadFinalized false) (emit EvMutexLock w)) in Hrun.
  set (X := if Dart.locked (darts w p) then _ else _) in Hrun.
  assert (HX : diag_extends w2 (fst X) /\
               (forall r, snd X = inr r -> r = - ENOMEM) /\
               (Dart.locked (darts w p) = false ->
                forall c m, snd X = inl (c, m) ->
                  c = finalize_pgtbl_cfg p (darts w p)
                        (min_u32 (Dart.ias (darts w p))
                                 (fls64 (Dart.dma_max (darts w p)))))).
  { subst X. destruct (Dart.locked (darts w p)).
    - split; [apply finalize_locked_effects |].
      split; [apply finalize_locked_error | discriminate].
    - split; [apply diag_extends_refl |]. split; [discriminate |].
      intros _ c m E. cbn [snd] in E. injection E as <- _. reflexivity. }
  destruct X as [w3 r]. cbn [fst snd] in HX.
  destruct HX as ((Hd & Hm & evs & Hl & Hf) & Herr & Hreq).
  assert (Hlog3 : log w3 = log w ++ [EvMutexLock; EvReadFinalized false] ++ evs).
  { rewrite Hl. subst w2. cbn [emit log]. rewrite <- !app_assoc. reflexivity. }
  destruct r as [[pgtbl_cfg dma_max] | r].
  - destruct (alloc_io_pgtable_ops (Hw.fmt (Dart.hw (darts w p))) pgtbl_cfg)
      as [[ops pgtbl_cfg0] |] eqn:Ealloc.
    + destruct (apple_dart_setup_resv_locked _ _ _ _) as [[r1 d1] | | |] eqn:Eresv;
        cbn [bind] in Hrun; try discriminate.
      injection Hrun as <- <- <-.
      apply setup_resv_regions_same in Eresv.
      destruct Eresv as (S1 & S2 & _ & _ & _ & _ & _ & S8).
      cbn [Domain.finalized Domain.mask Domain.pgtbl_ops] in S1, S2, S8.
      cbn [emit darts mem log]. split; [exact Hd |]. split; [exact Hm |].
      right. split; [exact Epg |]. exists evs. split; [exact Hf |]. right.
      split; [exact S1 |]. split; [apply S8; discriminate |]. split.
      * exists pgtbl_cfg, ops, pgtbl_cfg0. split; [exact Ealloc |].
        split; [| exact S2]. intros Hl0. apply (Hreq Hl0 _ dma_max eq_refl).
      * rewrite Hlog3, <- !app_assoc. reflexivity.
    + injection Hrun as <- <- <-.
      cbn [emit darts mem log]. split; [exact Hd |]. split; [exact Hm |].
      right. split; [exact Epg |]. exists evs. split; [exact Hf |]. left.
      cbn. split; [reflexivity |]. split; [exact Hfin |].
      split; [right; reflexivity |]. split; [reflexivity |].
      exists [EvAllocPgtable false; EvMutexUnlock]. split; [auto |].
      rewrite Hlog3, <- !app_assoc. reflexivity.
  - injection Hrun as <- <- <-. rewrite (Herr r eq_refl).
    cbn [emit darts mem log]. split; [exact Hd |]. split; [exact Hm |].
    right. split; [exact Epg |]. exists evs. split; [exact Hf |]. left.
    cbn. repeat split; auto.
    exists [EvMutexUnlock]. split; [auto |].
    rewrite Hlog3, <- !app_assoc. reflexivity.
Qed.

Lemma count_allocs_app : forall l1 l2,
  count_allocs (l1 ++ l2) = (count_allocs l1 + count_allocs l2)%nat.
Proof.
  intros l1 l2. unfold count_allocs. rewrite filter_app, length_app.
  reflexivity.
Qed.

Lemma count_allocs_diag : forall evs,
  forallb is_diag evs = true -> count_allocs evs = 0%nat.
Proof.
  induction evs as [| e evs IH]; intros Hd; [reflexivity |].
  cbn [forallb] in Hd. apply andb_prop in Hd. destruct Hd as [He Hd].
  change (e :: evs) with ([e] ++ evs). rewrite count_allocs_app, (IH Hd).
  destruct e; try discriminate; reflexivity.
Qed.

(** C1, as the code has it.  Two calls of finalize on a domain, one after
    the other, which is how its mutex orders two concurrent callers
    (everything past the page-size test runs under the lock).  The flag
    is read once per call, right after the lock is taken and never before
    it.  When the first call on an unfinalized domain returns 0, it has
    made exactly one, successful, page-table allocation and left the
    domain finalized; the second call then takes the lock, reads the
    flag, unlocks and returns 0, with no allocation and the domain
    (page table, mask) exactly as the first call left it. *)
Theorem finalize_domain_twice :
  forall (fuel fuel' : nat) (w : world) (dd : Domain.t pgtable) (dev : nat)
         (cfg : MasterCfg.t) (dd1 : Domain.t pgtable) (w1 : world),
    Domain.finalized dd = false ->
    apple_dart_finalize_domain fuel w dd dev cfg = Done (0, dd1, w1) ->
    Domain.finalized dd1 = true /\
    Domain.pgtbl_ops dd1 <> None /\
    exists evs w2,
      forallb is_diag evs = true /\
      log w1 = log w ++ [EvMutexLock; EvReadFinalized false]
                     ++ evs ++ [EvAllocPgtable true; EvMutexUnlock] /\
      apple_dart_finalize_domain fuel' w1 dd1 dev cfg = Done (0, dd1, w2) /\
      log w2 = log w1 ++ [EvMutexLock; EvReadFinalized true; EvMutexUnlock] /\
      exists both, log w2 = log w ++ both /\ count_allocs both = 1%nat.
Proof.
  intros fuel fuel' w dd dev cfg dd1 w1 Hfin Hrun.
  destruct (finalize_unfinalized_cases _ _ _ _ _ _ _ _ Hfin Hrun)
    as (p & Hp & Hd & Hm & [(_ & Hret & _) | (Hpg & evs & Hdiag & Hcase)]);
    [discriminate |].
  destruct Hcase as [(Hret & _) | (Hfin1 & Hops & _ & Hlog)];
    [discriminate |].
  split; [exact Hfin1 |]. split; [exact Hops |].
  exists evs. eexists. split; [exact Hdiag |]. split; [exact Hlog |].
  unfold apple_dart_finalize_domain. rewrite Hp. cbn [bind deref].
  rewrite Hd.
  replace (PAGE_SIZE <? Dart.pgsize (darts w p)) with false
    by (symmetry; apply Z.ltb_ge; exact Hpg).
  rewrite Hfin1. split; [reflexivity |]. cbn [emit log].
  split; [rewrite <- !app_assoc; reflexivity |].
  eexists. split.
  - rewrite Hlog, <- !app_assoc. reflexivity.
  - rewrite !count_allocs_app, (count_allocs_diag evs Hdiag). reflexivity.
Qed.

Lemma readl_WARN_ON : forall c w p off,
  readl (WARN_ON c w) p off = readl w p off.
Proof. intros [] w p off; reflexivity. Qed.

Lemma finalize_locked_request :
  forall w0 w p sidmap ias dma_max base c m,
    darts w0 = darts w ->
    snd (finalize_locked w0 p sidmap ias dma_max base) = inl (c, m) ->
    let dart := darts w p in
    let sid := find_first_bit sidmap (Dart.num_streams dart) in
    c = (if negb (Hw.tcr_4level (Dart.hw dart) =? 0) && (36 <? Dart.ias dart)
         then
           if negb (Z.land (readl w p (DART_TCR dart sid))
                           (Hw.tcr_4level (Dart.hw dart)) =? 0)
           then if ias <? 37 then PgtblCfg.set_ias base 37 else base
           else if 36 <? ias then PgtblCfg.set_ias base 36 else base
         else base).
Proof.
  intros w0 w p sidmap ias dma_max base c m Hd. unfold finalize_locked.
  cbv zeta. rewrite !readl_WARN_ON. unfold readl.
  rewrite ?darts_WARN_ON, Hd.
  repeat match goal with
         | |- context [if ?c then (_, _) else _] => destruct c
         end; cbn [snd andb negb]; intros E; try discriminate;
    injection E as <- _; reflexivity.
Qed.

Lemma DMA_BIT_MASK_small : forall n,
  0 <= n < 64 -> DMA_BIT_MASK n = 2 ^ n - 1.
Proof.
  intros n Hn. unfold DMA_BIT_MASK, u64.
  replace (n =? 64) with false by (symmetry; apply Z.eqb_neq; lia).
  rewrite Z.shiftl_1_l.
  assert (0 < 2 ^ n < 2 ^ 64)
    by (split; [apply Z.pow_pos_nonneg; lia
               | apply Z.pow_lt_mono_r; lia]).
  rewrite (Z.mod_small (2 ^ n)) by lia. apply Z.mod_small. lia.
Qed.

Lemma min_u32_const : forall a k,
  0 <= k < 2 ^ 32 -> min_u32 a k = Z.min (u32 a) k.
Proof.
  intros a k Hk. unfold min_u32. f_equal. unfold u32. apply Z.mod_small.
  exact Hk.
Qed.

(** C5.  A domain that a call of finalize has finalized carries the mask
    computed from what the page-table engine resolved for the request of
    that call (the configuration built from the unit, with the level
    count kept on a locked unit), the engine's allocation being the
    domain's page table: 2^32 - 1 for a 4KiB granule, otherwise 2^36 - 1
    for 3 levels and 2^47 - 1 for 4 levels, the exponent in each case
    being the smaller of that constant and the unit's input address
    width (a u32); with any other level count the mask is left as it
    was. *)
Theorem finalize_domain_iova_mask :
  forall (fuel : nat) (w : world) (dd : Domain.t pgtable) (dev : nat)
         (cfg : MasterCfg.t) (ret : Z) (dd' : Domain.t pgtable) (w' : world),
    Domain.finalized dd = false ->
    apple_dart_finalize_domain fuel w dd dev cfg = Done (ret, dd', w') ->
    Domain.finalized dd' = true ->
    exists p ops pgtbl_cfg,
      StreamMap.dart (MasterCfg.stream_maps cfg 0%nat) = Some p /\
      let dart := darts w p in
      let ias := min_u32 (Dart.ias dart) (fls64 (Dart.dma_max dart)) in
      let base := finalize_pgtbl_cfg p dart ias in
      let sid := find_first_bit
                   (StreamMap.sidmap (MasterCfg.stream_maps cfg 0%nat))
                   (Dart.num_streams dart) in
      let req :=
        if Dart.locked dart && negb (Hw.tcr_4level (Dart.hw dart) =? 0)
           && (36 <? Dart.ias dart)
        then
          if negb (Z.land (readl w p (DART_TCR dart sid))
                          (Hw.tcr_4level (Dart.hw dart)) =? 0)
          then if ias <? 37 then PgtblCfg.set_ias base 37 else base
          else if 36 <? ias then PgtblCfg.set_ias base 36 else base
        else base in
      (* what the engine resolved for the request of this call *)
      alloc_io_pgtable_ops (Hw.fmt (Dart.hw dart)) req
        = Some (ops, pgtbl_cfg) /\
      (* the domain's page table is that allocation, with the reserved
         regions of the device mapped *)
      apple_dart_setup_resv_locked fuel (Domain.set_pgtbl_ops dd' (Some ops))
        dev (Dart.pgsize dart) = Done (ret, dd') /\
      Domain.pgsize_bitmap dd' = PgtblCfg.pgsize_bitmap pgtbl_cfg /\
      (PgtblCfg.pgsize_bitmap pgtbl_cfg = SZ_4K ->
       Domain.mask dd' = 2 ^ Z.min (u32 (Dart.ias dart)) 32 - 1) /\
      (PgtblCfg.pgsize_bitmap pgtbl_cfg <> SZ_4K ->
       PgtblCfg.n_levels pgtbl_cfg = 3 ->
       Domain.mask dd' = 2 ^ Z.min (u32 (Dart.ias dart)) 36 - 1) /\
      (PgtblCfg.pgsize_bitmap pgtbl_cfg <> SZ_4K ->
       PgtblCfg.n_levels pgtbl_cfg = 4 ->
       Domain.mask dd' = 2 ^ Z.min (u32 (Dart.ias dart)) 47 - 1) /\
      (PgtblCfg.pgsize_bitmap pgtbl_cfg <> SZ_4K ->
       PgtblCfg.n_levels pgtbl_cfg <> 3 ->
       PgtblCfg.n_levels pgtbl_cfg <> 4 ->
       Domain.mask dd' = Domain.mask dd).
Proof.
  intros fuel w dd dev cfg ret dd' w' Hfin Hrun Hfin'.
  unfold apple_dart_finalize_domain in Hrun.
  destruct (StreamMap.dart (MasterCfg.stream_maps cfg 0%nat)) as [p |];
    [| discriminate].
  cbn [bind deref] in Hrun.
  destruct (PAGE_SIZE <? Dart.pgsize (darts w p)).
  { injection Hrun as _ <- _. rewrite Hfin in Hfin'. discriminate. }
  rewrite Hfin in Hrun. cbv zeta in Hrun.
  set (w2 := emit (EvReadFinalized false) (emit EvMutexLock w)) in Hrun.
  set (ias := min_u32 (Dart.ias (darts w p))
                      (fls64 (Dart.dma_max (darts w p)))) in *.
  set (base := finalize_pgtbl_cfg p (darts w p) ias) in *.
  set (X := if Dart.locked (darts w p) then _ else _) in Hrun.
  set (req :=
         if Dart.locked (darts w p)
            && negb (Hw.tcr_4level (Dart.hw (darts w p)) =? 0)
            && (36 <? Dart.ias (darts w p))
         then
           if negb (Z.land
                      (readl w p
                         (DART_TCR (darts w p)
                            (find_first_bit
                               (StreamMap.sidmap
                                  (MasterCfg.stream_maps cfg 0%nat))
                               (Dart.num_streams (darts w p)))))
                      (Hw.tcr_4level (Dart.hw (darts w p))) =? 0)
           then if ias <? 37 then PgtblCfg.set_ias base 37 else base
           else if 36 <? ias then PgtblCfg.set_ias base 36 else base
         else base).
  assert (HX : forall c m, snd X = inl (c, m) -> c = req).
  { subst X req. intros c m E. destruct (Dart.locked (darts w p)).
    - cbn [andb]. exact (finalize_locked_request w2 w p _ _ _ _ c m eq_refl E).
    - cbn [snd andb] in E |- *. injection E as <- _. reflexivity. }
  destruct X as [w3 r]. cbn [snd] in HX.
  destruct r as [[pgtbl_cfg0 dma_max] | r].
  2:{ injection Hrun as _ <- _. cbn [Domain.set_stream_maps Domain.finalized]
        in Hfin'. rewrite Hfin in Hfin'. discriminate. }
  rewrite (HX _ _ eq_refl) in Hrun.
  destruct (alloc_io_pgtable_ops (Hw.fmt (Dart.hw (darts w p))) req)
    as [[ops pgtbl_cfg] |] eqn:Ealloc.
  2:{ injection Hrun as _ <- _.
      cbn [Domain.set_pgtbl_ops Domain.set_stream_maps Domain.finalized]
        in Hfin'. rewrite Hfin in Hfin'. discriminate. }
  match type of Hrun with
  | context [apple_dart_setup_resv_locked fuel ?d0 dev ?pg] =>
      set (d0' := d0) in Hrun;
      destruct (apple_dart_setup_resv_locked fuel d0' dev pg)
        as [[r1 d1] | | |] eqn:Eresv
  end; cbn [bind] in Hrun; try discriminate.
  injection Hrun as <- <- _.
  pose proof (setup_resv_regions_same _ _ _ _ _ _ Eresv)
    as (S1 & S2 & S3 & S4 & S5 & S6 & S7 & S8).
  subst d0'.
  cbn [Domain.finalized Domain.mask Domain.pgtbl_ops Domain.stream_maps
       Domain.pgsize_bitmap Domain.aperture_start Domain.aperture_end
       Domain.force_aperture] in S1, S2, S3, S4, S5, S6, S7.
  exists p, ops, pgtbl_cfg. split; [reflexivity |]. cbv zeta.
  fold ias. fold base. fold req.
  split; [exact Ealloc |]. split.
  { rewrite <- Eresv. f_equal. unfold Domain.set_pgtbl_ops.
    rewrite S1, S2, S3, S4, S5, S6, S7. reflexivity. }
  split; [exact S4 |].
  assert (Hu : 0 <= u32 (Dart.ias (darts w p)))
    by (unfold u32; apply Z.mod_pos_bound; lia).
  rewrite S2. unfold finalize_mask.
  split; [| split; [| split]].
  - intros E. rewrite E, Z.eqb_refl. rewrite min_u32_const by lia.
    apply DMA_BIT_MASK_small. lia.
  - intros E1 E2. apply Z.eqb_neq in E1. rewrite E1, E2.
    cbn [Z.eqb Pos.eqb]. rewrite min_u32_const by lia.
    apply DMA_BIT_MASK_small. lia.
  - intros E1 E2. apply Z.eqb_neq in E1. rewrite E1, E2.
    cbn [Z.eqb Pos.eqb]. rewrite min_u32_const by lia.
    apply DMA_BIT_MASK_small. lia.
  - intros E1 E3 E4. apply Z.eqb_neq in E1, E3, E4. rewrite E1, E3, E4.
    reflexivity.
Qed.

(** C6, as the code has it.  Finalize of an unfinalized domain on a
    locked unit that has a four-level TCR bit, reads as not set for the
    bound stream (3 levels are active), when the requested address width,
    the minimum of the unit's input address width and the bits of the
    upper DMA bound, exceeds 36: if the DMA range is not the default one
    (0 up to the full input address width) and its two ends differ in a
    bit above bit 35, that is, it does not lie within one aligned block
    of 2^36 addresses, then finalize fails: it returns -ENOMEM after
    reporting the invalid range (or already -EINVAL when the unit's page
    size exceeds the CPU's), without having called the page-table engine
    and leaving the domain unfinalized.  The test compares the two ends
    with each other, not with the 36-bit limit. *)
Theorem finalize_locked_three_level_range :
  forall (fuel : nat) (w : world) (dd : Domain.t pgtable) (dev : nat)
         (cfg : MasterCfg.t) (p : nat),
    let dart := darts w p in
    let sid := find_first_bit
                 (StreamMap.sidmap (MasterCfg.stream_maps cfg 0%nat))
                 (Dart.num_streams dart) in
    StreamMap.dart (MasterCfg.stream_maps cfg 0%nat) = Some p ->
    Domain.finalized dd = false ->
    Dart.locked dart = true ->
    0 <= Dart.ias dart < 2 ^ 32 ->
    Hw.tcr_4level (Dart.hw dart) <> 0 ->
    Z.land (readl w p (DART_TCR dart sid)) (Hw.tcr_4level (Dart.hw dart)) = 0 ->
    36 < min_u32 (Dart.ias dart) (fls64 (Dart.dma_max dart)) ->
    ~ (Dart.dma_min dart = 0 /\
       Dart.dma_max dart = DMA_BIT_MASK (Dart.ias dart)) ->
    Z.land (Z.lxor (Dart.dma_min dart) (Dart.dma_max dart))
           (not64 (DMA_BIT_MASK 36)) <> 0 ->
    exists ret dd' w',
      apple_dart_finalize_domain fuel w dd dev cfg = Done (ret, dd', w') /\
      ret = (if PAGE_SIZE <? Dart.pgsize dart then - EINVAL else - ENOMEM) /\
      Domain.finalized dd' = false /\
      Domain.pgtbl_ops dd' = Domain.pgtbl_ops dd /\
      Domain.mask dd' = Domain.mask dd /\
      exists evs,
        log w' = log w ++ evs /\ count_allocs evs = 0%nat /\
        (Dart.pgsize dart <= PAGE_SIZE ->
         exists diag, forallb is_diag diag = true /\
           evs = [EvMutexLock; EvReadFinalized false] ++ diag
                 ++ [EvDevErr; EvMutexUnlock]).
Proof.
  intros fuel w dd dev cfg p dart sid Hp Hfin Hlocked Hias H4 Htcr Hreq
         Hdef Hrange.
  unfold apple_dart_finalize_domain. rewrite Hp. cbn [bind deref].
  destruct (PAGE_SIZE <? Dart.pgsize (darts w p)) eqn:Epg.
  { exists (- EINVAL), dd, w. subst dart. rewrite Epg. repeat split; auto.
    exists []. rewrite app_nil_r. repeat split; auto.
    apply Z.ltb_lt in Epg. intros. lia. }
  subst dart. rewrite Epg, Hfin, Hlocked. cbv zeta.
  assert (Hias36 : 36 < Dart.ias (darts w p)).
  { unfold min_u32, u32 in Hreq.
    rewrite (Z.mod_small (Dart.ias (darts w p))) in Hreq by lia. lia. }
  unfold finalize_locked. cbv zeta.
  rewrite !readl_WARN_ON. unfold readl in *.
  rewrite !darts_emit. fold sid.
  rewrite Htcr. cbn [Z.eqb negb].
  apply Z.eqb_neq in H4. rewrite H4. cbn [negb andb].
  replace (36 <? Dart.ias (darts w p)) with true
    by (symmetry; apply Z.ltb_lt; lia).
  replace (36 <? min_u32 (Dart.ias (darts w p))
                         (fls64 (Dart.dma_max (darts w p))))
    with true by (symmetry; apply Z.ltb_lt; lia).
  replace ((Dart.dma_min (darts w p) =? 0)
           && (Dart.dma_max (darts w p)
               =? DMA_BIT_MASK (Dart.ias (darts w p)))) with false.
  2:{ symmetry. apply andb_false_iff.
      destruct (Dart.dma_min (darts w p) =? 0) eqn:E1; [| left; reflexivity].
      right. apply Z.eqb_neq. intros E2. apply Hdef.
      apply Z.eqb_eq in E1. split; assumption. }
  apply Z.eqb_neq in Hrange. rewrite Hrange. cbn [negb].
  eexists. eexists. eexists. split; [reflexivity |].
  split; [reflexivity |]. split; [exact Hfin |]. split; [reflexivity |].
  split; [reflexivity |].
  set (c1 := (sid <? 0) || _). set (c2 := Z.land _ _ =? 0).
  exists ([EvMutexLock; EvReadFinalized false]
          ++ ((if c1 then [EvWarn] else []) ++ (if c2 then [EvWarn] else [])
              ++ [EvDevInfo])
          ++ [EvDevErr; EvMutexUnlock]).
  split; [| split].
  - cbn [emit log]. rewrite !log_WARN_ON. cbn [emit log].
    rewrite <- !app_assoc. reflexivity.
  - destruct c1, c2; reflexivity.
  - intros _. eexists. split; [| reflexivity]. destruct c1, c2; reflexivity.
Qed.

End Finalize.

(** C1 as worded fails on two counts.  The flag is not read before the
    lock is taken: on a finalized domain the call locks, reads the flag
    and unlocks.  And two calls do not always make one allocation and
    both succeed: when the engine cannot allocate, each of the two calls
    tries an allocation and returns -ENOMEM. *)
Lemma finalize_domain_lock_before_check :
  (exists w',
     apple_dart_finalize_domain 0 world_t8103 toy_domain 0 cfg_unit_0
       = Done (0, toy_domain, w') /\
     log w' = [EvMutexLock; EvReadFinalized true; EvMutexUnlock]) /\
  (exists (dd1 dd2 : Domain.t unit) w1 w2,
     apple_dart_finalize_domain 0 world_t8103 Domain.zero 0 cfg_unit_0
       = Done (- ENOMEM, dd1, w1) /\
     apple_dart_finalize_domain 0 w1 dd1 0 cfg_unit_0
       = Done (- ENOMEM, dd2, w2) /\
     log w2 = [EvMutexLock; EvReadFinalized false; EvAllocPgtable false;
               EvMutexUnlock;
               EvMutexLock; EvReadFinalized false; EvAllocPgtable false;
               EvMutexUnlock] /\
     count_allocs (log w2) = 2%nat).
Proof.
  split.
  - eexists. split; reflexivity.
  - do 4 eexists. split; [reflexivity |]. split; [reflexivity |].
    split; reflexivity.
Qed.

Lemma finalize_domain_twice_witness :
  exists dd1 w1 w2,
    apple_dart_finalize_domain 1 world_t8103 fresh_domain 1 cfg_unit_0
      = Done (0, dd1, w1) /\
    apple_dart_finalize_domain 0 w1 dd1 1 cfg_unit_0 = Done (0, dd1, w2) /\
    Domain.finalized dd1 = true /\
    Domain.mask dd1 = 2 ^ 32 - 1 /\
    apple_dart_iova_to_phys dd1 0x4010 = 0x800010.
Proof.
  assert (Hrun : exists dd1 w1,
            apple_dart_finalize_domain 1 world_t8103 fresh_domain 1 cfg_unit_0
              = Done (0, dd1, w1) /\
            Domain.mask dd1 = 2 ^ 32 - 1 /\
            apple_dart_iova_to_phys dd1 0x4010 = 0x800010).
  { eexists. eexists. split; [reflexivity |]. split; reflexivity. }
  destruct Hrun as (dd1 & w1 & Hrun & Hmask & Hphys).
  destruct (finalize_domain_twice 1 0 world_t8103 fresh_domain 1 cfg_unit_0
              dd1 w1 eq_refl Hrun)
    as (Hfin & _ & evs & w2 & _ & _ & Hrun2 & _).
  exists dd1, w1, w2. auto.
Defined.

Lemma finalize_domain_iova_mask_witness :
  (exists dd' w',
     apple_dart_finalize_domain 1 world_t8110 fresh_domain 1 cfg_unit_0
     = Done (0, dd', w') /\
     Domain.mask dd' = 2 ^ 42 - 1) /\
  (exists dd' w',
     apple_dart_finalize_domain 1 world_t8110_locked fresh_domain 0
                                cfg_unit_0
     = Done (0, dd', w') /\
     Domain.mask dd' = 2 ^ 36 - 1) /\
  (exists dd' w',
     apple_dart_finalize_domain 1 world_t8110_4k fresh_domain 0 cfg_unit_0
     = Done (0, dd', w') /\
     Domain.mask dd' = 2 ^ 32 - 1).
Proof.
  split; [| split].
  - assert (Hrun : exists dd' w',
              apple_dart_finalize_domain 1 world_t8110 fresh_domain 1
                                         cfg_unit_0
              = Done (0, dd', w') /\
              Domain.finalized dd' = true)
      by (eexists; eexists; split; reflexivity).
    destruct Hrun as (dd' & w' & Hrun & Hfin).
    destruct (finalize_domain_iova_mask 1 world_t8110 fresh_domain 1
                cfg_unit_0 0 dd' w' eq_refl Hrun Hfin)
      as (p & ops & pgtbl_cfg & Hp & Halloc & _ & _ & _ & _ & H4 & _).
    exists dd', w'. split; [exact Hrun |].
    injection Hp as <-. vm_compute in Halloc. injection Halloc as _ <-.
    rewrite H4; [reflexivity | discriminate | reflexivity].
  - assert (Hrun : exists dd' w',
              apple_dart_finalize_domain 1 world_t8110_locked fresh_domain 0
                                         cfg_unit_0
              = Done (0, dd', w') /\
              Domain.finalized dd' = true)
      by (eexists; eexists; split; reflexivity).
    destruct Hrun as (dd' & w' & Hrun & Hfin).
    destruct (finalize_domain_iova_mask 1 world_t8110_locked fresh_domain 0
                cfg_unit_0 0 dd' w' eq_refl Hrun Hfin)
      as (p & ops & pgtbl_cfg & Hp & Halloc & _ & _ & _ & H3 & _).
    exists dd', w'. split; [exact Hrun |].
    injection Hp as <-. vm_compute in Halloc. injection Halloc as _ <-.
    rewrite H3; [reflexivity | discriminate | reflexivity].
  - assert (Hrun : exists dd' w',
              apple_dart_finalize_domain 1 world_t8110_4k fresh_domain 0
                                         cfg_unit_0
              = Done (0, dd', w') /\
              Domain.finalized dd' = true)
      by (eexists; eexists; split; reflexivity).
    destruct Hrun as (dd' & w' & Hrun & Hfin).
    destruct (finalize_domain_iova_mask 1 world_t8110_4k fresh_domain 0
                cfg_unit_0 0 dd' w' eq_refl Hrun Hfin)
      as (p & ops & pgtbl_cfg & Hp & Halloc & _ & _ & H4k & _).
    exists dd', w'. split; [exact Hrun |].
    injection Hp as <-. vm_compute in Halloc. injection Halloc as _ <-.
    rewrite H4k; reflexivity.
Defined.

Lemma finalize_locked_three_level_range_witness :
  exists dd' w',
    apple_dart_finalize_domain 0 world_t8110_locked_window fresh_domain 0
                               cfg_unit_0
      = Done (- ENOMEM, dd', w') /\
    Domain.finalized dd' = false /\
    log w' = [EvMutexLock; EvReadFinalized false; EvDevInfo; EvDevErr;
              EvMutexUnlock].
Proof.
  destruct (finalize_locked_three_level_range 0 world_t8110_locked_window
              fresh_domain 0 cfg_unit_0 0%nat)
    as (ret & dd' & w' & Hrun & Hret & Hfin & _).
  - reflexivity.
  - reflexivity.
  - reflexivity.
  - cbn. lia.
  - discriminate.
  - reflexivity.
  - reflexivity.
  - intros [E _]. discriminate.
  - discriminate.
  - exists dd', w'. cbn in Hret. subst ret.
    split; [exact Hrun |]. split; [exact Hfin |].
    cbn in Hrun. injection Hrun as _ <-. reflexivity.
Defined.

(** C6 as worded fails at a DMA range that is neither the default one nor
    contained within 36 bits but whose two ends agree above bit 35.  The
    unit is locked with 3 levels active, its input address width is 42
    and its window is 2^36 .. 2^37 - 1, so the requested width is 37.
    Finalize reports the limit to 36 bits, does not report the range,
    calls the page-table engine and returns 0: the domain is finalized
    with the window as configured for its aperture and a 36-bit mask. *)
Lemma finalize_locked_range_above_36_bits :
  Dart.locked (darts world_t8110_locked_high 0%nat) = true /\
  Hw.tcr_4level (Dart.hw (darts world_t8110_locked_high 0%nat)) <> 0 /\
  Z.land (readl world_t8110_locked_high 0%nat
            (DART_TCR (darts world_t8110_locked_high 0%nat) 0))
         (Hw.tcr_4level (Dart.hw (darts world_t8110_locked_high 0%nat))) = 0 /\
  min_u32 (Dart.ias (darts world_t8110_locked_high 0%nat))
          (fls64 (Dart.dma_max (darts world_t8110_locked_high 0%nat))) = 37 /\
  Dart.dma_min (darts world_t8110_locked_high 0%nat) = 2 ^ 36 /\
  Dart.dma_max (darts world_t8110_locked_high 0%nat) = 2 ^ 37 - 1 /\
  DMA_BIT_MASK 36 = 2 ^ 36 - 1 /\
  DMA_BIT_MASK (Dart.ias (darts world_t8110_locked_high 0%nat)) = 2 ^ 42 - 1 /\
  exists dd' w',
    apple_dart_finalize_domain 1 world_t8110_locked_high fresh_domain 0
                               cfg_unit_0
    = Done (0, dd', w') /\
    Domain.finalized dd' = true /\
    Domain.aperture_start dd' = 2 ^ 36 /\
    Domain.aperture_end dd' = 2 ^ 37 - 1 /\
    Domain.mask dd' = 2 ^ 36 - 1 /\
    log w' = [EvMutexLock; EvReadFinalized false; EvDevInfo;
              EvAllocPgtable true; EvMutexUnlock].
Proof.
  split; [reflexivity |]. split; [discriminate |].
  do 6 (split; [reflexivity |]).
  eexists. eexists. repeat split; reflexivity.
Qed.

(* ================================================================== *)
(** * Further properties of the driver *)

(** ** Stream bitmaps *)

Lemma BITS_TO_LONGS_covers : forall n b,
  0 <= b < n -> 0 <= b < BITS_PER_LONG * BITS_TO_LONGS n.
Proof.
  intros n b Hb. unfold BITS_TO_LONGS, BITS_PER_LONG.
  pose proof (Z.div_mod (n + 64 - 1) 64 ltac:(lia)) as Hdm.
  pose proof (Z.mod_pos_bound (n + 64 - 1) 64 ltac:(lia)) as Hm.
  lia.
Qed.

Lemma testbit_ones_bool : forall n b,
  0 <= n -> 0 <= b -> Z.testbit (Z.ones n) b = (b <? n).
Proof.
  intros n b Hn Hb. destruct (b <? n) eqn:E.
  - apply Z.ltb_lt in E. apply Z.ones_spec_low. lia.
  - apply Z.ltb_ge in E. apply Z.ones_spec_high. lia.
Qed.

Lemma testbit_copy_longs : forall longs src dst b,
  0 <= longs -> 0 <= b ->
  Z.testbit (copy_longs longs src dst) b
  = if b <? BITS_PER_LONG * longs then Z.testbit src b else Z.testbit dst b.
Proof.
  intros longs src dst b Hl Hb. unfold copy_longs.
  rewrite Z.lor_spec, Z.land_spec, Z.ldiff_spec.
  rewrite testbit_ones_bool by (unfold BITS_PER_LONG; lia).
  destruct (b <? BITS_PER_LONG * longs); cbn.
  - rewrite andb_true_r, andb_false_r, orb_false_r. reflexivity.
  - rewrite andb_false_r, andb_true_r. reflexivity.
Qed.

Lemma testbit_mod_stream_words : forall longs add_streams master domain b,
  0 <= longs -> 0 <= b ->
  Z.testbit (mod_stream_words longs add_streams master domain) b
  = if b <? BITS_PER_LONG * longs
    then (if add_streams
          then Z.testbit domain b || Z.testbit master b
          else Z.testbit domain b && negb (Z.testbit master b))
    else Z.testbit domain b.
Proof.
  intros longs add_streams master domain b Hl Hb. unfold mod_stream_words.
  destruct add_streams.
  - rewrite Z.lor_spec, Z.land_spec.
    rewrite testbit_ones_bool by (unfold BITS_PER_LONG; lia).
    destruct (b <? BITS_PER_LONG * longs); cbn.
    + rewrite andb_true_r. reflexivity.
    + rewrite andb_false_r, orb_false_r. reflexivity.
  - rewrite Z.ldiff_spec, Z.land_spec.
    rewrite testbit_ones_bool by (unfold BITS_PER_LONG; lia).
    destruct (b <? BITS_PER_LONG * longs); cbn.
    + rewrite andb_true_r. reflexivity.
    + rewrite andb_false_r. cbn. rewrite andb_true_r. reflexivity.
Qed.

Lemma BITS_TO_LONGS_nonneg : forall n, 0 <= n -> 0 <= BITS_TO_LONGS n.
Proof.
  intros n Hn. unfold BITS_TO_LONGS, BITS_PER_LONG.
  apply Z.div_pos; lia.
Qed.

Lemma dart_ptr_eqb_eq : forall a b, dart_ptr_eqb a b = true <-> a = b.
Proof.
  intros [p |] [q |]; cbn; try (split; (reflexivity || discriminate)).
  rewrite Nat.eqb_eq. split; [intros -> | intros [= ->]]; reflexivity.
Qed.

(** ** Merging the configs of two devices of one group *)

(** X1.  Merging [src] into [dst] when both name the same single unit
    succeeds and makes the stream set of [dst] the union of the two: a
    stream below the unit's stream count is in the result exactly when it
    was in [dst] or in [src].  The units named, the other slots and the
    bypass flag of [dst] are left as they were. *)
Theorem merge_master_cfg_union :
  forall (w : world) (dst src : MasterCfg.t) (p : nat),
    StreamMap.dart (MasterCfg.stream_maps dst 0%nat) = Some p ->
    StreamMap.dart (MasterCfg.stream_maps src 0%nat) = Some p ->
    StreamMap.dart (MasterCfg.stream_maps dst 1%nat) = None ->
    StreamMap.dart (MasterCfg.stream_maps src 1%nat) = None ->
    0 <= Dart.num_streams (darts w p) ->
    exists dst',
      apple_dart_merge_master_cfg w dst src = Done (0, dst') /\
      MasterCfg.supports_bypass dst' = MasterCfg.supports_bypass dst /\
      (forall i, StreamMap.dart (MasterCfg.stream_maps dst' i)
                 = StreamMap.dart (MasterCfg.stream_maps dst i)) /\
      (forall i, i <> 0%nat ->
                 MasterCfg.stream_maps dst' i = MasterCfg.stream_maps dst i) /\
      forall sid, 0 <= sid < Dart.num_streams (darts w p) ->
        Z.testbit (StreamMap.sidmap (MasterCfg.stream_maps dst' 0%nat)) sid
        = Z.testbit (StreamMap.sidmap (MasterCfg.stream_maps dst 0%nat)) sid
          || Z.testbit (StreamMap.sidmap (MasterCfg.stream_maps src 0%nat))
                       sid.
Proof.
  intros w dst src p Hd0 Hs0 Hd1 Hs1 Hn.
  unfold apple_dart_merge_master_cfg, dart_is_null.
  rewrite Hs1, Hd1, Hs0, Hd0. cbn [negb dart_ptr_eqb bind deref].
  rewrite Nat.eqb_refl. cbn [negb].
  eexists. split; [reflexivity |].
  cbn [MasterCfg.supports_bypass MasterCfg.stream_maps].
  split; [reflexivity |]. split; [| split].
  - intros i. unfold set_stream_map. destruct (Nat.eqb i 0) eqn:E;
      [| reflexivity].
    apply Nat.eqb_eq in E. subst i. cbn [StreamMap.dart]. symmetry.
    exact Hd0.
  - intros i Hi. unfold set_stream_map. apply Nat.eqb_neq in Hi.
    rewrite Hi. reflexivity.
  - intros sid Hsid. unfold set_stream_map. cbn [Nat.eqb StreamMap.sidmap].
    unfold bitmap_or.
    rewrite testbit_copy_longs by (try apply BITS_TO_LONGS_nonneg; lia).
    pose proof (BITS_TO_LONGS_covers _ _ Hsid) as Hc.
    replace (sid <? BITS_PER_LONG * BITS_TO_LONGS (Dart.num_streams (darts w p)))
      with true by (symmetry; apply Z.ltb_lt; lia).
    apply Z.lor_spec.
Qed.

Lemma merge_master_cfg_union_witness :
  exists dst',
    apple_dart_merge_master_cfg world_t8103 cfg_unit_0
      (MasterCfg.mk true
         (set_stream_map (fun _ => StreamMap.mk None 0) 0
            (StreamMap.mk (Some 0%nat) 10)))
      = Done (0, dst') /\
    StreamMap.sidmap (MasterCfg.stream_maps dst' 0%nat) = 11.
Proof.
  destruct (merge_master_cfg_union world_t8103 cfg_unit_0
              (MasterCfg.mk true
                 (set_stream_map (fun _ => StreamMap.mk None 0) 0
                    (StreamMap.mk (Some 0%nat) 10)))
              0%nat eq_refl eq_refl eq_refl eq_refl)
    as (dst' & Hrun & _).
  - cbn. lia.
  - exists dst'. split; [exact Hrun |].
    cbn in Hrun. injection Hrun as <-. reflexivity.
Defined.

(** X2.  The merge is refused with -EINVAL, [dst] untouched, as soon as
    one of the two configs names a second unit or their first units
    differ. *)
Theorem merge_master_cfg_rejects :
  forall (w : world) (dst src : MasterCfg.t),
    StreamMap.dart (MasterCfg.stream_maps src 1%nat) <> None \/
    StreamMap.dart (MasterCfg.stream_maps dst 1%nat) <> None \/
    StreamMap.dart (MasterCfg.stream_maps src 0%nat)
      <> StreamMap.dart (MasterCfg.stream_maps dst 0%nat) ->
    apple_dart_merge_master_cfg w dst src = Done (- EINVAL, dst).
Proof.
  intros w dst src Hbad. unfold apple_dart_merge_master_cfg, dart_is_null.
  destruct (StreamMap.dart (MasterCfg.stream_maps src 1%nat)) as [s1 |];
    [reflexivity |].
  destruct (StreamMap.dart (MasterCfg.stream_maps dst 1%nat)) as [d1 |];
    [reflexivity |].
  cbn [negb].
  destruct (dart_ptr_eqb (StreamMap.dart (MasterCfg.stream_maps src 0%nat))
              (StreamMap.dart (MasterCfg.stream_maps dst 0%nat))) eqn:E;
    [| reflexivity].
  apply dart_ptr_eqb_eq in E.
  destruct Hbad as [Hb | [Hb | Hb]]; exfalso; apply Hb; auto.
Qed.

Lemma merge_master_cfg_rejects_witness :
  apple_dart_merge_master_cfg world_two_units cfg_unit_0 cfg_units_0_1
    = Done (- EINVAL, cfg_unit_0).
Proof.
  apply merge_master_cfg_rejects. left. discriminate.
Defined.

(** ** Adding and removing the streams of a device *)

Lemma mod_streams_from_spec :
  forall w mmaps add_streams n i dmaps j,
    let r := mod_streams_from w dmaps mmaps add_streams i n in
    let leading :=
      (i <= j < i + n)%nat /\
      forall k, (i <= k <= j)%nat -> StreamMap.dart (dmaps k) <> None in
    StreamMap.dart (r j) = StreamMap.dart (dmaps j) /\
    (leading -> forall q, StreamMap.dart (dmaps j) = Some q ->
       StreamMap.sidmap (r j)
       = mod_stream_words (BITS_TO_LONGS (Dart.num_streams (darts w q)))
           add_streams (StreamMap.sidmap (mmaps j))
           (StreamMap.sidmap (dmaps j))) /\
    (~ leading -> r j = dmaps j).
Proof.
  intros w mmaps add_streams n.
  induction n as [| n IH]; intros i dmaps j r leading; subst r leading.
  - cbn [mod_streams_from]. repeat split; auto. intros [Hr _]. lia.
  - cbn [mod_streams_from].
    destruct (StreamMap.dart (dmaps i)) as [p |] eqn:Ei.
    + set (dm1 := set_stream_map dmaps i _).
      assert (Hd1 : forall k, StreamMap.dart (dm1 k) = StreamMap.dart (dmaps k)).
      { intros k. unfold dm1, set_stream_map.
        destruct (Nat.eqb k i) eqn:E; [| reflexivity].
        apply Nat.eqb_eq in E. subst k. cbn. symmetry. exact Ei. }
      assert (Hne : forall k, k <> i -> dm1 k = dmaps k).
      { intros k Hk. unfold dm1, set_stream_map. apply Nat.eqb_neq in Hk.
        rewrite Hk. reflexivity. }
      destruct (IH (S i) dm1 j) as (I1 & I2 & I3).
      split; [rewrite I1; apply Hd1 |]. split.
      * intros [Hr Hlead] q Hq.
        destruct (Nat.eq_dec j i) as [-> | Hji].
        -- rewrite I3 by (intros [Hr' _]; lia).
           rewrite Ei in Hq. injection Hq as <-.
           unfold dm1, set_stream_map. rewrite Nat.eqb_refl. reflexivity.
        -- rewrite (I2 ltac:(split; [lia | intros k Hk; rewrite Hd1;
                                      apply Hlead; lia]) q)
             by (rewrite Hd1; exact Hq).
           rewrite (Hne j Hji). reflexivity.
      * intros Hnl. destruct (Nat.eq_dec j i) as [-> | Hji].
        -- exfalso. apply Hnl. split; [lia |]. intros k Hk.
           replace k with i by lia. rewrite Ei. discriminate.
        -- rewrite I3; [apply Hne; exact Hji |].
           intros [Hr Hlead]. apply Hnl. split; [lia |]. intros k Hk.
           destruct (Nat.eq_dec k i) as [-> | Hki];
             [rewrite Ei; discriminate |].
           rewrite <- Hd1. apply Hlead. lia.
    + repeat split; auto. intros [Hr Hlead] q Hq. exfalso.
      apply (Hlead i); [lia | exact Ei].
Qed.

Lemma darts_agree_forallb : forall dmaps mmaps,
  forallb (fun i => dart_ptr_eqb (StreamMap.dart (dmaps i))
                                 (StreamMap.dart (mmaps i)))
          (seq 0 MAX_DARTS_PER_DEVICE) = true <->
  forall i, (i < MAX_DARTS_PER_DEVICE)%nat ->
            StreamMap.dart (dmaps i) = StreamMap.dart (mmaps i).
Proof.
  intros dmaps mmaps. rewrite forallb_forall. split.
  - intros Hall i Hi. apply dart_ptr_eqb_eq. apply Hall. apply in_seq. lia.
  - intros Hall i Hi. apply in_seq in Hi. apply dart_ptr_eqb_eq.
    apply Hall. lia.
Qed.

(** X3.  Adding or removing a device's streams is refused with -EINVAL,
    the domain's stream maps untouched, when one of the
    MAX_DARTS_PER_DEVICE slots of the device names another unit than
    the same slot of the domain. *)
Theorem mod_streams_unit_mismatch :
  forall (w : world) (domain_maps master_maps : nat -> StreamMap.t)
         (add_streams : bool) (i : nat),
    (i < MAX_DARTS_PER_DEVICE)%nat ->
    StreamMap.dart (domain_maps i) <> StreamMap.dart (master_maps i) ->
    apple_dart_mod_streams w domain_maps master_maps add_streams
      = (- EINVAL, domain_maps).
Proof.
  intros w dmaps mmaps add_streams i Hi Hne. unfold apple_dart_mod_streams.
  destruct (forallb _ (seq 0 MAX_DARTS_PER_DEVICE)) eqn:E; [| reflexivity].
  exfalso. apply Hne. apply (proj1 (darts_agree_forallb _ _) E i Hi).
Qed.

Lemma mod_streams_unit_mismatch_witness :
  apple_dart_mod_streams world_two_units
    (MasterCfg.stream_maps cfg_unit_0) (MasterCfg.stream_maps cfg_units_0_1)
    true
  = (- EINVAL, MasterCfg.stream_maps cfg_unit_0).
Proof.
  apply (mod_streams_unit_mismatch _ _ _ _ 1%nat).
  - unfold MAX_DARTS_PER_DEVICE. lia.
  - discriminate.
Defined.

Lemma mod_streams_effect :
  forall (w : world) (domain_maps master_maps : nat -> StreamMap.t)
         (add_streams : bool),
    (forall i, (i < MAX_DARTS_PER_DEVICE)%nat ->
       StreamMap.dart (domain_maps i) = StreamMap.dart (master_maps i)) ->
    (forall i q, (i < MAX_DARTS_PER_DEVICE)%nat ->
       StreamMap.dart (domain_maps i) = Some q ->
       0 <= Dart.num_streams (darts w q)) ->
    exists maps',
      apple_dart_mod_streams w domain_maps master_maps add_streams
        = (0, maps') /\
      (forall i, StreamMap.dart (maps' i) = StreamMap.dart (domain_maps i)) /\
      forall i q,
        (i < MAX_DARTS_PER_DEVICE)%nat ->
        (forall k, (k <= i)%nat -> StreamMap.dart (domain_maps k) <> None) ->
        StreamMap.dart (domain_maps i) = Some q ->
        forall sid, 0 <= sid < Dart.num_streams (darts w q) ->
          Z.testbit (StreamMap.sidmap (maps' i)) sid
          = if add_streams
            then Z.testbit (StreamMap.sidmap (domain_maps i)) sid
                 || Z.testbit (StreamMap.sidmap (master_maps i)) sid
            else Z.testbit (StreamMap.sidmap (domain_maps i)) sid
                 && negb (Z.testbit (StreamMap.sidmap (master_maps i)) sid).
Proof.
  intros w dmaps mmaps add_streams Hagree Hn.
  unfold apple_dart_mod_streams.
  rewrite (proj2 (darts_agree_forallb _ _) Hagree).
  eexists. split; [reflexivity |]. split.
  - intros i.
    destruct (mod_streams_from_spec w mmaps add_streams MAX_DARTS_PER_DEVICE
                0 dmaps i) as (H1 & _). exact H1.
  - intros i q Hi Hlead Hq sid Hsid.
    destruct (mod_streams_from_spec w mmaps add_streams MAX_DARTS_PER_DEVICE
                0 dmaps i) as (_ & H2 & _).
    rewrite (H2 ltac:(split; [lia | intros k Hk; apply Hlead; lia]) q Hq).
    rewrite testbit_mod_stream_words
      by (try apply BITS_TO_LONGS_nonneg; try apply (Hn i q Hi Hq); lia).
    pose proof (BITS_TO_LONGS_covers _ _ Hsid) as Hc.
    replace (sid <? BITS_PER_LONG
                    * BITS_TO_LONGS (Dart.num_streams (darts w q)))
      with true by (symmetry; apply Z.ltb_lt; lia).
    reflexivity.
Qed.

(** X4.  When the units of all slots agree, the call returns 0 and keeps
    the units; in every slot up to the first one without a unit, a
    stream below that unit's stream count is in the domain afterwards
    exactly when it was there or is the device's (adding), respectively
    when it was there and is not the device's (removing). *)
Theorem mod_streams_bits :
  forall (w : world) (domain_maps master_maps : nat -> StreamMap.t)
         (add_streams : bool),
    (forall i, (i < MAX_DARTS_PER_DEVICE)%nat ->
       StreamMap.dart (domain_maps i) = StreamMap.dart (master_maps i)) ->
    (forall i q, (i < MAX_DARTS_PER_DEVICE)%nat ->
       StreamMap.dart (domain_maps i) = Some q ->
       0 <= Dart.num_streams (darts w q)) ->
    exists maps',
      apple_dart_mod_streams w domain_maps master_maps add_streams
        = (0, maps') /\
      (forall i, StreamMap.dart (maps' i) = StreamMap.dart (domain_maps i)) /\
      forall i q,
        (i < MAX_DARTS_PER_DEVICE)%nat ->
        (forall k, (k <= i)%nat -> StreamMap.dart (domain_maps k) <> None) ->
        StreamMap.dart (domain_maps i) = Some q ->
        forall sid, 0 <= sid < Dart.num_streams (darts w q) ->
          Z.testbit (StreamMap.sidmap (maps' i)) sid
          = if add_streams
            then Z.testbit (StreamMap.sidmap (domain_maps i)) sid
                 || Z.testbit (StreamMap.sidmap (master_maps i)) sid
            else Z.testbit (StreamMap.sidmap (domain_maps i)) sid
                 && negb (Z.testbit (StreamMap.sidmap (master_maps i)) sid).
Proof. exact mod_streams_effect. Qed.

Lemma mod_streams_bits_witness :
  exists maps',
    apple_dart_mod_streams world_t8103
      (set_stream_map (fun _ => StreamMap.mk None 0) 0
         (StreamMap.mk (Some 0%nat) 6))
      (MasterCfg.stream_maps cfg_unit_0) false
    = (0, maps') /\
    StreamMap.sidmap (maps' 0%nat) = 6 /\
    Z.testbit (StreamMap.sidmap (maps' 0%nat)) 0 = false.
Proof.
  destruct (mod_streams_bits world_t8103
              (set_stream_map (fun _ => StreamMap.mk None 0) 0
                 (StreamMap.mk (Some 0%nat) 6))
              (MasterCfg.stream_maps cfg_unit_0) false)
    as (maps' & Hrun & _ & Hbits).
  - intros i Hi. unfold MAX_DARTS_PER_DEVICE in Hi.
    destruct i as [| [| [| i]]]; reflexivity.
  - intros i q _ _. cbn. lia.
  - exists maps'. split; [exact Hrun |]. split.
    + cbn in Hrun. injection Hrun as <-. reflexivity.
    + rewrite (Hbits 0%nat 0%nat); [reflexivity | | | reflexivity |].
      * unfold MAX_DARTS_PER_DEVICE. lia.
      * intros k Hk. replace k with 0%nat by lia. discriminate.
      * cbn. lia.
Defined.

Section FinalizeThenAdd.
Context {pgtable : Type} `{IoPgtable pgtable} `{Platform}.

Lemma finalize_stream_map_units :
  forall fuel w (dd : Domain.t pgtable) dev cfg ret dd' w',
    Domain.finalized dd = false ->
    apple_dart_finalize_domain fuel w dd dev cfg = Done (ret, dd', w') ->
    Domain.finalized dd' = true ->
    forall i, (i < MAX_DARTS_PER_DEVICE)%nat ->
      StreamMap.dart (Domain.stream_maps dd' i)
      = StreamMap.dart (MasterCfg.stream_maps cfg i).
Proof.
  intros fuel w dd dev cfg ret dd' w' Hfin Hrun Hfin' i Hi.
  unfold apple_dart_finalize_domain in Hrun.
  destruct (StreamMap.dart (MasterCfg.stream_maps cfg 0%nat)) as [p |];
    [| discriminate].
  cbn [bind deref] in Hrun.
  destruct (PAGE_SIZE <? Dart.pgsize (darts w p)).
  { injection Hrun as _ <- _. rewrite Hfin in Hfin'. discriminate. }
  rewrite Hfin in Hrun. cbv zeta in Hrun.
  set (X := if Dart.locked (darts w p) then _ else _) in Hrun.
  destruct X as [w3 [[pgtbl_cfg dma_max] | r]].
  - destruct (alloc_io_pgtable_ops (Hw.fmt (Dart.hw (darts w p))) pgtbl_cfg)
      as [[ops pgtbl_cfg0] |].
    + destruct (apple_dart_setup_resv_locked _ _ _ _) as [[r1 d1] | | |] eqn:Eresv;
        cbn [bind] in Hrun; try discriminate.
      injection Hrun as _ <- _.
      apply setup_resv_regions_same in Eresv.
      destruct Eresv as (_ & _ & S3 & _).
      rewrite S3. cbn [Domain.stream_maps Domain.set_stream_maps].
      apply Nat.ltb_lt in Hi. rewrite Hi. reflexivity.
    + injection Hrun as _ <- _. cbn in Hfin'. rewrite Hfin in Hfin'.
      discriminate.
  - injection Hrun as _ <- _. cbn in Hfin'. rewrite Hfin in Hfin'.
    discriminate.
Qed.

(** X5.  After a first finalize of a domain from a device's config has
    returned 0, adding the streams of that config to the domain returns 0
    as well: the domain then names the config's units, is still
    finalized with the same page table and mask, and in every slot up to
    the first one without a unit every stream of the config below that
    unit's stream count is in the domain. *)
Theorem finalize_then_add_streams :
  forall (fuel : nat) (w : world) (dd : Domain.t pgtable) (dev : nat)
         (cfg : MasterCfg.t) (dd1 : Domain.t pgtable) (w1 : world),
    Domain.finalized dd = false ->
    apple_dart_finalize_domain fuel w dd dev cfg = Done (0, dd1, w1) ->
    (forall i q, (i < MAX_DARTS_PER_DEVICE)%nat ->
       StreamMap.dart (MasterCfg.stream_maps cfg i) = Some q ->
       0 <= Dart.num_streams (darts w q)) ->
    exists dd2,
      apple_dart_domain_add_streams w1 dd1 cfg = (0, dd2) /\
      Domain.finalized dd2 = true /\
      Domain.pgtbl_ops dd2 = Domain.pgtbl_ops dd1 /\
      Domain.mask dd2 = Domain.mask dd1 /\
      forall i q,
        (i < MAX_DARTS_PER_DEVICE)%nat ->
        (forall k, (k <= i)%nat ->
           StreamMap.dart (MasterCfg.stream_maps cfg k) <> None) ->
        StreamMap.dart (MasterCfg.stream_maps cfg i) = Some q ->
        StreamMap.dart (Domain.stream_maps dd2 i) = Some q /\
        forall sid, 0 <= sid < Dart.num_streams (darts w q) ->
          Z.testbit (StreamMap.sidmap (MasterCfg.stream_maps cfg i)) sid
            = true ->
          Z.testbit (StreamMap.sidmap (Domain.stream_maps dd2 i)) sid = true.
Proof.
  intros fuel w dd dev cfg dd1 w1 Hfin Hrun Hn.
  destruct (finalize_unfinalized_cases _ _ _ _ _ _ _ _ Hfin Hrun)
    as (p & Hp & Hd & _ & [(_ & Hret & _) | (_ & evs & _ & Hcase)]);
    [discriminate |].
  destruct Hcase as [(Hret & _) | (Hfin1 & _)]; [discriminate |].
  pose proof (finalize_stream_map_units _ _ _ _ _ _ _ _ Hfin Hrun Hfin1)
    as Hunits.
  destruct (mod_streams_effect w1 (Domain.stream_maps dd1)
              (MasterCfg.stream_maps cfg) true)
    as (maps' & Hmod & Hdart & Hbits).
  - exact Hunits.
  - intros i q Hi Hq. rewrite Hd. apply (Hn i q Hi).
    rewrite <- Hunits by exact Hi. exact Hq.
  - unfold apple_dart_domain_add_streams. rewrite Hmod.
    eexists. split; [reflexivity |].
    cbn [Domain.finalized Domain.pgtbl_ops Domain.mask Domain.stream_maps
         Domain.set_stream_maps].
    split; [exact Hfin1 |]. split; [reflexivity |]. split; [reflexivity |].
    intros i q Hi Hlead Hq.
    assert (Hq1 : StreamMap.dart (Domain.stream_maps dd1 i) = Some q)
      by (rewrite Hunits by exact Hi; exact Hq).
    split; [rewrite Hdart; exact Hq1 |].
    intros sid Hsid Hbit.
    rewrite (Hbits i q Hi).
    + rewrite Hbit. apply orb_true_r.
    + intros k Hk. rewrite Hunits by lia. apply Hlead. exact Hk.
    + exact Hq1.
    + rewrite Hd. exact Hsid.
Qed.

(** X6.  The default domain type and the attach paths agree: when
    def_domain_type asks for a DMA domain (no bypass support, or a locked
    first unit, on pages the CPU can use) the attach to the identity
    domain is refused with -EINVAL and touches nothing; and when it asks
    for the identity domain because the unit's pages are larger than the
    CPU's, finalize of a paging domain is refused with -EINVAL, the
    domain left as it was, before the lock is taken. *)
Theorem def_domain_type_consistent :
  forall (fuel : nat) (w : world) (cfg : MasterCfg.t)
         (dd : Domain.t pgtable) (dev : nat) (p : nat),
    StreamMap.dart (MasterCfg.stream_maps cfg 0%nat) = Some p ->
    (apple_dart_def_domain_type w cfg = Done IOMMU_DOMAIN_DMA ->
     apple_dart_attach_dev_identity w cfg = Done (- EINVAL, w)) /\
    (apple_dart_def_domain_type w cfg = Done IOMMU_DOMAIN_IDENTITY ->
     PAGE_SIZE < Dart.pgsize (darts w p) /\
     apple_dart_finalize_domain fuel w dd dev cfg = Done (- EINVAL, dd, w)).
Proof.
  intros fuel w cfg dd dev p Hp.
  unfold apple_dart_def_domain_type, apple_dart_attach_dev_identity,
    apple_dart_finalize_domain.
  rewrite Hp. cbn [bind deref].
  destruct (PAGE_SIZE <? Dart.pgsize (darts w p)) eqn:Epg.
  - split; [discriminate |]. intros _. apply Z.ltb_lt in Epg.
    split; [exact Epg | reflexivity].
  - destruct (MasterCfg.supports_bypass cfg); cbn [negb].
    + destruct (Dart.locked (darts w p)).
      * split; [reflexivity | discriminate].
      * split; discriminate.
    + split; [reflexivity | discriminate].
Qed.

End FinalizeThenAdd.

Lemma finalize_then_add_streams_witness :
  exists dd1 w1 dd2,
    apple_dart_finalize_domain 1 world_t8103 fresh_domain 1 cfg_unit_0
      = Done (0, dd1, w1) /\
    apple_dart_domain_add_streams w1 dd1 cfg_unit_0 = (0, dd2) /\
    Z.testbit (StreamMap.sidmap (Domain.stream_maps dd2 0%nat)) 0 = true.
Proof.
  assert (Hrun : exists dd1 w1,
            apple_dart_finalize_domain 1 world_t8103 fresh_domain 1 cfg_unit_0
              = Done (0, dd1, w1)).
  { eexists. eexists. reflexivity. }
  destruct Hrun as (dd1 & w1 & Hrun).
  destruct (finalize_then_add_streams 1 world_t8103 fresh_domain 1 cfg_unit_0
              dd1 w1 eq_refl Hrun)
    as (dd2 & Hadd & _ & _ & _ & Hbits).
  - intros i q _ _. cbn. lia.
  - exists dd1, w1, dd2. split; [exact Hrun |]. split; [exact Hadd |].
    destruct (Hbits 0%nat 0%nat) as [_ Hb].
    + unfold MAX_DARTS_PER_DEVICE. lia.
    + intros k Hk. replace k with 0%nat by lia. discriminate.
    + reflexivity.
    + apply Hb; [cbn; lia | reflexivity].
Defined.

Lemma def_domain_type_consistent_witness :
  apple_dart_def_domain_type world_t8110_locked cfg_unit_0
    = Done IOMMU_DOMAIN_DMA /\
  apple_dart_attach_dev_identity world_t8110_locked cfg_unit_0
    = Done (- EINVAL, world_t8110_locked).
Proof.
  destruct (def_domain_type_consistent 0 world_t8110_locked cfg_unit_0
              fresh_domain 0 0%nat eq_refl) as [H1 _].
  split; [reflexivity | apply H1; reflexivity].
Defined.

(** ** Programming the TCR of the streams of a device *)

Lemma write_loop_other : forall p val (off : Z -> Z) l w q o,
  q <> p ->
  readl (fold_left (fun w sid => writel w p val (off sid)) l w) q o
  = readl w q o.
Proof.
  intros p val off l. induction l as [| s l IH]; intros w q o Hq;
    [reflexivity |].
  cbn [fold_left]. rewrite IH by exact Hq.
  unfold writel, readl. cbn. apply Nat.eqb_neq in Hq. rewrite Hq.
  reflexivity.
Qed.

Lemma write_loop_log : forall p val (off : Z -> Z) l w,
  log (fold_left (fun w sid => writel w p val (off sid)) l w)
  = log w ++ map (fun sid => EvWritel p (u32 val) (off sid)) l.
Proof.
  intros p val off l. induction l as [| s l IH]; intros w.
  - cbn. rewrite app_nil_r. reflexivity.
  - cbn [fold_left map]. rewrite IH. unfold writel at 1.
    cbn [emit log set_dart]. rewrite <- app_assoc. reflexivity.
Qed.

Lemma write_loop_mem : forall p val (off : Z -> Z) l w,
  mem (fold_left (fun w sid => writel w p val (off sid)) l w) = mem w.
Proof.
  intros p val off l. induction l as [| s l IH]; intros w; [reflexivity |].
  cbn [fold_left]. rewrite IH. reflexivity.
Qed.

Lemma write_loop_tables : forall p val (off : Z -> Z) l w q,
  Dart.locked_ttbr
    (darts (fold_left (fun w sid => writel w p val (off sid)) l w) q)
  = Dart.locked_ttbr (darts w q) /\
  Dart.shadow_ttbr
    (darts (fold_left (fun w sid => writel w p val (off sid)) l w) q)
  = Dart.shadow_ttbr (darts w q) /\
  Dart.pgsize
    (darts (fold_left (fun w sid => writel w p val (off sid)) l w) q)
  = Dart.pgsize (darts w q).
Proof.
  intros p val off l. induction l as [| s l IH]; intros w q; [auto |].
  cbn [fold_left]. destruct (IH (writel w p val (off s)) q) as (A & B & C).
  rewrite A, B, C. unfold writel. cbn.
  destruct (Nat.eqb q p) eqn:E; auto.
  apply Nat.eqb_eq in E. subst q. auto.
Qed.

(* What one pass over the streams of a map does when it writes the value
   [val] to a register of each stream. *)
Section StreamPass.
Variables (p : nat) (val : Z) (off : Z -> Z) (sidmap size : Z).
Variables (w w0 : world).
Hypothesis Hw0 : diag_extends w w0.

Let w' : world :=
  fold_left (fun w sid => writel w p val (off sid))
            (for_each_set_bit sidmap size) w0.

Lemma stream_pass_static : forall q,
  Dart.hw (darts w' q) = Dart.hw (darts w q) /\
  Dart.num_streams (darts w' q) = Dart.num_streams (darts w q) /\
  Dart.locked (darts w' q) = Dart.locked (darts w q) /\
  Dart.supports_bypass (darts w' q) = Dart.supports_bypass (darts w q).
Proof.
  intros q. destruct Hw0 as (Hd & _).
  destruct (write_loop_static p val off (for_each_set_bit sidmap size) w0 q)
    as (A & B & C & D).
  unfold w'. rewrite A, B, C, D, Hd. auto.
Qed.

Lemma stream_pass_hit : forall sid,
  0 <= sid < size -> Z.testbit sidmap sid = true ->
  readl w' p (off sid) = u32 val.
Proof.
  intros sid Hr Hb. unfold w'. apply write_loop_hit.
  apply in_for_each_set_bit. auto.
Qed.

Lemma stream_pass_miss : forall q o,
  q <> p \/
  (forall sid, 0 <= sid < size -> Z.testbit sidmap sid = true ->
               off sid <> o) ->
  readl w' q o = readl w q o.
Proof.
  intros q o Hmiss. destruct Hw0 as (Hd & _). unfold w'.
  destruct (Nat.eq_dec q p) as [-> | Hq].
  - destruct Hmiss as [Hne | Hoff]; [contradiction |].
    rewrite write_loop_miss.
    + unfold readl. rewrite Hd. reflexivity.
    + intros sid Hin. apply in_for_each_set_bit in Hin.
      apply Hoff; tauto.
  - rewrite write_loop_other by exact Hq.
    unfold readl. rewrite Hd. reflexivity.
Qed.

Lemma stream_pass_written : forall q o,
  readl w' q o = readl w q o \/ (q = p /\ readl w' q o = u32 val).
Proof.
  intros q o.
  destruct (existsb (fun sid => off sid =? o) (for_each_set_bit sidmap size))
    eqn:E.
  - apply existsb_exists in E. destruct E as (sid & Hin & Ho).
    apply Z.eqb_eq in Ho. subst o.
    destruct (Nat.eq_dec q p) as [-> | Hq].
    + right. split; [reflexivity |]. unfold w'. apply write_loop_hit.
      exact Hin.
    + left. apply stream_pass_miss. left. exact Hq.
  - left. apply stream_pass_miss. right. intros sid Hr Hb Ho.
    assert (Hex : existsb (fun sid => off sid =? o)
                          (for_each_set_bit sidmap size) = true).
    { apply existsb_exists. exists sid. split.
      - apply in_for_each_set_bit. auto.
      - apply Z.eqb_eq. exact Ho. }
    rewrite Hex in E. discriminate.
Qed.

Lemma stream_pass_mem : mem w' = mem w.
Proof.
  destruct Hw0 as (_ & Hm & _). unfold w'. rewrite write_loop_mem. exact Hm.
Qed.

Lemma stream_pass_tables : forall q,
  Dart.locked_ttbr (darts w' q) = Dart.locked_ttbr (darts w q) /\
  Dart.shadow_ttbr (darts w' q) = Dart.shadow_ttbr (darts w q) /\
  Dart.pgsize (darts w' q) = Dart.pgsize (darts w q).
Proof.
  intros q. destruct Hw0 as (Hd & _).
  destruct (write_loop_tables p val off (for_each_set_bit sidmap size) w0 q)
    as (A & B & C).
  unfold w'. rewrite A, B, C, Hd. auto.
Qed.

Lemma stream_pass_log :
  exists evs,
    log w' = log w ++ evs /\
    Forall (fun e => is_diag e = true \/
                     exists v o, e = EvWritel p v o) evs.
Proof.
  destruct Hw0 as (_ & _ & evs & Hl & Hf). unfold w'.
  rewrite write_loop_log, Hl, <- app_assoc.
  eexists. split; [reflexivity |].
  apply Forall_app. split.
  - apply Forall_forall. intros e Hin. left.
    rewrite forallb_forall in Hf. apply Hf. exact Hin.
  - apply Forall_forall. intros e Hin. right.
    apply in_map_iff in Hin. destruct Hin as (sid & <- & _). eauto.
Qed.

End StreamPass.

Lemma dart_same_but_regs_refl : forall d, dart_same_but_regs d d.
Proof. intros d. unfold dart_same_but_regs. repeat split. Qed.

Lemma dart_same_but_regs_trans : forall d1 d2 d3,
  dart_same_but_regs d1 d2 -> dart_same_but_regs d2 d3 ->
  dart_same_but_regs d1 d3.
Proof.
  intros d1 d2 d3 (A1 & A2 & A3 & A4 & A5 & A6 & A7 & A8 & A9 & A10 & A11 & A12)
                  (B1 & B2 & B3 & B4 & B5 & B6 & B7 & B8 & B9 & B10 & B11 & B12).
  unfold dart_same_but_regs.
  rewrite B1, B2, B3, B4, B5, B6, B7, B8, B9, B10, B11, B12.
  repeat split; assumption.
Qed.

Lemma only_regs_changed_refl : forall w, only_regs_changed w w.
Proof.
  intros w. split; [reflexivity | intros q; apply dart_same_but_regs_refl].
Qed.

Lemma only_regs_changed_trans : forall w1 w2 w3,
  only_regs_changed w1 w2 -> only_regs_changed w2 w3 ->
  only_regs_changed w1 w3.
Proof.
  intros w1 w2 w3 [M1 D1] [M2 D2]. split; [rewrite M2; exact M1 |].
  intros q. apply (dart_same_but_regs_trans _ (darts w2 q)); auto.
Qed.

Lemma only_regs_changed_writel : forall w p val off,
  only_regs_changed w (writel w p val off).
Proof.
  intros w p val off. split; [reflexivity |]. intros q.
  unfold writel. cbn. destruct (Nat.eqb q p) eqn:E.
  - apply Nat.eqb_eq in E. subst q. unfold dart_same_but_regs. cbn.
    repeat split.
  - apply dart_same_but_regs_refl.
Qed.

Lemma only_regs_changed_diag : forall w w0,
  diag_extends w w0 -> only_regs_changed w w0.
Proof.
  intros w w0 (Hd & Hm & _). split; [exact Hm |]. intros q. rewrite Hd.
  apply dart_same_but_regs_refl.
Qed.

Lemma only_regs_changed_write_loop : forall p val (off : Z -> Z) l w,
  only_regs_changed w
    (fold_left (fun w sid => writel w p val (off sid)) l w).
Proof.
  intros p val off l. induction l as [| s l IH]; intros w.
  - apply only_regs_changed_refl.
  - cbn [fold_left].
    apply (only_regs_changed_trans _ (writel w p val (off s)));
      [apply only_regs_changed_writel | apply IH].
Qed.

Lemma DART_TCR_same : forall d d' sid,
  dart_same_but_regs d d' -> DART_TCR d' sid = DART_TCR d sid.
Proof. intros d d' sid (E & _). apply DART_TCR_hw. exact E. Qed.

Lemma DART_TTBR_same : forall d d' sid idx,
  dart_same_but_regs d d' -> DART_TTBR d' sid idx = DART_TTBR d sid idx.
Proof.
  intros d d' sid idx (E & _). unfold DART_TTBR. rewrite E. reflexivity.
Qed.

(* A pass over the stream maps of a config with an operation that writes
   one value, fixed by the unit's hardware descriptor, to the TCR of every
   stream of a map. *)
Section TcrPasses.
Variable op : world -> StreamMap.t -> exec world.
Variable val : Hw.t -> Z.
Hypothesis Hop : forall w sm p,
  StreamMap.dart sm = Some p ->
  exists w0,
    diag_extends w w0 /\
    op w sm
    = Done (fold_left
              (fun w' sid =>
                 writel w' p (val (Dart.hw (darts w p)))
                        (DART_TCR (darts w p) sid))
              (for_each_set_bit (StreamMap.sidmap sm)
                 (Dart.num_streams (darts w p))) w0).

Lemma tcr_passes : forall (l : list (nat * StreamMap.t)) (w : world),
  (forall ps, In ps l -> StreamMap.dart (snd ps) = Some (fst ps)) ->
  exists w',
    fold_exec (fun w ps => op w (snd ps)) l w = Done w' /\
    only_regs_changed w w' /\
    (forall q o,
       readl w' q o = readl w q o \/
       ((exists sm, In (q, sm) l) /\
        readl w' q o = u32 (val (Dart.hw (darts w q))))) /\
    (forall p sm sid,
       In (p, sm) l ->
       0 <= sid < Dart.num_streams (darts w p) ->
       Z.testbit (StreamMap.sidmap sm) sid = true ->
       readl w' p (DART_TCR (darts w p) sid)
       = u32 (val (Dart.hw (darts w p)))) /\
    exists evs,
      log w' = log w ++ evs /\
      Forall (fun e => is_diag e = true \/
                       exists q sm v o, In (q, sm) l /\ e = EvWritel q v o)
             evs.
Proof.
  induction l as [| [p sm] l IH]; intros w Hl.
  - exists w. cbn [fold_exec]. split; [reflexivity |].
    split; [apply only_regs_changed_refl |].
    split; [intros; left; reflexivity |].
    split; [intros p sm sid [] |].
    exists []. rewrite app_nil_r. split; [reflexivity | constructor].
  - cbn [fold_exec snd].
    destruct (Hop w sm p (Hl (p, sm) (or_introl eq_refl)))
      as (w0 & Hw0 & Hrun).
    rewrite Hrun. cbn [bind].
    set (w1 := fold_left _ _ w0).
    assert (H1 : only_regs_changed w w1).
    { apply (only_regs_changed_trans _ w0);
        [apply only_regs_changed_diag; exact Hw0 |
         apply only_regs_changed_write_loop]. }
    destruct (IH w1 (fun ps Hin => Hl ps (or_intror Hin)))
      as (w' & Hfold & H2 & Hwr & Hhit & evs & Hlog & Hevs).
    exists w'. split; [exact Hfold |].
    split; [apply (only_regs_changed_trans _ w1); assumption |].
    assert (Hhw : forall q, Dart.hw (darts w1 q) = Dart.hw (darts w q))
      by (intros q; destruct H1 as [_ D]; destruct (D q) as (E & _); exact E).
    assert (Hwr1 : forall q o,
              readl w1 q o = readl w q o \/
              (q = p /\ readl w1 q o = u32 (val (Dart.hw (darts w p))))).
    { intros q o. apply stream_pass_written. exact Hw0. }
    split; [| split].
    + intros q o. destruct (Hwr q o) as [E | [[sm' Hin] E]].
      * rewrite E. destruct (Hwr1 q o) as [F | [-> F]]; [left; exact F |].
        right. split; [exists sm; left; reflexivity | exact F].
      * right. split; [exists sm'; right; exact Hin |].
        rewrite E, Hhw. reflexivity.
    + intros q sm' sid [Heq | Hin] Hsid Hbit.
      * injection Heq as <- <-.
        destruct (Hwr p (DART_TCR (darts w p) sid)) as [E | [_ E]].
        -- rewrite E. apply stream_pass_hit; assumption.
        -- rewrite E, Hhw. reflexivity.
      * destruct H1 as [_ D].
        rewrite <- (DART_TCR_same _ _ sid (D q)), <- Hhw.
        apply (Hhit q sm' sid Hin); [| exact Hbit].
        destruct (D q) as (_ & _ & _ & _ & En & _). rewrite En. exact Hsid.
    + destruct (stream_pass_log p (val (Dart.hw (darts w p)))
                  (DART_TCR (darts w p)) (StreamMap.sidmap sm)
                  (Dart.num_streams (darts w p)) w w0 Hw0)
        as (evs1 & Hlog1 & Hevs1).
      fold w1 in Hlog1. exists (evs1 ++ evs).
      rewrite Hlog, Hlog1, <- app_assoc. split; [reflexivity |].
      apply Forall_app. split.
      * eapply Forall_impl; [| exact Hevs1].
        intros e [Hd | (v & o & ->)]; [left; exact Hd |].
        right. exists p, sm, v, o. split; [left; reflexivity | reflexivity].
      * eapply Forall_impl; [| exact Hevs].
        intros e [Hd | (q & sm' & v & o & Hin & ->)]; [left; exact Hd |].
        right. exists q, sm', v, o. split; [right; exact Hin | reflexivity].
Qed.

End TcrPasses.

Lemma disable_dma_pass : forall w sm p,
  StreamMap.dart sm = Some p ->
  exists w0,
    diag_extends w w0 /\
    apple_dart_hw_disable_dma w sm
    = Done (fold_left
              (fun w' sid =>
                 writel w' p (Hw.tcr_disabled (Dart.hw (darts w p)))
                        (DART_TCR (darts w p) sid))
              (for_each_set_bit (StreamMap.sidmap sm)
                 (Dart.num_streams (darts w p))) w0).
Proof.
  intros w sm p Hp. unfold apple_dart_hw_disable_dma. rewrite Hp.
  cbn [bind deref]. eexists. split; [| reflexivity].
  apply diag_extends_WARN_ON, diag_extends_refl.
Qed.

Lemma enable_bypass_pass : forall w sm p,
  StreamMap.dart sm = Some p ->
  exists w0,
    diag_extends w w0 /\
    apple_dart_hw_enable_bypass w sm
    = Done (fold_left
              (fun w' sid =>
                 writel w' p (Hw.tcr_bypass (Dart.hw (darts w p)))
                        (DART_TCR (darts w p) sid))
              (for_each_set_bit (StreamMap.sidmap sm)
                 (Dart.num_streams (darts w p))) w0).
Proof.
  intros w sm p Hp. unfold apple_dart_hw_enable_bypass. rewrite Hp.
  cbn [bind deref]. eexists. split; [| reflexivity].
  apply diag_extends_WARN_ON, diag_extends_WARN_ON, diag_extends_refl.
Qed.

Lemma stream_maps_from_In : forall maps n s p sm,
  In (p, sm) (stream_maps_from maps s n) <->
  exists i, (s <= i < s + n)%nat /\
            (forall k, (s <= k <= i)%nat -> StreamMap.dart (maps k) <> None) /\
            sm = maps i /\ StreamMap.dart (maps i) = Some p.
Proof.
  intros maps n. induction n as [| n IH]; intros s p sm.
  - cbn. split; [intros [] | intros (i & Hi & _); lia].
  - cbn [stream_maps_from].
    destruct (StreamMap.dart (maps s)) as [q |] eqn:Es.
    + cbn [In]. rewrite IH. split.
      * intros [Heq | (i & Hi & Hlead & Hsm & Hd)].
        -- injection Heq as <- <-. exists s. repeat split; [lia | lia | |
             exact Es].
           intros k Hk. replace k with s by lia. rewrite Es. discriminate.
        -- exists i. repeat split; [lia | lia | | exact Hsm | exact Hd].
           intros k Hk. destruct (Nat.eq_dec k s) as [-> | Hne];
             [rewrite Es; discriminate | apply Hlead; lia].
      * intros (i & Hi & Hlead & Hsm & Hd).
        destruct (Nat.eq_dec i s) as [-> | Hne].
        -- left. rewrite Es in Hd. injection Hd as <-. subst sm. reflexivity.
        -- right. exists i. repeat split; [lia | lia | | exact Hsm | exact Hd].
           intros k Hk. apply Hlead. lia.
    + split; [intros [] |]. intros (i & Hi & Hlead & _). exfalso.
      apply (Hlead s); [lia | exact Es].
Qed.

Lemma for_each_stream_map_dart : forall maps ps,
  In ps (for_each_stream_map maps) -> StreamMap.dart (snd ps) = Some (fst ps).
Proof.
  intros maps [p sm] Hin. apply stream_maps_from_In in Hin.
  destruct Hin as (i & _ & _ & -> & Hd). exact Hd.
Qed.

Lemma for_each_stream_map_slot : forall maps i p,
  (i < MAX_DARTS_PER_DEVICE)%nat ->
  (forall k, (k <= i)%nat -> StreamMap.dart (maps k) <> None) ->
  StreamMap.dart (maps i) = Some p ->
  In (p, maps i) (for_each_stream_map maps).
Proof.
  intros maps i p Hi Hlead Hp. apply stream_maps_from_In.
  exists i. repeat split; [lia | lia | | exact Hp].
  intros k Hk. apply Hlead. lia.
Qed.

Lemma pm_get_stream_maps_effect :
  forall (Pl : Platform) w cfg,
    darts (pm_get_stream_maps w cfg) = darts w /\
    mem (pm_get_stream_maps w cfg) = mem w /\
    log (pm_get_stream_maps w cfg)
    = log w
      ++ flat_map (fun ps => EvPmGet (fst ps)
                             :: (if pm_runtime_get_sync (fst ps) <? 0
                                 then [EvWarn] else []))
                  (for_each_stream_map (MasterCfg.stream_maps cfg)).
Proof.
  intros Pl w cfg. unfold pm_get_stream_maps.
  generalize (for_each_stream_map (MasterCfg.stream_maps cfg)) as l.
  intros l. revert w. induction l as [| ps l IH]; intros w.
  - cbn. rewrite app_nil_r. auto.
  - cbn [fold_left flat_map]. destruct (IH (WARN_ON
      (pm_runtime_get_sync (fst ps) <? 0) (emit (EvPmGet (fst ps)) w)))
      as (A & B & C).
    rewrite A, B, C, darts_WARN_ON, mem_WARN_ON, log_WARN_ON.
    cbn [emit darts mem log]. rewrite <- !app_assoc. auto.
Qed.

Lemma pm_put_stream_maps_effect :
  forall w cfg,
    darts (pm_put_stream_maps w cfg) = darts w /\
    mem (pm_put_stream_maps w cfg) = mem w /\
    log (pm_put_stream_maps w cfg)
    = log w ++ map (fun ps => EvPmPut (fst ps))
                   (for_each_stream_map (MasterCfg.stream_maps cfg)).
Proof.
  intros w cfg. unfold pm_put_stream_maps.
  generalize (for_each_stream_map (MasterCfg.stream_maps cfg)) as l.
  intros l. revert w. induction l as [| ps l IH]; intros w.
  - cbn. rewrite app_nil_r. auto.
  - cbn [fold_left map]. destruct (IH (emit (EvPmPut (fst ps)) w))
      as (A & B & C).
    rewrite A, B, C. cbn [emit darts mem log]. rewrite <- !app_assoc. auto.
Qed.

(** X7.  The attach to the blocked domain always returns 0.  Afterwards
    the TCR of every stream of the device (a set bit below the unit's
    stream count, in a slot up to the first one without a unit) holds the
    unit's disabled value; registers of units the device does not name
    are as before, and so is everything but registers and log. *)
Theorem attach_dev_blocked_disables :
  forall (Pl : Platform) (w : world) (cfg : MasterCfg.t),
    exists w',
      apple_dart_attach_dev_blocked w cfg = Done (0, w') /\
      only_regs_changed w w' /\
      (forall i p sid,
         (i < MAX_DARTS_PER_DEVICE)%nat ->
         (forall k, (k <= i)%nat ->
            StreamMap.dart (MasterCfg.stream_maps cfg k) <> None) ->
         StreamMap.dart (MasterCfg.stream_maps cfg i) = Some p ->
         0 <= sid < Dart.num_streams (darts w p) ->
         Z.testbit (StreamMap.sidmap (MasterCfg.stream_maps cfg i)) sid
           = true ->
         readl w' p (DART_TCR (darts w p) sid)
         = u32 (Hw.tcr_disabled (Dart.hw (darts w p)))) /\
      (forall q o,
         (forall i, (i < MAX_DARTS_PER_DEVICE)%nat ->
            StreamMap.dart (MasterCfg.stream_maps cfg i) <> Some q) ->
         readl w' q o = readl w q o).
Proof.
  intros Pl w cfg. unfold apple_dart_attach_dev_blocked.
  destruct (pm_get_stream_maps_effect Pl w cfg) as (Gd & Gm & _).
  set (w1 := pm_get_stream_maps w cfg) in *.
  destruct (tcr_passes apple_dart_hw_disable_dma Hw.tcr_disabled
              disable_dma_pass
              (for_each_stream_map (MasterCfg.stream_maps cfg)) w1
              (for_each_stream_map_dart _))
    as (w2 & Hrun & [Hm Hsame] & Hwr & Hhit & _).
  rewrite Hrun. cbn [bind].
  destruct (pm_put_stream_maps_effect w2 cfg) as (Pd & Pm & _).
  eexists. split; [reflexivity |]. split; [| split].
  - split; [rewrite Pm, Hm; exact Gm |].
    intros q. rewrite Pd. rewrite <- Gd. apply Hsame.
  - intros i p sid Hi Hlead Hp Hsid Hbit.
    unfold readl. rewrite Pd. rewrite <- Gd.
    apply (Hhit p (MasterCfg.stream_maps cfg i) sid).
    + apply for_each_stream_map_slot; assumption.
    + rewrite Gd. exact Hsid.
    + exact Hbit.
  - intros q o Hnot. unfold readl. rewrite Pd.
    destruct (Hwr q o) as [E | [[sm Hin] _]].
    + unfold readl in E. rewrite E, Gd. reflexivity.
    + exfalso. apply stream_maps_from_In in Hin.
      destruct Hin as (i & Hi & _ & _ & Hd). apply (Hnot i); [lia | exact Hd].
Qed.

(** X8.  The attach to the identity domain of a device whose config has
    the bypass flag set and whose first unit is not locked returns 0, and
    afterwards the TCR of every stream of the device holds its unit's
    bypass value; registers of units the device does not name are as
    before, and so is everything but registers and log. *)
Theorem attach_dev_identity_enables_bypass :
  forall (Pl : Platform) (w : world) (cfg : MasterCfg.t) (p0 : nat),
    MasterCfg.supports_bypass cfg = true ->
    StreamMap.dart (MasterCfg.stream_maps cfg 0%nat) = Some p0 ->
    Dart.locked (darts w p0) = false ->
    exists w',
      apple_dart_attach_dev_identity w cfg = Done (0, w') /\
      only_regs_changed w w' /\
      (forall i p sid,
         (i < MAX_DARTS_PER_DEVICE)%nat ->
         (forall k, (k <= i)%nat ->
            StreamMap.dart (MasterCfg.stream_maps cfg k) <> None) ->
         StreamMap.dart (MasterCfg.stream_maps cfg i) = Some p ->
         0 <= sid < Dart.num_streams (darts w p) ->
         Z.testbit (StreamMap.sidmap (MasterCfg.stream_maps cfg i)) sid
           = true ->
         readl w' p (DART_TCR (darts w p) sid)
         = u32 (Hw.tcr_bypass (Dart.hw (darts w p)))) /\
      (forall q o,
         (forall i, (i < MAX_DARTS_PER_DEVICE)%nat ->
            StreamMap.dart (MasterCfg.stream_maps cfg i) <> Some q) ->
         readl w' q o = readl w q o).
Proof.
  intros Pl w cfg p0 Hsb Hp0 Hunl. unfold apple_dart_attach_dev_identity.
  rewrite Hsb, Hp0. cbn [negb bind deref]. rewrite Hunl.
  destruct (pm_get_stream_maps_effect Pl w cfg) as (Gd & Gm & _).
  set (w1 := pm_get_stream_maps w cfg) in *.
  destruct (tcr_passes apple_dart_hw_enable_bypass Hw.tcr_bypass
              enable_bypass_pass
              (for_each_stream_map (MasterCfg.stream_maps cfg)) w1
              (for_each_stream_map_dart _))
    as (w2 & Hrun & [Hm Hsame] & Hwr & Hhit & _).
  rewrite Hrun. cbn [bind].
  destruct (pm_put_stream_maps_effect w2 cfg) as (Pd & Pm & _).
  eexists. split; [reflexivity |]. split; [| split].
  - split; [rewrite Pm, Hm; exact Gm |].
    intros q. rewrite Pd. rewrite <- Gd. apply Hsame.
  - intros i p sid Hi Hlead Hp Hsid Hbit.
    unfold readl. rewrite Pd. rewrite <- Gd.
    apply (Hhit p (MasterCfg.stream_maps cfg i) sid).
    + apply for_each_stream_map_slot; assumption.
    + rewrite Gd. exact Hsid.
    + exact Hbit.
  - intros q o Hnot. unfold readl. rewrite Pd.
    destruct (Hwr q o) as [E | [[sm Hin] _]].
    + unfold readl in E. rewrite E, Gd. reflexivity.
    + exfalso. apply stream_maps_from_In in Hin.
      destruct Hin as (i & Hi & _ & _ & Hd). apply (Hnot i); [lia | exact Hd].
Qed.

Lemma attach_dev_identity_enables_bypass_witness :
  exists w',
    apple_dart_attach_dev_identity world_t8103 cfg_unit_0 = Done (0, w') /\
    readl w' 0 (DART_TCR dart_t8103 0) = 0x1100.
Proof.
  destruct (attach_dev_identity_enables_bypass toy_platform world_t8103
              cfg_unit_0 0%nat eq_refl eq_refl eq_refl)
    as (w' & Hrun & _ & Hhit & _).
  exists w'. split; [exact Hrun |].
  apply (Hhit 0%nat 0%nat 0).
  - unfold MAX_DARTS_PER_DEVICE. lia.
  - intros k Hk. replace k with 0%nat by lia. discriminate.
  - reflexivity.
  - cbn. lia.
  - reflexivity.
Defined.

(** ** Runtime power references around register programming *)

Lemma pm_checked_app : forall l1 l2 h,
  pm_checked h (l1 ++ l2)
  = match pm_checked h l1 with
    | Some h1 => pm_checked h1 l2
    | None => None
    end.
Proof.
  induction l1 as [| e l1 IH]; intros l2 h; [reflexivity |].
  cbn [app pm_checked]. destruct e; try apply IH;
    destruct (0 <? h dart); try apply IH; reflexivity.
Qed.

Lemma pm_checked_ext : forall l h1 h2,
  (forall q, h1 q = h2 q) ->
  match pm_checked h1 l, pm_checked h2 l with
  | Some a, Some b => forall q, a q = b q
  | None, None => True
  | _, _ => False
  end.
Proof.
  induction l as [| e l IH]; intros h1 h2 Hext; [exact Hext |].
  cbn [pm_checked]. destruct e; try (apply IH; exact Hext).
  - rewrite (Hext dart). destruct (0 <? h2 dart); [apply IH; exact Hext |].
    exact I.
  - apply IH. intros q. rewrite Hext. reflexivity.
  - rewrite (Hext dart). destruct (0 <? h2 dart); [| exact I].
    apply IH. intros q. rewrite Hext. reflexivity.
Qed.

Lemma pm_ok_start : forall l h1 h2 h',
  (forall q, h1 q = h2 q) -> pm_ok h1 l h' -> pm_ok h2 l h'.
Proof.
  intros l h1 h2 h' Hext (a & Ha & Hq).
  pose proof (pm_checked_ext l h1 h2 Hext) as He. rewrite Ha in He.
  destruct (pm_checked h2 l) as [b |] eqn:Hb; [| contradiction].
  exists b. split; [exact Hb |]. intros q. rewrite <- He. apply Hq.
Qed.

Lemma pm_ok_end : forall l h h1 h2,
  (forall q, h1 q = h2 q) -> pm_ok h l h1 -> pm_ok h l h2.
Proof.
  intros l h h1 h2 Hext (a & Ha & Hq). exists a. split; [exact Ha |].
  intros q. rewrite Hq. apply Hext.
Qed.

Lemma pm_ok_nil : forall h, pm_ok h [] h.
Proof. intros h. exists h. split; reflexivity. Qed.

Lemma pm_ok_app : forall l1 l2 h h1 h2,
  pm_ok h l1 h1 -> pm_ok h1 l2 h2 -> pm_ok h (l1 ++ l2) h2.
Proof.
  intros l1 l2 h h1 h2 (a & Ha & Hq) H2.
  apply (pm_ok_start l2 h1 a) in H2; [| intros q; symmetry; apply Hq].
  destruct H2 as (b & Hb & Hq2). exists b. split; [| exact Hq2].
  rewrite pm_checked_app, Ha. exact Hb.
Qed.

Lemma slots_on_cons : forall q ps l,
  slots_on q (ps :: l)
  = (if Nat.eqb (fst ps) q then 1 else 0) + slots_on q l.
Proof.
  intros q ps l. unfold slots_on. cbn [filter].
  destruct (Nat.eqb (fst ps) q); cbn [List.length]; lia.
Qed.

Lemma slots_on_nonneg : forall q l, 0 <= slots_on q l.
Proof. intros q l. unfold slots_on. lia. Qed.

Lemma slots_on_pos : forall q sm l, In (q, sm) l -> 0 < slots_on q l.
Proof.
  intros q sm l. induction l as [| ps l IH]; intros Hin; [destruct Hin |].
  rewrite slots_on_cons. pose proof (slots_on_nonneg q l).
  destruct Hin as [-> | Hin].
  - cbn [fst]. rewrite Nat.eqb_refl. lia.
  - specialize (IH Hin). destruct (Nat.eqb (fst ps) q); lia.
Qed.

Lemma pm_ok_gets : forall (warned : nat -> bool) l h,
  pm_ok h
    (flat_map (fun ps : nat * StreamMap.t =>
                 EvPmGet (fst ps)
                 :: (if warned (fst ps) then [EvWarn] else [])) l)
    (fun q => h q + slots_on q l).
Proof.
  intros warned l. induction l as [| ps l IH]; intros h.
  - cbn. apply (pm_ok_end _ _ h); [| apply pm_ok_nil].
    intros q. unfold slots_on. cbn. lia.
  - cbn [flat_map].
    change (EvPmGet (fst ps) :: (if warned (fst ps) then [EvWarn] else []))
      with ([EvPmGet (fst ps)] ++ (if warned (fst ps) then [EvWarn] else [])).
    rewrite <- !app_assoc.
    apply (pm_ok_app _ _ _
             (fun r => if Nat.eqb r (fst ps) then h r + 1 else h r)).
    { exists (fun r => if Nat.eqb r (fst ps) then h r + 1 else h r).
      split; reflexivity. }
    apply (pm_ok_app _ _ _
             (fun r => if Nat.eqb r (fst ps) then h r + 1 else h r)).
    { destruct (warned (fst ps)); eexists; split; reflexivity. }
    eapply pm_ok_end; [| apply IH].
    intros q. cbn beta. rewrite slots_on_cons, (Nat.eqb_sym q).
    destruct (Nat.eqb (fst ps) q); lia.
Qed.

Lemma pm_ok_puts : forall (l : list (nat * StreamMap.t)) h0,
  (forall q, 0 <= h0 q) ->
  pm_ok (fun q => h0 q + slots_on q l)
        (map (fun ps => EvPmPut (fst ps)) l) h0.
Proof.
  induction l as [| ps l IH]; intros h0 Hpos.
  - cbn. apply (pm_ok_start _ h0); [| apply pm_ok_nil].
    intros q. unfold slots_on. cbn. lia.
  - cbn [map].
    change (EvPmPut (fst ps) :: map (fun ps => EvPmPut (fst ps)) l)
      with ([EvPmPut (fst ps)] ++ map (fun ps => EvPmPut (fst ps)) l).
    apply (pm_ok_app _ _ _ (fun q => h0 q + slots_on q l));
      [| apply IH; exact Hpos].
    eexists. split.
    + cbn [pm_checked]. rewrite slots_on_cons, Nat.eqb_refl.
      pose proof (slots_on_nonneg (fst ps) l). pose proof (Hpos (fst ps)).
      replace (0 <? h0 (fst ps) + (1 + slots_on (fst ps) l)) with true
        by (symmetry; apply Z.ltb_lt; lia).
      reflexivity.
    + intros q. cbn beta. rewrite slots_on_cons, (Nat.eqb_sym q).
      destruct (Nat.eqb (fst ps) q); lia.
Qed.

Lemma pm_ok_held : forall evs h,
  Forall (fun e => is_diag e = true \/
                   exists q v o, e = EvWritel q v o /\ 0 < h q) evs ->
  pm_ok h evs h.
Proof.
  induction evs as [| e evs IH]; intros h Hall; [apply pm_ok_nil |].
  inversion Hall as [| e' evs' He Hrest]. subst e' evs'.
  destruct (IH h Hrest) as (a & Ha & Hq).
  exists a. split; [| exact Hq].
  destruct He as [Hd | (q & v & o & -> & Hpos)].
  - destruct e; try discriminate; exact Ha.
  - cbn [pm_checked]. apply Z.ltb_lt in Hpos. rewrite Hpos. exact Ha.
Qed.

(* Get on every unit of the config, run the passes, put on every unit. *)
Lemma pm_bracket :
  forall (Pl : Platform) (w w2 : world) (cfg : MasterCfg.t)
         (evs : list event),
    log w2 = log (pm_get_stream_maps w cfg) ++ evs ->
    Forall (fun e => is_diag e = true \/
                     exists q sm v o,
                       In (q, sm)
                          (for_each_stream_map (MasterCfg.stream_maps cfg))
                       /\ e = EvWritel q v o) evs ->
    exists all,
      log (pm_put_stream_maps w2 cfg) = log w ++ all /\
      pm_ok (fun _ => 0) all (fun _ => 0).
Proof.
  intros Pl w w2 cfg evs Hlog Hevs.
  destruct (pm_get_stream_maps_effect Pl w cfg) as (_ & _ & Gl).
  destruct (pm_put_stream_maps_effect w2 cfg) as (_ & _ & Pl2).
  set (l := for_each_stream_map (MasterCfg.stream_maps cfg)) in *.
  eexists. split.
  - rewrite Pl2, Hlog, Gl, <- !app_assoc. reflexivity.
  - apply (pm_ok_app _ _ _ (fun q => 0 + slots_on q l)).
    { apply (pm_ok_gets (fun p => pm_runtime_get_sync p <? 0) l
                        (fun _ => 0)). }
    apply (pm_ok_app _ _ _ (fun q => 0 + slots_on q l)).
    + apply pm_ok_held. eapply Forall_impl; [| exact Hevs].
      intros e [Hd | (q & sm & v & o & Hin & ->)]; [left; exact Hd |].
      right. exists q, v, o. split; [reflexivity |].
      pose proof (slots_on_pos q sm l Hin). lia.
    + apply (pm_ok_puts l (fun _ => 0)). intros q. lia.
Qed.

(** X9.  The attach to the blocked domain and the attach to the identity
    domain keep the runtime power discipline on every path that returns:
    in what they add to the log, every register write to a unit happens
    while a power reference on that unit is held, no reference is dropped
    that is not held, and at the end every reference taken has been
    dropped. *)
Theorem attach_dev_power_references :
  forall (Pl : Platform) (w : world) (cfg : MasterCfg.t),
    (exists w' evs,
       apple_dart_attach_dev_blocked w cfg = Done (0, w') /\
       log w' = log w ++ evs /\
       pm_ok (fun _ => 0) evs (fun _ => 0)) /\
    (forall ret w',
       apple_dart_attach_dev_identity w cfg = Done (ret, w') ->
       exists evs,
         log w' = log w ++ evs /\ pm_ok (fun _ => 0) evs (fun _ => 0)).
Proof.
  intros Pl w cfg. split.
  - unfold apple_dart_attach_dev_blocked.
    destruct (tcr_passes apple_dart_hw_disable_dma Hw.tcr_disabled
                disable_dma_pass
                (for_each_stream_map (MasterCfg.stream_maps cfg))
                (pm_get_stream_maps w cfg) (for_each_stream_map_dart _))
      as (w2 & Hrun & _ & _ & _ & evs & Hlog & Hevs).
    rewrite Hrun. cbn [bind].
    destruct (pm_bracket Pl w w2 cfg evs Hlog Hevs) as (all & Hall & Hok).
    eexists. exists all. split; [reflexivity |]. split; assumption.
  - intros ret w' Hrun. unfold apple_dart_attach_dev_identity in Hrun.
    destruct (negb (MasterCfg.supports_bypass cfg)).
    { injection Hrun as _ <-. exists []. rewrite app_nil_r.
      split; [reflexivity | apply pm_ok_nil]. }
    destruct (StreamMap.dart (MasterCfg.stream_maps cfg 0%nat)) as [p0 |];
      [| discriminate].
    cbn [bind deref] in Hrun.
    destruct (Dart.locked (darts w p0)).
    { injection Hrun as _ <-. exists []. rewrite app_nil_r.
      split; [reflexivity | apply pm_ok_nil]. }
    destruct (tcr_passes apple_dart_hw_enable_bypass Hw.tcr_bypass
                enable_bypass_pass
                (for_each_stream_map (MasterCfg.stream_maps cfg))
                (pm_get_stream_maps w cfg) (for_each_stream_map_dart _))
      as (w2 & Hrun2 & _ & _ & _ & evs & Hlog & Hevs).
    rewrite Hrun2 in Hrun. cbn [bind] in Hrun. injection Hrun as _ <-.
    apply (pm_bracket Pl w w2 cfg evs Hlog Hevs).
Qed.

Lemma attach_dev_power_references_witness :
  exists w' evs,
    apple_dart_attach_dev_identity world_two_units cfg_units_0_1
      = Done (0, w') /\
    log w' = log world_two_units ++ evs /\
    pm_ok (fun _ => 0) evs (fun _ => 0).
Proof.
  assert (Hrun : exists w',
            apple_dart_attach_dev_identity world_two_units cfg_units_0_1
              = Done (0, w')) by (eexists; reflexivity).
  destruct Hrun as (w' & Hrun).
  destruct (attach_dev_power_references toy_platform world_two_units
              cfg_units_0_1) as [_ Hid].
  destruct (Hid 0 w' Hrun) as (evs & Hlog & Hok).
  exists w', evs. auto.
Defined.

(** ** The TTBR encoding *)

Lemma testbit_below_pow2 : forall p a n,
  0 <= a -> 0 <= p < 2 ^ a -> a <= n -> Z.testbit p n = false.
Proof.
  intros p a n Ha Hp Hn.
  rewrite <- (Z.mod_small p (2 ^ a)) by exact Hp.
  rewrite Z.testbit_mod_pow2 by exact Ha.
  replace (n <? a) with false by (symmetry; apply Z.ltb_ge; exact Hn).
  reflexivity.
Qed.

Lemma testbit_aligned : forall hw paddr n,
  ttbr_misaligned hw paddr = false ->
  0 <= n < Hw.ttbr_shift hw -> Z.testbit paddr n = false.
Proof.
  intros hw paddr n Hal Hn. unfold ttbr_misaligned in Hal.
  apply negb_false_iff, Z.eqb_eq in Hal.
  rewrite Z.sub_1_r in Hal.
  change (Z.pred (Z.shiftl 1 (Hw.ttbr_shift hw)))
    with (Z.ones (Hw.ttbr_shift hw)) in Hal.
  assert (H : Z.testbit (Z.land paddr (Z.ones (Hw.ttbr_shift hw))) n
              = false) by (rewrite Hal; apply Z.testbit_0_l).
  rewrite Z.land_spec, Z.testbit_ones_nonneg in H by lia.
  replace (n <? Hw.ttbr_shift hw) with true in H
    by (symmetry; apply Z.ltb_lt; lia).
  rewrite andb_true_r in H. exact H.
Qed.

(* A register layout keeps a table address when the address field, moved
   to its place, fits the 32-bit register and misses the valid bit. *)
Lemma ttbr_layout_round_trip : forall hw k a paddr,
  Hw.ttbr_valid hw = 2 ^ k -> 0 <= k < 32 ->
  0 <= Hw.ttbr_shift hw <= a -> a <= 64 ->
  0 <= Hw.ttbr_addr_field_shift hw ->
  Hw.ttbr_addr_field_shift hw + a - Hw.ttbr_shift hw <= 32 ->
  (k < Hw.ttbr_addr_field_shift hw \/
   Hw.ttbr_addr_field_shift hw + a - Hw.ttbr_shift hw <= k) ->
  0 <= paddr < 2 ^ a ->
  ttbr_misaligned hw paddr = false ->
  ttbr_phys hw (u32 (ttbr_value hw paddr)) = paddr /\
  Z.testbit (u32 (ttbr_value hw paddr)) k = true.
Proof.
  intros hw k a paddr Hv Hk Hs Ha Hf Hfit Hmiss Hp Hal.
  unfold ttbr_phys, ttbr_value, u32, u64. rewrite Hv.
  set (s := Hw.ttbr_shift hw) in *.
  set (f := Hw.ttbr_addr_field_shift hw) in *.
  split.
  - assert (Hsh : forall x, (if f =? 0 then x else Z.shiftr x f)
                            = Z.shiftr x f).
    { intros x. destruct (f =? 0) eqn:E; [| reflexivity].
      apply Z.eqb_eq in E. rewrite E. symmetry. apply Z.shiftr_0_r. }
    rewrite Hsh. apply Z.bits_inj'. intros n Hn.
    rewrite Z.testbit_mod_pow2 by lia.
    destruct (Z_lt_le_dec n s) as [Hlow | Hhigh].
    + rewrite Z.shiftl_spec_low by exact Hlow.
      rewrite andb_false_r. symmetry.
      apply (testbit_aligned hw); [exact Hal | fold s; lia].
    + rewrite Z.shiftl_spec by exact Hn.
      rewrite Z.shiftr_spec by lia.
      rewrite Z.ldiff_spec, Z.testbit_mod_pow2 by lia.
      rewrite Z.lor_spec, Z.pow2_bits_eqb by lia.
      rewrite Z.testbit_mod_pow2 by lia.
      rewrite Z.shiftl_spec by lia.
      rewrite Z.shiftr_spec by lia.
      rewrite Z.testbit_mod_pow2 by lia.
      replace (n - s + f - f + s) with n by lia.
      destruct (Z.testbit paddr n) eqn:Hb.
      * assert (Hna : n < a).
        { destruct (Z_lt_le_dec n a) as [Hlt | Hge]; [exact Hlt |].
          rewrite (testbit_below_pow2 paddr a n) in Hb
            by first [exact Hp | lia].
          discriminate. }
        replace (n <? 64) with true by (symmetry; apply Z.ltb_lt; lia).
        replace (n - s + f <? 32) with true
          by (symmetry; apply Z.ltb_lt; lia).
        replace (n - s + f <? 64) with true
          by (symmetry; apply Z.ltb_lt; lia).
        replace (k =? n - s + f) with false
          by (symmetry; apply Z.eqb_neq; lia).
        reflexivity.
      * rewrite !andb_false_r, orb_false_r.
        destruct (k =? n - s + f); cbn; rewrite ?andb_false_r; reflexivity.
  - rewrite Z.testbit_mod_pow2 by lia.
    rewrite Z.lor_spec, Z.pow2_bits_eqb by lia.
    rewrite Z.eqb_refl.
    replace (k <? 32) with true by (symmetry; apply Z.ltb_lt; lia).
    reflexivity.
Qed.

Ltac layout_bounds :=
  cbv; repeat split;
  first [ intro; discriminate | reflexivity
        | left; reflexivity | right; intro; discriminate ].

Lemma of_match_ttbr_layout : forall hw,
  In hw apple_dart_of_match ->
  exists k,
    Hw.ttbr_valid hw = 2 ^ k /\ 0 <= k < 32 /\
    0 <= Hw.ttbr_shift hw <= 43 /\ 0 <= Hw.ttbr_addr_field_shift hw /\
    Hw.ttbr_addr_field_shift hw + 43 - Hw.ttbr_shift hw <= 32 /\
    (k < Hw.ttbr_addr_field_shift hw \/
     Hw.ttbr_addr_field_shift hw + 43 - Hw.ttbr_shift hw <= k).
Proof.
  intros hw Hin.
  destruct Hin as [<- | [<- | [<- | [<- | []]]]].
  - exists 31. split; [reflexivity |]. layout_bounds.
  - exists 31. split; [reflexivity |]. layout_bounds.
  - exists 0. split; [reflexivity |]. layout_bounds.
  - exists 31. split; [reflexivity |]. layout_bounds.
Qed.

(** X10. A table address programmed with apple_dart_hw_set_ttbr is read
    back unchanged by the decoding of apple_dart_hw_set_locked_ttbr: on
    every supported generation, for an address below 2^43 aligned to the
    TTBR granule, each selected stream's TTBR holds the valid bit and
    decodes to the address that was written. *)
Theorem set_ttbr_round_trip : forall w sm p idx paddr w' sid,
  StreamMap.dart sm = Some p ->
  In (Dart.hw (darts w p)) apple_dart_of_match ->
  0 <= paddr < 2 ^ 43 ->
  ttbr_misaligned (Dart.hw (darts w p)) paddr = false ->
  apple_dart_hw_set_ttbr w sm idx paddr = Done w' ->
  0 <= sid < Dart.num_streams (darts w p) ->
  Z.testbit (StreamMap.sidmap sm) sid = true ->
  ttbr_phys (Dart.hw (darts w p))
            (readl w' p (DART_TTBR (darts w p) sid idx)) = paddr /\
  Z.land (readl w' p (DART_TTBR (darts w p) sid idx))
         (Hw.ttbr_valid (Dart.hw (darts w p))) <> 0.
Proof.
  intros w sm p idx paddr w' sid Hd Hhw Hp Hal Hrun Hsid Hbit.
  unfold apple_dart_hw_set_ttbr in Hrun. rewrite Hd in Hrun.
  cbn [bind deref] in Hrun. cbv zeta in Hrun.
  injection Hrun as <-.
  rewrite (write_loop_hit p (ttbr_value (Dart.hw (darts w p)) paddr)
             (fun sid => DART_TTBR (darts w p) sid idx))
    by (apply in_for_each_set_bit; auto).
  destruct (of_match_ttbr_layout _ Hhw) as (k & Hv & Hk & Hs & Hf & Hfit & Hm).
  destruct (ttbr_layout_round_trip _ k 43 paddr Hv Hk Hs ltac:(lia) Hf Hfit Hm
              Hp Hal)
    as [Hrt Hvb].
  split; [exact Hrt |].
  intros Hz.
  assert (Hb : Z.testbit
                 (Z.land (u32 (ttbr_value (Dart.hw (darts w p)) paddr))
                         (Hw.ttbr_valid (Dart.hw (darts w p)))) k = false)
    by (rewrite Hz; apply Z.testbit_0_l).
  rewrite Z.land_spec, Hvb, Hv, Z.pow2_bits_eqb, Z.eqb_refl in Hb by lia.
  discriminate.
Qed.

Lemma set_ttbr_round_trip_witness :
  ttbr_phys apple_dart_hw_t8110
    (readl (match apple_dart_hw_set_ttbr world_t8110 stream_0 0 0x80004000
            with Done w' => w' | _ => world_t8110 end)
           0%nat (DART_TTBR (darts world_t8110 0%nat) 0 0)) = 0x80004000.
Proof.
  assert (Hrun : exists w',
            apple_dart_hw_set_ttbr world_t8110 stream_0 0 0x80004000
            = Done w') by (eexists; reflexivity).
  destruct Hrun as (w' & Hrun). rewrite Hrun.
  refine (proj1 (set_ttbr_round_trip world_t8110 stream_0 0%nat 0 0x80004000
                   w' 0 eq_refl _ _ eq_refl Hrun _ eq_refl)).
  - cbn. auto.
  - lia.
  - cbn. lia.
Defined.

(** ** The register map *)

Ltac hw_consts :=
  cbv [Hw.tcr Hw.ttbr Hw.ttbr_count Hw.max_sid_count Hw.enable_streams
       Hw.error Hw.type Hw.invalidate_tlb Hw.tcr_disabled
       apple_dart_hw_t8103 apple_dart_hw_t8103_usb4 apple_dart_hw_t6000
       apple_dart_hw_t8110 DART_T8020_TCR DART_T8110_TCR DART_T8020_TTBR
       DART_T8020_USB4_TTBR DART_T8110_TTBR DART_T8020_STREAMS_ENABLE
       DART_T8110_ENABLE_STREAMS DART_T8020_ERROR DART_T8110_ERROR] in *.

Ltac by_descriptor Hin :=
  let E := fresh "E" in
  destruct Hin as [E | [E | [E | [E | []]]]]; rewrite <- E in *; hw_consts.

Lemma DART_TCR_flat : forall dart sid,
  In (Dart.hw dart) apple_dart_of_match ->
  0 <= Dart.num_streams dart <= Hw.max_sid_count (Dart.hw dart) ->
  0 <= sid < Dart.num_streams dart ->
  DART_TCR dart sid = Hw.tcr (Dart.hw dart) + 4 * sid.
Proof.
  intros dart sid Hin Hn Hsid. unfold DART_TCR, u32.
  rewrite Z.shiftl_mul_pow2 by lia. change (2 ^ 2) with 4.
  by_descriptor Hin; rewrite Z.mod_small; lia.
Qed.

Lemma DART_TTBR_flat : forall dart sid idx,
  In (Dart.hw dart) apple_dart_of_match ->
  0 <= Dart.num_streams dart <= Hw.max_sid_count (Dart.hw dart) ->
  0 <= sid < Dart.num_streams dart ->
  0 <= idx < Hw.ttbr_count (Dart.hw dart) ->
  DART_TTBR dart sid idx
  = Hw.ttbr (Dart.hw dart) + 4 * (Hw.ttbr_count (Dart.hw dart) * sid)
    + 4 * idx.
Proof.
  intros dart sid idx Hin Hn Hsid Hidx. unfold DART_TTBR, u32.
  rewrite !Z.shiftl_mul_pow2 by lia. change (2 ^ 2) with 4.
  by_descriptor Hin; rewrite Z.mod_small; lia.
Qed.

Lemma of_match_regs_apart : forall dart,
  In (Dart.hw dart) apple_dart_of_match ->
  0 <= Dart.num_streams dart <= Hw.max_sid_count (Dart.hw dart) ->
  regs_apart dart.
Proof.
  intros dart Hin Hn. unfold regs_apart. cbv zeta. split; [| split].
  - intros sid sid' Hs Hs' He.
    rewrite !DART_TCR_flat in He by assumption. lia.
  - intros sid idx sid' idx' Hs Hs' Hi Hi' He.
    rewrite !DART_TTBR_flat in He by assumption.
    by_descriptor Hin; lia.
  - intros sid sid' idx Hs Hs' Hi He.
    rewrite DART_TCR_flat, DART_TTBR_flat in He by assumption.
    by_descriptor Hin; lia.
Qed.

(** X11. On every supported generation, with no more streams than the
    descriptor's max_sid_count, no two TCR or TTBR registers of the unit
    share an offset, and each lies whole within the first 0x4000 bytes of
    the register window, the least size probe accepts. *)
Theorem register_map_apart : forall dart,
  In (Dart.hw dart) apple_dart_of_match ->
  0 <= Dart.num_streams dart <= Hw.max_sid_count (Dart.hw dart) ->
  regs_apart dart /\
  (forall sid, 0 <= sid < Dart.num_streams dart ->
     0 <= DART_TCR dart sid /\ DART_TCR dart sid + 4 <= 0x4000) /\
  (forall sid idx,
     0 <= sid < Dart.num_streams dart ->
     0 <= idx < Hw.ttbr_count (Dart.hw dart) ->
     0 <= DART_TTBR dart sid idx /\ DART_TTBR dart sid idx + 4 <= 0x4000).
Proof.
  intros dart Hin Hn. split; [apply of_match_regs_apart; assumption |].
  split.
  - intros sid Hs. rewrite DART_TCR_flat by assumption.
    by_descriptor Hin; lia.
  - intros sid idx Hs Hi. rewrite DART_TTBR_flat by assumption.
    by_descriptor Hin; lia.
Qed.

Lemma register_map_apart_witness :
  regs_apart dart_t8110 /\ DART_TTBR dart_t8110 15 0 + 4 <= 0x4000.
Proof.
  destruct (register_map_apart dart_t8110) as (Ha & _ & Ht).
  - cbn. auto.
  - cbn. lia.
  - split; [exact Ha |]. apply Ht; cbn; lia.
Defined.

(** ** Register writes and what they leave alone *)

Lemma writes_within_refl : forall P p w, writes_within P p w w.
Proof.
  intros P p w. split; [apply only_regs_changed_refl |].
  split; [reflexivity |]. exists []. rewrite app_nil_r. auto.
Qed.

Lemma writes_within_trans : forall P p w1 w2 w3,
  writes_within P p w1 w2 -> writes_within P p w2 w3 ->
  writes_within P p w1 w3.
Proof.
  intros P p w1 w2 w3 (O1 & K1 & e1 & L1 & F1) (O2 & K2 & e2 & L2 & F2).
  split; [| split].
  - apply (only_regs_changed_trans _ w2); assumption.
  - intros q o Hm. rewrite K2, K1 by exact Hm. reflexivity.
  - exists (e1 ++ e2). rewrite L2, L1, app_assoc. split; [reflexivity |].
    apply Forall_app. auto.
Qed.

Lemma writes_within_weaken : forall (P Q : Z -> Prop) p w w',
  (forall o, P o -> Q o) -> writes_within P p w w' -> writes_within Q p w w'.
Proof.
  intros P Q p w w' HPQ (O & K & evs & L & F). split; [exact O |]. split.
  - intros q o [Hq | Hn]; apply K; [left; exact Hq | right; auto].
  - exists evs. split; [exact L |].
    eapply Forall_impl; [| exact F]. cbv beta.
    intros e [Hd | (v & o & He & Ho)]; [left; exact Hd |].
    right. exists v, o. auto.
Qed.

Lemma writes_within_writel : forall (P : Z -> Prop) p w val off,
  P off -> writes_within P p w (writel w p val off).
Proof.
  intros P p w val off HP. split; [apply only_regs_changed_writel |]. split.
  - intros q o Hm. unfold writel, readl. cbn.
    destruct (Nat.eqb q p) eqn:E; [| reflexivity].
    apply Nat.eqb_eq in E. subst q. cbn.
    destruct (o =? off) eqn:Eo; [| reflexivity].
    apply Z.eqb_eq in Eo. subst o.
    destruct Hm as [Hq | Hn]; [congruence | contradiction].
  - exists [EvWritel p (u32 val) off]. split; [reflexivity |].
    constructor; [| constructor]. right. eauto.
Qed.

Lemma writes_within_diag : forall P p w w0,
  diag_extends w w0 -> writes_within P p w w0.
Proof.
  intros P p w w0 Hd. split; [apply only_regs_changed_diag; exact Hd |].
  destruct Hd as (Hd & _ & evs & Hl & Hf). split.
  - intros q o _. unfold readl. rewrite Hd. reflexivity.
  - exists evs. split; [exact Hl |]. apply Forall_forall. intros e He.
    left. rewrite forallb_forall in Hf. apply Hf. exact He.
Qed.

Lemma writes_within_readl : forall P p w w' q o,
  writes_within P p w w' -> q <> p \/ ~ P o -> readl w' q o = readl w q o.
Proof. intros P p w w' q o (_ & K & _). apply K. Qed.

Lemma writes_within_emit : forall P p w e,
  is_diag e = true -> writes_within P p w (emit e w).
Proof.
  intros P p w e He. apply writes_within_diag.
  apply diag_extends_emit; [exact He | apply diag_extends_refl].
Qed.

Lemma writes_within_WARN_ON : forall P p w c,
  writes_within P p w (WARN_ON c w).
Proof.
  intros P p w c. apply writes_within_diag.
  apply diag_extends_WARN_ON, diag_extends_refl.
Qed.

Lemma writes_within_fold : forall (A : Type) (P : Z -> Prop) p
    (step : world -> A -> world) l,
  (forall x w, In x l -> writes_within P p w (step w x)) ->
  forall w, writes_within P p w (fold_left step l w).
Proof.
  intros A P p step l. induction l as [| x l IH]; intros Hstep w.
  - apply writes_within_refl.
  - cbn [fold_left]. apply (writes_within_trans _ _ _ (step w x)).
    + apply Hstep. left. reflexivity.
    + apply IH. intros y w0 Hy. apply Hstep. right. exact Hy.
Qed.

Lemma readl_writel_same : forall w p val off,
  readl (writel w p val off) p off = u32 val.
Proof.
  intros w p val off. unfold writel, readl. cbn.
  rewrite Nat.eqb_refl. cbn. rewrite Z.eqb_refl. reflexivity.
Qed.

Lemma readl_writel_other : forall w p val off q o,
  q <> p \/ o <> off ->
  readl (writel w p val off) q o = readl w q o.
Proof.
  intros w p val off q o Hm.
  apply (writes_within_writel (fun x => x = off) p w val off eq_refl).
  destruct Hm as [Hq | Ho]; [left | right]; assumption.
Qed.

(* A loop that writes to a register of its own a value of its own at each
   turn. *)
Section WriteEach.
Variables (p : nat) (val off : Z -> Z).

Let step := fun (w : world) (x : Z) => writel w p (val x) (off x).

Lemma write_each_within : forall l w,
  writes_within (fun o => exists x, In x l /\ o = off x) p w
                (fold_left step l w).
Proof.
  intros l w. apply writes_within_fold. intros x w0 Hx.
  unfold step. apply writes_within_writel. exists x. auto.
Qed.

Lemma write_each_hit : forall l w x,
  In x l ->
  (forall y, In y l -> off y = off x -> val y = val x) ->
  readl (fold_left step l w) p (off x) = u32 (val x).
Proof.
  induction l as [| s l IH] using rev_ind; intros w x Hin Hval;
    [inversion Hin |].
  rewrite fold_left_app. cbn [fold_left]. unfold step at 1.
  destruct (Z.eq_dec (off x) (off s)) as [E | E].
  - rewrite E, readl_writel_same.
    rewrite (Hval s); [reflexivity | | congruence].
    apply in_or_app. right. left. reflexivity.
  - rewrite readl_writel_other by (right; exact E).
    apply in_app_or in Hin. destruct Hin as [Hin | [Heq | []]].
    + apply IH; [exact Hin |]. intros y Hy. apply Hval.
      apply in_or_app. left. exact Hy.
    + subst s. contradiction.
Qed.

Lemma write_each_log : forall l w,
  log (fold_left step l w)
  = log w ++ map (fun x => EvWritel p (u32 (val x)) (off x)) l.
Proof.
  induction l as [| s l IH]; intros w.
  - cbn. rewrite app_nil_r. reflexivity.
  - cbn [fold_left map]. rewrite IH. unfold step, writel.
    cbn [emit log set_dart]. rewrite <- app_assoc. reflexivity.
Qed.

End WriteEach.

Lemma in_upto : forall n x, In x (upto n) <-> 0 <= x < n.
Proof.
  intros n x. unfold upto. rewrite in_map_iff. split.
  - intros (k & <- & Hk). apply in_seq in Hk. lia.
  - intros Hx. exists (Z.to_nat x). split; [lia |]. apply in_seq. lia.
Qed.

(** ** Stream commands *)

Lemma testbit_u32 : forall x b,
  0 <= b < 32 -> Z.testbit (u32 x) b = Z.testbit x b.
Proof.
  intros x b Hb. unfold u32. rewrite Z.testbit_mod_pow2 by lia.
  replace (b <? 32) with true by (symmetry; apply Z.ltb_lt; lia).
  reflexivity.
Qed.

Lemma testbit_sidmap_word : forall sidmap i b,
  0 <= i -> 0 <= b < 64 ->
  Z.testbit (sidmap_word sidmap i) b = Z.testbit sidmap (64 * i + b).
Proof.
  intros sidmap i b Hi Hb. unfold sidmap_word, u64, BITS_PER_LONG.
  rewrite Z.testbit_mod_pow2 by lia.
  replace (b <? 64) with true by (symmetry; apply Z.ltb_lt; lia).
  rewrite Z.shiftr_spec by lia. cbn [andb]. f_equal. lia.
Qed.

Lemma stream_command_effect : forall w sm p command ack acks,
  StreamMap.dart sm = Some p ->
  exists w',
    apple_dart_t8020_hw_stream_command w sm command (ack :: acks)
    = Done (if ack then 0 else - ETIMEDOUT, w', acks) /\
    (forall i b,
       0 <= i < BITS_TO_U32 (Dart.num_streams (darts w p)) ->
       0 <= b < 32 ->
       Z.testbit (readl w' p (DART_T8020_STREAM_SELECT + 4 * i)) b
       = Z.testbit (StreamMap.sidmap sm) (64 * i + b)) /\
    readl w' p DART_T8020_STREAM_COMMAND = u32 command /\
    writes_within
      (fun o => o = DART_T8020_STREAM_COMMAND \/
                exists i, 0 <= i < BITS_TO_U32 (Dart.num_streams (darts w p))
                          /\ o = DART_T8020_STREAM_SELECT + 4 * i)
      p w w' /\
    (exists evs, log w' = log w ++ evs ++ (if ack then [] else [EvDevErr])
                 /\ last evs EvWarn
                    = EvWritel p (u32 command) DART_T8020_STREAM_COMMAND).
Proof.
  intros w sm p command ack acks Hd.
  set (n := Dart.num_streams (darts w p)) in *.
  set (sel := fold_left
                (fun w i => writel w p (sidmap_word (StreamMap.sidmap sm) i)
                                   (DART_T8020_STREAM_SELECT + 4 * i))
                (upto (BITS_TO_U32 n)) w).
  set (w1 := writel sel p command DART_T8020_STREAM_COMMAND).
  assert (Hsel : forall i b, 0 <= i < BITS_TO_U32 n -> 0 <= b < 32 ->
            Z.testbit (readl w1 p (DART_T8020_STREAM_SELECT + 4 * i)) b
            = Z.testbit (StreamMap.sidmap sm) (64 * i + b)).
  { intros i b Hi Hb. unfold w1.
    rewrite readl_writel_other
      by (right; unfold DART_T8020_STREAM_SELECT,
                        DART_T8020_STREAM_COMMAND; lia).
    unfold sel.
    rewrite (write_each_hit p (sidmap_word (StreamMap.sidmap sm))
               (fun i => DART_T8020_STREAM_SELECT + 4 * i)).
    - rewrite testbit_u32 by exact Hb.
      apply testbit_sidmap_word; lia.
    - apply in_upto. exact Hi.
    - intros y _ Hy. f_equal. lia. }
  assert (Hcmd : readl w1 p DART_T8020_STREAM_COMMAND = u32 command)
    by apply readl_writel_same.
  assert (Hwithin : writes_within
            (fun o => o = DART_T8020_STREAM_COMMAND \/
                      exists i, 0 <= i < BITS_TO_U32 n
                                /\ o = DART_T8020_STREAM_SELECT + 4 * i)
            p w w1).
  { apply (writes_within_trans _ _ _ sel).
    - eapply writes_within_weaken;
        [| apply (write_each_within p (sidmap_word (StreamMap.sidmap sm))
                    (fun i => DART_T8020_STREAM_SELECT + 4 * i))].
      intros o (x & Hx & ->). right. exists x. split; [| reflexivity].
      apply in_upto. exact Hx.
    - apply writes_within_writel. left. reflexivity. }
  assert (Hlog : exists evs, log w1 = log w ++ evs /\
                   last evs EvWarn
                   = EvWritel p (u32 command) DART_T8020_STREAM_COMMAND).
  { unfold w1, writel. cbn [emit log set_dart]. unfold sel.
    rewrite (write_each_log p (sidmap_word (StreamMap.sidmap sm))
               (fun i => DART_T8020_STREAM_SELECT + 4 * i)).
    rewrite <- app_assoc. eexists. split; [reflexivity |].
    apply last_last. }
  destruct Hlog as (evs & Hlog & Hlast).
  unfold apple_dart_t8020_hw_stream_command. rewrite Hd.
  cbn [bind deref]. cbv zeta. fold n. fold sel. fold w1.
  destruct ack; cbn [poll_busy bind].
  - exists w1. split; [reflexivity |].
    split; [exact Hsel |]. split; [exact Hcmd |]. split; [exact Hwithin |].
    exists evs. rewrite app_nil_r. auto.
  - exists (emit EvDevErr w1). split; [reflexivity |].
    split; [exact Hsel |]. split; [exact Hcmd |]. split.
    + apply (writes_within_trans _ _ _ w1); [exact Hwithin |].
      apply writes_within_emit. reflexivity.
    + exists evs. split; [| exact Hlast].
      change (log (emit EvDevErr w1)) with (log w1 ++ [EvDevErr]).
      rewrite Hlog, <- app_assoc. reflexivity.
Qed.


(** X12. The stream command of the t8020 family loads select word i with
    the low half of word i of the stream bitmap, so that bit b of select
    word i stands for stream 64*i + b: streams 32 to 63 reach no select
    word.  (Up to 128 streams the loop stays within the bitmap.)  The
    command register is written after the select words, and the
    call returns 0 when the unit acknowledges, -ETIMEDOUT with an error
    message when it does not; nothing but registers of this unit
    changes. *)
Theorem t8020_stream_command_select : forall w sm p command ack acks,
  StreamMap.dart sm = Some p ->
  0 <= Dart.num_streams (darts w p) <= 128 ->
  exists w',
    apple_dart_t8020_hw_stream_command w sm command (ack :: acks)
    = Done (if ack then 0 else - ETIMEDOUT, w', acks) /\
    (forall i b,
       0 <= i < BITS_TO_U32 (Dart.num_streams (darts w p)) ->
       0 <= b < 32 ->
       Z.testbit (readl w' p (DART_T8020_STREAM_SELECT + 4 * i)) b
       = Z.testbit (StreamMap.sidmap sm) (64 * i + b)) /\
    readl w' p DART_T8020_STREAM_COMMAND = u32 command /\
    writes_within
      (fun o => o = DART_T8020_STREAM_COMMAND \/
                exists i, 0 <= i < BITS_TO_U32 (Dart.num_streams (darts w p))
                          /\ o = DART_T8020_STREAM_SELECT + 4 * i)
      p w w' /\
    (exists evs, log w' = log w ++ evs ++ (if ack then [] else [EvDevErr])
                 /\ last evs EvWarn
                    = EvWritel p (u32 command) DART_T8020_STREAM_COMMAND).
Proof.
  intros w sm p command ack acks Hd _.
  apply stream_command_effect. exact Hd.
Qed.

Lemma t8020_stream_command_select_witness :
  exists w',
    apple_dart_t8020_hw_stream_command world_t8103 streams_1_3
      DART_T8020_STREAM_COMMAND_INVALIDATE [true] = Done (0, w', []) /\
    readl w' 0%nat DART_T8020_STREAM_COMMAND
    = u32 DART_T8020_STREAM_COMMAND_INVALIDATE.
Proof.
  destruct (t8020_stream_command_select world_t8103 streams_1_3 0%nat
              DART_T8020_STREAM_COMMAND_INVALIDATE true [] eq_refl)
    as (w' & Hrun & _ & Hcmd & _).
  - cbn. lia.
  - exists w'. split; [exact Hrun | exact Hcmd].
Defined.

(** ** TLB commands of the t8110 family *)

Lemma tlb_command_loop_acked : forall p command sids w rest,
  tlb_command_loop p command sids w (repeat true (length sids) ++ rest)
  = Done (0,
          fold_left
            (fun w sid => writel w p (tlb_cmd_word command sid)
                                 DART_T8110_TLB_CMD) sids w,
          rest).
Proof.
  intros p command sids. induction sids as [| sid sids IH]; intros w rest.
  - reflexivity.
  - cbn [tlb_command_loop length repeat app poll_busy bind]. cbv zeta.
    cbn [Z.eqb negb]. apply IH.
Qed.

Lemma tlb_command_loop_timeout : forall p command pre sid post w rest,
  tlb_command_loop p command (pre ++ sid :: post) w
    (repeat true (length pre) ++ false :: rest)
  = Done (- ETIMEDOUT,
          fold_left
            (fun w sid => writel w p (tlb_cmd_word command sid)
                                 DART_T8110_TLB_CMD) (pre ++ [sid]) w,
          rest).
Proof.
  intros p command pre. induction pre as [| s pre IH];
    intros sid post w rest.
  - reflexivity.
  - cbn [tlb_command_loop length repeat app poll_busy bind fold_left].
    cbv zeta. cbn [Z.eqb negb]. apply IH.
Qed.

Lemma tlb_cmd_word_flush_sid : forall sid,
  0 <= sid < 256 ->
  u32 (tlb_cmd_word DART_T8110_TLB_CMD_OP_FLUSH_SID sid) = 0x100 + sid.
Proof.
  intros sid Hs.
  assert (H : forallb
                (fun sid =>
                   u32 (tlb_cmd_word DART_T8110_TLB_CMD_OP_FLUSH_SID sid)
                   =? 0x100 + sid) (upto 256) = true)
    by (vm_compute; reflexivity).
  rewrite forallb_forall in H. apply Z.eqb_eq, H, in_upto. exact Hs.
Qed.

(** X13. TLB invalidation on the t8110 family, every poll acknowledged:
    one flush command per selected stream, in ascending stream order, each
    with opcode 1 in bits 8 to 10 and the stream number in the low byte
    (the word 0x100 + sid), written to the TLB command register and to no
    other; the call returns 0 and uses one poll answer per stream. *)
Theorem t8110_invalidate_flushes_each_stream : forall w sm p rest,
  StreamMap.dart sm = Some p ->
  Hw.invalidate_tlb (Dart.hw (darts w p))
  = apple_dart_t8110_hw_invalidate_tlb ->
  0 <= Dart.num_streams (darts w p) <= 256 ->
  exists w',
    invalidate_tlb w sm
      (repeat true
         (length (for_each_set_bit (StreamMap.sidmap sm)
                    (Dart.num_streams (darts w p)))) ++ rest)
    = Done (0, w', rest) /\
    log w'
    = log w ++
      map (fun sid => EvWritel p (0x100 + sid) DART_T8110_TLB_CMD)
          (for_each_set_bit (StreamMap.sidmap sm)
             (Dart.num_streams (darts w p))) /\
    writes_within (fun o => o = DART_T8110_TLB_CMD) p w w'.
Proof.
  intros w sm p rest Hd Hm Hn.
  unfold invalidate_tlb. rewrite Hd. cbn [bind deref]. rewrite Hm.
  unfold apple_dart_t8110_hw_tlb_command. rewrite Hd. cbn [bind deref].
  rewrite tlb_command_loop_acked. cbn [bind Z.eqb negb].
  eexists. split; [reflexivity |]. split.
  - rewrite (write_each_log p
               (tlb_cmd_word DART_T8110_TLB_CMD_OP_FLUSH_SID)
               (fun _ => DART_T8110_TLB_CMD)).
    f_equal. apply map_ext_in. intros sid Hin.
    apply in_for_each_set_bit in Hin.
    rewrite tlb_cmd_word_flush_sid by lia. reflexivity.
  - eapply writes_within_weaken;
      [| apply (write_each_within p
                  (tlb_cmd_word DART_T8110_TLB_CMD_OP_FLUSH_SID)
                  (fun _ => DART_T8110_TLB_CMD))].
    intros o (x & _ & ->). reflexivity.
Qed.

Lemma t8110_invalidate_flushes_each_stream_witness :
  exists w',
    invalidate_tlb world_t8110 (StreamMap.mk (Some 0%nat) 10) [true; true]
    = Done (0, w', []) /\
    log w' = [EvWritel 0%nat 0x101 DART_T8110_TLB_CMD;
              EvWritel 0%nat 0x103 DART_T8110_TLB_CMD].
Proof.
  destruct (t8110_invalidate_flushes_each_stream world_t8110
              (StreamMap.mk (Some 0%nat) 10) 0%nat [] eq_refl eq_refl)
    as (w' & Hrun & Hlog & _).
  - cbn. lia.
  - exists w'. split; [exact Hrun | exact Hlog].
Defined.

(** X14. A TLB command of the t8110 family stops at the first stream whose
    poll times out: the streams before it and that stream have had their
    command written, no later stream has, the error is reported once and
    the call returns -ETIMEDOUT. *)
Theorem t8110_tlb_command_stops_at_timeout :
  forall w sm p command pre sid post rest,
  StreamMap.dart sm = Some p ->
  for_each_set_bit (StreamMap.sidmap sm) (Dart.num_streams (darts w p))
  = pre ++ sid :: post ->
  exists w',
    apple_dart_t8110_hw_tlb_command w sm command
      (repeat true (length pre) ++ false :: rest)
    = Done (- ETIMEDOUT, w', rest) /\
    log w'
    = log w ++
      map (fun s => EvWritel p (u32 (tlb_cmd_word command s))
                             DART_T8110_TLB_CMD) (pre ++ [sid]) ++
      [EvDevErr].
Proof.
  intros w sm p command pre sid post rest Hd Hs.
  unfold apple_dart_t8110_hw_tlb_command. rewrite Hd. cbn [bind deref].
  rewrite Hs, tlb_command_loop_timeout. cbn [bind Z.eqb negb].
  eexists. split; [reflexivity |].
  cbn [emit log].
  rewrite (write_each_log p (tlb_cmd_word command)
             (fun _ => DART_T8110_TLB_CMD)).
  rewrite <- app_assoc. reflexivity.
Qed.

Lemma t8110_tlb_command_stops_at_timeout_witness :
  exists w',
    apple_dart_t8110_hw_tlb_command world_t8110
      (StreamMap.mk (Some 0%nat) 10) 1 [true; false; true]
    = Done (- ETIMEDOUT, w', [true]) /\
    log w' = [EvWritel 0%nat 0x101 DART_T8110_TLB_CMD;
              EvWritel 0%nat 0x103 DART_T8110_TLB_CMD; EvDevErr].
Proof.
  destruct (t8110_tlb_command_stops_at_timeout world_t8110
              (StreamMap.mk (Some 0%nat) 10) 0%nat 1 [1] 3 [] [true]
              eq_refl eq_refl)
    as (w' & Hrun & Hlog).
  exists w'. split; [exact Hrun | exact Hlog].
Defined.

(** ** Reset *)

Lemma length_for_each_set_bit : forall m n,
  (length (for_each_set_bit m n) <= Z.to_nat n)%nat.
Proof.
  intros m n. unfold for_each_set_bit.
  etransitivity; [apply filter_length_le |].
  rewrite length_map, length_seq. lia.
Qed.

Lemma tlb_command_loop_total : forall p command sids w acks,
  (length sids <= length acks)%nat ->
  exists ret w' acks',
    tlb_command_loop p command sids w acks = Done (ret, w', acks') /\
    (ret = 0 \/ ret = - ETIMEDOUT) /\
    (length acks <= length acks' + length sids)%nat /\
    writes_within (fun o => o = DART_T8110_TLB_CMD) p w w'.
Proof.
  intros p command sids. induction sids as [| sid sids IH]; intros w acks Hl.
  - exists 0, w, acks. split; [reflexivity |]. split; [left; reflexivity |].
    split; [lia |]. apply writes_within_refl.
  - destruct acks as [| [] acks]; cbn [length] in Hl; [lia | |].
    + cbn [tlb_command_loop poll_busy bind]. cbv zeta. cbn [Z.eqb negb].
      destruct (IH (writel w p (tlb_cmd_word command sid)
                           DART_T8110_TLB_CMD) acks)
        as (ret & w' & acks' & Hr & Hret & Hlen & Hw); [lia |].
      exists ret, w', acks'. split; [exact Hr |]. split; [exact Hret |].
      split; [cbn [length]; lia |].
      eapply writes_within_trans;
        [apply writes_within_writel; reflexivity | exact Hw].
    + eexists _, _, _. split; [reflexivity |]. split; [right; reflexivity |].
      split; [cbn [length]; lia |].
      apply writes_within_writel. reflexivity.
Qed.

Lemma invalidate_tlb_total : forall w sm p acks,
  StreamMap.dart sm = Some p ->
  (Z.to_nat (Dart.num_streams (darts w p)) < length acks)%nat ->
  exists ret w' acks',
    invalidate_tlb w sm acks = Done (ret, w', acks') /\
    (ret = 0 \/ ret = - ETIMEDOUT) /\
    (length acks
     <= length acks' + S (Z.to_nat (Dart.num_streams (darts w p))))%nat /\
    writes_within
      (fun o => o = DART_T8110_TLB_CMD \/ o = DART_T8020_STREAM_COMMAND \/
                exists i, 0 <= i < BITS_TO_U32 (Dart.num_streams (darts w p))
                          /\ o = DART_T8020_STREAM_SELECT + 4 * i)
      p w w'.
Proof.
  intros w sm p acks Hd Hl. unfold invalidate_tlb. rewrite Hd.
  cbn [bind deref].
  destruct (Hw.invalidate_tlb (Dart.hw (darts w p))).
  - destruct acks as [| ack acks]; [cbn in Hl; lia |].
    destruct (stream_command_effect w sm p
                DART_T8020_STREAM_COMMAND_INVALIDATE ack acks Hd)
      as (w' & Hrun & _ & _ & Hw & _).
    eexists _, w', acks. split; [exact Hrun |]. split.
    + destruct ack; [left | right]; reflexivity.
    + split; [cbn [length]; lia |].
      eapply writes_within_weaken; [| exact Hw]. cbv beta. tauto.
  - unfold apple_dart_t8110_hw_tlb_command. rewrite Hd. cbn [bind deref].
    pose proof (length_for_each_set_bit (StreamMap.sidmap sm)
                  (Dart.num_streams (darts w p))) as Hlen.
    destruct (tlb_command_loop_total p DART_T8110_TLB_CMD_OP_FLUSH_SID
                (for_each_set_bit (StreamMap.sidmap sm)
                   (Dart.num_streams (darts w p))) w acks)
      as (ret & w' & acks' & Hr & Hret & Hla & Hw); [lia |].
    rewrite Hr. cbn [bind].
    destruct Hret as [-> | ->]; cbn [Z.eqb negb ETIMEDOUT Z.opp].
    + exists 0, w', acks'. split; [reflexivity |].
      split; [left; reflexivity |]. split; [lia |].
      eapply writes_within_weaken; [| exact Hw]. cbv beta. tauto.
    + exists (- ETIMEDOUT), (emit EvDevErr w'), acks'.
      split; [reflexivity |]. split; [right; reflexivity |].
      split; [lia |].
      eapply writes_within_trans;
        [| apply writes_within_emit; reflexivity].
      eapply writes_within_weaken; [| exact Hw]. cbv beta. tauto.
Qed.

Lemma stream_pass_within : forall p val (off : Z -> Z) sidmap size w w0,
  diag_extends w w0 ->
  writes_within
    (fun o => exists sid, 0 <= sid < size /\ Z.testbit sidmap sid = true /\
                          o = off sid)
    p w
    (fold_left (fun w sid => writel w p val (off sid))
               (for_each_set_bit sidmap size) w0).
Proof.
  intros p val off sidmap size w w0 Hd.
  apply (writes_within_trans _ _ _ w0); [apply writes_within_diag, Hd |].
  eapply writes_within_weaken;
    [| apply (write_each_within p (fun _ => val) off)].
  intros o (x & Hx & ->). apply in_for_each_set_bit in Hx.
  exists x. tauto.
Qed.

Lemma writes_within_same : forall P p w w' q,
  writes_within P p w w' -> dart_same_but_regs (darts w q) (darts w' q).
Proof. intros P p w w' q ((_ & H) & _). apply H. Qed.

Lemma same_hw : forall d d', dart_same_but_regs d d' -> Dart.hw d' = Dart.hw d.
Proof. intros d d' H. apply H. Qed.

Lemma same_num_streams : forall d d',
  dart_same_but_regs d d' -> Dart.num_streams d' = Dart.num_streams d.
Proof. intros d d' H. apply H. Qed.

(* The passes of apple_dart_hw_clear_all_ttbrs over the table slots in
   [l], from a state [w0] reached from [w] by register writes. *)
Lemma clear_ttbrs_fold : forall w sm p,
  StreamMap.dart sm = Some p ->
  let dart := darts w p in
  let P := fun o =>
    exists sid idx,
      0 <= sid < Dart.num_streams dart /\
      Z.testbit (StreamMap.sidmap sm) sid = true /\
      0 <= idx < Hw.ttbr_count (Dart.hw dart) /\
      o = DART_TTBR dart sid idx in
  forall l w0,
    (forall i, In i l -> 0 <= i < Hw.ttbr_count (Dart.hw dart) /\ i < 256) ->
    dart_same_but_regs dart (darts w0 p) ->
    exists w',
      fold_exec (fun w i => apple_dart_hw_clear_ttbr w sm (u8 i)) l w0
      = Done w' /\
      writes_within P p w0 w' /\
      forall sid idx,
        0 <= sid < Dart.num_streams dart ->
        Z.testbit (StreamMap.sidmap sm) sid = true ->
        In idx l \/ readl w0 p (DART_TTBR dart sid idx) = 0 ->
        readl w' p (DART_TTBR dart sid idx) = 0.
Proof.
  intros w sm p Hd dart P l.
  induction l as [| i l IH]; intros w0 Hl Hs.
  - exists w0. split; [reflexivity |].
    split; [apply writes_within_refl |].
    intros sid idx _ _ [[] | H]. exact H.
  - cbn [fold_exec]. unfold apple_dart_hw_clear_ttbr at 1. rewrite Hd.
    cbn [bind deref]. cbv zeta.
    destruct (Hl i (or_introl eq_refl)) as [Hi Hi8].
    assert (Eu : u8 i = i) by (unfold u8; apply Z.mod_small; lia).
    rewrite Eu. rewrite (same_num_streams _ _ Hs).
    assert (Eoff : forall sid,
              DART_TTBR (darts w0 p) sid i = DART_TTBR dart sid i)
      by (intros sid; apply DART_TTBR_same; exact Hs).
    set (w1 := fold_left _ _ _).
    assert (Ew1 : w1 = fold_left
                         (fun w sid => writel w p 0 (DART_TTBR dart sid i))
                         (for_each_set_bit (StreamMap.sidmap sm)
                            (Dart.num_streams dart))
                         (WARN_ON (Dart.locked (darts w0 p)) w0)).
    { unfold w1. generalize (WARN_ON (Dart.locked (darts w0 p)) w0).
      generalize (for_each_set_bit (StreamMap.sidmap sm)
                    (Dart.num_streams dart)).
      intros l0. induction l0 as [| s l0 IH0]; intros wx; [reflexivity |].
      cbn [fold_left]. rewrite Eoff. apply IH0. }
    clearbody w1. subst w1.
    pose proof (diag_extends_WARN_ON (Dart.locked (darts w0 p)) w0 w0
                  (diag_extends_refl w0)) as Hdiag.
    set (w1 := fold_left _ _ _).
    assert (K1 : writes_within P p w0 w1).
    { eapply writes_within_weaken;
        [| apply (stream_pass_within p 0
                    (fun sid => DART_TTBR dart sid i) _ _ w0 _ Hdiag)].
      intros o (sid & Hr & Hb & ->). exists sid, i. auto. }
    destruct (IH w1) as (w' & Hrun & K2 & Hz).
    { intros j Hj. apply Hl. right. exact Hj. }
    { apply (dart_same_but_regs_trans _ (darts w0 p)); [exact Hs |].
      apply (writes_within_same _ _ _ _ p K1). }
    exists w'. split; [exact Hrun |].
    split; [apply (writes_within_trans _ _ _ w1); assumption |].
    intros sid idx Hsid Hb Hor. apply Hz; [exact Hsid | exact Hb |].
    destruct (Z.eq_dec idx i) as [-> | Hne].
    + right.
      apply (stream_pass_hit p 0 (fun sid => DART_TTBR dart sid i)
               _ _ _ sid Hsid Hb).
    + destruct Hor as [[Heq | Hin] | H0]; [congruence | left; exact Hin |].
      right.
      destruct (stream_pass_written p 0
                  (fun sid => DART_TTBR dart sid i)
                  (StreamMap.sidmap sm) (Dart.num_streams dart) w0 _ Hdiag
                  p (DART_TTBR dart sid idx)) as [E | [_ E]].
      * fold w1 in E. rewrite E. exact H0.
      * exact E.
Qed.

Lemma clear_all_ttbrs_effect : forall w sm p,
  StreamMap.dart sm = Some p ->
  0 <= Hw.ttbr_count (Dart.hw (darts w p)) <= 256 ->
  exists w',
    apple_dart_hw_clear_all_ttbrs w sm = Done w' /\
    writes_within
      (fun o =>
         exists sid idx,
           0 <= sid < Dart.num_streams (darts w p) /\
           Z.testbit (StreamMap.sidmap sm) sid = true /\
           0 <= idx < Hw.ttbr_count (Dart.hw (darts w p)) /\
           o = DART_TTBR (darts w p) sid idx)
      p w w' /\
    forall sid idx,
      0 <= sid < Dart.num_streams (darts w p) ->
      Z.testbit (StreamMap.sidmap sm) sid = true ->
      0 <= idx < Hw.ttbr_count (Dart.hw (darts w p)) ->
      readl w' p (DART_TTBR (darts w p) sid idx) = 0.
Proof.
  intros w sm p Hd Hc. unfold apple_dart_hw_clear_all_ttbrs. rewrite Hd.
  cbn [bind deref].
  destruct (clear_ttbrs_fold w sm p Hd
              (upto (Hw.ttbr_count (Dart.hw (darts w p)))) w)
    as (w' & Hrun & K & Hz).
  - intros i Hi. apply in_upto in Hi. lia.
  - apply dart_same_but_regs_refl.
  - exists w'. split; [exact Hrun |]. split; [exact K |].
    intros sid idx Hs Hb Hi. apply Hz; [exact Hs | exact Hb |].
    left. apply in_upto. exact Hi.
Qed.

Ltac ctl_consts :=
  unfold DART_T8110_TLB_CMD, DART_T8020_STREAM_COMMAND,
         DART_T8020_STREAM_SELECT, DART_T8110_ERROR_MASK in *.

Lemma BITS_TO_U32_bounds : forall n,
  0 <= n <= 256 -> 0 <= BITS_TO_U32 n <= 8.
Proof.
  intros n Hn. unfold BITS_TO_U32. Z.div_mod_to_equations. lia.
Qed.

Lemma of_match_max_sid_count : forall hw,
  In hw apple_dart_of_match -> Hw.max_sid_count hw <= 256.
Proof.
  intros hw Hin.
  destruct Hin as [<- | [<- | [<- | [<- | []]]]]; cbn; lia.
Qed.

Lemma of_match_ttbr_count : forall hw,
  In hw apple_dart_of_match -> 0 <= Hw.ttbr_count hw <= 4.
Proof.
  intros hw Hin.
  destruct Hin as [<- | [<- | [<- | [<- | []]]]]; cbn; lia.
Qed.

(* What apple_dart_hw_reset does up to the last write to a TCR, TTBR or
   stream-enable register.  The state reached is [w'], the call's own
   result being that of the TLB invalidation from it on. *)
Lemma hw_reset_phases : forall w p acks,
  In (Dart.hw (darts w p)) apple_dart_of_match ->
  0 <= Dart.num_streams (darts w p)
    <= Hw.max_sid_count (Dart.hw (darts w p)) ->
  (Z.to_nat (Dart.num_streams (darts w p)) < length acks)%nat ->
  exists w1 w2 w3 ret w' acks',
    apple_dart_hw_reset w p acks = Done (ret, w', acks') /\
    (ret = 0 \/ ret = - ETIMEDOUT) /\
    (* the TCR pass *)
    writes_within
      (fun o => exists sid, 0 <= sid < Dart.num_streams (darts w p) /\
                            o = DART_TCR (darts w p) sid) p w w1 /\
    (forall sid, 0 <= sid < Dart.num_streams (darts w p) ->
       readl w1 p (DART_TCR (darts w p) sid)
       = u32 (Hw.tcr_disabled (Dart.hw (darts w p)))) /\
    (* the TTBR passes *)
    writes_within
      (fun o => exists sid idx,
                  0 <= sid < Dart.num_streams (darts w p) /\
                  0 <= idx < Hw.ttbr_count (Dart.hw (darts w p)) /\
                  o = DART_TTBR (darts w p) sid idx) p w1 w2 /\
    (forall sid idx,
       0 <= sid < Dart.num_streams (darts w p) ->
       0 <= idx < Hw.ttbr_count (Dart.hw (darts w p)) ->
       readl w2 p (DART_TTBR (darts w p) sid idx) = 0) /\
    (* the stream-enable words *)
    writes_within
      (fun o => exists i,
                  0 <= i < BITS_TO_U32 (Dart.num_streams (darts w p)) /\
                  o = Hw.enable_streams (Dart.hw (darts w p)) + 4 * i)
      p w2 w3 /\
    (forall i, 0 <= i < BITS_TO_U32 (Dart.num_streams (darts w p)) ->
       readl w3 p (Hw.enable_streams (Dart.hw (darts w p)) + 4 * i)
       = U32_MAX) /\
    (* error acknowledge, error mask, TLB invalidation *)
    writes_within
      (fun o => o = Hw.error (Dart.hw (darts w p)) \/
                (o = DART_T8110_ERROR_MASK /\
                 is_t8110 (Hw.type (Dart.hw (darts w p))) = true) \/
                o = DART_T8110_TLB_CMD \/ o = DART_T8020_STREAM_COMMAND \/
                exists i,
                  0 <= i < BITS_TO_U32 (Dart.num_streams (darts w p)) /\
                  o = DART_T8020_STREAM_SELECT + 4 * i)
      p w3 w'.
Proof.
  intros w p acks Hin Hn Hl.
  unfold apple_dart_hw_reset. cbv zeta.
  destruct (disable_dma_pass w (all_streams w p) p eq_refl)
    as (w0 & Hw0 & Hdd).
  rewrite Hdd. cbn [bind]. cbn [all_streams StreamMap.sidmap].
  set (w1 := fold_left _ _ w0).
  assert (K1 : writes_within
                 (fun o => exists sid,
                    0 <= sid < Dart.num_streams (darts w p) /\
                    o = DART_TCR (darts w p) sid) p w w1).
  { eapply writes_within_weaken;
      [| apply (stream_pass_within p
                  (Hw.tcr_disabled (Dart.hw (darts w p)))
                  (DART_TCR (darts w p)) _ _ w w0 Hw0)].
    intros o (sid & Hs & _ & ->). exists sid. auto. }
  assert (Hones : forall sid,
            0 <= sid < Dart.num_streams (darts w p) ->
            Z.testbit (Z.ones (Dart.num_streams (darts w p))) sid = true).
  { intros sid Hs. rewrite Z.testbit_ones_nonneg by lia.
    apply Z.ltb_lt. lia. }
  assert (H1 : forall sid, 0 <= sid < Dart.num_streams (darts w p) ->
            readl w1 p (DART_TCR (darts w p) sid)
            = u32 (Hw.tcr_disabled (Dart.hw (darts w p)))).
  { intros sid Hs.
    apply (stream_pass_hit p (Hw.tcr_disabled (Dart.hw (darts w p)))
             (DART_TCR (darts w p)) _ _ _ sid Hs (Hones sid Hs)). }
  pose proof (writes_within_same _ _ _ _ p K1) as S1.
  destruct (clear_all_ttbrs_effect w1 (all_streams w p) p eq_refl)
    as (w2 & Hrun2 & K2 & H2).
  { rewrite (same_hw _ _ S1).
    pose proof (of_match_ttbr_count _ Hin). lia. }
  rewrite Hrun2. cbn [bind].
  assert (K2' : writes_within
                  (fun o => exists sid idx,
                     0 <= sid < Dart.num_streams (darts w p) /\
                     0 <= idx < Hw.ttbr_count (Dart.hw (darts w p)) /\
                     o = DART_TTBR (darts w p) sid idx) p w1 w2).
  { eapply writes_within_weaken; [| exact K2].
    intros o (sid & idx & Hs & _ & Hi & ->).
    rewrite (same_num_streams _ _ S1) in Hs.
    rewrite (same_hw _ _ S1) in Hi.
    rewrite (DART_TTBR_same _ _ sid idx S1). exists sid, idx. auto. }
  assert (H2' : forall sid idx,
            0 <= sid < Dart.num_streams (darts w p) ->
            0 <= idx < Hw.ttbr_count (Dart.hw (darts w p)) ->
            readl w2 p (DART_TTBR (darts w p) sid idx) = 0).
  { intros sid idx Hs Hi.
    rewrite <- (DART_TTBR_same _ _ sid idx S1).
    apply H2.
    - rewrite (same_num_streams _ _ S1). exact Hs.
    - cbn [all_streams StreamMap.sidmap]. apply Hones. exact Hs.
    - rewrite (same_hw _ _ S1). exact Hi. }
  assert (S2 : dart_same_but_regs (darts w p) (darts w2 p)).
  { apply (dart_same_but_regs_trans _ (darts w1 p)); [exact S1 |].
    apply (writes_within_same _ _ _ _ p K2). }
  rewrite (same_hw _ _ S2), (same_num_streams _ _ S2).
  set (w3 := fold_left _ (upto _) w2).
  assert (K3 : writes_within
                 (fun o => exists i,
                    0 <= i < BITS_TO_U32 (Dart.num_streams (darts w p)) /\
                    o = Hw.enable_streams (Dart.hw (darts w p)) + 4 * i)
                 p w2 w3).
  { eapply writes_within_weaken;
      [| apply (write_each_within p (fun _ => U32_MAX)
                  (fun i => Hw.enable_streams (Dart.hw (darts w p))
                            + 4 * i))].
    intros o (i & Hi & ->). apply in_upto in Hi. exists i. auto. }
  assert (H3 : forall i,
            0 <= i < BITS_TO_U32 (Dart.num_streams (darts w p)) ->
            readl w3 p (Hw.enable_streams (Dart.hw (darts w p)) + 4 * i)
            = U32_MAX).
  { intros i Hi.
    apply (write_loop_hit p U32_MAX
             (fun i => Hw.enable_streams (Dart.hw (darts w p)) + 4 * i)).
    apply in_upto. exact Hi. }
  set (w4 := writel w3 p _ (Hw.error (Dart.hw (darts w p)))).
  set (w5 := if is_t8110 (Hw.type (Dart.hw (darts w p))) then _ else w4).
  set (P := fun o : Z =>
              o = Hw.error (Dart.hw (darts w p)) \/
              (o = DART_T8110_ERROR_MASK /\
               is_t8110 (Hw.type (Dart.hw (darts w p))) = true) \/
              o = DART_T8110_TLB_CMD \/ o = DART_T8020_STREAM_COMMAND \/
              exists i,
                0 <= i < BITS_TO_U32 (Dart.num_streams (darts w p)) /\
                o = DART_T8020_STREAM_SELECT + 4 * i).
  assert (K4 : writes_within P p w3 w4).
  { apply writes_within_writel. left. reflexivity. }
  assert (K5 : writes_within P p w4 w5).
  { unfold w5.
    destruct (is_t8110 (Hw.type (Dart.hw (darts w p)))) eqn:Et.
    - apply writes_within_writel. right. left. auto.
    - apply writes_within_refl. }
  assert (S5 : dart_same_but_regs (darts w p) (darts w5 p)).
  { apply (dart_same_but_regs_trans _ (darts w2 p)); [exact S2 |].
    apply (dart_same_but_regs_trans _ (darts w3 p));
      [apply (writes_within_same _ _ _ _ p K3) |].
    apply (dart_same_but_regs_trans _ (darts w4 p));
      [apply (writes_within_same _ _ _ _ p K4) |].
    apply (writes_within_same _ _ _ _ p K5). }
  destruct (invalidate_tlb_total w5 (all_streams w p) p acks eq_refl)
    as (ret & w' & acks' & Hrun & Hret & _ & K6).
  { rewrite (same_num_streams _ _ S5). exact Hl. }
  exists w1, w2, w3, ret, w', acks'.
  split; [exact Hrun |]. split; [exact Hret |].
  split; [exact K1 |]. split; [exact H1 |].
  split; [exact K2' |]. split; [exact H2' |].
  split; [exact K3 |]. split; [exact H3 |].
  apply (writes_within_trans _ _ _ w4); [exact K4 |].
  apply (writes_within_trans _ _ _ w5); [exact K5 |].
  eapply writes_within_weaken; [| exact K6].
  intros o Ho. unfold P. rewrite (same_num_streams _ _ S5) in Ho. tauto.
Qed.

Lemma hw_reset_effect : forall w p acks,
  In (Dart.hw (darts w p)) apple_dart_of_match ->
  0 <= Dart.num_streams (darts w p)
    <= Hw.max_sid_count (Dart.hw (darts w p)) ->
  Hw.enable_streams (Dart.hw (darts w p))
    + 4 * BITS_TO_U32 (Dart.num_streams (darts w p))
    <= Hw.tcr (Dart.hw (darts w p)) ->
  (Z.to_nat (Dart.num_streams (darts w p)) < length acks)%nat ->
  exists ret w' acks',
    apple_dart_hw_reset w p acks = Done (ret, w', acks') /\
    (ret = 0 \/ ret = - ETIMEDOUT) /\
    (forall sid, 0 <= sid < Dart.num_streams (darts w p) ->
       readl w' p (DART_TCR (darts w p) sid)
       = Hw.tcr_disabled (Dart.hw (darts w p))) /\
    (forall sid idx,
       0 <= sid < Dart.num_streams (darts w p) ->
       0 <= idx < Hw.ttbr_count (Dart.hw (darts w p)) ->
       readl w' p (DART_TTBR (darts w p) sid idx) = 0) /\
    (forall i, 0 <= i < BITS_TO_U32 (Dart.num_streams (darts w p)) ->
       readl w' p (Hw.enable_streams (Dart.hw (darts w p)) + 4 * i)
       = U32_MAX) /\
    only_regs_changed w w' /\
    (forall q o, q <> p -> readl w' q o = readl w q o).
Proof.
  intros w p acks Hin Hn Hen Hl.
  destruct (hw_reset_phases w p acks Hin Hn Hl)
    as (w1 & w2 & w3 & ret & w' & acks' & Hrun & Hret & K1 & H1 & K2 & H2
        & K3 & H3 & K4).
  pose proof (of_match_regs_apart _ Hin Hn) as (_ & _ & Hapart).
  pose proof (of_match_max_sid_count _ Hin) as Hmax.
  pose proof (BITS_TO_U32_bounds (Dart.num_streams (darts w p))
                ltac:(lia)) as Hk.
  exists ret, w', acks'. split; [exact Hrun |]. split; [exact Hret |].
  split; [| split; [| split; [| split]]].
  - intros sid Hs.
    rewrite (writes_within_readl _ _ _ _ _ _ K4).
    2:{ right. rewrite DART_TCR_flat by assumption. ctl_consts.
        intros [He | [[He Ht] | [He | [He | (i & Hi & He)]]]];
          by_descriptor Hin; try discriminate Ht; lia. }
    rewrite (writes_within_readl _ _ _ _ _ _ K3).
    2:{ right. intros (i & Hi & He).
        rewrite DART_TCR_flat in He by assumption. lia. }
    rewrite (writes_within_readl _ _ _ _ _ _ K2).
    2:{ right. intros (sid' & idx & Hs' & Hi & He).
        exact (Hapart sid sid' idx Hs Hs' Hi He). }
    rewrite H1 by exact Hs.
    rewrite (of_match_tcr_disabled _ Hin). reflexivity.
  - intros sid idx Hs Hi.
    rewrite (writes_within_readl _ _ _ _ _ _ K4).
    2:{ right. rewrite DART_TTBR_flat by assumption. ctl_consts.
        intros [He | [[He Ht] | [He | [He | (i & Hi' & He)]]]];
          by_descriptor Hin; try discriminate Ht; lia. }
    rewrite (writes_within_readl _ _ _ _ _ _ K3).
    2:{ right. intros (i & Hi' & He).
        rewrite DART_TTBR_flat in He by assumption.
        by_descriptor Hin; lia. }
    apply H2; assumption.
  - intros i Hi. rewrite (writes_within_readl _ _ _ _ _ _ K4).
    2:{ right. ctl_consts.
        intros [He | [[He Ht] | [He | [He | (j & Hj & He)]]]];
          by_descriptor Hin; try discriminate Ht; lia. }
    apply H3. exact Hi.
  - apply (only_regs_changed_trans _ w1); [apply K1 |].
    apply (only_regs_changed_trans _ w2); [apply K2 |].
    apply (only_regs_changed_trans _ w3); [apply K3 | apply K4].
  - intros q o Hq.
    rewrite (writes_within_readl _ _ _ _ _ _ K4),
            (writes_within_readl _ _ _ _ _ _ K3),
            (writes_within_readl _ _ _ _ _ _ K2),
            (writes_within_readl _ _ _ _ _ _ K1)
      by (left; exact Hq).
    reflexivity.
Qed.

(** X15. Where the stream-enable words end below the first TCR (every
    supported generation but the USB4 variant with more than 32 streams),
    apple_dart_hw_reset, given a poll answer for each command, returns 0
    or -ETIMEDOUT and leaves every stream's TCR at the disabled value,
    every TTBR at zero and every stream-enable word at all ones; no other
    unit's registers and nothing besides registers change. *)
Theorem hw_reset_end_state : forall w p acks,
  In (Dart.hw (darts w p)) apple_dart_of_match ->
  0 <= Dart.num_streams (darts w p)
    <= Hw.max_sid_count (Dart.hw (darts w p)) ->
  Hw.enable_streams (Dart.hw (darts w p))
    + 4 * BITS_TO_U32 (Dart.num_streams (darts w p))
    <= Hw.tcr (Dart.hw (darts w p)) ->
  (Z.to_nat (Dart.num_streams (darts w p)) < length acks)%nat ->
  exists ret w' acks',
    apple_dart_hw_reset w p acks = Done (ret, w', acks') /\
    (ret = 0 \/ ret = - ETIMEDOUT) /\
    (forall sid, 0 <= sid < Dart.num_streams (darts w p) ->
       readl w' p (DART_TCR (darts w p) sid)
       = Hw.tcr_disabled (Dart.hw (darts w p))) /\
    (forall sid idx,
       0 <= sid < Dart.num_streams (darts w p) ->
       0 <= idx < Hw.ttbr_count (Dart.hw (darts w p)) ->
       readl w' p (DART_TTBR (darts w p) sid idx) = 0) /\
    (forall i, 0 <= i < BITS_TO_U32 (Dart.num_streams (darts w p)) ->
       readl w' p (Hw.enable_streams (Dart.hw (darts w p)) + 4 * i)
       = U32_MAX) /\
    only_regs_changed w w' /\
    (forall q o, q <> p -> readl w' q o = readl w q o).
Proof. exact hw_reset_effect. Qed.

Lemma hw_reset_end_state_witness :
  exists ret w' acks',
    apple_dart_hw_reset world_t8103 0%nat (repeat true 17)
    = Done (ret, w', acks') /\
    readl w' 0%nat (DART_TCR (darts world_t8103 0%nat) 5) = 0.
Proof.
  destruct (hw_reset_end_state world_t8103 0%nat (repeat true 17))
    as (ret & w' & acks' & Hrun & _ & Htcr & _).
  - cbn. auto.
  - cbn. lia.
  - vm_compute. discriminate.
  - cbn. lia.
  - exists ret, w', acks'. split; [exact Hrun |].
    apply (Htcr 5). cbn. lia.
Defined.

(** X16. On the USB4 variant with more than 32 streams (probe gives it
    64) the second stream-enable word written by apple_dart_hw_reset lies
    at the offset of stream 0's TCR: after the reset that TCR reads all
    ones, while the TCR of every other stream is disabled. *)
Theorem hw_reset_usb4_stream_0 : forall w p acks,
  Dart.hw (darts w p) = apple_dart_hw_t8103_usb4 ->
  32 < Dart.num_streams (darts w p) <= 64 ->
  (Z.to_nat (Dart.num_streams (darts w p)) < length acks)%nat ->
  exists ret w' acks',
    apple_dart_hw_reset w p acks = Done (ret, w', acks') /\
    readl w' p (DART_TCR (darts w p) 0) = U32_MAX /\
    (forall sid, 1 <= sid < Dart.num_streams (darts w p) ->
       readl w' p (DART_TCR (darts w p) sid)
       = Hw.tcr_disabled (Dart.hw (darts w p))).
Proof.
  intros w p acks Hhw Hn Hl.
  assert (Hin : In (Dart.hw (darts w p)) apple_dart_of_match)
    by (rewrite Hhw; cbn; auto).
  assert (Hn' : 0 <= Dart.num_streams (darts w p)
                <= Hw.max_sid_count (Dart.hw (darts w p)))
    by (rewrite Hhw; cbn; lia).
  destruct (hw_reset_phases w p acks Hin Hn' Hl)
    as (w1 & w2 & w3 & ret & w' & acks' & Hrun & Hret & K1 & H1 & K2 & H2
        & K3 & H3 & K4).
  pose proof (of_match_regs_apart _ Hin Hn') as (_ & _ & Hapart).
  assert (Hk : BITS_TO_U32 (Dart.num_streams (darts w p)) = 2)
    by (unfold BITS_TO_U32; Z.div_mod_to_equations; lia).
  exists ret, w', acks'. split; [exact Hrun |]. split.
  - rewrite (writes_within_readl _ _ _ _ _ _ K4).
    2:{ right. rewrite DART_TCR_flat by first [assumption | lia].
        rewrite Hk. ctl_consts. rewrite Hhw. hw_consts.
        intros [He | [[He Ht] | [He | [He | (i & Hi & He)]]]];
          try discriminate Ht; lia. }
    rewrite DART_TCR_flat by first [assumption | lia].
    replace (Hw.tcr (Dart.hw (darts w p)) + 4 * 0)
      with (Hw.enable_streams (Dart.hw (darts w p)) + 4 * 1)
      by (rewrite Hhw; reflexivity).
    apply H3. lia.
  - intros sid Hs.
    assert (Hs0 : 0 <= sid < Dart.num_streams (darts w p)) by lia.
    rewrite (writes_within_readl _ _ _ _ _ _ K4).
    2:{ right. rewrite DART_TCR_flat by assumption.
        rewrite Hk. ctl_consts. rewrite Hhw. hw_consts.
        intros [He | [[He Ht] | [He | [He | (i & Hi & He)]]]];
          try discriminate Ht; lia. }
    rewrite (writes_within_readl _ _ _ _ _ _ K3).
    2:{ right. intros (i & Hi & He).
        rewrite DART_TCR_flat in He by assumption.
        rewrite Hk in Hi. rewrite Hhw in He. hw_consts. lia. }
    rewrite (writes_within_readl _ _ _ _ _ _ K2).
    2:{ right. intros (sid' & idx & Hs' & Hi & He).
        exact (Hapart sid sid' idx Hs0 Hs' Hi He). }
    rewrite H1 by exact Hs0.
    rewrite (of_match_tcr_disabled _ Hin). reflexivity.
Qed.

Lemma hw_reset_usb4_stream_0_witness :
  exists ret w' acks',
    apple_dart_hw_reset world_t8103_usb4 0%nat (repeat true 65)
    = Done (ret, w', acks') /\
    readl w' 0%nat (DART_TCR (darts world_t8103_usb4 0%nat) 0) = U32_MAX.
Proof.
  destruct (hw_reset_usb4_stream_0 world_t8103_usb4 0%nat (repeat true 65))
    as (ret & w' & acks' & Hrun & Htcr & _).
  - reflexivity.
  - cbn. lia.
  - cbn. lia.
  - exists ret, w', acks'. split; [exact Hrun | exact Htcr].
Defined.

(** ** Suspend and resume *)

Lemma fold_left_ext_eq : forall (A B : Type) (f g : A -> B -> A) l a,
  (forall a b, f a b = g a b) -> fold_left f l a = fold_left g l a.
Proof.
  intros A B f g l. induction l as [| b l IH]; intros a H; [reflexivity |].
  cbn [fold_left]. rewrite H. apply IH. exact H.
Qed.

Lemma NoDup_map_injective : forall (A B : Type) (f : A -> B) l,
  (forall x y, f x = f y -> x = y) -> NoDup l -> NoDup (map f l).
Proof.
  intros A B f l Hinj Hnd. induction Hnd as [| x l Hx Hnd IH]; cbn;
    constructor; [| exact IH].
  intros Hin. apply in_map_iff in Hin. destruct Hin as (y & Hy & Hin).
  apply Hinj in Hy. subst y. contradiction.
Qed.

Lemma NoDup_upto : forall n, NoDup (upto n).
Proof.
  intros n. unfold upto. apply NoDup_map_injective.
  - intros x y Hxy. lia.
  - apply seq_NoDup.
Qed.

Lemma resume_stream_eq : forall dart p saved w sid,
  dart_same_but_regs dart (darts w p) ->
  resume_stream p saved w sid
  = writel
      (fold_left
         (fun w idx => writel w p (Saved.save_ttbr saved sid idx)
                              (DART_TTBR dart sid idx))
         (upto (Hw.ttbr_count (Dart.hw dart))) w)
      p (Saved.save_tcr saved sid) (DART_TCR dart sid).
Proof.
  intros dart p saved w sid Hs. unfold resume_stream. cbv zeta.
  rewrite (same_hw _ _ Hs), (DART_TCR_same _ _ sid Hs). f_equal.
  apply fold_left_ext_eq. intros a idx.
  rewrite (DART_TTBR_same _ _ sid idx Hs). reflexivity.
Qed.

Lemma resume_stream_within : forall dart p saved w sid,
  dart_same_but_regs dart (darts w p) ->
  writes_within
    (fun o => o = DART_TCR dart sid \/
              exists idx, 0 <= idx < Hw.ttbr_count (Dart.hw dart) /\
                          o = DART_TTBR dart sid idx)
    p w (resume_stream p saved w sid).
Proof.
  intros dart p saved w sid Hs. rewrite (resume_stream_eq dart) by exact Hs.
  match goal with
  | |- writes_within _ _ _ (writel ?m _ _ _) =>
      apply (writes_within_trans _ _ _ m)
  end.
  - eapply writes_within_weaken;
      [| apply (write_each_within p (Saved.save_ttbr saved sid)
                  (fun idx => DART_TTBR dart sid idx))].
    intros o (idx & Hi & ->). apply in_upto in Hi. right. exists idx. auto.
  - apply writes_within_writel. left. reflexivity.
Qed.

Lemma resume_loop_restores : forall dart p saved l w0,
  dart_same_but_regs dart (darts w0 p) ->
  regs_apart dart ->
  NoDup l ->
  (forall x, In x l -> 0 <= x < Dart.num_streams dart) ->
  dart_same_but_regs dart (darts (fold_left (resume_stream p saved) l w0) p)
  /\
  forall sid, In sid l ->
    readl (fold_left (resume_stream p saved) l w0) p (DART_TCR dart sid)
    = u32 (Saved.save_tcr saved sid) /\
    forall idx, 0 <= idx < Hw.ttbr_count (Dart.hw dart) ->
      readl (fold_left (resume_stream p saved) l w0) p
            (DART_TTBR dart sid idx)
      = u32 (Saved.save_ttbr saved sid idx).
Proof.
  intros dart p saved l w0 Hs (Htcr & Httbr & Hmix).
  induction l as [| s l IH] using rev_ind; intros Hnd Hr.
  - split; [exact Hs | intros sid []].
  - apply NoDup_remove in Hnd. rewrite app_nil_r in Hnd.
    destruct Hnd as [Hnd Hnin].
    destruct IH as [Hs1 Hv];
      [exact Hnd | intros x Hx; apply Hr, in_or_app; left; exact Hx |].
    rewrite fold_left_app. cbn [fold_left].
    set (w1 := fold_left (resume_stream p saved) l w0) in *.
    pose proof (resume_stream_within dart p saved w1 s Hs1) as K.
    assert (Hsr : 0 <= s < Dart.num_streams dart)
      by (apply Hr, in_or_app; right; left; reflexivity).
    split.
    { apply (dart_same_but_regs_trans _ (darts w1 p)); [exact Hs1 |].
      apply (writes_within_same _ _ _ _ p K). }
    intros sid Hin. apply in_app_or in Hin.
    destruct Hin as [Hin | [<- | []]].
    + assert (Hsid : 0 <= sid < Dart.num_streams dart)
        by (apply Hr, in_or_app; left; exact Hin).
      assert (Hne : sid <> s) by (intros ->; contradiction).
      destruct (Hv sid Hin) as [Hv1 Hv2]. split.
      * rewrite (writes_within_readl _ _ _ _ _ _ K); [exact Hv1 |].
        right. intros [He | (idx & Hi & He)].
        -- apply Hne. apply Htcr; assumption.
        -- exact (Hmix sid s idx Hsid Hsr Hi He).
      * intros idx Hi.
        rewrite (writes_within_readl _ _ _ _ _ _ K);
          [apply Hv2; exact Hi |].
        right. intros [He | (idx' & Hi' & He)].
        -- symmetry in He. exact (Hmix s sid idx Hsr Hsid Hi He).
        -- apply Hne. apply (Httbr sid idx s idx'); assumption.
    + rewrite (resume_stream_eq dart) by exact Hs1. split.
      * apply readl_writel_same.
      * intros idx Hi.
        rewrite readl_writel_other.
        2:{ right. intros He. symmetry in He.
            exact (Hmix s s idx Hsr Hsr Hi He). }
        apply (write_each_hit p (Saved.save_ttbr saved s)
                 (fun idx => DART_TTBR dart s idx)).
        -- apply in_upto. exact Hi.
        -- intros y Hy He. apply in_upto in Hy.
           destruct (Httbr s y s idx Hsr Hsr Hy Hi He) as [_ ->].
           reflexivity.
Qed.

Lemma tlb_command_loop_all_acked : forall p command sids w acks ret w' acks',
  Forall (eq true) acks ->
  tlb_command_loop p command sids w acks = Done (ret, w', acks') ->
  ret = 0.
Proof.
  intros p command sids. induction sids as [| sid sids IH];
    intros w acks ret w' acks' Hall Hrun.
  - cbn in Hrun. congruence.
  - destruct acks as [| ack acks]; [discriminate Hrun |].
    inversion Hall as [| ? ? Ha Hrest]; subst. 
    cbn [tlb_command_loop poll_busy bind] in Hrun. cbv zeta in Hrun.
    cbn [Z.eqb negb] in Hrun. exact (IH _ _ _ _ _ Hrest Hrun).
Qed.

Lemma invalidate_tlb_all_acked : forall w sm acks ret w' acks',
  Forall (eq true) acks ->
  invalidate_tlb w sm acks = Done (ret, w', acks') ->
  ret = 0.
Proof.
  intros w sm acks ret w' acks' Hall Hrun. unfold invalidate_tlb in Hrun.
  destruct (StreamMap.dart sm) as [p |] eqn:Hd; [| discriminate Hrun].
  cbn [bind deref] in Hrun.
  destruct (Hw.invalidate_tlb (Dart.hw (darts w p))).
  - unfold apple_dart_t8020_hw_stream_command in Hrun. rewrite Hd in Hrun.
    cbn [bind deref] in Hrun. cbv zeta in Hrun.
    destruct acks as [| ack acks]; [discriminate Hrun |].
    inversion Hall as [| ? ? Ha Hrest]; subst.
    cbn [poll_busy bind Z.eqb negb] in Hrun. congruence.
  - unfold apple_dart_t8110_hw_tlb_command in Hrun. rewrite Hd in Hrun.
    cbn [bind deref] in Hrun.
    destruct (tlb_command_loop p DART_T8110_TLB_CMD_OP_FLUSH_SID
                (for_each_set_bit (StreamMap.sidmap sm)
                   (Dart.num_streams (darts w p))) w acks)
      as [[[r w1] acks1] | | |] eqn:El; try discriminate Hrun.
    apply tlb_command_loop_all_acked in El; [| exact Hall]. subst r.
    cbn [bind Z.eqb negb] in Hrun. congruence.
Qed.

Lemma hw_reset_all_acked : forall w p acks ret w' acks',
  Forall (eq true) acks ->
  apple_dart_hw_reset w p acks = Done (ret, w', acks') ->
  ret = 0.
Proof.
  intros w p acks ret w' acks' Hall Hrun. unfold apple_dart_hw_reset in Hrun.
  cbv zeta in Hrun.
  destruct (apple_dart_hw_disable_dma w (all_streams w p)) as [w0 | | |];
    try discriminate Hrun.
  cbn [bind] in Hrun.
  destruct (apple_dart_hw_clear_all_ttbrs w0 (all_streams w p)) as [w1 | | |];
    try discriminate Hrun.
  cbn [bind] in Hrun.
  exact (invalidate_tlb_all_acked _ _ _ _ _ _ Hall Hrun).
Qed.

Lemma Forall_repeat_true : forall n, Forall (eq true) (repeat true n).
Proof. intros n. induction n; cbn; constructor; auto. Qed.

Lemma for_each_set_bit_ones : forall n,
  0 < n -> exists rest, for_each_set_bit (Z.ones n) n = 0 :: rest.
Proof.
  intros n Hn. unfold for_each_set_bit.
  destruct (Z.to_nat n) as [| k] eqn:E; [lia |].
  cbn [seq map filter]. change (Z.of_nat 0) with 0.
  rewrite Z.ones_spec_low by lia. eexists. reflexivity.
Qed.

Lemma invalidate_tlb_first_nack : forall w p n acks ret w' acks',
  0 < Dart.num_streams (darts w p) ->
  n = Dart.num_streams (darts w p) ->
  invalidate_tlb w (StreamMap.mk (Some p) (Z.ones n)) (false :: acks)
  = Done (ret, w', acks') ->
  ret = - ETIMEDOUT.
Proof.
  intros w p n acks ret w' acks' Hn -> Hrun. unfold invalidate_tlb in Hrun.
  cbn [StreamMap.dart bind deref] in Hrun.
  destruct (Hw.invalidate_tlb (Dart.hw (darts w p))).
  - unfold apple_dart_t8020_hw_stream_command in Hrun.
    cbn [StreamMap.dart bind deref poll_busy] in Hrun. cbv zeta in Hrun.
    cbn [bind] in Hrun.
    replace (negb (- ETIMEDOUT =? 0)) with true in Hrun by reflexivity.
    congruence.
  - unfold apple_dart_t8110_hw_tlb_command in Hrun.
    cbn [StreamMap.dart StreamMap.sidmap bind deref] in Hrun.
    destruct (for_each_set_bit_ones _ Hn) as (rest & E). rewrite E in Hrun.
    cbn [tlb_command_loop poll_busy bind] in Hrun. cbv zeta in Hrun.
    replace (negb (- ETIMEDOUT =? 0)) with true in Hrun by reflexivity.
    cbn [bind] in Hrun.
    replace (negb (- ETIMEDOUT =? 0)) with true in Hrun by reflexivity.
    congruence.
Qed.

Lemma hw_reset_first_nack : forall w p acks ret w' acks',
  0 < Dart.num_streams (darts w p) ->
  0 <= Hw.ttbr_count (Dart.hw (darts w p)) <= 256 ->
  apple_dart_hw_reset w p (false :: acks) = Done (ret, w', acks') ->
  ret = - ETIMEDOUT.
Proof.
  intros w p acks ret w' acks' Hn Hc Hrun.
  unfold apple_dart_hw_reset in Hrun. cbv zeta in Hrun.
  destruct (disable_dma_pass w (all_streams w p) p eq_refl)
    as (w0 & Hw0 & Hdd).
  rewrite Hdd in Hrun. cbn [bind] in Hrun.
  set (w1 := fold_left _ _ w0) in Hrun.
  assert (O1 : only_regs_changed w w1).
  { apply (only_regs_changed_trans _ w0);
      [apply only_regs_changed_diag; exact Hw0 |].
    apply only_regs_changed_write_loop. }
  destruct (clear_all_ttbrs_effect w1 (all_streams w p) p eq_refl)
    as (w2 & Hclr & K2 & _).
  { rewrite (same_hw _ _ (proj2 O1 p)). exact Hc. }
  rewrite Hclr in Hrun. cbn [bind] in Hrun.
  set (w3 := fold_left _ _ w2) in Hrun.
  assert (O3 : only_regs_changed w w3).
  { apply (only_regs_changed_trans _ w1); [exact O1 |].
    apply (only_regs_changed_trans _ w2); [apply K2 |].
    apply only_regs_changed_write_loop. }
  set (w4 := writel w3 p _ _) in Hrun.
  assert (O4 : only_regs_changed w w4).
  { apply (only_regs_changed_trans _ w3); [exact O3 |].
    apply only_regs_changed_writel. }
  set (w5 := if is_t8110 _ then _ else _) in Hrun.
  assert (O5 : only_regs_changed w w5).
  { subst w5. destruct (is_t8110 _); [| exact O4].
    apply (only_regs_changed_trans _ w4); [exact O4 |].
    apply only_regs_changed_writel. }
  unfold all_streams in Hrun.
  apply (invalidate_tlb_first_nack w5 p (Dart.num_streams (darts w p)) acks
           ret w' acks'); [| | exact Hrun].
  - rewrite (same_num_streams _ _ (proj2 O5 p)). exact Hn.
  - rewrite (same_num_streams _ _ (proj2 O5 p)). reflexivity.
Qed.

(** X17. Suspend followed by resume brings back the translation state of
    an unlocked unit, whatever the registers hold when the unit comes
    back.  Resume returns 0 or -ETIMEDOUT: 0 when every poll of its reset
    is acknowledged, -ETIMEDOUT when the first poll of a unit with at
    least one stream is not.  Whenever it returns 0, every stream's TCR
    and every TTBR holds the value it had at suspend (as a 32-bit
    word). *)
Theorem suspend_resume_round_trip : forall w wr p saved0 acks,
  In (Dart.hw (darts w p)) apple_dart_of_match ->
  0 <= Dart.num_streams (darts w p)
    <= Hw.max_sid_count (Dart.hw (darts w p)) ->
  Dart.locked (darts w p) = false ->
  dart_same_but_regs (darts w p) (darts wr p) ->
  (Z.to_nat (Dart.num_streams (darts w p)) < length acks)%nat ->
  exists ret w' acks',
    apple_dart_resume wr p (snd (apple_dart_suspend w p saved0)) acks
    = Done (ret, w', acks') /\
    (ret = 0 \/ ret = - ETIMEDOUT) /\
    (Forall (eq true) acks -> ret = 0) /\
    (0 < Dart.num_streams (darts w p) -> hd true acks = false ->
     ret = - ETIMEDOUT) /\
    (ret = 0 ->
     forall sid, 0 <= sid < Dart.num_streams (darts w p) ->
       readl w' p (DART_TCR (darts w p) sid)
       = u32 (readl w p (DART_TCR (darts w p) sid)) /\
       forall idx, 0 <= idx < Hw.ttbr_count (Dart.hw (darts w p)) ->
         readl w' p (DART_TTBR (darts w p) sid idx)
         = u32 (readl w p (DART_TTBR (darts w p) sid idx))).
Proof.
  intros w wr p saved0 acks Hin Hn Hunl Hs Hl.
  pose proof (of_match_regs_apart _ Hin Hn) as Hapart.
  assert (Hin' : In (Dart.hw (darts wr p)) apple_dart_of_match)
    by (rewrite (same_hw _ _ Hs); exact Hin).
  assert (Hn' : 0 <= Dart.num_streams (darts wr p)
                <= Hw.max_sid_count (Dart.hw (darts wr p)))
    by (rewrite (same_hw _ _ Hs), (same_num_streams _ _ Hs); exact Hn).
  assert (Hl' : (Z.to_nat (Dart.num_streams (darts wr p))
                 < length acks)%nat)
    by (rewrite (same_num_streams _ _ Hs); exact Hl).
  destruct (hw_reset_phases wr p acks Hin' Hn' Hl')
    as (w1 & w2 & w3 & ret & w4 & acks' & Hrun & Hret & K1 & _ & K2 & _
        & K3 & _ & K4).
  assert (S4 : dart_same_but_regs (darts w p) (darts w4 p)).
  { apply (dart_same_but_regs_trans _ (darts wr p)); [exact Hs |].
    apply (dart_same_but_regs_trans _ (darts w1 p));
      [apply (writes_within_same _ _ _ _ p K1) |].
    apply (dart_same_but_regs_trans _ (darts w2 p));
      [apply (writes_within_same _ _ _ _ p K2) |].
    apply (dart_same_but_regs_trans _ (darts w3 p));
      [apply (writes_within_same _ _ _ _ p K3) |].
    apply (writes_within_same _ _ _ _ p K4). }
  unfold apple_dart_resume.
  replace (Dart.locked (darts wr p)) with false
    by (symmetry; rewrite <- Hunl; apply Hs).
  assert (Hacked : Forall (eq true) acks -> ret = 0)
    by (intros Hall; exact (hw_reset_all_acked _ _ _ _ _ _ Hall Hrun)).
  assert (Hnack : 0 < Dart.num_streams (darts w p) ->
                  hd true acks = false -> ret = - ETIMEDOUT).
  { intros Hpos Hhd. destruct acks as [| [] acks0]; try discriminate Hhd.
    apply (hw_reset_first_nack wr p acks0 ret w4 acks').
    - rewrite (same_num_streams _ _ Hs). exact Hpos.
    - rewrite (same_hw _ _ Hs). clear - Hin.
      destruct Hin as [E | [E | [E | [E | []]]]]; rewrite <- E; cbn; lia.
    - exact Hrun. }
  rewrite Hrun. cbn [bind].
  destruct Hret as [-> | ->].
  - cbn [Z.eqb negb]. eexists _, _, _. split; [reflexivity |].
    split; [left; reflexivity |]. split; [exact Hacked |].
    split; [exact Hnack |]. intros _ sid Hsid.
    rewrite (same_num_streams _ _ S4).
    destruct (resume_loop_restores (darts w p) p
                (snd (apple_dart_suspend w p saved0))
                (upto (Dart.num_streams (darts w p))) w4 S4 Hapart
                (NoDup_upto _))
      as [_ Hv].
    { intros x Hx. apply in_upto. exact Hx. }
    destruct (Hv sid) as [Hv1 Hv2]; [apply in_upto; exact Hsid |].
    assert (Er : in_range 0 (Dart.num_streams (darts w p)) sid = true).
    { unfold in_range. apply andb_true_intro.
      split; [apply Z.leb_le | apply Z.ltb_lt]; lia. }
    split.
    + rewrite Hv1. cbn [apple_dart_suspend snd Saved.save_tcr].
      rewrite Er. reflexivity.
    + intros idx Hi. rewrite Hv2 by exact Hi.
      cbn [apple_dart_suspend snd Saved.save_ttbr]. rewrite Er.
      assert (Ei : in_range 0 (Hw.ttbr_count (Dart.hw (darts w p))) idx
                   = true).
      { unfold in_range. apply andb_true_intro.
        split; [apply Z.leb_le | apply Z.ltb_lt]; lia. }
      rewrite Ei. reflexivity.
  - eexists _, _, _. split; [reflexivity |].
    split; [right; reflexivity |]. split; [exact Hacked |].
    split; [exact Hnack |]. intros H. discriminate H.
Qed.

Lemma suspend_resume_round_trip_witness :
  exists w' acks',
    apple_dart_resume world_t8103 0%nat
      (snd (apple_dart_suspend (writel world_t8103 0%nat 0x80 0x10c) 0%nat
              (Saved.mk (fun _ => 0) (fun _ _ => 0))))
      (repeat true 17)
    = Done (0, w', acks') /\
    readl w' 0%nat 0x10c = 0x80.
Proof.
  destruct (suspend_resume_round_trip
              (writel world_t8103 0%nat 0x80 0x10c) world_t8103 0%nat
              (Saved.mk (fun _ => 0) (fun _ _ => 0)) (repeat true 17))
    as (ret & w' & acks' & Hrun & _ & Hacked & _ & Hres).
  - cbn. auto.
  - cbn. lia.
  - reflexivity.
  - cbn. unfold dart_same_but_regs. cbn. repeat split.
  - cbn. lia.
  - assert (E : ret = 0) by (apply Hacked, Forall_repeat_true).
    subst ret. exists w', acks'. split; [exact Hrun |].
    destruct (Hres eq_refl 3) as [Htcr _]; [cbn; lia |].
    exact Htcr.
Defined.

(** ** Releasing a device *)

Lemma dart_same_but_tables_refl : forall d, dart_same_but_tables d d.
Proof. intros d. unfold dart_same_but_tables. repeat split. Qed.

Lemma dart_same_but_tables_trans : forall d1 d2 d3,
  dart_same_but_tables d1 d2 -> dart_same_but_tables d2 d3 ->
  dart_same_but_tables d1 d3.
Proof.
  unfold dart_same_but_tables. intros d1 d2 d3 H1 H2.
  decompose [and] H1. decompose [and] H2. repeat split; congruence.
Qed.

Lemma tables_cleared_refl : forall w, tables_cleared w w.
Proof.
  intros w. unfold tables_cleared.
  split; [intros; apply dart_same_but_tables_refl |].
  split; [reflexivity |]. split; [auto |]. split; [auto |].
  split; [auto |]. exists []. rewrite app_nil_r. auto.
Qed.

Lemma tables_cleared_trans : forall w1 w2 w3,
  tables_cleared w1 w2 -> tables_cleared w2 w3 -> tables_cleared w1 w3.
Proof.
  intros w1 w2 w3 (A1 & U1 & L1 & S1 & M1 & e1 & G1 & F1)
                  (A2 & U2 & L2 & S2 & M2 & e2 & G2 & F2).
  unfold tables_cleared. split; [| split; [| split; [| split; [| split]]]].
  - intros q. apply (dart_same_but_tables_trans _ (darts w2 q)); auto.
  - intros q Hq. rewrite U2, U1; auto.
    destruct (A1 q) as (_ & _ & _ & _ & _ & _ & _ & E & _).
    rewrite E. exact Hq.
  - intros q s i. destruct (L2 q s i) as [E | E]; [| auto].
    rewrite E. apply L1.
  - intros q s i. destruct (S2 q s i) as [E | E]; [| auto].
    rewrite E. apply S1.
  - intros a. destruct (M2 a) as [E | E]; [| auto]. rewrite E. apply M1.
  - exists (e1 ++ e2). rewrite G2, G1, app_assoc.
    split; [reflexivity |]. rewrite forallb_app, F1, F2. reflexivity.
Qed.

Lemma tables_cleared_emit : forall w e,
  is_unmap_event e = true -> tables_cleared w (emit e w).
Proof.
  intros w e He. unfold tables_cleared. cbn [emit darts mem log].
  split; [intros; apply dart_same_but_tables_refl |].
  split; [reflexivity |]. split; [auto |]. split; [auto |].
  split; [auto |]. exists [e]. split; [reflexivity |]. cbn. rewrite He.
  reflexivity.
Qed.

Lemma tables_cleared_WARN_ON : forall w c, tables_cleared w (WARN_ON c w).
Proof.
  intros w [|]; cbn [WARN_ON];
    [apply tables_cleared_emit; reflexivity | apply tables_cleared_refl].
Qed.

Lemma tables_cleared_memset : forall w p len,
  tables_cleared w (set_mem w (memset (mem w) p x00 len)).
Proof.
  intros w p len. unfold tables_cleared. cbn [set_mem darts mem log].
  split; [intros; apply dart_same_but_tables_refl |].
  split; [reflexivity |]. split; [auto |]. split; [auto |]. split.
  - intros a. unfold memset.
    destruct ((p <=? a) && (a <? p + len)); auto.
  - exists []. rewrite app_nil_r. auto.
Qed.

Lemma tables_cleared_locked_ptr : forall w p sid idx,
  Dart.locked (darts w p) = true ->
  tables_cleared w
    (set_dart w p
       (Dart.set_locked_ttbr (darts w p)
          (upd2 (Dart.locked_ttbr (darts w p)) sid idx 0))).
Proof.
  intros w p sid idx Hl. unfold tables_cleared.
  cbn [set_dart darts mem log].
  split; [| split; [| split; [| split; [| split]]]].
  - intros q. destruct (Nat.eqb q p) eqn:E;
      [| apply dart_same_but_tables_refl].
    apply Nat.eqb_eq in E. subst q. unfold dart_same_but_tables. cbn.
    repeat split.
  - intros q Hq. destruct (Nat.eqb q p) eqn:E; [| reflexivity].
    apply Nat.eqb_eq in E. subst q. congruence.
  - intros q s i. destruct (Nat.eqb q p) eqn:E; [| auto].
    apply Nat.eqb_eq in E. subst q. cbn. unfold upd2.
    destruct ((s =? sid) && (i =? idx)); auto.
  - intros q s i. destruct (Nat.eqb q p) eqn:E; [| auto].
    apply Nat.eqb_eq in E. subst q. cbn. auto.
  - auto.
  - exists []. rewrite app_nil_r. auto.
Qed.

Lemma tables_cleared_shadow_ptr : forall w p sid idx,
  Dart.locked (darts w p) = true ->
  tables_cleared w
    (set_dart w p
       (Dart.set_shadow_ttbr (darts w p)
          (upd2 (Dart.shadow_ttbr (darts w p)) sid idx 0))).
Proof.
  intros w p sid idx Hl. unfold tables_cleared.
  cbn [set_dart darts mem log].
  split; [| split; [| split; [| split; [| split]]]].
  - intros q. destruct (Nat.eqb q p) eqn:E;
      [| apply dart_same_but_tables_refl].
    apply Nat.eqb_eq in E. subst q. unfold dart_same_but_tables. cbn.
    repeat split.
  - intros q Hq. destruct (Nat.eqb q p) eqn:E; [| reflexivity].
    apply Nat.eqb_eq in E. subst q. congruence.
  - intros q s i. destruct (Nat.eqb q p) eqn:E; [| auto].
    apply Nat.eqb_eq in E. subst q. cbn. auto.
  - intros q s i. destruct (Nat.eqb q p) eqn:E; [| auto].
    apply Nat.eqb_eq in E. subst q. cbn. unfold upd2.
    destruct ((s =? sid) && (i =? idx)); auto.
  - auto.
  - exists []. rewrite app_nil_r. auto.
Qed.

Lemma tables_cleared_locked : forall w w' q,
  tables_cleared w w' -> Dart.locked (darts w' q) = Dart.locked (darts w q).
Proof.
  intros w w' q (A & _). destruct (A q) as (_ & _ & _ & _ & _ & _ & _ & E & _).
  exact E.
Qed.

Lemma clear_locked_ttbr_sid_cleared : forall p idx w sid,
  Dart.locked (darts w p) = true ->
  tables_cleared w (clear_locked_ttbr_sid p idx w sid) /\
  Dart.locked_ttbr (darts (clear_locked_ttbr_sid p idx w sid) p) sid idx = 0
  /\
  Dart.shadow_ttbr (darts (clear_locked_ttbr_sid p idx w sid) p) sid idx = 0.
Proof.
  intros p idx w sid Hl. split.
  - unfold clear_locked_ttbr_sid. cbv zeta.
    set (w1 := if Dart.locked_ttbr (darts w p) sid idx =? 0 then w else _).
    assert (K1 : tables_cleared w w1).
    { unfold w1. destruct (Dart.locked_ttbr (darts w p) sid idx =? 0).
      - apply tables_cleared_refl.
      - match goal with
        | |- tables_cleared _ (emit ?e2 (emit ?e1 ?m)) =>
            apply (tables_cleared_trans _ m);
              [apply tables_cleared_memset |];
            apply (tables_cleared_trans _ (emit e1 m));
              apply tables_cleared_emit; reflexivity
        end. }
    set (w2 := set_dart w1 p _).
    assert (K2 : tables_cleared w1 w2).
    { apply tables_cleared_locked_ptr.
      rewrite (tables_cleared_locked _ _ p K1). exact Hl. }
    set (w3 := if Dart.shadow_ttbr (darts w2 p) sid idx =? 0 then w2
               else _).
    assert (K3 : tables_cleared w2 w3).
    { unfold w3. destruct (Dart.shadow_ttbr (darts w2 p) sid idx =? 0).
      - apply tables_cleared_refl.
      - apply tables_cleared_emit. reflexivity. }
    apply (tables_cleared_trans _ w1); [exact K1 |].
    apply (tables_cleared_trans _ w2); [exact K2 |].
    apply (tables_cleared_trans _ w3); [exact K3 |].
    apply tables_cleared_shadow_ptr.
    rewrite (tables_cleared_locked _ _ p K3),
            (tables_cleared_locked _ _ p K2),
            (tables_cleared_locked _ _ p K1). exact Hl.
  - destruct (clear_locked_ttbr_sid_spec p idx w sid) as (_ & L & S & _).
    cbv zeta in L, S. rewrite L, S. unfold upd2.
    rewrite !Z.eqb_refl. cbn. auto.
Qed.

(* Pointers dropped stay dropped. *)
Lemma tables_cleared_keeps_null : forall w w' q s i,
  tables_cleared w w' ->
  (Dart.locked_ttbr (darts w q) s i = 0 ->
   Dart.locked_ttbr (darts w' q) s i = 0) /\
  (Dart.shadow_ttbr (darts w q) s i = 0 ->
   Dart.shadow_ttbr (darts w' q) s i = 0).
Proof.
  intros w w' q s i (_ & _ & L & S & _). split; intros H.
  - destruct (L q s i) as [E | E]; congruence.
  - destruct (S q s i) as [E | E]; congruence.
Qed.

Lemma clear_locked_ttbr_sids_cleared : forall p idx sids w,
  Dart.locked (darts w p) = true ->
  tables_cleared w (fold_left (clear_locked_ttbr_sid p idx) sids w) /\
  forall sid, In sid sids ->
    Dart.locked_ttbr
      (darts (fold_left (clear_locked_ttbr_sid p idx) sids w) p) sid idx = 0
    /\
    Dart.shadow_ttbr
      (darts (fold_left (clear_locked_ttbr_sid p idx) sids w) p) sid idx = 0.
Proof.
  intros p idx sids. induction sids as [| s sids IH] using rev_ind;
    intros w Hl.
  - split; [apply tables_cleared_refl | intros sid []].
  - rewrite fold_left_app. cbn [fold_left].
    destruct (IH w Hl) as [K Hz].
    set (w1 := fold_left (clear_locked_ttbr_sid p idx) sids w) in *.
    assert (Hl1 : Dart.locked (darts w1 p) = true)
      by (rewrite (tables_cleared_locked _ _ p K); exact Hl).
    destruct (clear_locked_ttbr_sid_cleared p idx w1 s Hl1)
      as (K1 & Z1 & Z2).
    split; [apply (tables_cleared_trans _ w1); assumption |].
    intros sid Hin. apply in_app_or in Hin.
    destruct Hin as [Hin | [<- | []]]; [| auto].
    destruct (Hz sid Hin) as [A B].
    destruct (tables_cleared_keeps_null _ _ p sid idx K1) as [A' B'].
    auto.
Qed.

Lemma release_stream_map_cleared : forall w p sm,
  StreamMap.dart sm = Some p ->
  Hw.ttbr_count (Dart.hw (darts w p)) <= 256 ->
  exists w',
    release_stream_map w (p, sm) = Done w' /\
    tables_cleared w w' /\
    (Dart.locked (darts w p) = true ->
     forall sid idx,
       0 <= sid < Dart.num_streams (darts w p) ->
       Z.testbit (StreamMap.sidmap sm) sid = true ->
       0 <= idx < Hw.ttbr_count (Dart.hw (darts w p)) ->
       Dart.locked_ttbr (darts w' p) sid idx = 0 /\
       Dart.shadow_ttbr (darts w' p) sid idx = 0).
Proof.
  intros w p sm Hd Hc. unfold release_stream_map. cbn [fst snd].
  destruct (Dart.locked (darts w p)) eqn:Hl.
  2:{ exists w. split; [reflexivity |].
      split; [apply tables_cleared_refl | discriminate]. }
  assert (G : forall l w0,
            (forall i, In i l ->
               0 <= i < Hw.ttbr_count (Dart.hw (darts w p))) ->
            tables_cleared w w0 ->
            exists w',
              fold_exec
                (fun w i =>
                   r <- apple_dart_hw_clear_locked_ttbr w sm (u8 i) ;;
                   Done (snd r)) l w0 = Done w' /\
              tables_cleared w0 w' /\
              forall sid idx,
                0 <= sid < Dart.num_streams (darts w p) ->
                Z.testbit (StreamMap.sidmap sm) sid = true ->
                In idx l ->
                Dart.locked_ttbr (darts w' p) sid idx = 0 /\
                Dart.shadow_ttbr (darts w' p) sid idx = 0).
  { induction l as [| i l IH]; intros w0 Hr K0.
    - exists w0. split; [reflexivity |].
      split; [apply tables_cleared_refl | intros sid idx _ _ []].
    - cbn [fold_exec]. unfold apple_dart_hw_clear_locked_ttbr at 1.
      rewrite Hd. cbn [bind deref snd].
      assert (Eu : u8 i = i).
      { unfold u8. apply Z.mod_small.
        specialize (Hr i (or_introl eq_refl)). lia. }
      rewrite Eu.
      assert (Hl0 : Dart.locked (darts w0 p) = true)
        by (rewrite (tables_cleared_locked _ _ p K0); exact Hl).
      rewrite Hl0. cbn [negb WARN_ON].
      assert (En : Dart.num_streams (darts w0 p)
                   = Dart.num_streams (darts w p)).
      { destruct K0 as (A & _). apply (A p). }
      rewrite En.
      destruct (clear_locked_ttbr_sids_cleared p i
                  (for_each_set_bit (StreamMap.sidmap sm)
                     (Dart.num_streams (darts w p))) w0 Hl0)
        as [K1 Hz].
      set (w1 := fold_left _ _ w0) in *.
      destruct (IH w1) as (w' & Hrun & K2 & Hz2).
      { intros j Hj. apply Hr. right. exact Hj. }
      { apply (tables_cleared_trans _ w0); assumption. }
      exists w'. split; [exact Hrun |].
      split; [apply (tables_cleared_trans _ w1); assumption |].
      intros sid idx Hs Hb [<- | Hin]; [| apply Hz2; assumption].
      destruct (Hz sid) as [A B];
        [apply in_for_each_set_bit; auto |].
      destruct (tables_cleared_keeps_null _ _ p sid i K2) as [A' B'].
      auto. }
  destruct (G (upto (Hw.ttbr_count (Dart.hw (darts w p)))) w)
    as (w' & Hrun & K & Hz).
  { intros i Hi. apply in_upto. exact Hi. }
  { apply tables_cleared_refl. }
  exists w'. split; [exact Hrun |]. split; [exact K |].
  intros _ sid idx Hs Hb Hi. apply Hz; [exact Hs | exact Hb |].
  apply in_upto. exact Hi.
Qed.

(** X18. apple_dart_release_device goes through: on every locked unit the
    device names it drops the locked and the shadow table pointer of every
    stream of the device in every table slot; it sets no pointer, gives no
    byte of memory another value than zero, writes no register and leaves
    unlocked units exactly as they were. *)
Theorem release_device_clears_tables : forall w cfg,
  (forall q, Hw.ttbr_count (Dart.hw (darts w q)) <= 256) ->
  exists w',
    apple_dart_release_device w cfg = Done w' /\
    tables_cleared w w' /\
    forall i p sid idx,
      (i < MAX_DARTS_PER_DEVICE)%nat ->
      (forall k, (k <= i)%nat ->
         StreamMap.dart (MasterCfg.stream_maps cfg k) <> None) ->
      StreamMap.dart (MasterCfg.stream_maps cfg i) = Some p ->
      Dart.locked (darts w p) = true ->
      0 <= sid < Dart.num_streams (darts w p) ->
      Z.testbit (StreamMap.sidmap (MasterCfg.stream_maps cfg i)) sid = true ->
      0 <= idx < Hw.ttbr_count (Dart.hw (darts w p)) ->
      Dart.locked_ttbr (darts w' p) sid idx = 0 /\
      Dart.shadow_ttbr (darts w' p) sid idx = 0.
Proof.
  intros w cfg Hc. unfold apple_dart_release_device.
  assert (G : forall l w0,
            (forall ps, In ps l -> StreamMap.dart (snd ps) = Some (fst ps)) ->
            tables_cleared w w0 ->
            exists w',
              fold_exec release_stream_map l w0 = Done w' /\
              tables_cleared w0 w' /\
              forall p sm sid idx,
                In (p, sm) l ->
                Dart.locked (darts w p) = true ->
                0 <= sid < Dart.num_streams (darts w p) ->
                Z.testbit (StreamMap.sidmap sm) sid = true ->
                0 <= idx < Hw.ttbr_count (Dart.hw (darts w p)) ->
                Dart.locked_ttbr (darts w' p) sid idx = 0 /\
                Dart.shadow_ttbr (darts w' p) sid idx = 0).
  { induction l as [| [p sm] l IH]; intros w0 Hd K0.
    - exists w0. split; [reflexivity |].
      split; [apply tables_cleared_refl | intros p sm sid idx []].
    - cbn [fold_exec].
      assert (Es : forall q,
                dart_same_but_tables (darts w q) (darts w0 q))
        by (destruct K0 as (A & _); exact A).
      assert (Eh : Dart.hw (darts w0 p) = Dart.hw (darts w p))
        by apply (Es p).
      assert (En : Dart.num_streams (darts w0 p)
                   = Dart.num_streams (darts w p))
        by apply (Es p).
      destruct (release_stream_map_cleared w0 p sm) as (w1 & Hrun & K1 & Hz).
      { apply (Hd (p, sm)). left. reflexivity. }
      { rewrite Eh. apply Hc. }
      rewrite Hrun. cbn [bind].
      destruct (IH w1) as (w' & Hrun' & K2 & Hz').
      { intros ps Hin. apply Hd. right. exact Hin. }
      { apply (tables_cleared_trans _ w0); assumption. }
      exists w'. split; [exact Hrun' |].
      split; [apply (tables_cleared_trans _ w1); assumption |].
      intros p' sm' sid idx [Heq | Hin] Hl Hs Hb Hi;
        [| apply (Hz' p' sm'); assumption].
      injection Heq as <- <-.
      assert (Hl0 : Dart.locked (darts w0 p) = true)
        by (rewrite (tables_cleared_locked _ _ p K0); exact Hl).
      destruct (Hz Hl0 sid idx) as [A B].
      { rewrite En. exact Hs. }
      { exact Hb. }
      { rewrite Eh. exact Hi. }
      destruct (tables_cleared_keeps_null _ _ p sid idx K2) as [A' B'].
      auto. }
  destruct (G (for_each_stream_map (MasterCfg.stream_maps cfg)) w)
    as (w' & Hrun & K & Hz).
  { intros ps Hin. apply (for_each_stream_map_dart _ _ Hin). }
  { apply tables_cleared_refl. }
  exists w'. split; [exact Hrun |]. split; [exact K |].
  intros i p sid idx Hi Hlead Hp Hl Hs Hb Hidx.
  apply (Hz p (MasterCfg.stream_maps cfg i)); try assumption.
  apply for_each_stream_map_slot; assumption.
Qed.

Lemma release_device_clears_tables_witness :
  exists w',
    apple_dart_release_device world_t8110_locked cfg_unit_0 = Done w' /\
    Dart.locked_ttbr (darts w' 0%nat) 0 0 = 0.
Proof.
  destruct (release_device_clears_tables world_t8110_locked cfg_unit_0)
    as (w' & Hrun & _ & Hz).
  - intros q. cbn. lia.
  - exists w'. split; [exact Hrun |].
    apply (Hz 0%nat 0%nat 0 0).
    + unfold MAX_DARTS_PER_DEVICE. lia.
    + intros k Hk. assert (k = 0%nat) by lia. subst k. discriminate.
    + reflexivity.
    + reflexivity.
    + cbn. lia.
    + reflexivity.
    + cbn. lia.
Defined.

(** ** TLB flush of a domain *)

Lemma pm_ok_bracket_one : forall p evs h,
  0 <= h p ->
  Forall (fun e => is_diag e = true \/ exists v o, e = EvWritel p v o) evs ->
  pm_ok h (EvPmGet p :: evs ++ [EvPmPut p]) h.
Proof.
  intros p evs h Hh Hf.
  set (h1 := fun r => if Nat.eqb r p then h r + 1 else h r).
  assert (H1 : pm_ok h1 evs h1).
  { apply pm_ok_held. eapply Forall_impl; [| exact Hf]. cbv beta.
    intros e [Hd | (v & o & ->)]; [left; exact Hd |].
    right. exists p, v, o. split; [reflexivity |].
    unfold h1. rewrite Nat.eqb_refl. lia. }
  assert (H2 : pm_ok h1 [EvPmPut p] h).
  { unfold pm_ok. cbn [pm_checked]. unfold h1 at 1. rewrite Nat.eqb_refl.
    replace (0 <? h p + 1) with true by (symmetry; apply Z.ltb_lt; lia).
    eexists. split; [reflexivity |]. intros q. cbv beta. unfold h1.
    destruct (Nat.eqb q p); lia. }
  pose proof (pm_ok_app _ _ _ _ _ H1 H2) as H3.
  destruct H3 as (hh & Hc & He). exists hh. split; [| exact He].
  cbn [pm_checked]. exact Hc.
Qed.

Lemma flush_stream_map_effect :
  forall (Pl : Platform) w stack acks p sm,
  (Z.to_nat (Dart.num_streams (darts w p)) < length acks)%nat ->
  let sidmap :=
    copy_longs (BITS_TO_LONGS (Dart.num_streams (darts w p)))
               (StreamMap.sidmap sm) stack in
  exists w' acks',
    flush_stream_map (w, stack, acks) (p, sm) = Done (w', sidmap, acks') /\
    (length acks
     <= length acks' + S (Z.to_nat (Dart.num_streams (darts w p))))%nat /\
    (forall q, dart_same_but_regs (darts w q) (darts w' q)) /\
    mem w'
    = (if Dart.locked (darts w p)
       then fold_left (sync_locked_sid (darts w p))
              (for_each_set_bit sidmap (Dart.num_streams (darts w p)))
              (mem w)
       else mem w) /\
    (forall q o, q <> p \/ ~ tlb_regs (darts w p) o ->
                 readl w' q o = readl w q o) /\
    exists evs,
      log w' = log w ++ EvPmGet p :: evs ++ [EvPmPut p] /\
      Forall (fun e => is_diag e = true \/ exists v o, e = EvWritel p v o)
             evs.
Proof.
  intros Pl w stack acks p sm Hl sidmap.
  unfold flush_stream_map. cbn [fst snd]. cbv zeta. fold sidmap.
  set (w1 := WARN_ON (pm_runtime_get_sync p <? 0) (emit (EvPmGet p) w)).
  assert (D1 : darts w1 = darts w)
    by (unfold w1; rewrite darts_WARN_ON; reflexivity).
  assert (M1 : mem w1 = mem w)
    by (unfold w1; rewrite mem_WARN_ON; reflexivity).
  assert (L1 : log w1 = log w ++ EvPmGet p
                        :: (if pm_runtime_get_sync p <? 0 then [EvWarn]
                            else []))
    by (unfold w1; rewrite log_WARN_ON; cbn [emit log];
        rewrite <- app_assoc; reflexivity).
  set (w2 := if Dart.locked (darts w p)
             then set_mem w1
                    (fold_left (sync_locked_sid (darts w p))
                       (for_each_set_bit sidmap
                          (Dart.num_streams (darts w p))) (mem w))
             else w1).
  assert (E2 : (if Dart.locked (darts w1 p)
                then r <- apple_dart_hw_sync_locked w1
                            (StreamMap.mk (Some p) sidmap) ;;
                     Done (snd r)
                else Done w1) = Done w2).
  { unfold w2. rewrite D1. destruct (Dart.locked (darts w p)) eqn:El;
      [| reflexivity].
    unfold apple_dart_hw_sync_locked.
    cbn [StreamMap.dart StreamMap.sidmap bind deref]. rewrite D1, El.
    cbn [negb WARN_ON bind snd]. rewrite M1. reflexivity. }
  rewrite E2. cbn [bind].
  assert (D2 : darts w2 = darts w)
    by (unfold w2; destruct (Dart.locked (darts w p)); exact D1).
  assert (L2 : log w2 = log w1)
    by (unfold w2; destruct (Dart.locked (darts w p)); reflexivity).
  destruct (invalidate_tlb_total w2 (StreamMap.mk (Some p) sidmap) p acks
              eq_refl)
    as (ret & w3 & acks' & Hrun & _ & Hlen & K).
  { rewrite D2. exact Hl. }
  rewrite Hrun. cbn [bind].
  rewrite D2 in Hlen, K.
  destruct K as ((M3 & S3) & R3 & evs & L3 & F3).
  exists (emit (EvPmPut p) w3), acks'. split; [reflexivity |].
  split; [exact Hlen |]. split.
  { intros q. cbn [emit darts]. rewrite <- D2. apply S3. }
  split.
  { cbn [emit mem]. rewrite M3. unfold w2.
    destruct (Dart.locked (darts w p)); [reflexivity | exact M1]. }
  split.
  { intros q o Hm. change (readl (emit (EvPmPut p) w3) q o)
      with (readl w3 q o).
    rewrite R3 by exact Hm. unfold readl. rewrite D2. reflexivity. }
  exists ((if pm_runtime_get_sync p <? 0 then [EvWarn] else []) ++ evs).
  split.
  { cbn [emit log]. rewrite L3, L2, L1.
    repeat (rewrite <- app_assoc; cbn [app]). reflexivity. }
  apply Forall_app. split.
  - destruct (pm_runtime_get_sync p <? 0); repeat constructor.
  - eapply Forall_impl; [| exact F3]. cbv beta.
    intros e [Hd | (v & o & He & _)]; [left; exact Hd | right; eauto].
Qed.

Lemma tlb_regs_same : forall d d' o,
  dart_same_but_regs d d' -> tlb_regs d' o -> tlb_regs d o.
Proof.
  intros d d' o Hs. unfold tlb_regs. rewrite (same_num_streams _ _ Hs).
  auto.
Qed.

Lemma same_locked : forall d d',
  dart_same_but_regs d d' -> Dart.locked d' = Dart.locked d.
Proof. intros d d' H. apply H. Qed.

Lemma flush_fold : forall (Pl : Platform) (N : nat) w l w0 stack acks,
  (forall q, (Z.to_nat (Dart.num_streams (darts w q)) <= N)%nat) ->
  (forall q, dart_same_but_regs (darts w q) (darts w0 q)) ->
  (length l * S N <= length acks)%nat ->
  exists w' stack' acks',
    fold_exec flush_stream_map l (w0, stack, acks)
    = Done (w', stack', acks') /\
    (forall q, dart_same_but_regs (darts w0 q) (darts w' q)) /\
    (forall q o, ~ tlb_regs (darts w q) o -> readl w' q o = readl w0 q o) /\
    ((forall ps, In ps l -> Dart.locked (darts w (fst ps)) = false) ->
     mem w' = mem w0) /\
    exists evs,
      log w' = log w0 ++ evs /\
      forall h, (forall q, 0 <= h q) -> pm_ok h evs h.
Proof.
  intros Pl N w l. induction l as [| [p sm] l IH];
    intros w0 stack acks HN Hs Hl.
  - exists w0, stack, acks. split; [reflexivity |].
    split; [intros; apply dart_same_but_regs_refl |].
    split; [reflexivity |]. split; [reflexivity |].
    exists []. rewrite app_nil_r. split; [reflexivity |].
    intros h _. apply pm_ok_nil.
  - cbn [fold_exec].
    assert (En : Dart.num_streams (darts w0 p)
                 = Dart.num_streams (darts w p))
      by apply (same_num_streams _ _ (Hs p)).
    cbn [length] in Hl.
    destruct (flush_stream_map_effect Pl w0 stack acks p sm)
      as (w1 & acks1 & Hrun & Hlen & S1 & M1 & R1 & evs1 & L1 & F1).
    { rewrite En. specialize (HN p). lia. }
    rewrite Hrun. cbn [bind].
    destruct (IH w1
                (copy_longs (BITS_TO_LONGS (Dart.num_streams (darts w0 p)))
                            (StreamMap.sidmap sm) stack) acks1 HN)
      as (w' & stack' & acks' & Hrun' & S2 & R2 & M2 & evs2 & L2 & P2).
    { intros q. apply (dart_same_but_regs_trans _ (darts w0 q));
        [apply Hs | apply S1]. }
    { rewrite En in Hlen. specialize (HN p). lia. }
    exists w', stack', acks'. split; [exact Hrun' |].
    split.
    { intros q. apply (dart_same_but_regs_trans _ (darts w1 q));
        [apply S1 | apply S2]. }
    split.
    { intros q o Ho. rewrite R2 by exact Ho. apply R1.
      destruct (Nat.eq_dec q p) as [-> | Hq]; [right | left; exact Hq].
      intros Ht. apply Ho. apply (tlb_regs_same _ _ _ (Hs p) Ht). }
    split.
    { intros Hu. rewrite M2 by (intros ps Hin; apply Hu; right; exact Hin).
      rewrite M1, (same_locked _ _ (Hs p)).
      pose proof (Hu (p, sm) (or_introl eq_refl)) as Hup.
      cbn [fst] in Hup. rewrite Hup. reflexivity. }
    exists ((EvPmGet p :: evs1 ++ [EvPmPut p]) ++ evs2).
    split; [rewrite L2, L1, <- app_assoc; reflexivity |].
    intros h Hh. apply (pm_ok_app _ _ _ h).
    + apply pm_ok_bracket_one; [apply Hh | exact F1].
    + apply P2. exact Hh.
Qed.

Lemma length_for_each_stream_map : forall maps,
  (length (for_each_stream_map maps) <= MAX_DARTS_PER_DEVICE)%nat.
Proof.
  intros maps. unfold for_each_stream_map.
  generalize 0%nat. generalize MAX_DARTS_PER_DEVICE.
  induction n as [| n IH]; intros s; cbn [stream_maps_from length]; [lia |].
  destruct (StreamMap.dart (maps s)); cbn [length]; [| lia].
  specialize (IH (S s)). lia.
Qed.

(** X19. A TLB flush of a domain, given a poll answer for every command,
    goes through and changes no translation state: on every supported
    generation each stream's TCR and every TTBR of every unit read as
    before, nothing of a unit but its registers changes, and when no unit
    of the domain is locked memory is untouched.  Every register write is
    made while a power reference taken with pm_runtime_get_sync on that
    unit is held, and every reference taken is dropped. *)
Theorem flush_tlb_keeps_translation :
  forall (Pl : Platform) (pgtable : Type) (w : world)
         (domain : Domain.t pgtable) (stack : Z) (acks : list bool),
  (forall q, In (Dart.hw (darts w q)) apple_dart_of_match /\
             0 <= Dart.num_streams (darts w q)
               <= Hw.max_sid_count (Dart.hw (darts w q))) ->
  (MAX_DARTS_PER_DEVICE * S (Z.to_nat DART_MAX_STREAMS) <= length acks)%nat ->
  exists w' acks',
    apple_dart_domain_flush_tlb w domain stack acks = Done (w', acks') /\
    (forall q, dart_same_but_regs (darts w q) (darts w' q)) /\
    (forall q sid, 0 <= sid < Dart.num_streams (darts w q) ->
       readl w' q (DART_TCR (darts w q) sid)
       = readl w q (DART_TCR (darts w q) sid) /\
       forall idx, 0 <= idx < Hw.ttbr_count (Dart.hw (darts w q)) ->
         readl w' q (DART_TTBR (darts w q) sid idx)
         = readl w q (DART_TTBR (darts w q) sid idx)) /\
    ((forall i p, (i < MAX_DARTS_PER_DEVICE)%nat ->
        StreamMap.dart (Domain.stream_maps domain i) = Some p ->
        Dart.locked (darts w p) = false) ->
     mem w' = mem w) /\
    exists evs,
      log w' = log w ++ evs /\ pm_ok (fun _ => 0) evs (fun _ => 0).
Proof.
  intros Pl pgtable w domain stack acks Hhw Hl.
  unfold apple_dart_domain_flush_tlb.
  destruct (flush_fold Pl (Z.to_nat DART_MAX_STREAMS) w
              (for_each_stream_map (Domain.stream_maps domain)) w stack acks)
    as (w' & stack' & acks' & Hrun & S1 & R1 & M1 & evs & L1 & P1).
  { intros q. destruct (Hhw q) as [Hin Hn].
    pose proof (of_match_max_sid_count _ Hin). unfold DART_MAX_STREAMS.
    lia. }
  { intros q. apply dart_same_but_regs_refl. }
  { pose proof (length_for_each_stream_map (Domain.stream_maps domain)).
    nia. }
  rewrite Hrun. cbn [bind]. exists w', acks'. split; [reflexivity |].
  split; [exact S1 |]. split; [| split].
  - intros q sid Hs. destruct (Hhw q) as [Hin Hn].
    pose proof (of_match_max_sid_count _ Hin) as Hmax.
    pose proof (BITS_TO_U32_bounds (Dart.num_streams (darts w q))
                  ltac:(lia)) as Hk.
    split.
    + apply R1. rewrite DART_TCR_flat by assumption.
      unfold tlb_regs. ctl_consts.
      intros [He | [He | (i & Hi & He)]]; by_descriptor Hin; lia.
    + intros idx Hi. apply R1. rewrite DART_TTBR_flat by assumption.
      unfold tlb_regs. ctl_consts.
      intros [He | [He | (i & Hi' & He)]]; by_descriptor Hin; lia.
  - intros Hu. apply M1. intros [p sm] Hin. cbn [fst].
    apply stream_maps_from_In in Hin.
    destruct Hin as (i & Hi & _ & _ & Hd). apply (Hu i p); [lia | exact Hd].
  - exists evs. split; [exact L1 |]. apply P1. intros q. lia.
Qed.

Lemma flush_tlb_keeps_translation_witness :
  exists w' acks',
    apple_dart_domain_flush_tlb world_t8103
      (Domain.set_stream_maps toy_domain (MasterCfg.stream_maps cfg_unit_0))
      0 (repeat true 771)
    = Done (w', acks') /\ mem w' = mem world_t8103.
Proof.
  destruct (flush_tlb_keeps_translation toy_platform toy_pgtable world_t8103
              (Domain.set_stream_maps toy_domain
                 (MasterCfg.stream_maps cfg_unit_0))
              0 (repeat true 771))
    as (w' & acks' & Hrun & _ & _ & Hm & _).
  - intros q. split; [cbn; auto | cbn; lia].
  - rewrite repeat_length. vm_compute. lia.
  - exists w', acks'. split; [exact Hrun |]. apply Hm.
    intros i p _ _. reflexivity.
Defined.

Lemma sync_locked_mem_effect : forall dart sidmap m,
  tables_apart dart sidmap ->
  forall sid idx,
    sync_slot dart sidmap sid idx ->
    forall off, 0 <= off < 8 * (Dart.pgsize dart / 8) ->
      fold_left (sync_locked_sid dart)
        (for_each_set_bit sidmap (Dart.num_streams dart)) m
        (Dart.locked_ttbr dart sid idx + off)
      = m (Dart.shadow_ttbr dart sid idx + off) /\
      fold_left (sync_locked_sid dart)
        (for_each_set_bit sidmap (Dart.num_streams dart)) m
        (Dart.shadow_ttbr dart sid idx + off)
      = m (Dart.shadow_ttbr dart sid idx + off).
Proof.
  intros dart sidmap m Hapart sid idx Hslot off Hoff.
  destruct (sync_locked_all dart sidmap m Hapart
              (for_each_set_bit sidmap (Dart.num_streams dart)))
    as [Hkept Hsynced].
  { intros s Hin. apply in_for_each_set_bit. exact Hin. }
  assert (Hin : In sid (for_each_set_bit sidmap (Dart.num_streams dart))).
  { apply in_for_each_set_bit. destruct Hslot as (Hr & Hb & _). auto. }
  pose proof (shadow_bytes_kept dart sidmap m Hapart _ sid idx off Hkept
                Hslot Hoff) as Hs.
  pose proof (Hsynced sid idx Hin Hslot off Hoff) as Hl.
  cbn [fst snd] in Hl. split; [exact Hl | exact Hs].
Qed.

Lemma sync_slot_agree : forall dart a b sid idx,
  (forall s, 0 <= s < Dart.num_streams dart ->
             Z.testbit a s = Z.testbit b s) ->
  sync_slot dart a sid idx -> sync_slot dart b sid idx.
Proof.
  intros dart a b sid idx Hab (Hr & Hb & Hrest).
  split; [exact Hr |]. split; [rewrite <- Hab; assumption | exact Hrest].
Qed.

Lemma tables_apart_agree : forall dart a b,
  (forall s, 0 <= s < Dart.num_streams dart ->
             Z.testbit a s = Z.testbit b s) ->
  tables_apart dart a -> tables_apart dart b.
Proof.
  intros dart a b Hab Hap. unfold tables_apart in *. cbv zeta in *.
  intros sid idx sid' idx' off off' H1 H2.
  apply Hap; eapply sync_slot_agree; try eassumption;
    intros s Hs; symmetry; apply Hab; exact Hs.
Qed.

(** X20. A TLB flush of a domain on one locked unit brings the tables the
    hardware walks in line with the driver's shadow tables: afterwards,
    for every stream of the domain and every table slot with both
    mappings present, each entry of the locked table holds what the
    shadow table held before the flush, and the shadow table is as it
    was. *)
Theorem flush_tlb_syncs_locked :
  forall (Pl : Platform) (pgtable : Type) (w : world)
         (domain : Domain.t pgtable) (stack : Z) (acks : list bool)
         (p : nat),
  StreamMap.dart (Domain.stream_maps domain 0%nat) = Some p ->
  StreamMap.dart (Domain.stream_maps domain 1%nat) = None ->
  Dart.locked (darts w p) = true ->
  tables_apart (darts w p)
    (StreamMap.sidmap (Domain.stream_maps domain 0%nat)) ->
  (Z.to_nat (Dart.num_streams (darts w p)) < length acks)%nat ->
  exists w' acks',
    apple_dart_domain_flush_tlb w domain stack acks = Done (w', acks') /\
    forall sid idx,
      sync_slot (darts w p)
        (StreamMap.sidmap (Domain.stream_maps domain 0%nat)) sid idx ->
      forall off, 0 <= off < 8 * (Dart.pgsize (darts w p) / 8) ->
        mem w' (Dart.locked_ttbr (darts w p) sid idx + off)
        = mem w (Dart.shadow_ttbr (darts w p) sid idx + off) /\
        mem w' (Dart.shadow_ttbr (darts w p) sid idx + off)
        = mem w (Dart.shadow_ttbr (darts w p) sid idx + off).
Proof.
  intros Pl pgtable w domain stack acks p H0 H1 Hl Hapart Hlen.
  unfold apple_dart_domain_flush_tlb, for_each_stream_map.
  unfold MAX_DARTS_PER_DEVICE. cbn [stream_maps_from]. rewrite H0, H1.
  cbn [fold_exec].
  destruct (flush_stream_map_effect Pl w stack acks p
              (Domain.stream_maps domain 0%nat) Hlen)
    as (w' & acks' & Hrun & _ & _ & M & _).
  rewrite Hrun. cbn [bind]. exists w', acks'. split; [reflexivity |].
  intros sid idx Hslot off Hoff. rewrite M, Hl.
  set (sidmap := copy_longs _ _ _).
  assert (Hagree : forall s, 0 <= s < Dart.num_streams (darts w p) ->
            Z.testbit (StreamMap.sidmap (Domain.stream_maps domain 0%nat)) s
            = Z.testbit sidmap s).
  { intros s Hs. unfold sidmap.
    rewrite testbit_copy_longs by (try apply BITS_TO_LONGS_nonneg; lia).
    pose proof (BITS_TO_LONGS_covers _ _ Hs) as Hc.
    replace (s <? BITS_PER_LONG
                  * BITS_TO_LONGS (Dart.num_streams (darts w p)))
      with true by (symmetry; apply Z.ltb_lt; lia).
    reflexivity. }
  apply sync_locked_mem_effect.
  - apply (tables_apart_agree _ _ _ Hagree Hapart).
  - apply (sync_slot_agree _ _ _ _ _ Hagree Hslot).
  - exact Hoff.
Qed.

Lemma flush_tlb_syncs_locked_witness :
  exists w' acks',
    apple_dart_domain_flush_tlb world_t8110_locked
      (Domain.set_stream_maps toy_domain (MasterCfg.stream_maps cfg_unit_0))
      0 (repeat true 17)
    = Done (w', acks') /\
    mem world_t8110_locked 0x10000 = x00 /\ mem w' 0x10000 = x2a.
Proof.
  destruct (flush_tlb_syncs_locked toy_platform toy_pgtable
              world_t8110_locked
              (Domain.set_stream_maps toy_domain
                 (MasterCfg.stream_maps cfg_unit_0))
              0 (repeat true 17) 0%nat eq_refl eq_refl eq_refl)
    as (w' & acks' & Hrun & Hsync).
  - intros sid idx sid' idx' off off' Hs Hs' Ho Ho'.
    destruct Hs as (_ & _ & _ & Hl & _). destruct Hs' as (_ & _ & _ & Hl' & _).
    cbn in Hl, Hl' |- *.
    destruct ((sid =? 0) && (idx =? 0)); [| contradiction].
    destruct ((sid' =? 0) && (idx' =? 0)); [| contradiction].
    change (8 * (Dart.pgsize (darts world_t8110_locked 0) / 8))
      with 16384 in Ho, Ho'. lia.
  - cbn. lia.
  - exists w', acks'. split; [exact Hrun |]. split; [reflexivity |].
    assert (Hslot : sync_slot (darts world_t8110_locked 0%nat)
                      (StreamMap.sidmap
                         (Domain.stream_maps
                            (Domain.set_stream_maps toy_domain
                               (MasterCfg.stream_maps cfg_unit_0)) 0%nat))
                      0 0)
      by (cbv; repeat split; discriminate).
    assert (Hoff : 0 <= 0 < 8 * (Dart.pgsize (darts world_t8110_locked 0%nat)
                                 / 8))
      by (vm_compute; split; [discriminate | reflexivity]).
    exact (proj1 (Hsync 0 0 Hslot 0 Hoff)).
Defined.

(** ** Fault interrupts *)






(** ** Programming the tables of a paging domain *)

Lemma in_from_to : forall lo hi x, In x (from_to lo hi) <-> lo <= x < hi.
Proof.
  intros lo hi x. unfold from_to. rewrite in_map_iff. split.
  - intros (k & <- & Hk). apply in_seq in Hk. lia.
  - intros Hx. exists (Z.to_nat (x - lo)). split; [lia |].
    apply in_seq. lia.
Qed.

Lemma NoDup_from_to : forall lo hi, NoDup (from_to lo hi).
Proof.
  intros lo hi. unfold from_to. apply NoDup_map_injective.
  - intros x y Hxy. lia.
  - apply seq_NoDup.
Qed.

(* Passes over the streams of a map, one per table slot in a list, each
   writing a value of its own to the TTBR of that slot. *)
Section TtbrPasses.
Variables (w : world) (sm : StreamMap.t) (p : nat).
Variables (val : Z -> Z) (f : world -> Z -> exec world).
Hypothesis Hf : forall w0 i,
  dart_same_but_regs (darts w p) (darts w0 p) -> 0 <= i < 256 ->
  exists wd,
    diag_extends w0 wd /\
    f w0 i
    = Done (fold_left
              (fun w1 sid => writel w1 p (val i)
                                    (DART_TTBR (darts w p) sid i))
              (for_each_set_bit (StreamMap.sidmap sm)
                 (Dart.num_streams (darts w p))) wd).
Hypothesis Hapart : regs_apart (darts w p).
Hypothesis Hcount : Hw.ttbr_count (Dart.hw (darts w p)) <= 256.

Let selected (sid : Z) : Prop :=
  0 <= sid < Dart.num_streams (darts w p) /\
  Z.testbit (StreamMap.sidmap sm) sid = true.

Lemma ttbr_passes : forall l w0,
  NoDup l ->
  (forall i, In i l -> 0 <= i < Hw.ttbr_count (Dart.hw (darts w p))) ->
  dart_same_but_regs (darts w p) (darts w0 p) ->
  exists w',
    fold_exec f l w0 = Done w' /\
    writes_within
      (fun o => exists sid idx,
                  selected sid /\ In idx l /\
                  o = DART_TTBR (darts w p) sid idx) p w0 w' /\
    forall sid idx, selected sid -> In idx l ->
      readl w' p (DART_TTBR (darts w p) sid idx) = u32 (val idx).
Proof.
  induction l as [| i l IH]; intros w0 Hnd Hr Hs.
  - exists w0. split; [reflexivity |].
    split; [apply writes_within_refl | intros sid idx _ []].
  - cbn [fold_exec]. inversion Hnd as [| ? ? Hnin Hnd']; subst.
    assert (Hi : 0 <= i < Hw.ttbr_count (Dart.hw (darts w p)))
      by (apply Hr; left; reflexivity).
    destruct (Hf w0 i Hs ltac:(lia)) as (wd & Hd & Hrun).
    rewrite Hrun. cbn [bind].
    set (w1 := fold_left _ _ wd).
    assert (K1 : writes_within
                   (fun o => exists sid idx,
                      selected sid /\ In idx (i :: l) /\
                      o = DART_TTBR (darts w p) sid idx) p w0 w1).
    { eapply writes_within_weaken;
        [| apply (stream_pass_within p (val i)
                    (fun sid => DART_TTBR (darts w p) sid i) _ _ w0 wd Hd)].
      intros o (sid & Hsr & Hb & ->). exists sid, i.
      split; [split; assumption |]. split; [left; reflexivity |].
      reflexivity. }
    destruct (IH w1 Hnd') as (w' & Hrun' & K2 & Hv).
    { intros j Hj. apply Hr. right. exact Hj. }
    { apply (dart_same_but_regs_trans _ (darts w0 p)); [exact Hs |].
      apply (writes_within_same _ _ _ _ p K1). }
    exists w'. split; [exact Hrun' |]. split.
    { apply (writes_within_trans _ _ _ w1); [exact K1 |].
      eapply writes_within_weaken; [| exact K2]. cbv beta.
      intros o (sid & idx & Hsel & Hin & ->). exists sid, idx.
      split; [exact Hsel |]. split; [right; exact Hin | reflexivity]. }
    intros sid idx Hsel [<- | Hin]; [| apply Hv; assumption].
    rewrite (writes_within_readl _ _ _ _ _ _ K2).
    + apply (stream_pass_hit p (val i)
               (fun sid => DART_TTBR (darts w p) sid i) _ _ _ sid);
        apply Hsel.
    + right. intros (sid' & idx' & Hsel' & Hin' & He).
      destruct Hapart as (_ & Httbr & _).
      destruct (Httbr sid i sid' idx') as [_ Hii];
        [apply Hsel | apply Hsel' | exact Hi | apply Hr; right; exact Hin'
         | exact He |].
      subst idx'. contradiction.
Qed.

End TtbrPasses.

Lemma enable_translation_pass : forall w sm p levels,
  StreamMap.dart sm = Some p ->
  exists w0,
    diag_extends w w0 /\
    apple_dart_hw_enable_translation w sm levels
    = Done (fold_left
              (fun w' sid =>
                 writel w' p
                   (Z.lor (Hw.tcr_enabled (Dart.hw (darts w p)))
                          (if levels =? 4
                           then Hw.tcr_4level (Dart.hw (darts w p)) else 0))
                   (DART_TCR (darts w p) sid))
              (for_each_set_bit (StreamMap.sidmap sm)
                 (Dart.num_streams (darts w p))) w0).
Proof.
  intros w sm p levels Hp. unfold apple_dart_hw_enable_translation.
  rewrite Hp. cbn [bind deref]. eexists. split; [| reflexivity].
  do 3 apply diag_extends_WARN_ON. apply diag_extends_refl.
Qed.

Lemma set_ttbr_pass : forall w sm p (paddr : Z -> Z) w0 i,
  StreamMap.dart sm = Some p ->
  dart_same_but_regs (darts w p) (darts w0 p) -> 0 <= i < 256 ->
  exists wd,
    diag_extends w0 wd /\
    apple_dart_hw_set_ttbr w0 sm (u8 i) (paddr i)
    = Done (fold_left
              (fun w1 sid =>
                 writel w1 p (ttbr_value (Dart.hw (darts w p)) (paddr i))
                        (DART_TTBR (darts w p) sid i))
              (for_each_set_bit (StreamMap.sidmap sm)
                 (Dart.num_streams (darts w p))) wd).
Proof.
  intros w sm p paddr w0 i Hp Hs Hi. unfold apple_dart_hw_set_ttbr.
  rewrite Hp. cbn [bind deref]. cbv zeta.
  replace (u8 i) with i by (unfold u8; symmetry; apply Z.mod_small; lia).
  rewrite (same_hw _ _ Hs), (same_num_streams _ _ Hs).
  eexists. split.
  - do 2 apply diag_extends_WARN_ON. apply diag_extends_refl.
  - f_equal. apply fold_left_ext_eq. intros a sid.
    rewrite (DART_TTBR_same _ _ sid i Hs). reflexivity.
Qed.

Lemma clear_ttbr_pass : forall w sm p w0 i,
  StreamMap.dart sm = Some p ->
  dart_same_but_regs (darts w p) (darts w0 p) -> 0 <= i < 256 ->
  exists wd,
    diag_extends w0 wd /\
    apple_dart_hw_clear_ttbr w0 sm (u8 i)
    = Done (fold_left
              (fun w1 sid => writel w1 p 0 (DART_TTBR (darts w p) sid i))
              (for_each_set_bit (StreamMap.sidmap sm)
                 (Dart.num_streams (darts w p))) wd).
Proof.
  intros w sm p w0 i Hp Hs Hi. unfold apple_dart_hw_clear_ttbr.
  rewrite Hp. cbn [bind deref]. cbv zeta.
  replace (u8 i) with i by (unfold u8; symmetry; apply Z.mod_small; lia).
  rewrite (same_num_streams _ _ Hs).
  eexists. split.
  - apply diag_extends_WARN_ON. apply diag_extends_refl.
  - f_equal. apply fold_left_ext_eq. intros a sid.
    rewrite (DART_TTBR_same _ _ sid i Hs). reflexivity.
Qed.

Section SetupTranslation.
Context {pgtable : Type} `{IoPgtableDartCfg pgtable}.
Variable devm_memremap : Z -> Z -> Z.

(* The state apple_dart_setup_translation reaches on an unlocked unit. *)
Lemma setup_translation_unlocked :
  forall (w : world) (dd : Domain.t pgtable) (sm : StreamMap.t)
         (acks : list bool) (ops : pgtable) (p : nat),
  Domain.pgtbl_ops dd = Some ops ->
  StreamMap.dart sm = Some p ->
  Dart.locked (darts w p) = false ->
  In (Dart.hw (darts w p)) apple_dart_of_match ->
  0 <= Dart.num_streams (darts w p)
    <= Hw.max_sid_count (Dart.hw (darts w p)) ->
  0 <= cfg_n_ttbrs ops <= Hw.ttbr_count (Dart.hw (darts w p)) ->
  (Z.to_nat (Dart.num_streams (darts w p)) < length acks)%nat ->
  exists w' acks',
    apple_dart_setup_translation devm_memremap w dd sm acks
    = Done (w', acks') /\
    (length acks
     <= length acks' + S (Z.to_nat (Dart.num_streams (darts w p))))%nat /\
    (forall sid,
       0 <= sid < Dart.num_streams (darts w p) ->
       Z.testbit (StreamMap.sidmap sm) sid = true ->
       readl w' p (DART_TCR (darts w p) sid)
       = u32 (Z.lor (Hw.tcr_enabled (Dart.hw (darts w p)))
                    (if cfg_n_levels ops =? 4
                     then Hw.tcr_4level (Dart.hw (darts w p)) else 0)) /\
       (forall idx, 0 <= idx < cfg_n_ttbrs ops ->
          readl w' p (DART_TTBR (darts w p) sid idx)
          = u32 (ttbr_value (Dart.hw (darts w p)) (cfg_ttbr ops idx))) /\
       (forall idx,
          cfg_n_ttbrs ops <= idx < Hw.ttbr_count (Dart.hw (darts w p)) ->
          readl w' p (DART_TTBR (darts w p) sid idx) = 0)) /\
    writes_within
      (fun o =>
         tlb_regs (darts w p) o \/
         exists sid,
           (0 <= sid < Dart.num_streams (darts w p) /\
            Z.testbit (StreamMap.sidmap sm) sid = true) /\
           (o = DART_TCR (darts w p) sid \/
            exists idx, 0 <= idx < Hw.ttbr_count (Dart.hw (darts w p)) /\
                        o = DART_TTBR (darts w p) sid idx))
      p w w'.
Proof.
  intros w dd sm acks ops p Hops Hd Hunl Hin Hn Hnt Hl.
  pose proof (of_match_regs_apart _ Hin Hn) as Hapart.
  pose proof (of_match_ttbr_count _ Hin) as Hcount.
  pose proof (of_match_max_sid_count _ Hin) as Hmax.
  pose proof (BITS_TO_U32_bounds (Dart.num_streams (darts w p))
                ltac:(lia)) as Hk.
  unfold apple_dart_setup_translation. rewrite Hops, Hd.
  cbn [bind deref]. cbv zeta. rewrite Hunl.
  (* the tables the engine has *)
  destruct (ttbr_passes w sm p
              (fun i => ttbr_value (Dart.hw (darts w p)) (cfg_ttbr ops i))
              (fun w i => apple_dart_hw_set_ttbr w sm (u8 i) (cfg_ttbr ops i))
              (fun w0 i Hs Hi => set_ttbr_pass w sm p (cfg_ttbr ops) w0 i
                                   Hd Hs Hi)
              Hapart ltac:(lia) (upto (cfg_n_ttbrs ops)) w (NoDup_upto _))
    as (wa & Hruna & Ka & Hva).
  { intros i Hi. apply in_upto in Hi. lia. }
  { apply dart_same_but_regs_refl. }
  rewrite Hruna. cbn [bind].
  pose proof (writes_within_same _ _ _ _ p Ka) as Sa.
  (* the slots left over *)
  destruct (ttbr_passes w sm p (fun _ => 0)
              (fun w i => apple_dart_hw_clear_ttbr w sm (u8 i))
              (fun w0 i Hs Hi => clear_ttbr_pass w sm p w0 i Hd Hs Hi)
              Hapart ltac:(lia)
              (from_to (cfg_n_ttbrs ops)
                       (Hw.ttbr_count (Dart.hw (darts w p))))
              wa (NoDup_from_to _ _))
    as (wb & Hrunb & Kb & Hvb).
  { intros i Hi. apply in_from_to in Hi. lia. }
  { exact Sa. }
  rewrite Hrunb. cbn [bind].
  assert (Sb : dart_same_but_regs (darts w p) (darts wb p)).
  { apply (dart_same_but_regs_trans _ (darts wa p)); [exact Sa |].
    apply (writes_within_same _ _ _ _ p Kb). }
  (* the TCR *)
  destruct (enable_translation_pass wb sm p (cfg_n_levels ops) Hd)
    as (wd & Hdiag & Hrunc).
  rewrite Hrunc. cbn [bind].
  rewrite (same_hw _ _ Sb), (same_num_streams _ _ Sb).
  set (wc := fold_left _ _ wd).
  assert (Ewc : wc = fold_left
                  (fun w' sid =>
                     writel w' p
                       (Z.lor (Hw.tcr_enabled (Dart.hw (darts w p)))
                              (if cfg_n_levels ops =? 4
                               then Hw.tcr_4level (Dart.hw (darts w p))
                               else 0))
                       (DART_TCR (darts w p) sid))
                  (for_each_set_bit (StreamMap.sidmap sm)
                     (Dart.num_streams (darts w p))) wd).
  { unfold wc. apply fold_left_ext_eq. intros a sid.
    rewrite (DART_TCR_same _ _ sid Sb). reflexivity. }
  clearbody wc. subst wc.
  set (wc := fold_left _ _ wd).
  assert (Kc : writes_within
                 (fun o => exists sid,
                    0 <= sid < Dart.num_streams (darts w p) /\
                    Z.testbit (StreamMap.sidmap sm) sid = true /\
                    o = DART_TCR (darts w p) sid) p wb wc).
  { apply (stream_pass_within p _ (DART_TCR (darts w p)) _ _ wb wd Hdiag). }
  assert (Sc : dart_same_but_regs (darts w p) (darts wc p)).
  { apply (dart_same_but_regs_trans _ (darts wb p)); [exact Sb |].
    apply (writes_within_same _ _ _ _ p Kc). }
  (* the TLB *)
  destruct (invalidate_tlb_total wc sm p acks Hd)
    as (ret & w' & acks' & Hrun & _ & Hlen & Kd).
  { rewrite (same_num_streams _ _ Sc). exact Hl. }
  rewrite Hrun. cbn [bind].
  rewrite (same_num_streams _ _ Sc) in Hlen, Kd.
  fold (tlb_regs (darts w p)) in Kd.
  exists w', acks'. split; [reflexivity |]. split; [exact Hlen |].
  assert (Htlb_tcr : forall sid,
            0 <= sid < Dart.num_streams (darts w p) ->
            ~ tlb_regs (darts w p) (DART_TCR (darts w p) sid)).
  { intros sid Hs. rewrite DART_TCR_flat by assumption.
    unfold tlb_regs. ctl_consts.
    intros [He | [He | (i & Hi & He)]]; by_descriptor Hin; lia. }
  assert (Htlb_ttbr : forall sid idx,
            0 <= sid < Dart.num_streams (darts w p) ->
            0 <= idx < Hw.ttbr_count (Dart.hw (darts w p)) ->
            ~ tlb_regs (darts w p) (DART_TTBR (darts w p) sid idx)).
  { intros sid idx Hs Hi. rewrite DART_TTBR_flat by assumption.
    unfold tlb_regs. ctl_consts.
    intros [He | [He | (i & Hi' & He)]]; by_descriptor Hin; lia. }
  destruct Hapart as (Atcr & Attbr & Amix).
  split.
  { intros sid Hs Hb. split; [| split].
    - rewrite (writes_within_readl _ _ _ _ _ _ Kd)
        by (right; apply Htlb_tcr; exact Hs).
      apply (stream_pass_hit p _ (DART_TCR (darts w p)) _ _ _ sid Hs Hb).
    - intros idx Hi.
      assert (Hi' : 0 <= idx < Hw.ttbr_count (Dart.hw (darts w p)))
        by lia.
      rewrite (writes_within_readl _ _ _ _ _ _ Kd)
        by (right; apply Htlb_ttbr; assumption).
      rewrite (writes_within_readl _ _ _ _ _ _ Kc).
      2:{ right. intros (sid' & Hs' & _ & He). symmetry in He.
          exact (Amix sid' sid idx Hs' Hs Hi' He). }
      rewrite (writes_within_readl _ _ _ _ _ _ Kb).
      2:{ right. intros (sid' & idx' & [Hs' _] & Hin' & He).
          apply in_from_to in Hin'.
          destruct (Attbr sid idx sid' idx' Hs Hs' Hi' ltac:(lia) He)
            as [_ Hii]. lia. }
      apply Hva; [split; assumption | apply in_upto; exact Hi].
    - intros idx Hi.
      assert (Hi' : 0 <= idx < Hw.ttbr_count (Dart.hw (darts w p)))
        by lia.
      rewrite (writes_within_readl _ _ _ _ _ _ Kd)
        by (right; apply Htlb_ttbr; assumption).
      rewrite (writes_within_readl _ _ _ _ _ _ Kc).
      2:{ right. intros (sid' & Hs' & _ & He). symmetry in He.
          exact (Amix sid' sid idx Hs' Hs Hi' He). }
      replace 0 with (u32 0) at 3 by reflexivity.
      apply (Hvb sid idx); [split; assumption | apply in_from_to; exact Hi]. }
  apply (writes_within_trans _ _ _ wa).
  { eapply writes_within_weaken; [| exact Ka]. cbv beta.
    intros o (sid & idx & Hsel & Hin' & ->). right. exists sid.
    split; [exact Hsel |]. right. exists idx. split; [| reflexivity].
    apply in_upto in Hin'. lia. }
  apply (writes_within_trans _ _ _ wb).
  { eapply writes_within_weaken; [| exact Kb]. cbv beta.
    intros o (sid & idx & Hsel & Hin' & ->). right. exists sid.
    split; [exact Hsel |]. right. exists idx. split; [| reflexivity].
    apply in_from_to in Hin'. lia. }
  apply (writes_within_trans _ _ _ wc).
  { eapply writes_within_weaken; [| exact Kc]. cbv beta.
    intros o (sid & Hs & Hb & ->). right. exists sid. auto. }
  eapply writes_within_weaken; [| exact Kd]. cbv beta. auto.
Qed.

End SetupTranslation.

Lemma tlb_regs_not_tcr : forall dart sid,
  In (Dart.hw dart) apple_dart_of_match ->
  0 <= Dart.num_streams dart <= Hw.max_sid_count (Dart.hw dart) ->
  0 <= sid < Dart.num_streams dart ->
  ~ tlb_regs dart (DART_TCR dart sid).
Proof.
  intros dart sid Hin Hn Hs.
  pose proof (of_match_max_sid_count _ Hin) as Hmax.
  pose proof (BITS_TO_U32_bounds (Dart.num_streams dart) ltac:(lia)) as Hk.
  rewrite DART_TCR_flat by assumption. unfold tlb_regs. ctl_consts.
  intros [He | [He | (i & Hi & He)]]; by_descriptor Hin; lia.
Qed.

Lemma tlb_regs_not_ttbr : forall dart sid idx,
  In (Dart.hw dart) apple_dart_of_match ->
  0 <= Dart.num_streams dart <= Hw.max_sid_count (Dart.hw dart) ->
  0 <= sid < Dart.num_streams dart ->
  0 <= idx < Hw.ttbr_count (Dart.hw dart) ->
  ~ tlb_regs dart (DART_TTBR dart sid idx).
Proof.
  intros dart sid idx Hin Hn Hs Hi.
  pose proof (of_match_max_sid_count _ Hin) as Hmax.
  pose proof (BITS_TO_U32_bounds (Dart.num_streams dart) ltac:(lia)) as Hk.
  rewrite DART_TTBR_flat by assumption. unfold tlb_regs. ctl_consts.
  intros [He | [He | (i & Hi' & He)]]; by_descriptor Hin; lia.
Qed.

Section SetupTranslationTables.
Context {pgtable : Type} `{IoPgtableDartCfg pgtable}.
Variable devm_memremap : Z -> Z -> Z.

(** X22. apple_dart_setup_translation on an unlocked unit of a supported
    generation hands the engine's tables to the hardware: for every stream
    of the map, the TTBR of each table the engine has is valid and decodes
    to that table's address (an aligned address below 2^43), the TTBRs
    left over are zero, and the TCR holds the translate-enable value, with
    the four-level bit exactly when the engine uses four levels.  The
    TCR and TTBRs of the unit's other streams are as before, as are other
    units' registers and everything that is not a register. *)
Theorem setup_translation_programs_tables :
  forall (w : world) (dd : Domain.t pgtable) (sm : StreamMap.t)
         (acks : list bool) (ops : pgtable) (p : nat),
  Domain.pgtbl_ops dd = Some ops ->
  StreamMap.dart sm = Some p ->
  Dart.locked (darts w p) = false ->
  In (Dart.hw (darts w p)) apple_dart_of_match ->
  0 <= Dart.num_streams (darts w p)
    <= Hw.max_sid_count (Dart.hw (darts w p)) ->
  0 <= cfg_n_ttbrs ops <= Hw.ttbr_count (Dart.hw (darts w p)) ->
  (forall idx, 0 <= idx < cfg_n_ttbrs ops ->
     0 <= cfg_ttbr ops idx < 2 ^ 43 /\
     ttbr_misaligned (Dart.hw (darts w p)) (cfg_ttbr ops idx) = false) ->
  (Z.to_nat (Dart.num_streams (darts w p)) < length acks)%nat ->
  exists w' acks',
    apple_dart_setup_translation devm_memremap w dd sm acks
    = Done (w', acks') /\
    (forall sid,
       0 <= sid < Dart.num_streams (darts w p) ->
       Z.testbit (StreamMap.sidmap sm) sid = true ->
       readl w' p (DART_TCR (darts w p) sid)
       = u32 (Z.lor (Hw.tcr_enabled (Dart.hw (darts w p)))
                    (if cfg_n_levels ops =? 4
                     then Hw.tcr_4level (Dart.hw (darts w p)) else 0)) /\
       (forall idx, 0 <= idx < cfg_n_ttbrs ops ->
          ttbr_phys (Dart.hw (darts w p))
                    (readl w' p (DART_TTBR (darts w p) sid idx))
          = cfg_ttbr ops idx /\
          Z.land (readl w' p (DART_TTBR (darts w p) sid idx))
                 (Hw.ttbr_valid (Dart.hw (darts w p))) <> 0) /\
       (forall idx,
          cfg_n_ttbrs ops <= idx < Hw.ttbr_count (Dart.hw (darts w p)) ->
          readl w' p (DART_TTBR (darts w p) sid idx) = 0)) /\
    (forall sid,
       0 <= sid < Dart.num_streams (darts w p) ->
       Z.testbit (StreamMap.sidmap sm) sid = false ->
       readl w' p (DART_TCR (darts w p) sid)
       = readl w p (DART_TCR (darts w p) sid) /\
       forall idx, 0 <= idx < Hw.ttbr_count (Dart.hw (darts w p)) ->
         readl w' p (DART_TTBR (darts w p) sid idx)
         = readl w p (DART_TTBR (darts w p) sid idx)) /\
    only_regs_changed w w' /\
    (forall q o, q <> p -> readl w' q o = readl w q o).
Proof.
  intros w dd sm acks ops p Hops Hd Hunl Hin Hn Hnt Htbl Hl.
  destruct (setup_translation_unlocked devm_memremap w dd sm acks ops p
              Hops Hd Hunl Hin Hn Hnt Hl)
    as (w' & acks' & Hrun & _ & Hsel & K).
  pose proof (of_match_regs_apart _ Hin Hn) as (Atcr & Attbr & Amix).
  exists w', acks'. split; [exact Hrun |]. split; [| split; [| split]].
  - intros sid Hs Hb. destruct (Hsel sid Hs Hb) as (Ht & Hv & Hz).
    split; [exact Ht |]. split; [| exact Hz].
    intros idx Hi. rewrite (Hv idx Hi).
    destruct (Htbl idx Hi) as [Hp Hal].
    destruct (of_match_ttbr_layout _ Hin)
      as (k & Hvk & Hk & Hsh & Hf & Hfit & Hm).
    destruct (ttbr_layout_round_trip _ k 43 (cfg_ttbr ops idx) Hvk Hk Hsh
                ltac:(lia) Hf Hfit Hm Hp Hal) as [Hrt Hvb].
    split; [exact Hrt |]. intros Hz0.
    assert (Hbit : Z.testbit
                     (Z.land
                        (u32 (ttbr_value (Dart.hw (darts w p))
                                (cfg_ttbr ops idx)))
                        (Hw.ttbr_valid (Dart.hw (darts w p)))) k = false)
      by (rewrite Hz0; apply Z.testbit_0_l).
    rewrite Z.land_spec, Hvb, Hvk, Z.pow2_bits_eqb, Z.eqb_refl in Hbit
      by lia.
    discriminate.
  - intros sid Hs Hb. split.
    + apply (writes_within_readl _ _ _ _ _ _ K). right.
      intros [Ht | (sid' & [Hs' Hb'] & [He | (idx & Hi & He)])].
      * exact (tlb_regs_not_tcr _ _ Hin Hn Hs Ht).
      * apply Atcr in He; [| assumption | assumption]. subst sid'.
        congruence.
      * exact (Amix sid sid' idx Hs Hs' Hi He).
    + intros idx Hi.
      apply (writes_within_readl _ _ _ _ _ _ K). right.
      intros [Ht | (sid' & [Hs' Hb'] & [He | (idx' & Hi' & He)])].
      * exact (tlb_regs_not_ttbr _ _ _ Hin Hn Hs Hi Ht).
      * symmetry in He. exact (Amix sid' sid idx Hs' Hs Hi He).
      * destruct (Attbr sid idx sid' idx' Hs Hs' Hi Hi' He) as [-> _].
        congruence.
  - apply K.
  - intros q o Hq. apply (writes_within_readl _ _ _ _ _ _ K). left.
    exact Hq.
Qed.

End SetupTranslationTables.

Lemma setup_translation_programs_tables_witness :
  exists w' acks',
    apple_dart_setup_translation (fun _ _ => 0) world_t8110 toy_domain
      stream_0 (repeat true 17)
    = Done (w', acks') /\
    ttbr_phys apple_dart_hw_t8110
      (readl w' 0%nat (DART_TTBR (darts world_t8110 0%nat) 0 0))
    = 0x80004000.
Proof.
  destruct (setup_translation_programs_tables (fun _ _ => 0) world_t8110
              toy_domain stream_0 (repeat true 17)
              (mkToy (PgtblCfg.mk SZ_16K 32 36 true 0%nat 3)
                     [(0x4000, 0x80000)])
              0%nat eq_refl eq_refl eq_refl)
    as (w' & acks' & Hrun & Hsel & _).
  - cbn. auto.
  - cbn. lia.
  - cbn. lia.
  - intros idx Hi. cbn in Hi. assert (idx = 0) by lia. subst idx.
    split; [cbn; lia | reflexivity].
  - cbn. lia.
  - exists w', acks'. split; [exact Hrun |].
    destruct (Hsel 0) as (_ & Hv & _); [cbn; lia | reflexivity |].
    destruct (Hv 0) as [Hp _]; [cbn; lia |]. exact Hp.
Defined.

(** ** Attach to a paging domain *)

Lemma is_diag_neutral : forall e, is_diag e = true -> pm_neutral e = true.
Proof. intros []; cbn; congruence. Qed.

Lemma is_unmap_neutral : forall e,
  is_unmap_event e = true -> pm_neutral e = true.
Proof. intros []; cbn; congruence. Qed.

Lemma logs_under_refl : forall p w, logs_under p w w.
Proof. intros p w. exists []. rewrite app_nil_r. auto. Qed.

Lemma logs_under_trans : forall p w1 w2 w3,
  logs_under p w1 w2 -> logs_under p w2 w3 -> logs_under p w1 w3.
Proof.
  intros p w1 w2 w3 (e1 & L1 & F1) (e2 & L2 & F2).
  exists (e1 ++ e2). rewrite L2, L1, app_assoc. split; [reflexivity |].
  apply Forall_app. auto.
Qed.

Lemma logs_under_eq : forall p w w', log w' = log w -> logs_under p w w'.
Proof. intros p w w' E. exists []. rewrite app_nil_r. auto. Qed.

Lemma logs_under_writes : forall P p w w',
  writes_within P p w w' -> logs_under p w w'.
Proof.
  intros P p w w' (_ & _ & evs & L & F). exists evs. split; [exact L |].
  eapply Forall_impl; [| exact F]. cbv beta.
  intros e [Hd | (v & o & He & _)];
    [left; apply is_diag_neutral; exact Hd | right; eauto].
Qed.

Lemma logs_under_cleared : forall p w w',
  tables_cleared w w' -> logs_under p w w'.
Proof.
  intros p w w' (_ & _ & _ & _ & _ & evs & L & F). exists evs.
  split; [exact L |]. apply Forall_forall. intros e He. left.
  rewrite forallb_forall in F. apply is_unmap_neutral, F, He.
Qed.

Lemma logs_under_diag : forall p w w',
  diag_extends w w' -> logs_under p w w'.
Proof.
  intros p w w' (_ & _ & evs & L & F). exists evs.
  split; [exact L |]. apply Forall_forall. intros e He. left.
  rewrite forallb_forall in F. apply is_diag_neutral, F, He.
Qed.

Lemma logs_under_emit : forall p w e,
  pm_neutral e = true -> logs_under p w (emit e w).
Proof.
  intros p w e He. exists [e]. split; [reflexivity |].
  constructor; [left; exact He | constructor].
Qed.

Lemma logs_under_fold_exec : forall (A : Type) p
    (f : world -> A -> exec world) l,
  (forall x w w', In x l -> f w x = Done w' -> logs_under p w w') ->
  forall w w', fold_exec f l w = Done w' -> logs_under p w w'.
Proof.
  intros A p f l. induction l as [| x l IH]; intros Hf w w' Hrun.
  - cbn in Hrun. injection Hrun as <-. apply logs_under_refl.
  - cbn [fold_exec] in Hrun.
    destruct (f w x) as [w1 | | |] eqn:E; cbn [bind] in Hrun;
      try discriminate.
    apply (logs_under_trans _ _ w1).
    + apply (Hf x); [left; reflexivity | exact E].
    + apply IH; [| exact Hrun]. intros y a b Hy. apply Hf. right. exact Hy.
Qed.

Section FinalizeFrame.
Context {pgtable : Type} `{IoPgtable pgtable} `{Platform}.

(* Finalize writes no register and no memory, whatever it returns. *)
Lemma finalize_frame :
  forall fuel w (dd : Domain.t pgtable) dev cfg ret dd' w',
    apple_dart_finalize_domain fuel w dd dev cfg = Done (ret, dd', w') ->
    darts w' = darts w /\ mem w' = mem w /\
    exists evs, log w' = log w ++ evs /\ forallb pm_neutral evs = true.
Proof.
  intros fuel w dd dev cfg ret dd' w' Hrun.
  unfold apple_dart_finalize_domain in Hrun.
  destruct (StreamMap.dart (MasterCfg.stream_maps cfg 0%nat)) as [p |];
    cbn [bind deref] in Hrun; [| discriminate].
  cbv zeta in Hrun.
  destruct (PAGE_SIZE <? Dart.pgsize (darts w p)).
  { injection Hrun as _ _ <-. split; [reflexivity |].
    split; [reflexivity |]. exists []. rewrite app_nil_r. auto. }
  destruct (Domain.finalized dd).
  { injection Hrun as _ _ <-. split; [reflexivity |].
    split; [reflexivity |]. eexists. cbn [emit log].
    rewrite <- !app_assoc. split; reflexivity. }
  set (w2 := emit (EvReadFinalized false) (emit EvMutexLock w)) in Hrun.
  assert (G : exists w3 r,
            (if Dart.locked (darts w p)
             then finalize_locked w2 p
                    (StreamMap.sidmap (MasterCfg.stream_maps cfg 0%nat))
                    (min_u32 (Dart.ias (darts w p))
                             (fls64 (Dart.dma_max (darts w p))))
                    (Dart.dma_max (darts w p))
                    (finalize_pgtbl_cfg p (darts w p)
                       (min_u32 (Dart.ias (darts w p))
                                (fls64 (Dart.dma_max (darts w p)))))
             else (w2, inl (finalize_pgtbl_cfg p (darts w p)
                              (min_u32 (Dart.ias (darts w p))
                                       (fls64 (Dart.dma_max (darts w p)))),
                            Dart.dma_max (darts w p)))) = (w3, r) /\
            diag_extends w2 w3).
  { destruct (Dart.locked (darts w p)).
    - eexists _, _. split; [apply surjective_pairing |].
      apply finalize_locked_effects.
    - eexists _, _. split; [reflexivity | apply diag_extends_refl]. }
  destruct G as (w3 & r & Er & (D3 & M3 & evs & L3 & F3)).
  rewrite Er in Hrun.
  assert (Hfin : forall evs',
            forallb pm_neutral evs' = true ->
            exists all,
              log w3 ++ evs' = log w ++ all /\
              forallb pm_neutral all = true).
  { intros evs' Hn. rewrite L3. unfold w2. cbn [emit log].
    eexists. rewrite <- !app_assoc. split; [reflexivity |].
    cbn [app forallb pm_neutral andb]. rewrite forallb_app, Hn, andb_true_r.
    apply forallb_forall. intros e He. rewrite forallb_forall in F3.
    apply is_diag_neutral, F3, He. }
  destruct r as [[cfg1 dma_max] | err].
  - destruct (alloc_io_pgtable_ops (Hw.fmt (Dart.hw (darts w p))) cfg1)
      as [[ops cfg2] |].
    + destruct (apple_dart_setup_resv_locked _ _ _ _) as [[r1 d1] | | |];
        cbn [bind] in Hrun; try discriminate.
      injection Hrun as _ _ <-. cbn [emit darts mem log].
      split; [exact D3 |]. split; [exact M3 |].
      rewrite <- app_assoc. apply Hfin. reflexivity.
    + injection Hrun as _ _ <-. cbn [emit darts mem log].
      split; [exact D3 |]. split; [exact M3 |].
      rewrite <- app_assoc. apply Hfin. reflexivity.
  - injection Hrun as _ _ <-. cbn [emit darts mem log].
    split; [exact D3 |]. split; [exact M3 |]. apply Hfin. reflexivity.
Qed.

End FinalizeFrame.

Lemma pm_ok_held_neutral : forall evs h,
  Forall (fun e => pm_neutral e = true \/
                   exists q v o, e = EvWritel q v o /\ 0 < h q) evs ->
  pm_ok h evs h.
Proof.
  induction evs as [| e evs IH]; intros h Hall; [apply pm_ok_nil |].
  inversion Hall as [| e' evs' He Hrest]. subst e' evs'.
  destruct (IH h Hrest) as (a & Ha & Hq).
  exists a. split; [| exact Hq].
  destruct He as [Hd | (q & v & o & -> & Hpos)].
  - destruct e; try discriminate; exact Ha.
  - cbn [pm_checked]. apply Z.ltb_lt in Hpos. rewrite Hpos. exact Ha.
Qed.

Lemma pm_bracket_neutral :
  forall (Pl : Platform) (w w2 : world) (cfg : MasterCfg.t)
         (evs : list event),
    log w2 = log (pm_get_stream_maps w cfg) ++ evs ->
    Forall (fun e => pm_neutral e = true \/
                     exists q sm v o,
                       In (q, sm)
                          (for_each_stream_map (MasterCfg.stream_maps cfg))
                       /\ e = EvWritel q v o) evs ->
    exists all,
      log (pm_put_stream_maps w2 cfg) = log w ++ all /\
      pm_ok (fun _ => 0) all (fun _ => 0).
Proof.
  intros Pl w w2 cfg evs Hlog Hevs.
  destruct (pm_get_stream_maps_effect Pl w cfg) as (_ & _ & Gl).
  destruct (pm_put_stream_maps_effect w2 cfg) as (_ & _ & Pl2).
  set (l := for_each_stream_map (MasterCfg.stream_maps cfg)) in *.
  eexists. split.
  - rewrite Pl2, Hlog, Gl, <- !app_assoc. reflexivity.
  - apply (pm_ok_app _ _ _ (fun q => 0 + slots_on q l)).
    { apply (pm_ok_gets (fun p => pm_runtime_get_sync p <? 0) l
                        (fun _ => 0)). }
    apply (pm_ok_app _ _ _ (fun q => 0 + slots_on q l)).
    + apply pm_ok_held_neutral. eapply Forall_impl; [| exact Hevs].
      intros e [Hd | (q & sm & v & o & Hin & ->)]; [left; exact Hd |].
      right. exists q, v, o. split; [reflexivity |].
      pose proof (slots_on_pos q sm l Hin). lia.
    + apply (pm_ok_puts l (fun _ => 0)). intros q. lia.
Qed.

Lemma set_locked_ttbr_loop_logs : forall memremap p idx paddr sids w,
  logs_under p w (snd (set_locked_ttbr_loop memremap p idx paddr sids w)).
Proof.
  intros memremap p idx paddr sids.
  induction sids as [| sid sids IH]; intros w.
  - apply logs_under_refl.
  - cbn [set_locked_ttbr_loop]. cbv zeta.
    set (w1 := WARN_ON _ w).
    assert (K1 : logs_under p w w1).
    { apply logs_under_diag. apply diag_extends_WARN_ON.
      apply diag_extends_refl. }
    destruct (memremap _ _ =? 0); [exact K1 |].
    destruct (memremap _ _ =? 0); [exact K1 |].
    apply (logs_under_trans _ _ w1); [exact K1 |].
    match goal with
    | |- logs_under _ _ (snd (set_locked_ttbr_loop _ _ _ _ _ ?w2)) =>
        apply (logs_under_trans _ _ w2); [| apply IH]
    end.
    apply logs_under_eq. reflexivity.
Qed.

Lemma tlb_command_loop_logs : forall p command sids w acks r w' acks',
  tlb_command_loop p command sids w acks = Done (r, w', acks') ->
  logs_under p w w'.
Proof.
  intros p command sids. induction sids as [| sid sids IH];
    intros w acks r w' acks' El.
  - cbn in El. injection El as _ <- _. apply logs_under_refl.
  - cbn [tlb_command_loop] in El. cbv zeta in El.
    destruct acks as [| [] acks]; cbn [poll_busy bind] in El;
      try discriminate.
    + cbn [Z.eqb negb] in El.
      apply (logs_under_trans _ _
               (writel w p (tlb_cmd_word command sid) DART_T8110_TLB_CMD)).
      * apply (logs_under_writes (fun _ => True)).
        apply writes_within_writel. exact I.
      * apply (IH _ _ _ _ _ El).
    + cbn in El. injection El as _ <- _.
      apply (logs_under_writes (fun _ => True)).
      apply writes_within_writel. exact I.
Qed.

Section SetupTranslationLogs.
Context {pgtable : Type} `{IoPgtableDartCfg pgtable}.
Variable devm_memremap : Z -> Z -> Z.

(* Whatever path apple_dart_setup_translation takes, the registers it
   writes are those of the map's unit. *)
Lemma setup_translation_logs :
  forall (w : world) (dd : Domain.t pgtable) (sm : StreamMap.t)
         (acks : list bool) (p : nat) w' acks',
  StreamMap.dart sm = Some p ->
  apple_dart_setup_translation devm_memremap w dd sm acks
  = Done (w', acks') ->
  logs_under p w w'.
Proof.
  intros w dd sm acks p w' acks' Hd Hrun.
  unfold apple_dart_setup_translation in Hrun.
  destruct (Domain.pgtbl_ops dd) as [ops |]; cbn [bind deref] in Hrun;
    [| discriminate].
  rewrite Hd in Hrun. cbn [bind deref] in Hrun. cbv zeta in Hrun.
  match type of Hrun with
  | bind ?c _ = _ => destruct c as [w1 | | |] eqn:Ephase
  end; cbn [bind] in Hrun; try discriminate.
  assert (K1 : logs_under p w w1).
  { destruct (Dart.locked (darts w p)).
    - match type of Ephase with
      | bind ?c _ = _ => destruct c as [wa | | |] eqn:Ea
      end; cbn [bind] in Ephase; try discriminate.
      match type of Ephase with
      | bind ?c _ = _ => destruct c as [wb | | |] eqn:Eb
      end; cbn [bind] in Ephase; try discriminate.
      apply (logs_under_trans _ _ wa).
      { eapply logs_under_fold_exec; [| exact Ea].
        intros i a b _ Hstep.
        unfold apple_dart_hw_set_locked_ttbr in Hstep. rewrite Hd in Hstep.
        cbn [bind deref] in Hstep. cbv zeta in Hstep.
        injection Hstep as <-.
        match goal with
        | |- logs_under _ _ (snd (set_locked_ttbr_loop _ _ _ _ _ ?w2)) =>
            apply (logs_under_trans _ _ w2);
              [| apply set_locked_ttbr_loop_logs]
        end.
        apply logs_under_diag. do 2 apply diag_extends_WARN_ON.
        apply diag_extends_refl. }
      apply (logs_under_trans _ _ wb).
      { eapply logs_under_fold_exec; [| exact Eb].
        intros i a b _ Hstep.
        unfold apple_dart_hw_clear_locked_ttbr in Hstep.
        rewrite Hd in Hstep. cbn [bind deref] in Hstep.
        cbv zeta in Hstep. injection Hstep as <-. cbn [snd].
        set (a1 := WARN_ON _ a).
        apply (logs_under_trans _ _ a1).
        { apply logs_under_diag. apply diag_extends_WARN_ON.
          apply diag_extends_refl. }
        destruct (clear_locked_ttbr_loop p (u8 i)
                    (for_each_set_bit (StreamMap.sidmap sm)
                       (Dart.num_streams (darts a p))) a1
                    (for_each_set_bit_NoDup _ _))
          as (_ & _ & _ & _ & Hlog).
        eexists. split; [exact Hlog |].
        apply Forall_forall. intros e He. left.
        apply in_flat_map in He. destruct He as (sid & _ & He).
        unfold clear_events in He. apply in_app_or in He.
        destruct He as [He | He].
        - destruct (Dart.locked_ttbr (darts a1 p) sid (u8 i) =? 0);
            [destruct He |].
          destruct He as [<- | [<- | []]]; reflexivity.
        - destruct (Dart.shadow_ttbr (darts a1 p) sid (u8 i) =? 0);
            [destruct He |].
          destruct He as [<- | []]. reflexivity. }
      unfold apple_dart_hw_sync_locked in Ephase. rewrite Hd in Ephase.
      cbn [bind deref] in Ephase. injection Ephase as <-. cbn [snd].
      match goal with
      | |- logs_under _ _ (set_mem ?x _) =>
          apply (logs_under_trans _ _ x);
            [apply logs_under_diag, diag_extends_WARN_ON, diag_extends_refl
            | apply logs_under_eq; reflexivity]
      end.
    - match type of Ephase with
      | bind ?c _ = _ => destruct c as [wa | | |] eqn:Ea
      end; cbn [bind] in Ephase; try discriminate.
      match type of Ephase with
      | bind ?c _ = _ => destruct c as [wb | | |] eqn:Eb
      end; cbn [bind] in Ephase; try discriminate.
      apply (logs_under_trans _ _ wa).
      { eapply logs_under_fold_exec; [| exact Ea].
        intros i a b _ Hstep.
        unfold apple_dart_hw_set_ttbr in Hstep. rewrite Hd in Hstep.
        cbn [bind deref] in Hstep. cbv zeta in Hstep.
        injection Hstep as <-.
        eapply logs_under_writes.
        apply (stream_pass_within p _
                 (fun sid => DART_TTBR (darts a p) sid (u8 i)) _ _ a).
        do 2 apply diag_extends_WARN_ON. apply diag_extends_refl. }
      apply (logs_under_trans _ _ wb).
      { eapply logs_under_fold_exec; [| exact Eb].
        intros i a b _ Hstep.
        unfold apple_dart_hw_clear_ttbr in Hstep. rewrite Hd in Hstep.
        cbn [bind deref] in Hstep. cbv zeta in Hstep.
        injection Hstep as <-.
        eapply logs_under_writes.
        apply (stream_pass_within p _
                 (fun sid => DART_TTBR (darts a p) sid (u8 i)) _ _ a).
        apply diag_extends_WARN_ON. apply diag_extends_refl. }
      destruct (enable_translation_pass wb sm p (cfg_n_levels ops) Hd)
        as (wd & Hdiag & Hrunc).
      rewrite Hrunc in Ephase. injection Ephase as <-.
      eapply logs_under_writes.
      apply (stream_pass_within p _ (DART_TCR (darts wb p)) _ _ wb wd Hdiag).
  }
  apply (logs_under_trans _ _ w1); [exact K1 |].
  destruct (invalidate_tlb w1 sm acks) as [[[ret w2] acks2] | | |] eqn:Einv;
    cbn [bind] in Hrun; try discriminate.
  injection Hrun as <- <-.
  unfold invalidate_tlb in Einv. rewrite Hd in Einv.
  cbn [bind deref] in Einv.
  destruct (Hw.invalidate_tlb (Dart.hw (darts w1 p))).
  - destruct acks as [| ack acks0].
    + unfold apple_dart_t8020_hw_stream_command in Einv.
      rewrite Hd in Einv. cbn [bind deref poll_busy] in Einv.
      discriminate.
    + destruct (stream_command_effect w1 sm p
                  DART_T8020_STREAM_COMMAND_INVALIDATE ack acks0 Hd)
        as (wx & Hx & _ & _ & K & _).
      rewrite Hx in Einv. injection Einv as _ <- _.
      apply (logs_under_writes _ _ _ _ K).
  - unfold apple_dart_t8110_hw_tlb_command in Einv. rewrite Hd in Einv.
    cbn [bind deref] in Einv.
    destruct (tlb_command_loop p DART_T8110_TLB_CMD_OP_FLUSH_SID
                (for_each_set_bit (StreamMap.sidmap sm)
                   (Dart.num_streams (darts w1 p))) w1 acks)
      as [[[r3 w3] a3] | | |] eqn:El; cbn [bind] in Einv; try discriminate.
    pose proof (tlb_command_loop_logs _ _ _ _ _ _ _ _ El) as K3.
    destruct (negb (r3 =? 0)); injection Einv as _ <- _.
    + apply (logs_under_trans _ _ w3); [exact K3 |].
      apply logs_under_emit. reflexivity.
    + exact K3.
Qed.

End SetupTranslationLogs.

Section AttachPagingProperties.
Context {pgtable : Type} `{IoPgtable pgtable} `{IoPgtableDartCfg pgtable}
        `{Platform}.
Variable devm_memremap : Z -> Z -> Z.

Lemma setup_fold_logs :
  forall (dd : Domain.t pgtable) (l0 l : list (nat * StreamMap.t)) st st',
    (forall ps, In ps l ->
       In ps l0 /\ StreamMap.dart (snd ps) = Some (fst ps)) ->
    fold_exec
      (fun (st : world * list bool) ps =>
         apple_dart_setup_translation devm_memremap (fst st) dd (snd ps)
           (snd st)) l st = Done st' ->
    exists evs,
      log (fst st') = log (fst st) ++ evs /\
      Forall (fun e => pm_neutral e = true \/
                       exists q sm v o,
                         In (q, sm) l0 /\ e = EvWritel q v o) evs.
Proof.
  intros dd l0 l. induction l as [| [q sm] l IH]; intros st st' Hl Hrun.
  - cbn in Hrun. injection Hrun as <-. exists []. rewrite app_nil_r. auto.
  - cbn [fold_exec snd] in Hrun.
    destruct (apple_dart_setup_translation devm_memremap (fst st) dd sm
                (snd st)) as [[w1 a1] | | |] eqn:E;
      cbn [bind] in Hrun; try discriminate.
    destruct (Hl (q, sm) (or_introl eq_refl)) as [Hin Hd]. cbn [fst snd] in Hd.
    destruct (setup_translation_logs devm_memremap _ _ _ _ q _ _ Hd E)
      as (e1 & L1 & F1).
    destruct (IH (w1, a1) st') as (e2 & L2 & F2).
    { intros ps Hps. apply Hl. right. exact Hps. }
    { exact Hrun. }
    cbn [fst] in L2. exists (e1 ++ e2). rewrite L2, L1, app_assoc.
    split; [reflexivity |]. apply Forall_app. split; [| exact F2].
    eapply Forall_impl; [| exact F1]. cbv beta.
    intros e [Hn | (v & o & ->)]; [left; exact Hn |].
    right. exists q, sm, v, o. auto.
Qed.

(** X23. The attach to a paging domain keeps the runtime power discipline
    on every path that returns: every register write to a unit happens
    while a power reference on that unit is held, and every reference
    taken has been dropped at the end, also when finalize or the adding of
    the streams fails.  When it returns an error, no register and no
    memory has been written and no poll answer used. *)
Theorem attach_dev_paging_power_and_errors :
  forall (fuel : nat) (w : world) (dd : Domain.t pgtable) (dev : nat)
         (cfg : MasterCfg.t) (acks : list bool)
         (ret : Z) (dd' : Domain.t pgtable) (w' : world)
         (acks' : list bool),
    apple_dart_attach_dev_paging devm_memremap fuel w dd dev cfg acks
    = Done (ret, dd', w', acks') ->
    (exists evs,
       log w' = log w ++ evs /\ pm_ok (fun _ => 0) evs (fun _ => 0)) /\
    (ret <> 0 -> darts w' = darts w /\ mem w' = mem w /\ acks' = acks).
Proof.
  intros fuel w dd dev cfg acks ret dd' w' acks' Hrun.
  unfold apple_dart_attach_dev_paging in Hrun. cbv zeta in Hrun.
  destruct (apple_dart_finalize_domain fuel (pm_get_stream_maps w cfg) dd
              dev cfg) as [[[r1 d1] w1] | | |] eqn:Efin;
    cbn [bind] in Hrun; try discriminate.
  destruct (finalize_frame _ _ _ _ _ _ _ _ Efin)
    as (D1 & M1 & evs1 & L1 & F1).
  destruct (pm_get_stream_maps_effect _ w cfg) as (Dg & Mg & _).
  assert (N1 : Forall
                 (fun e => pm_neutral e = true \/
                    exists q sm v o,
                      In (q, sm)
                         (for_each_stream_map (MasterCfg.stream_maps cfg))
                      /\ e = EvWritel q v o) evs1).
  { apply Forall_forall. intros e He. left.
    rewrite forallb_forall in F1. apply F1, He. }
  assert (Gerr : forall r d,
            Done (r, d, pm_put_stream_maps w1 cfg, acks)
            = Done (ret, dd', w', acks') ->
            (exists evs,
               log w' = log w ++ evs /\
               pm_ok (fun _ => 0) evs (fun _ => 0)) /\
            (ret <> 0 ->
             darts w' = darts w /\ mem w' = mem w /\ acks' = acks)).
  { intros r d Heq. injection Heq as _ _ <- <-.
    split; [apply (pm_bracket_neutral _ w w1 cfg evs1 L1 N1) |].
    intros _. destruct (pm_put_stream_maps_effect w1 cfg) as (Dp & Mp & _).
    rewrite Dp, Mp, D1, M1, Dg, Mg. auto. }
  destruct (negb (r1 =? 0)) eqn:Er1; [apply (Gerr _ _ Hrun) |].
  destruct (apple_dart_domain_add_streams w1 d1 cfg) as [r2 d2].
  destruct (negb (r2 =? 0)) eqn:Er2; [apply (Gerr _ _ Hrun) |].
  match type of Hrun with
  | bind ?c _ = _ => destruct c as [[w2 a2] | | |] eqn:Efold
  end; cbn [bind] in Hrun; try discriminate.
  injection Hrun as <- _ <- <-. cbn [fst snd].
  destruct (setup_fold_logs d2
              (for_each_stream_map (MasterCfg.stream_maps cfg))
              (for_each_stream_map (MasterCfg.stream_maps cfg))
              (w1, acks) (w2, a2))
    as (evs2 & L2 & F2).
  { intros ps Hps. split; [exact Hps |].
    apply (for_each_stream_map_dart _ _ Hps). }
  { exact Efold. }
  cbn [fst] in L2. split.
  - apply (pm_bracket_neutral _ w w2 cfg (evs1 ++ evs2)).
    + rewrite L2, L1, app_assoc. reflexivity.
    + apply Forall_app. split; assumption.
  - intros Hne. apply negb_false_iff, Z.eqb_eq in Er2. contradiction.
Qed.

End AttachPagingProperties.

Lemma attach_dev_paging_power_and_errors_witness :
  exists dd' w' acks',
    apple_dart_attach_dev_paging (H := exhausted_engine) (fun _ _ => 0) 8
      world_t8103 Domain.zero 0%nat cfg_unit_0 [true]
    = Done (- ENOMEM, dd', w', acks') /\
    darts w' = darts world_t8103 /\
    exists evs,
      log w' = log world_t8103 ++ evs /\
      pm_ok (fun _ => 0) evs (fun _ => 0).
Proof.
  assert (Hrun : exists dd' w' acks',
            apple_dart_attach_dev_paging (H := exhausted_engine)
              (fun _ _ => 0) 8 world_t8103 Domain.zero 0%nat cfg_unit_0
              [true]
            = Done (- ENOMEM, dd', w', acks'))
    by (eexists _, _, _; reflexivity).
  destruct Hrun as (dd' & w' & acks' & Hrun).
  exists dd', w', acks'. split; [exact Hrun |].
  destruct (attach_dev_paging_power_and_errors (fun _ _ => 0) 8
              world_t8103 Domain.zero 0%nat cfg_unit_0 [true]
              (- ENOMEM) dd' w' acks' Hrun) as [Hpm Herr].
  split; [| exact Hpm].
  apply Herr. discriminate.
Defined.

Lemma ttbr_decodes : forall hw paddr,
  In hw apple_dart_of_match ->
  0 <= paddr < 2 ^ 43 ->
  ttbr_misaligned hw paddr = false ->
  ttbr_phys hw (u32 (ttbr_value hw paddr)) = paddr /\
  Z.land (u32 (ttbr_value hw paddr)) (Hw.ttbr_valid hw) <> 0.
Proof.
  intros hw paddr Hin Hp Hal.
  destruct (of_match_ttbr_layout _ Hin)
    as (k & Hvk & Hk & Hsh & Hf & Hfit & Hm).
  destruct (ttbr_layout_round_trip _ k 43 paddr Hvk Hk Hsh ltac:(lia) Hf
              Hfit Hm Hp Hal) as [Hrt Hvb].
  split; [exact Hrt |]. intros Hz0.
  assert (Hbit : Z.testbit (Z.land (u32 (ttbr_value hw paddr))
                                   (Hw.ttbr_valid hw)) k = false)
    by (rewrite Hz0; apply Z.testbit_0_l).
  rewrite Z.land_spec, Hvb, Hvk, Z.pow2_bits_eqb, Z.eqb_refl in Hbit by lia.
  discriminate.
Qed.

Section AttachPagingEndState.
Context {pgtable : Type} `{IoPgtable pgtable} `{IoPgtableDartCfg pgtable}
        `{Platform}.
Variable devm_memremap : Z -> Z -> Z.

(** X24. The first attach of a device with one unlocked unit to a paging
    domain, when finalize succeeds: the attach returns 0, the domain is
    finalized and holds the device's streams, and the hardware walks the
    engine's tables for every stream of the device: each TTBR the engine
    has a table for is valid and decodes to that table's address, the
    TTBRs left over are zero and the TCR enables translation with the
    engine's number of levels.  Memory is untouched. *)
Theorem attach_dev_paging_programs_streams :
  forall (fuel : nat) (w : world) (dd : Domain.t pgtable) (dev : nat)
         (cfg : MasterCfg.t) (acks : list bool) (p : nat)
         (dd1 : Domain.t pgtable) (w1 : world) (ops : pgtable),
    StreamMap.dart (MasterCfg.stream_maps cfg 0%nat) = Some p ->
    StreamMap.dart (MasterCfg.stream_maps cfg 1%nat) = None ->
    Dart.locked (darts w p) = false ->
    In (Dart.hw (darts w p)) apple_dart_of_match ->
    0 <= Dart.num_streams (darts w p)
      <= Hw.max_sid_count (Dart.hw (darts w p)) ->
    (forall q, 0 <= Dart.num_streams (darts w q)) ->
    Domain.finalized dd = false ->
    apple_dart_finalize_domain fuel (pm_get_stream_maps w cfg) dd dev cfg
    = Done (0, dd1, w1) ->
    Domain.pgtbl_ops dd1 = Some ops ->
    0 <= cfg_n_ttbrs ops <= Hw.ttbr_count (Dart.hw (darts w p)) ->
    (forall idx, 0 <= idx < cfg_n_ttbrs ops ->
       0 <= cfg_ttbr ops idx < 2 ^ 43 /\
       ttbr_misaligned (Dart.hw (darts w p)) (cfg_ttbr ops idx) = false) ->
    (Z.to_nat (Dart.num_streams (darts w p)) < length acks)%nat ->
    exists dd2 w' acks',
      apple_dart_attach_dev_paging devm_memremap fuel w dd dev cfg acks
      = Done (0, dd2, w', acks') /\
      Domain.finalized dd2 = true /\
      Domain.pgtbl_ops dd2 = Some ops /\
      mem w' = mem w /\
      forall sid,
        0 <= sid < Dart.num_streams (darts w p) ->
        Z.testbit (StreamMap.sidmap (MasterCfg.stream_maps cfg 0%nat)) sid
          = true ->
        Z.testbit (StreamMap.sidmap (Domain.stream_maps dd2 0%nat)) sid
          = true /\
        readl w' p (DART_TCR (darts w p) sid)
        = u32 (Z.lor (Hw.tcr_enabled (Dart.hw (darts w p)))
                     (if cfg_n_levels ops =? 4
                      then Hw.tcr_4level (Dart.hw (darts w p)) else 0)) /\
        (forall idx, 0 <= idx < cfg_n_ttbrs ops ->
           ttbr_phys (Dart.hw (darts w p))
                     (readl w' p (DART_TTBR (darts w p) sid idx))
           = cfg_ttbr ops idx /\
           Z.land (readl w' p (DART_TTBR (darts w p) sid idx))
                  (Hw.ttbr_valid (Dart.hw (darts w p))) <> 0) /\
        (forall idx,
           cfg_n_ttbrs ops <= idx < Hw.ttbr_count (Dart.hw (darts w p)) ->
           readl w' p (DART_TTBR (darts w p) sid idx) = 0).
Proof.
  intros fuel w dd dev cfg acks p dd1 w1 ops Hslot0 Hslot1 Hunl Hin Hn Hnn Hfin
         Hrun Hops Hnt Htbl Hl.
  destruct (finalize_frame _ _ _ _ _ _ _ _ Hrun) as (D1 & M1 & _).
  destruct (pm_get_stream_maps_effect _ w cfg) as (Dg & Mg & _).
  assert (Dw : darts w1 = darts w) by (rewrite D1; exact Dg).
  (* finalize has left the domain finalized, with the units of the config *)
  destruct (finalize_unfinalized_cases _ _ _ _ _ _ _ _ Hfin Hrun)
    as (p' & _ & _ & _ & [(_ & Hret & _) | (_ & evs & _ & Hcase)]);
    [discriminate |].
  destruct Hcase as [(Hret & _) | (Hfin1 & _)]; [discriminate |].
  pose proof (finalize_stream_map_units _ _ _ _ _ _ _ _ Hfin Hrun Hfin1)
    as Hunits.
  destruct (mod_streams_effect w1 (Domain.stream_maps dd1)
              (MasterCfg.stream_maps cfg) true Hunits)
    as (maps' & Hmod & Hdart & Hbits).
  { intros i q _ _. rewrite Dw. apply Hnn. }
  unfold apple_dart_attach_dev_paging. cbv zeta. rewrite Hrun.
  cbn [bind Z.eqb negb]. unfold apple_dart_domain_add_streams.
  rewrite Hmod. cbn [Z.eqb negb].
  unfold for_each_stream_map, MAX_DARTS_PER_DEVICE.
  cbn [stream_maps_from]. rewrite Hslot0, Hslot1. cbn [fold_exec fst snd].
  set (dd2 := Domain.set_stream_maps dd1 maps').
  destruct (setup_translation_unlocked devm_memremap w1 dd2
              (MasterCfg.stream_maps cfg 0%nat) acks ops p)
    as (w2 & acks2 & Hset & _ & Hsel & K);
    try (rewrite Dw; assumption); [exact Hops | exact Hslot0 |].
  rewrite Hset. cbn [bind fst snd].
  rewrite Dw in Hsel, K.
  exists dd2, (pm_put_stream_maps w2 cfg), acks2.
  split; [reflexivity |]. split; [exact Hfin1 |]. split; [exact Hops |].
  destruct (pm_put_stream_maps_effect w2 cfg) as (Dp & Mp & _).
  split.
  { rewrite Mp. destruct K as ((M2 & _) & _). rewrite M2, M1. exact Mg. }
  intros sid Hs Hb.
  assert (R : forall o, readl (pm_put_stream_maps w2 cfg) p o = readl w2 p o)
    by (intros o; unfold readl; rewrite Dp; reflexivity).
  destruct (Hsel sid Hs Hb) as (Ht & Hv & Hz).
  split; [| split; [| split]].
  - cbn [dd2 Domain.set_stream_maps Domain.stream_maps].
    rewrite (Hbits 0%nat p).
    + rewrite Hb. apply orb_true_r.
    + unfold MAX_DARTS_PER_DEVICE. lia.
    + intros k Hk. assert (k = 0%nat) by lia. subst k.
      rewrite Hunits by (unfold MAX_DARTS_PER_DEVICE; lia).
      rewrite Hslot0. discriminate.
    + rewrite Hunits by (unfold MAX_DARTS_PER_DEVICE; lia). exact Hslot0.
    + rewrite Dw. exact Hs.
  - rewrite R. exact Ht.
  - intros idx Hi. rewrite R, (Hv idx Hi).
    destruct (Htbl idx Hi) as [Hp Hal].
    apply ttbr_decodes; assumption.
  - intros idx Hi. rewrite R. apply Hz. exact Hi.
Qed.

End AttachPagingEndState.

Lemma attach_dev_paging_programs_streams_witness :
  exists dd2 w' acks',
    apple_dart_attach_dev_paging (fun _ _ => 0) 8 world_t8103 fresh_domain
      0%nat cfg_unit_0 (repeat true 17)
    = Done (0, dd2, w', acks') /\
    ttbr_phys apple_dart_hw_t8103
      (readl w' 0%nat (DART_TTBR (darts world_t8103 0%nat) 0 0))
    = 0x80004000.
Proof.
  pose (r := apple_dart_finalize_domain 8
               (pm_get_stream_maps world_t8103 cfg_unit_0) fresh_domain
               0%nat cfg_unit_0).
  pose (dd1 := match r with
               | Done (_, d, _) => d
               | _ => fresh_domain
               end).
  pose (w1 := match r with
              | Done (_, _, w) => w
              | _ => world_t8103
              end).
  pose (ops := match Domain.pgtbl_ops dd1 with
               | Some o => o
               | None => mkToy (PgtblCfg.mk 0 0 0 true 0%nat 0) []
               end).
  assert (Hrun : r = Done (0, dd1, w1)) by reflexivity.
  assert (Hops : Domain.pgtbl_ops dd1 = Some ops) by reflexivity.
  destruct (attach_dev_paging_programs_streams (fun _ _ => 0) 8 world_t8103
              fresh_domain 0%nat cfg_unit_0 (repeat true 17) 0%nat dd1 w1
              ops eq_refl eq_refl eq_refl)
    as (dd2 & w' & acks' & Hatt & _ & _ & _ & Hsel).
  - cbn. auto.
  - cbn. lia.
  - intros q. cbn. lia.
  - reflexivity.
  - exact Hrun.
  - exact Hops.
  - cbn. lia.
  - intros idx Hi. cbn in Hi. assert (idx = 0) by lia. subst idx.
    split; [cbn; lia | reflexivity].
  - cbn. lia.
  - exists dd2, w', acks'. split; [exact Hatt |].
    destruct (Hsel 0) as (_ & _ & Hv & _); [cbn; lia | reflexivity |].
    destruct (Hv 0) as [Hp _]; [cbn; lia |]. exact Hp.
Defined.

(** ** Allocating a paging domain *)

Section DomainAlloc.
Context {pgtable : Type} `{IoPgtable pgtable} `{Platform}.

(** X25. apple_dart_domain_alloc_paging writes no register and no memory.
    It returns NULL exactly when the allocation of the domain fails.
    Without a device it returns a zeroed, unfinalized domain, on which
    map_pages answers -ENODEV and iova_to_phys 0.  With a device its
    result is that of apple_dart_finalize_domain on the zeroed domain:
    where finalize returns 0, the domain as finalize left it, finalized
    and with a page table; where finalize returns an error, ERR_PTR of
    that error; the state is the one finalize left. *)
Theorem domain_alloc_paging_result :
  forall (fuel : nat) (w : world) (kzalloc_ok : bool)
         (dev : option (nat * MasterCfg.t)),
    (kzalloc_ok = false ->
     apple_dart_domain_alloc_paging fuel w kzalloc_ok dev
     = Done (NullPtr, w)) /\
    (kzalloc_ok = true -> dev = None ->
     apple_dart_domain_alloc_paging fuel w kzalloc_ok dev
     = Done (DomainPtr Domain.zero, w) /\
     forall iova paddr pgsize pgcount prot gfp mapped,
       apple_dart_map_pages Domain.zero iova paddr pgsize pgcount prot gfp
         mapped = (- ENODEV, mapped, Domain.zero) /\
       apple_dart_iova_to_phys Domain.zero iova = 0) /\
    (forall d cfg ret dd w',
       kzalloc_ok = true -> dev = Some (d, cfg) ->
       apple_dart_finalize_domain fuel w Domain.zero d cfg
       = Done (ret, dd, w') ->
       apple_dart_domain_alloc_paging fuel w kzalloc_ok dev
       = Done (if ret =? 0 then DomainPtr dd else ErrPtr ret, w') /\
       (ret = 0 ->
        Domain.finalized dd = true /\ Domain.pgtbl_ops dd <> None)) /\
    (forall r w',
       apple_dart_domain_alloc_paging fuel w kzalloc_ok dev = Done (r, w') ->
       darts w' = darts w /\ mem w' = mem w /\
       match r with
       | NullPtr => kzalloc_ok = false
       | ErrPtr e =>
           e <> 0 /\
           exists d cfg dd,
             dev = Some (d, cfg) /\
             apple_dart_finalize_domain fuel w Domain.zero d cfg
             = Done (e, dd, w')
       | DomainPtr dd =>
           kzalloc_ok = true /\
           (dev = None -> dd = Domain.zero) /\
           (forall d cfg, dev = Some (d, cfg) ->
              apple_dart_finalize_domain fuel w Domain.zero d cfg
              = Done (0, dd, w') /\
              Domain.finalized dd = true /\ Domain.pgtbl_ops dd <> None)
       end).
Proof.
  intros fuel w kzalloc_ok dev. unfold apple_dart_domain_alloc_paging.
  assert (Hfinal : forall d cfg dd w',
            apple_dart_finalize_domain fuel w Domain.zero d cfg
            = Done (0, dd, w') ->
            Domain.finalized dd = true /\ Domain.pgtbl_ops dd <> None).
  { intros d cfg dd w' Efin.
    destruct (finalize_unfinalized_cases fuel w Domain.zero d cfg 0 dd w'
                (eq_refl false) Efin)
      as (p & _ & _ & _ & [(_ & Hret & _) | (_ & evs & _ & Hcase)]);
      [discriminate |].
    destruct Hcase as [(Hret & _) | (Hf & Ho & _)]; [discriminate |].
    auto. }
  split; [intros ->; reflexivity |]. split.
  { intros -> ->. cbn [negb]. split; [reflexivity |].
    intros iova paddr pgsize pgcount prot gfp mapped. split; reflexivity. }
  split.
  { intros d cfg ret dd w' -> -> Efin. cbn [negb]. rewrite Efin.
    cbn [bind]. split.
    - destruct (ret =? 0); reflexivity.
    - intros ->. exact (Hfinal _ _ _ _ Efin). }
  intros r w' Hrun.
  destruct kzalloc_ok; cbn [negb] in Hrun.
  2:{ injection Hrun as <- <-. auto. }
  destruct dev as [[dev cfg] |].
  2:{ injection Hrun as <- <-. split; [reflexivity |].
      split; [reflexivity |]. split; [reflexivity |].
      split; [reflexivity |]. intros d cfg Hd. discriminate Hd. }
  destruct (apple_dart_finalize_domain fuel w Domain.zero dev cfg)
    as [[[ret d] w1] | | |] eqn:Efin; cbn [bind] in Hrun; try discriminate.
  destruct (finalize_frame _ _ _ _ _ _ _ _ Efin) as (D1 & M1 & _).
  destruct (negb (ret =? 0)) eqn:Er; injection Hrun as <- <-.
  - split; [exact D1 |]. split; [exact M1 |].
    apply negb_true_iff, Z.eqb_neq in Er. split; [exact Er |].
    exists dev, cfg, d. split; [reflexivity | exact Efin].
  - split; [exact D1 |]. split; [exact M1 |]. split; [reflexivity |].
    apply negb_false_iff, Z.eqb_eq in Er. subst ret.
    split; [intros Hd; discriminate Hd |].
    intros d0 cfg0 Hd. injection Hd as <- <-.
    split; [exact Efin |]. exact (Hfinal _ _ _ _ Efin).
Qed.

End DomainAlloc.

Lemma domain_alloc_paging_result_witness :
  (exists dd w',
     apple_dart_domain_alloc_paging (H := toy_engine) 8 world_t8103 true
       (Some (0%nat, cfg_unit_0))
     = Done (DomainPtr dd, w') /\
     Domain.finalized dd = true) /\
  (exists w',
     apple_dart_domain_alloc_paging (H := exhausted_engine) 8 world_t8103
       true (Some (0%nat, cfg_unit_0))
     = Done (ErrPtr (- ENOMEM), w')).
Proof.
  split.
  - assert (E : exists dd w',
                apple_dart_finalize_domain (H := toy_engine) 8 world_t8103
                  Domain.zero 0%nat cfg_unit_0
                = Done (0, dd, w'))
      by (eexists _, _; reflexivity).
    destruct E as (dd & w' & E).
    destruct (domain_alloc_paging_result (H := toy_engine) 8 world_t8103
                true (Some (0%nat, cfg_unit_0)))
      as (_ & _ & Hdev & _).
    destruct (Hdev 0%nat cfg_unit_0 0 dd w' eq_refl eq_refl E)
      as (Hrun & Hfin).
    exists dd, w'. split; [exact Hrun | apply Hfin; reflexivity].
  - assert (E : exists dd w',
                apple_dart_finalize_domain (H := exhausted_engine) 8
                  world_t8103 Domain.zero 0%nat cfg_unit_0
                = Done (- ENOMEM, dd, w'))
      by (eexists _, _; reflexivity).
    destruct E as (dd & w' & E).
    destruct (domain_alloc_paging_result (H := exhausted_engine) 8
                world_t8103 true (Some (0%nat, cfg_unit_0)))
      as (_ & _ & Hdev & _).
    destruct (Hdev 0%nat cfg_unit_0 (- ENOMEM) dd w' eq_refl eq_refl E)
      as (Hrun & _).
    exists w'. exact Hrun.
Defined.

(** ** Locked units: setting up translation *)

Lemma regs_kept_refl : forall w, regs_kept w w.
Proof.
  intros w. split; [intros q; apply dart_same_but_tables_refl |].
  exists []. rewrite app_nil_r. auto.
Qed.

Lemma regs_kept_trans : forall w1 w2 w3,
  regs_kept w1 w2 -> regs_kept w2 w3 -> regs_kept w1 w3.
Proof.
  intros w1 w2 w3 (A1 & e1 & L1 & F1) (A2 & e2 & L2 & F2). split.
  - intros q. apply (dart_same_but_tables_trans _ (darts w2 q)); auto.
  - exists (e1 ++ e2). rewrite L2, L1, app_assoc. split; [reflexivity |].
    rewrite forallb_app, F1, F2. reflexivity.
Qed.

Lemma regs_kept_diag : forall w w', diag_extends w w' -> regs_kept w w'.
Proof.
  intros w w' (D & _ & evs & L & F). split.
  - intros q. rewrite D. apply dart_same_but_tables_refl.
  - exists evs. split; [exact L |]. apply forallb_forall. intros e He.
    rewrite forallb_forall in F. apply is_diag_neutral, F, He.
Qed.

Lemma regs_kept_cleared : forall w w', tables_cleared w w' -> regs_kept w w'.
Proof.
  intros w w' (A & _ & _ & _ & _ & evs & L & F). split; [exact A |].
  exists evs. split; [exact L |]. apply forallb_forall. intros e He.
  rewrite forallb_forall in F. apply is_unmap_neutral, F, He.
Qed.

Lemma regs_kept_set_mem : forall w m, regs_kept w (set_mem w m).
Proof.
  intros w m. split; [intros q; apply dart_same_but_tables_refl |].
  exists []. rewrite app_nil_r. auto.
Qed.

Lemma regs_kept_set_tables : forall w p l s,
  regs_kept w
    (set_dart w p
       (Dart.set_shadow_ttbr (Dart.set_locked_ttbr (darts w p) l) s)).
Proof.
  intros w p l s. split.
  - intros q. cbn [set_dart darts]. destruct (Nat.eqb q p) eqn:E;
      [| apply dart_same_but_tables_refl].
    apply Nat.eqb_eq in E. subst q. unfold dart_same_but_tables. cbn.
    repeat split.
  - exists []. rewrite app_nil_r. auto.
Qed.

Lemma regs_kept_readl : forall w w' q o,
  regs_kept w w' -> readl w' q o = readl w q o.
Proof.
  intros w w' q o (A & _). unfold readl.
  destruct (A q) as (_ & E & _). rewrite E. reflexivity.
Qed.

Lemma set_locked_ttbr_loop_kept : forall memremap p idx paddr sids w,
  regs_kept w (snd (set_locked_ttbr_loop memremap p idx paddr sids w)).
Proof.
  intros memremap p idx paddr sids.
  induction sids as [| sid sids IH]; intros w.
  - apply regs_kept_refl.
  - cbn [set_locked_ttbr_loop]. cbv zeta.
    set (w1 := WARN_ON _ w).
    assert (K1 : regs_kept w w1).
    { apply regs_kept_diag. apply diag_extends_WARN_ON.
      apply diag_extends_refl. }
    destruct (memremap _ _ =? 0); [exact K1 |].
    destruct (memremap _ _ =? 0); [exact K1 |].
    apply (regs_kept_trans _ w1); [exact K1 |].
    match goal with
    | |- regs_kept _ (snd (set_locked_ttbr_loop _ _ _ _ _ ?w2)) =>
        apply (regs_kept_trans _ w2); [| apply IH]
    end.
    split.
    + intros q. cbn [set_dart darts]. destruct (Nat.eqb q p) eqn:E;
        [| apply dart_same_but_tables_refl].
      apply Nat.eqb_eq in E. subst q. rewrite Nat.eqb_refl.
      unfold dart_same_but_tables. cbn. repeat split.
    + exists []. rewrite app_nil_r. auto.
Qed.

Lemma fold_exec_kept : forall (A : Type) (f : world -> A -> exec world) l,
  (forall x w, In x l -> exists w', f w x = Done w' /\ regs_kept w w') ->
  forall w, exists w', fold_exec f l w = Done w' /\ regs_kept w w'.
Proof.
  intros A f l. induction l as [| x l IH]; intros Hf w.
  - exists w. split; [reflexivity | apply regs_kept_refl].
  - cbn [fold_exec].
    destruct (Hf x w (or_introl eq_refl)) as (w1 & E & K1).
    rewrite E. cbn [bind].
    destruct (IH (fun y a Hy => Hf y a (or_intror Hy)) w1)
      as (w' & E' & K2).
    exists w'. split; [exact E' |].
    apply (regs_kept_trans _ w1); assumption.
Qed.

Lemma clear_locked_ttbr_kept : forall w sm p idx,
  StreamMap.dart sm = Some p ->
  exists w',
    apple_dart_hw_clear_locked_ttbr w sm idx = Done (0, w') /\
    regs_kept w w'.
Proof.
  intros w sm p idx Hd. unfold apple_dart_hw_clear_locked_ttbr.
  rewrite Hd. cbn [bind deref]. cbv zeta. eexists. split; [reflexivity |].
  set (w1 := WARN_ON _ w).
  apply (regs_kept_trans _ w1).
  { apply regs_kept_diag, diag_extends_WARN_ON, diag_extends_refl. }
  generalize (for_each_set_bit (StreamMap.sidmap sm)
                (Dart.num_streams (darts w p))).
  intros sids. clearbody w1. revert w1.
  induction sids as [| s sids IH]; intros w1.
  - apply regs_kept_refl.
  - cbn [fold_left]. apply (regs_kept_trans _ (clear_locked_ttbr_sid p idx
                                                 w1 s)); [| apply IH].
    unfold clear_locked_ttbr_sid. cbv zeta.
    set (a := if Dart.locked_ttbr (darts w1 p) s idx =? 0 then w1 else _).
    assert (Ka : regs_kept w1 a).
    { unfold a. destruct (Dart.locked_ttbr (darts w1 p) s idx =? 0).
      - apply regs_kept_refl.
      - split; [intros q; apply dart_same_but_tables_refl |].
        cbn [emit set_mem log]. eexists. rewrite <- app_assoc.
        split; reflexivity. }
    set (b := set_dart a p _).
    assert (Kb : regs_kept a b).
    { split; [| exists []; rewrite app_nil_r; auto].
      intros q. cbn [b set_dart darts]. destruct (Nat.eqb q p) eqn:E;
        [| apply dart_same_but_tables_refl].
      apply Nat.eqb_eq in E. subst q. unfold dart_same_but_tables. cbn.
      repeat split. }
    set (c := if Dart.shadow_ttbr (darts b p) s idx =? 0 then b else _).
    assert (Kc : regs_kept b c).
    { unfold c. destruct (Dart.shadow_ttbr (darts b p) s idx =? 0).
      - apply regs_kept_refl.
      - split; [intros q; apply dart_same_but_tables_refl |].
        cbn [emit log]. eexists. split; reflexivity. }
    apply (regs_kept_trans _ a); [exact Ka |].
    apply (regs_kept_trans _ b); [exact Kb |].
    apply (regs_kept_trans _ c); [exact Kc |].
    split; [| exists []; rewrite app_nil_r; auto].
    intros q. cbn [set_dart darts]. destruct (Nat.eqb q p) eqn:E;
      [| apply dart_same_but_tables_refl].
    apply Nat.eqb_eq in E. subst q. unfold dart_same_but_tables. cbn.
    repeat split.
Qed.

Section SetupTranslationLocked.
Context {pgtable : Type} `{IoPgtableDartCfg pgtable}.
Variable devm_memremap : Z -> Z -> Z.

(** X26. On a locked unit apple_dart_setup_translation writes no TCR and
    no TTBR: it goes through (table mappings that fail are passed over),
    and the only registers it writes are those of the TLB invalidation.
    On every supported generation each stream's TCR and every TTBR read
    as before; of a unit nothing but table pointers and those registers
    changes. *)
Theorem setup_translation_locked_keeps_registers :
  forall (w : world) (dd : Domain.t pgtable) (sm : StreamMap.t)
         (acks : list bool) (ops : pgtable) (p : nat),
  Domain.pgtbl_ops dd = Some ops ->
  StreamMap.dart sm = Some p ->
  Dart.locked (darts w p) = true ->
  In (Dart.hw (darts w p)) apple_dart_of_match ->
  0 <= Dart.num_streams (darts w p)
    <= Hw.max_sid_count (Dart.hw (darts w p)) ->
  (Z.to_nat (Dart.num_streams (darts w p)) < length acks)%nat ->
  exists w' acks',
    apple_dart_setup_translation devm_memremap w dd sm acks
    = Done (w', acks') /\
    (forall q o, q <> p \/ ~ tlb_regs (darts w p) o ->
                 readl w' q o = readl w q o) /\
    (forall sid, 0 <= sid < Dart.num_streams (darts w p) ->
       readl w' p (DART_TCR (darts w p) sid)
       = readl w p (DART_TCR (darts w p) sid) /\
       forall idx, 0 <= idx < Hw.ttbr_count (Dart.hw (darts w p)) ->
         readl w' p (DART_TTBR (darts w p) sid idx)
         = readl w p (DART_TTBR (darts w p) sid idx)) /\
    (forall q,
       Dart.hw (darts w' q) = Dart.hw (darts w q) /\
       Dart.num_streams (darts w' q) = Dart.num_streams (darts w q) /\
       Dart.locked (darts w' q) = Dart.locked (darts w q) /\
       Dart.pgsize (darts w' q) = Dart.pgsize (darts w q)) /\
    logs_under p w w'.
Proof.
  intros w dd sm acks ops p Hops Hd Hlk Hin Hn Hl.
  unfold apple_dart_setup_translation. rewrite Hops, Hd.
  cbn [bind deref]. cbv zeta. rewrite Hlk.
  destruct (fold_exec_kept _
              (fun w i =>
                 r <- apple_dart_hw_set_locked_ttbr devm_memremap w sm
                        (u8 i) (cfg_ttbr ops i) ;;
                 Done (snd r))
              (upto (cfg_n_ttbrs ops))) with (w := w)
    as (wa & Ea & Ka).
  { intros i a _. unfold apple_dart_hw_set_locked_ttbr. rewrite Hd.
    cbn [bind deref]. cbv zeta. eexists. split; [reflexivity |].
    match goal with
    | |- regs_kept _ (snd (set_locked_ttbr_loop _ _ _ _ _ ?w2)) =>
        apply (regs_kept_trans _ w2);
          [| apply set_locked_ttbr_loop_kept]
    end.
    apply regs_kept_diag. do 2 apply diag_extends_WARN_ON.
    apply diag_extends_refl. }
  rewrite Ea. cbn [bind].
  destruct (fold_exec_kept _
              (fun w i =>
                 r <- apple_dart_hw_clear_locked_ttbr w sm (u8 i) ;;
                 Done (snd r))
              (from_to (cfg_n_ttbrs ops)
                       (Hw.ttbr_count (Dart.hw (darts w p)))))
    with (w := wa) as (wb & Eb & Kb).
  { intros i a _.
    destruct (clear_locked_ttbr_kept a sm p (u8 i) Hd) as (a' & E & K).
    rewrite E. cbn [bind snd]. exists a'. auto. }
  rewrite Eb. cbn [bind].
  unfold apple_dart_hw_sync_locked. rewrite Hd. cbn [bind deref snd].
  set (wc := set_mem _ _).
  assert (Kc : regs_kept wb wc).
  { unfold wc.
    match goal with
    | |- regs_kept _ (set_mem ?x _) =>
        apply (regs_kept_trans _ x);
          [apply regs_kept_diag, diag_extends_WARN_ON, diag_extends_refl
          | apply regs_kept_set_mem]
    end. }
  assert (K : regs_kept w wc).
  { apply (regs_kept_trans _ wa); [exact Ka |].
    apply (regs_kept_trans _ wb); assumption. }
  assert (En : Dart.num_streams (darts wc p) = Dart.num_streams (darts w p)).
  { destruct K as (A & _). apply (A p). }
  destruct (invalidate_tlb_total wc sm p acks Hd)
    as (ret & w' & acks' & Hrun & _ & _ & Kd).
  { rewrite En. exact Hl. }
  rewrite Hrun. cbn [bind]. rewrite En in Kd.
  fold (tlb_regs (darts w p)) in Kd.
  exists w', acks'. split; [reflexivity |].
  assert (R : forall q o, q <> p \/ ~ tlb_regs (darts w p) o ->
                          readl w' q o = readl w q o).
  { intros q o Hm. rewrite (writes_within_readl _ _ _ _ _ _ Kd Hm).
    apply regs_kept_readl. exact K. }
  split; [exact R |]. split.
  { intros sid Hs. split.
    - apply R. right. apply tlb_regs_not_tcr; assumption.
    - intros idx Hi. apply R. right. apply tlb_regs_not_ttbr; assumption. }
  split.
  { intros q. destruct K as (A & _).
    destruct (A q) as (E1 & _ & _ & _ & E2 & E3 & _ & E4 & _).
    destruct (writes_within_same _ _ _ _ q Kd)
      as (F1 & _ & _ & F2 & F3 & _ & F4 & _).
    rewrite F1, F2, F3, F4. auto. }
  destruct K as (_ & evs & L & F).
  apply (logs_under_trans _ _ wc).
  - exists evs. split; [exact L |]. apply Forall_forall. intros e He.
    left. rewrite forallb_forall in F. apply F, He.
  - apply (logs_under_writes _ _ _ _ Kd).
Qed.

End SetupTranslationLocked.

Lemma setup_translation_locked_keeps_registers_witness :
  exists w' acks',
    apple_dart_setup_translation (fun _ _ => 0) world_t8110_locked
      toy_domain stream_0 (repeat true 17)
    = Done (w', acks') /\
    readl w' 0%nat (DART_TTBR (darts world_t8110_locked 0%nat) 0 0) = 0x11.
Proof.
  destruct (setup_translation_locked_keeps_registers (fun _ _ => 0)
              world_t8110_locked toy_domain stream_0 (repeat true 17)
              (mkToy (PgtblCfg.mk SZ_16K 32 36 true 0%nat 3)
                     [(0x4000, 0x80000)])
              0%nat eq_refl eq_refl eq_refl)
    as (w' & acks' & Hrun & _ & Hregs & _).
  - cbn. auto.
  - cbn. lia.
  - cbn. lia.
  - exists w', acks'. split; [exact Hrun |].
    destruct (Hregs 0) as [_ Ht]; [cbn; lia |].
    rewrite Ht by (cbn; lia). reflexivity.
Defined.

(** ** Probe *)

Lemma DMA_BIT_MASK_range : forall n, 0 <= DMA_BIT_MASK n < 2 ^ 64.
Proof.
  intros n. unfold DMA_BIT_MASK, u64. destruct (n =? 64); [lia |].
  apply Z.mod_pos_bound. lia.
Qed.

Lemma land_not64 : forall m, 0 <= m < 2 ^ 64 -> Z.land m (not64 m) = 0.
Proof.
  intros m Hm. unfold not64. apply Z.bits_inj'. intros i Hi.
  rewrite Z.land_spec, Z.lxor_spec, Z.bits_0.
  change (2 ^ 64 - 1) with (Z.ones 64).
  destruct (Z.ltb_spec i 64) as [Hlt | Hge].
  - rewrite Z.ones_spec_low by lia. destruct (Z.testbit m i); reflexivity.
  - rewrite <- (Z.mod_small m (2 ^ 64)) by lia.
    rewrite Z.mod_pow2_bits_high by lia. reflexivity.
Qed.

Lemma FIELD_GET_nonneg : forall mask shift val,
  0 <= mask -> 0 <= FIELD_GET mask shift val.
Proof.
  intros mask shift val Hm. unfold FIELD_GET. apply Z.shiftr_nonneg.
  apply Z.land_nonneg. right. exact Hm.
Qed.

Lemma hw_reset_frame : forall w p acks,
  In (Dart.hw (darts w p)) apple_dart_of_match ->
  0 <= Dart.num_streams (darts w p)
    <= Hw.max_sid_count (Dart.hw (darts w p)) ->
  (Z.to_nat (Dart.num_streams (darts w p)) < length acks)%nat ->
  exists ret w' acks',
    apple_dart_hw_reset w p acks = Done (ret, w', acks') /\
    (ret = 0 \/ ret = - ETIMEDOUT) /\
    only_regs_changed w w' /\
    (forall q o, q <> p -> readl w' q o = readl w q o).
Proof.
  intros w p acks Hin Hn Hl.
  destruct (hw_reset_phases w p acks Hin Hn Hl)
    as (w1 & w2 & w3 & ret & w' & acks' & Hrun & Hret & K1 & _ & K2 & _
        & K3 & _ & K4).
  exists ret, w', acks'. split; [exact Hrun |]. split; [exact Hret |]. split.
  - apply (only_regs_changed_trans _ w1); [apply K1 |].
    apply (only_regs_changed_trans _ w2); [apply K2 |].
    apply (only_regs_changed_trans _ w3); [apply K3 | apply K4].
  - intros q o Hq.
    rewrite (writes_within_readl _ _ _ _ _ _ K4),
            (writes_within_readl _ _ _ _ _ _ K3),
            (writes_within_readl _ _ _ _ _ _ K2),
            (writes_within_readl _ _ _ _ _ _ K1)
      by (left; exact Hq).
    reflexivity.
Qed.

Lemma darts_set_dart_same : forall w p d, darts (set_dart w p d) p = d.
Proof. intros w p d. cbn. rewrite Nat.eqb_refl. reflexivity. Qed.

Lemma darts_set_dart_other : forall w p d q,
  q <> p -> darts (set_dart w p d) q = darts w q.
Proof.
  intros w p d q Hq. cbn. destruct (Nat.eqb q p) eqn:E; [| reflexivity].
  apply Nat.eqb_eq in E. contradiction.
Qed.

Lemma probe_read_params_effect : forall w p,
  In (Dart.hw (darts w p)) apple_dart_of_match ->
  let d := darts w p in
  let d' := darts (probe_read_params w p) p in
  Dart.hw d' = Dart.hw d /\ Dart.regs d' = Dart.regs d /\
  0 <= Dart.num_streams d' /\
  (Dart.num_streams d' <= DART_MAX_STREAMS ->
   Dart.num_streams d' <= Hw.max_sid_count (Dart.hw d)) /\
  Dart.dma_min d' = 0 /\ Dart.dma_max d' = DMA_BIT_MASK (Dart.ias d') /\
  Dart.locked d' = Dart.locked d /\
  Dart.locked_ttbr d' = Dart.locked_ttbr d /\
  Dart.shadow_ttbr d' = Dart.shadow_ttbr d /\
  mem (probe_read_params w p) = mem w /\
  log (probe_read_params w p) = log w /\
  (forall q, q <> p -> darts (probe_read_params w p) q = darts w q).
Proof.
  intros w p Hin d d'. subst d d'. unfold probe_read_params. cbv zeta.
  rewrite darts_set_dart_same.
  assert (Hq : forall d0 q, q <> p -> darts (set_dart w p d0) q = darts w q)
    by (intros; apply darts_set_dart_other; assumption).
  assert (Hnn : 0 <= FIELD_GET DART_T8110_PARAMS4_NUM_SIDS 0
                     (u32 (readl w p DART_T8110_PARAMS4)))
    by (apply FIELD_GET_nonneg; unfold DART_T8110_PARAMS4_NUM_SIDS; lia).
  destruct Hin as [E | [E | [E | [E | []]]]]; rewrite <- E;
    cbn [Hw.type apple_dart_hw_t8103 apple_dart_hw_t8103_usb4
         apple_dart_hw_t6000 apple_dart_hw_t8110 Dart.hw Dart.regs
         Dart.num_streams Dart.dma_min Dart.dma_max Dart.ias Dart.locked
         Dart.locked_ttbr Dart.shadow_ttbr Hw.max_sid_count];
    (split; [reflexivity |]); (split; [reflexivity |]);
    (split; [first [exact Hnn | unfold u32; apply Z.mod_pos_bound; lia] |]);
    (split; [unfold DART_MAX_STREAMS;
             first [intros Hle; exact Hle
                   | intros _; change (u32 16) with 16; lia
                   | intros _; change (u32 64) with 64; lia] |]);
    (split; [reflexivity |]); (split; [reflexivity |]);
    (split; [reflexivity |]); (split; [reflexivity |]);
    (split; [reflexivity |]); (split; [reflexivity |]);
    (split; [reflexivity |]); intros q Hne; apply Hq; exact Hne.
Qed.

Lemma probe_dma_range_effect : forall env w p w' leave,
  probe_dma_range env w p = (w', leave) ->
  Dart.dma_min (darts w p) = 0 ->
  Dart.dma_max (darts w p) = DMA_BIT_MASK (Dart.ias (darts w p)) ->
  let d := darts w p in
  let d' := darts w' p in
  Dart.hw d' = Dart.hw d /\ Dart.regs d' = Dart.regs d /\
  Dart.ias d' = Dart.ias d /\
  Dart.num_streams d' = Dart.num_streams d /\
  Dart.locked d' = Dart.locked d /\
  Dart.locked_ttbr d' = Dart.locked_ttbr d /\
  Dart.shadow_ttbr d' = Dart.shadow_ttbr d /\
  mem w' = mem w /\
  (forall q, q <> p -> darts w' q = darts w q) /\
  (leave = None ->
   Z.land (Z.lxor (Dart.dma_min d') (Dart.dma_max d'))
          (not64 (DMA_BIT_MASK (Dart.ias d'))) = 0).
Proof.
  intros env w p w' leave Hrun Hmin Hmax. cbv zeta.
  unfold probe_dma_range in Hrun.
  destruct (ProbeEnv.dma_range env) as [ret [range0 range1]].
  destruct (ret =? - EINVAL).
  { inversion Hrun; subst w' leave. do 8 (split; [reflexivity |]).
    split; [reflexivity |]. intros _. rewrite Hmin, Hmax, Z.lxor_0_l.
    apply land_not64, DMA_BIT_MASK_range. }
  destruct (negb (ret =? 0)).
  { inversion Hrun; subst w' leave. do 8 (split; [reflexivity |]).
    split; [reflexivity |]. intros Hn. discriminate Hn. }
  cbv zeta in Hrun. rewrite darts_set_dart_same in Hrun.
  cbn [set_dma_window Dart.ias] in Hrun.
  destruct (Z.land (Z.lxor (u64 range0) (u64 (range0 + range1 - 1)))
              (not64 (DMA_BIT_MASK (Dart.ias (darts w p)))) =? 0) eqn:Ec;
    cbn [negb] in Hrun; inversion Hrun; subst w' leave;
    cbn [emit darts mem]; rewrite darts_set_dart_same;
    cbn [set_dma_window Dart.hw Dart.regs Dart.ias Dart.num_streams
         Dart.locked Dart.locked_ttbr Dart.shadow_ttbr Dart.dma_min
         Dart.dma_max];
    do 8 (split; [reflexivity |]);
    (split; [intros q Hq; apply darts_set_dart_other; exact Hq |]).
  - intros _. apply Z.eqb_eq. exact Ec.
  - intros Hn. discriminate Hn.
Qed.

Lemma probe_register_effect : forall env w p acks,
  In (Dart.hw (darts w p)) apple_dart_of_match ->
  0 <= Dart.num_streams (darts w p) ->
  (Dart.num_streams (darts w p) <= DART_MAX_STREAMS ->
   Dart.num_streams (darts w p) <= Hw.max_sid_count (Dart.hw (darts w p))) ->
  (256 < length acks)%nat ->
  exists r w' acks',
    probe_register env w p acks = Done (r, w', acks') /\
    mem w' = mem w /\
    (forall q o, q <> p -> readl w' q o = readl w q o) /\
    (Probed.registered r = true ->
     Probed.ret r = 0 /\ Probed.clks_enabled r = true /\
     Probed.irq_requested r = true /\
     Dart.num_streams (darts w p) <= DART_MAX_STREAMS /\
     dart_same_but_regs (set_locked (darts w p) (apple_dart_is_locked w p))
                        (darts w' p)) /\
    (Probed.registered r = false ->
     Probed.clks_enabled r = false /\ Probed.irq_requested r = false).
Proof.
  intros env w p acks Hin Hn0 Hn Hl. unfold probe_register, err_clk_disable.
  assert (Hother : forall d q o,
            q <> p -> readl (set_dart w p d) q o = readl w q o).
  { intros d q o Hq. unfold readl. rewrite darts_set_dart_other by exact Hq.
    reflexivity. }
  destruct (DART_MAX_STREAMS <? Dart.num_streams (darts w p)) eqn:Emax.
  { eexists _, _, _. split; [reflexivity |]. split; [reflexivity |].
    split; [reflexivity |]. split; [intros Hr; discriminate Hr |].
    intros _. split; reflexivity. }
  apply Z.ltb_ge in Emax. specialize (Hn Emax). cbv zeta.
  set (lk := apple_dart_is_locked w p).
  set (w1 := set_dart w p (set_locked (darts w p) lk)).
  assert (Hd1 : darts w1 p = set_locked (darts w p) lk)
    by apply darts_set_dart_same.
  assert (Hrun : exists ret w2 acks2,
            (if lk then Done (0, w1, acks)
             else apple_dart_hw_reset w1 p acks) = Done (ret, w2, acks2) /\
            only_regs_changed w1 w2 /\
            (forall q o, q <> p -> readl w2 q o = readl w1 q o)).
  { destruct lk.
    - exists 0, w1, acks. split; [reflexivity |].
      split; [apply only_regs_changed_refl | reflexivity].
    - destruct (hw_reset_frame w1 p acks)
        as (ret & w2 & acks2 & Hr & _ & Ho & Hf).
      + rewrite Hd1. exact Hin.
      + rewrite Hd1. cbn [set_locked Dart.num_streams Dart.hw]. lia.
      + rewrite Hd1. cbn [set_locked Dart.num_streams].
        unfold DART_MAX_STREAMS in Emax. lia.
      + exists ret, w2, acks2. auto. }
  destruct Hrun as (ret & w2 & acks2 & Hr & [Hm Ho] & Hf).
  rewrite Hr. cbn [bind].
  assert (Hregs : forall q o, q <> p -> readl w2 q o = readl w q o).
  { intros q o Hq. rewrite Hf by exact Hq. apply Hother. exact Hq. }
  assert (Hfail : forall v,
            exists (r : Probed.t) (w' : world) (acks' : list bool),
              Done (Probed.mk v false false false, emit (EvPmPut p) w2,
                    acks2)
              = Done (r, w', acks') /\
              mem w' = mem w /\
              (forall q o, q <> p -> readl w' q o = readl w q o) /\
              (Probed.registered r = true ->
               Probed.ret r = 0 /\ Probed.clks_enabled r = true /\
               Probed.irq_requested r = true /\
               Dart.num_streams (darts w p) <= DART_MAX_STREAMS /\
               dart_same_but_regs (set_locked (darts w p) lk) (darts w' p)) /\
              (Probed.registered r = false ->
               Probed.clks_enabled r = false /\
               Probed.irq_requested r = false)).
  { intros v. eexists _, _, _. split; [reflexivity |].
    split; [exact Hm |]. split; [exact Hregs |].
    split; [intros Hr'; discriminate Hr' |]. intros _. split; reflexivity. }
  destruct (negb (ret =? 0)); [apply Hfail |].
  destruct (negb (ProbeEnv.request_irq env =? 0)); [apply Hfail |].
  destruct (negb (ProbeEnv.iommu_device_sysfs_add env =? 0));
    [apply Hfail |].
  destruct (negb (ProbeEnv.iommu_device_register env =? 0));
    [apply Hfail |].
  eexists _, _, _. split; [reflexivity |].
  split; [exact Hm |]. split; [exact Hregs |]. split.
  - intros _. do 3 (split; [reflexivity |]). split; [exact Emax |].
    cbn [emit darts]. rewrite <- Hd1. apply Ho.
  - intros Hr'. discriminate Hr'.
Qed.

(** X27. apple_dart_probe returns on every path (given answers for up to
    256 polls of the reset), touches no memory and no other unit's
    registers.  When it leaves the unit registered it returns 0 with the
    clocks on and the interrupt requested, and the unit's state is
    consistent: the descriptor is the matched one, num_streams lies within
    the descriptor's max_sid_count (at most DART_MAX_STREAMS), the DMA
    window fits the input address size (dma_min and dma_max agree above
    bit ias), locked is the lock bit as the hardware showed it, and no
    locked table is mapped.  When it does not, clocks and interrupt are
    released. *)
Theorem probe_registered_state : forall env w p acks,
  In (ProbeEnv.match_data env) apple_dart_of_match ->
  (256 < length acks)%nat ->
  exists r w' acks',
    apple_dart_probe env w p acks = Done (r, w', acks') /\
    mem w' = mem w /\
    (forall q o, q <> p -> readl w' q o = readl w q o) /\
    (Probed.registered r = true ->
     let d := darts w' p in
     let hw := ProbeEnv.match_data env in
     Probed.ret r = 0 /\ Probed.clks_enabled r = true /\
     Probed.irq_requested r = true /\
     Dart.hw d = hw /\
     0 <= Dart.num_streams d <= Hw.max_sid_count hw /\
     Dart.num_streams d <= DART_MAX_STREAMS /\
     Z.land (Z.lxor (Dart.dma_min d) (Dart.dma_max d))
            (not64 (DMA_BIT_MASK (Dart.ias d))) = 0 /\
     Dart.locked d
     = negb (Z.land (readl w p (Hw.lock hw)) (Hw.lock_bit hw) =? 0) /\
     (forall sid idx, Dart.locked_ttbr d sid idx = 0 /\
                      Dart.shadow_ttbr d sid idx = 0)) /\
    (Probed.registered r = false ->
     Probed.clks_enabled r = false /\ Probed.irq_requested r = false).
Proof.
  intros env w p acks Hin Hl.
  unfold apple_dart_probe, probe_returns, err_clk_disable.
  set (hw := ProbeEnv.match_data env) in *.
  set (w0 := set_dart w p (probe_alloc hw (Dart.regs (darts w p)))).
  assert (Hd0 : darts w0 p = probe_alloc hw (Dart.regs (darts w p)))
    by apply darts_set_dart_same.
  assert (Hr0 : forall q o, readl w0 q o = readl w q o).
  { intros q o. unfold readl, w0. cbn [set_dart darts].
    destruct (Nat.eqb q p) eqn:E; [| reflexivity].
    apply Nat.eqb_eq in E. subst q. reflexivity. }
  assert (Hfail : forall v wx,
            mem wx = mem w ->
            (forall q o, q <> p -> readl wx q o = readl w q o) ->
            exists (r : Probed.t) (w' : world) (acks' : list bool),
              Done (Probed.mk v false false false, wx, acks)
              = Done (r, w', acks') /\
              mem w' = mem w /\
              (forall q o, q <> p -> readl w' q o = readl w q o) /\
              (Probed.registered r = true ->
               let d := darts w' p in
               Probed.ret r = 0 /\ Probed.clks_enabled r = true /\
               Probed.irq_requested r = true /\
               Dart.hw d = hw /\
               0 <= Dart.num_streams d <= Hw.max_sid_count hw /\
               Dart.num_streams d <= DART_MAX_STREAMS /\
               Z.land (Z.lxor (Dart.dma_min d) (Dart.dma_max d))
                      (not64 (DMA_BIT_MASK (Dart.ias d))) = 0 /\
               Dart.locked d
               = negb (Z.land (readl w p (Hw.lock hw)) (Hw.lock_bit hw)
                       =? 0) /\
               (forall sid idx, Dart.locked_ttbr d sid idx = 0 /\
                                Dart.shadow_ttbr d sid idx = 0)) /\
              (Probed.registered r = false ->
               Probed.clks_enabled r = false /\
               Probed.irq_requested r = false)).
  { intros v wx Hm Hr. eexists _, _, _. split; [reflexivity |].
    split; [exact Hm |]. split; [exact Hr |].
    split; [intros Hreg; discriminate Hreg |]. intros _. split; reflexivity. }
  destruct (negb (ProbeEnv.devm_kzalloc env));
    [apply Hfail; [reflexivity | reflexivity] |].
  destruct (ProbeEnv.ioremap env) as [err | size];
    [apply Hfail; [reflexivity | reflexivity] |].
  cbv zeta. fold w0.
  set (w0g := emit (EvPmGet p) w0).
  assert (Hd0g : darts w0g p = probe_alloc hw (Dart.regs (darts w p)))
    by exact Hd0.
  assert (Hr0g : forall q o, readl w0g q o = readl w q o) by exact Hr0.
  destruct (size <? 16384);
    [apply Hfail; [reflexivity | intros q o _; apply Hr0] |].
  destruct (ProbeEnv.platform_get_irq env <? 0);
    [apply Hfail; [reflexivity | intros q o _; apply Hr0] |].
  destruct (ProbeEnv.devm_clk_bulk_get_all env <? 0);
    [apply Hfail; [reflexivity | intros q o _; apply Hr0] |].
  destruct (negb (ProbeEnv.clk_bulk_prepare_enable env =? 0));
    [apply Hfail; [reflexivity | intros q o _; apply Hr0] |].
  destruct (negb (ProbeEnv.devm_pm_runtime_enable env =? 0));
    [apply Hfail; [reflexivity | intros q o _; apply Hr0] |].
  assert (Hin0 : In (Dart.hw (darts w0g p)) apple_dart_of_match)
    by (rewrite Hd0g; exact Hin).
  pose proof (probe_read_params_effect w0g p Hin0) as Hp. cbv zeta in Hp.
  set (w1 := probe_read_params w0g p) in *.
  destruct Hp as (Hhw1 & Hregs1 & Hn1 & Hmax1 & Hmin1 & Hdmax1 & Hlk1 & Hlt1
                  & Hst1 & Hm1 & _ & Hq1).
  destruct (probe_dma_range env w1 p) as [w2 leave] eqn:Edr.
  pose proof (probe_dma_range_effect _ _ _ _ _ Edr Hmin1 Hdmax1) as Hd.
  cbv zeta in Hd.
  destruct Hd as (Hhw2 & Hregs2 & Hias2 & Hn2 & Hlk2 & Hlt2 & Hst2 & Hm2
                  & Hq2 & Hwin).
  assert (Hmem2 : mem w2 = mem w) by (rewrite Hm2, Hm1; reflexivity).
  assert (Hr2 : forall q o, readl w2 q o = readl w q o).
  { intros q o. rewrite <- Hr0g. unfold readl.
    destruct (Nat.eq_dec q p) as [-> | Hq].
    - rewrite Hregs2, Hregs1. reflexivity.
    - rewrite Hq2, Hq1 by exact Hq. reflexivity. }
  destruct leave as [ret |];
    [apply Hfail; [exact Hmem2 | intros q o _; apply Hr2] |].
  assert (Hhw : Dart.hw (darts w2 p) = hw)
    by (rewrite Hhw2, Hhw1, Hd0g; reflexivity).
  destruct (probe_register_effect env w2 p acks)
    as (r & w' & acks' & Hrun & Hm & Hq & Hok & Hnot).
  - rewrite Hhw. exact Hin.
  - rewrite Hn2. exact Hn1.
  - rewrite Hn2, Hhw2, Hhw1. exact Hmax1.
  - exact Hl.
  - exists r, w', acks'. split; [exact Hrun |].
    split; [rewrite Hm; exact Hmem2 |].
    split; [intros q o Hne; rewrite Hq by exact Hne; apply Hr2 |].
    split; [| exact Hnot].
    intros Hreg. cbv zeta.
    destruct (Hok Hreg) as (Hret & Hclk & Hirq & Hle & Hsame).
    destruct Hsame as (S1 & S2 & S3 & S4 & S5 & S6 & S7 & S8 & S9 & S10
                       & S11 & S12).
    cbn [set_locked Dart.hw Dart.ias Dart.num_streams Dart.locked Dart.dma_min
         Dart.dma_max Dart.locked_ttbr Dart.shadow_ttbr] in *.
    split; [exact Hret |]. split; [exact Hclk |]. split; [exact Hirq |].
    split; [rewrite S1; exact Hhw |].
    rewrite Hd0g in Hmax1. cbn [probe_alloc Dart.hw] in Hmax1.
    split; [rewrite S5, Hn2; split; [exact Hn1 |];
            apply Hmax1; rewrite <- Hn2; exact Hle |].
    split; [rewrite S5; exact Hle |].
    split; [rewrite S9, S10, S2; apply Hwin; reflexivity |].
    split.
    + rewrite S7. unfold apple_dart_is_locked. rewrite Hhw, !Hr2.
      reflexivity.
    + intros sid idx. rewrite S11, S12, Hlt2, Hst2, Hlt1, Hst1, Hd0g.
      split; reflexivity.
Qed.

Lemma probe_registered_state_witness :
  exists r w' acks',
    apple_dart_probe probe_env_t8103 world_t8103 0%nat (repeat true 257)
    = Done (r, w', acks') /\
    mem w' = mem world_t8103.
Proof.
  destruct (probe_registered_state probe_env_t8103 world_t8103 0%nat
              (repeat true 257))
    as (r & w' & acks' & Hrun & Hm & _).
  - cbn. auto.
  - rewrite repeat_length. lia.
  - exists r, w', acks'. split; [exact Hrun | exact Hm].
Defined.

Lemma probe_read_params_ias : forall w p,
  Dart.ias (darts (probe_read_params w p) p)
  = match Hw.type (Dart.hw (darts w p)) with
    | DART_T8110 =>
        FIELD_GET DART_T8110_PARAMS3_VA_WIDTH 16
                  (u32 (readl w p DART_T8110_PARAMS3))
    | _ => 32
    end.
Proof.
  intros w p. unfold probe_read_params. cbv zeta.
  rewrite darts_set_dart_same.
  destruct (Hw.type (Dart.hw (darts w p))); reflexivity.
Qed.

Lemma probe_read_params_regs : forall w p q o,
  readl (probe_read_params w p) q o = readl w q o.
Proof.
  intros w p q o. unfold probe_read_params, readl. cbv zeta.
  cbn [set_dart darts]. destruct (Nat.eqb q p) eqn:E; [| reflexivity].
  apply Nat.eqb_eq in E. subst q.
  destruct (Hw.type (Dart.hw (darts w p))); reflexivity.
Qed.

(** X28. When every step before it succeeds and the device tree gives an
    "apple,dma-range" whose two ends differ above bit ias, apple_dart_probe
    reports the range with dev_err and leaves through err_clk_disable with
    ret still 0: it returns 0, the value of success, although the unit is
    not registered, its interrupt is not requested and its clocks are
    off.  What it has done by then is to take the power reference
    (pm_runtime_get_noresume), to report the error and to put the
    reference again; no register has been written. *)
Theorem probe_invalid_dma_range_returns_0 :
  forall env w p acks size range0 range1,
  ProbeEnv.devm_kzalloc env = true ->
  ProbeEnv.ioremap env = inr size ->
  0x4000 <= size ->
  0 <= ProbeEnv.platform_get_irq env ->
  0 <= ProbeEnv.devm_clk_bulk_get_all env ->
  ProbeEnv.clk_bulk_prepare_enable env = 0 ->
  ProbeEnv.devm_pm_runtime_enable env = 0 ->
  ProbeEnv.dma_range env = (0, (range0, range1)) ->
  Z.land (Z.lxor (u64 range0) (u64 (range0 + range1 - 1)))
         (not64 (DMA_BIT_MASK
                   match Hw.type (ProbeEnv.match_data env) with
                   | DART_T8110 =>
                       FIELD_GET DART_T8110_PARAMS3_VA_WIDTH 16
                                 (u32 (readl w p DART_T8110_PARAMS3))
                   | _ => 32
                   end)) <> 0 ->
  exists w',
    apple_dart_probe env w p acks
    = Done (Probed.mk 0 false false false, w', acks) /\
    log w' = log w ++ [EvPmGet p; EvDevErr; EvPmPut p] /\
    (forall q o, readl w' q o = readl w q o).
Proof.
  intros env w p acks size range0 range1 Hkz Hio Hsize Hirq Hclk Hen Hpm
         Hrange Hbad.
  unfold apple_dart_probe, probe_returns, err_clk_disable.
  rewrite Hkz, Hio, Hen, Hpm. cbn [negb Z.eqb]. cbv zeta.
  replace (size <? 16384) with false by (symmetry; apply Z.ltb_ge; lia).
  replace (ProbeEnv.platform_get_irq env <? 0) with false
    by (symmetry; apply Z.ltb_ge; lia).
  replace (ProbeEnv.devm_clk_bulk_get_all env <? 0) with false
    by (symmetry; apply Z.ltb_ge; lia).
  set (w0 := emit (EvPmGet p)
               (set_dart w p
                  (probe_alloc (ProbeEnv.match_data env)
                               (Dart.regs (darts w p))))).
  assert (Hr0 : forall q o, readl w0 q o = readl w q o).
  { intros q o. unfold readl, w0. cbn [emit set_dart darts].
    destruct (Nat.eqb q p) eqn:E; [| reflexivity].
    apply Nat.eqb_eq in E. subst q. reflexivity. }
  assert (Hias : Dart.ias (darts (probe_read_params w0 p) p)
                 = match Hw.type (ProbeEnv.match_data env) with
                   | DART_T8110 =>
                       FIELD_GET DART_T8110_PARAMS3_VA_WIDTH 16
                                 (u32 (readl w p DART_T8110_PARAMS3))
                   | _ => 32
                   end).
  { rewrite probe_read_params_ias, Hr0. unfold w0. cbn [emit darts].
    rewrite darts_set_dart_same. reflexivity. }
  set (w1 := probe_read_params w0 p) in *.
  unfold probe_dma_range. rewrite Hrange. cbn [Z.eqb negb Z.opp EINVAL].
  cbv zeta. rewrite darts_set_dart_same. cbn [set_dma_window Dart.ias].
  rewrite Hias.
  apply Z.eqb_neq in Hbad. rewrite Hbad. cbn [negb].
  eexists. split; [reflexivity |]. split.
  - unfold w1, w0, probe_read_params. cbn [emit log set_dart].
    rewrite <- !app_assoc. reflexivity.
  - intros q o. unfold readl. cbn [emit darts set_dart].
    destruct (Nat.eqb q p) eqn:E.
    + apply Nat.eqb_eq in E. subst q. cbn [set_dma_window Dart.regs].
      change (Dart.regs (darts w1 p) o) with (readl w1 p o).
      unfold w1. rewrite probe_read_params_regs. apply Hr0.
    + change (Dart.regs (darts w1 q) o) with (readl w1 q o).
      unfold w1. rewrite probe_read_params_regs. apply Hr0.
Qed.

Lemma probe_invalid_dma_range_returns_0_witness :
  exists w',
    apple_dart_probe probe_env_bad_range world_t8103 0%nat []
    = Done (Probed.mk 0 false false false, w', []) /\
    log w' = [EvPmGet 0%nat; EvDevErr; EvPmPut 0%nat].
Proof.
  destruct (probe_invalid_dma_range_returns_0 probe_env_bad_range
              world_t8103 0%nat [] 0x4000 0xf0000000 0x20000000)
    as (w' & Hrun & Hlog & _).
  - reflexivity.
  - reflexivity.
  - lia.
  - cbn. lia.
  - cbn. lia.
  - reflexivity.
  - reflexivity.
  - reflexivity.
  - vm_compute. discriminate.
  - exists w'. split; [exact Hrun | exact Hlog].
Defined.

(** X29. When every kernel service succeeds, the device tree has no
    "apple,dma-range", the hardware's lock bit is clear, a t8110 reports
    at most DART_MAX_STREAMS streams and every TLB command is
    acknowledged, apple_dart_probe of a t8103, t6000 or t8110 unit returns
    0 with the unit registered and unlocked, num_streams taken from the
    descriptor (t8110: from the hardware), and every stream blocked: each
    TCR and each TTBR reads 0, so neither translation nor bypass is on. *)
Theorem probe_unlocked_blocks_streams : forall env w p acks size,
  In (ProbeEnv.match_data env)
     [apple_dart_hw_t8103; apple_dart_hw_t6000; apple_dart_hw_t8110] ->
  ProbeEnv.devm_kzalloc env = true ->
  ProbeEnv.ioremap env = inr size ->
  0x4000 <= size ->
  0 <= ProbeEnv.platform_get_irq env ->
  0 <= ProbeEnv.devm_clk_bulk_get_all env ->
  ProbeEnv.clk_bulk_prepare_enable env = 0 ->
  ProbeEnv.devm_pm_runtime_enable env = 0 ->
  fst (ProbeEnv.dma_range env) = - EINVAL ->
  ProbeEnv.request_irq env = 0 ->
  ProbeEnv.iommu_device_sysfs_add env = 0 ->
  ProbeEnv.iommu_device_register env = 0 ->
  (Hw.type (ProbeEnv.match_data env) = DART_T8110 ->
   FIELD_GET DART_T8110_PARAMS4_NUM_SIDS 0
             (u32 (readl w p DART_T8110_PARAMS4)) <= DART_MAX_STREAMS) ->
  Z.land (readl w p (Hw.lock (ProbeEnv.match_data env)))
         (Hw.lock_bit (ProbeEnv.match_data env)) = 0 ->
  Forall (eq true) acks ->
  (256 < length acks)%nat ->
  exists w' acks',
    apple_dart_probe env w p acks
    = Done (Probed.mk 0 true true true, w', acks') /\
    Dart.locked (darts w' p) = false /\
    Dart.num_streams (darts w' p)
    = match Hw.type (ProbeEnv.match_data env) with
      | DART_T8110 =>
          FIELD_GET DART_T8110_PARAMS4_NUM_SIDS 0
                    (u32 (readl w p DART_T8110_PARAMS4))
      | _ => Hw.max_sid_count (ProbeEnv.match_data env)
      end /\
    (forall sid, 0 <= sid < Dart.num_streams (darts w' p) ->
       readl w' p (DART_TCR (darts w' p) sid) = 0) /\
    (forall sid idx,
       0 <= sid < Dart.num_streams (darts w' p) ->
       0 <= idx < Hw.ttbr_count (ProbeEnv.match_data env) ->
       readl w' p (DART_TTBR (darts w' p) sid idx) = 0).
Proof.
  intros env w p acks size Hin3 Hkz Hio Hsize Hirq Hclk Hen Hpm Hrange Hrq
         Hsa Hrg Hsids Hlock Hall Hl.
  assert (Hin : In (ProbeEnv.match_data env) apple_dart_of_match).
  { cbn in Hin3 |- *. tauto. }
  unfold apple_dart_probe, probe_returns, err_clk_disable.
  rewrite Hkz, Hio, Hen, Hpm. cbn [negb Z.eqb]. cbv zeta.
  replace (size <? 16384) with false by (symmetry; apply Z.ltb_ge; lia).
  replace (ProbeEnv.platform_get_irq env <? 0) with false
    by (symmetry; apply Z.ltb_ge; lia).
  replace (ProbeEnv.devm_clk_bulk_get_all env <? 0) with false
    by (symmetry; apply Z.ltb_ge; lia).
  set (hw := ProbeEnv.match_data env) in *.
  set (w0 := emit (EvPmGet p)
               (set_dart w p (probe_alloc hw (Dart.regs (darts w p))))).
  assert (Hd0 : darts w0 p = probe_alloc hw (Dart.regs (darts w p)))
    by exact (darts_set_dart_same _ _ _).
  assert (Hr0 : forall q o, readl w0 q o = readl w q o).
  { intros q o. unfold readl, w0. cbn [emit set_dart darts].
    destruct (Nat.eqb q p) eqn:E; [| reflexivity].
    apply Nat.eqb_eq in E. subst q. reflexivity. }
  assert (Hin0 : In (Dart.hw (darts w0 p)) apple_dart_of_match)
    by (rewrite Hd0; exact Hin).
  pose proof (probe_read_params_effect w0 p Hin0) as Hp. cbv zeta in Hp.
  assert (Hnum : Dart.num_streams (darts (probe_read_params w0 p) p)
                 = match Hw.type hw with
                   | DART_T8110 =>
                       FIELD_GET DART_T8110_PARAMS4_NUM_SIDS 0
                                 (u32 (readl w p DART_T8110_PARAMS4))
                   | _ => Hw.max_sid_count hw
                   end).
  { unfold probe_read_params. cbv zeta. rewrite darts_set_dart_same.
    rewrite Hd0. cbn [probe_alloc Dart.hw].
    destruct Hin3 as [E | [E | [E | []]]]; rewrite <- E;
      cbn [Hw.type apple_dart_hw_t8103 apple_dart_hw_t6000
           apple_dart_hw_t8110 Dart.num_streams Hw.max_sid_count];
      first [rewrite Hr0; reflexivity | reflexivity]. }
  assert (Hn256 : Dart.num_streams (darts (probe_read_params w0 p) p)
                  <= DART_MAX_STREAMS).
  { rewrite Hnum. clear - Hin3 Hsids.
    destruct Hin3 as [E | [E | [E | []]]]; rewrite <- E in *;
      cbn [Hw.type apple_dart_hw_t8103 apple_dart_hw_t6000
           apple_dart_hw_t8110 Hw.max_sid_count] in *;
      first [apply Hsids; reflexivity | unfold DART_MAX_STREAMS; lia]. }
  set (w1 := probe_read_params w0 p) in *.
  destruct Hp as (Hhw1 & Hregs1 & Hn1 & Hmax1 & Hmin1 & Hdmax1 & Hlk1 & Hlt1
                  & Hst1 & Hm1 & _ & Hq1).
  rewrite Hd0 in Hhw1, Hmax1, Hlk1. cbn [probe_alloc Dart.hw Dart.locked] in *.
  specialize (Hmax1 Hn256).
  unfold probe_dma_range.
  destruct (ProbeEnv.dma_range env) as [ret [range0 range1]].
  cbn [fst] in Hrange. subst ret. rewrite Z.eqb_refl.
  unfold probe_register, err_clk_disable.
  replace (DART_MAX_STREAMS <? Dart.num_streams (darts w1 p)) with false
    by (symmetry; apply Z.ltb_ge; exact Hn256).
  cbv zeta.
  assert (Hr1 : forall q o, readl w1 q o = readl w q o).
  { intros q o. unfold w1. rewrite probe_read_params_regs. apply Hr0. }
  assert (Hlk : apple_dart_is_locked w1 p = false).
  { unfold apple_dart_is_locked. rewrite Hhw1, Hr1, Hlock. reflexivity. }
  rewrite Hlk.
  set (w2 := set_dart w1 p (set_locked (darts w1 p) false)).
  assert (Hd2 : darts w2 p = set_locked (darts w1 p) false)
    by apply darts_set_dart_same.
  destruct (hw_reset_effect w2 p acks)
    as (ret & w3 & acks3 & Hrun & _ & Htcr & Httbr & _ & Hsame & _).
  { rewrite Hd2. cbn [set_locked Dart.hw]. rewrite Hhw1. exact Hin. }
  { rewrite Hd2. cbn [set_locked Dart.hw Dart.num_streams]. rewrite Hhw1.
    lia. }
  { rewrite Hd2. cbn [set_locked Dart.hw Dart.num_streams]. rewrite Hhw1.
    clear - Hin3 Hn1 Hmax1 Hn256.
    pose proof (BITS_TO_U32_bounds (Dart.num_streams (darts w1 p))) as Hb.
    unfold DART_MAX_STREAMS in Hn256. specialize (Hb ltac:(lia)).
    destruct Hin3 as [E | [E | [E | []]]]; rewrite <- E in *;
      cbn [Hw.enable_streams Hw.tcr Hw.max_sid_count apple_dart_hw_t8103
           apple_dart_hw_t6000 apple_dart_hw_t8110] in *;
      unfold DART_T8020_STREAMS_ENABLE, DART_T8020_TCR,
             DART_T8110_ENABLE_STREAMS, DART_T8110_TCR, BITS_TO_U32 in *;
      Z.div_mod_to_equations; lia. }
  { rewrite Hd2. cbn [set_locked Dart.num_streams].
    unfold DART_MAX_STREAMS in Hn256. lia. }
  rewrite Hrun. cbn [bind].
  rewrite (hw_reset_all_acked _ _ _ _ _ _ Hall Hrun) in *.
  rewrite Hrq, Hsa, Hrg. cbn [Z.eqb negb].
  exists (emit EvDevInfo (emit (EvPmPut p) w3)), acks3. split; [reflexivity |].
  cbn [emit darts].
  destruct Hsame as [_ Hsame]. specialize (Hsame p).
  destruct Hsame as (S1 & _ & _ & _ & S5 & _ & S7 & _).
  rewrite Hd2 in S1, S5, S7, Htcr, Httbr.
  cbn [set_locked Dart.hw Dart.num_streams Dart.locked] in *.
  split; [exact S7 |].
  split; [rewrite S5; exact Hnum |].
  assert (Etcr : forall sid, DART_TCR (darts w3 p) sid
                             = DART_TCR (set_locked (darts w1 p) false) sid).
  { intros sid. unfold DART_TCR. rewrite S1. reflexivity. }
  assert (Ettbr : forall sid idx,
            DART_TTBR (darts w3 p) sid idx
            = DART_TTBR (set_locked (darts w1 p) false) sid idx).
  { intros sid idx. unfold DART_TTBR. rewrite S1. reflexivity. }
  split.
  - intros sid Hs. rewrite S5 in Hs.
    change (readl (emit EvDevInfo (emit (EvPmPut p) w3)) p)
      with (readl w3 p).
    rewrite Etcr, Htcr by exact Hs. rewrite Hhw1.
    apply of_match_tcr_disabled. exact Hin.
  - intros sid idx Hs Hi. rewrite S5 in Hs.
    change (readl (emit EvDevInfo (emit (EvPmPut p) w3)) p)
      with (readl w3 p).
    rewrite Ettbr. apply Httbr; [exact Hs |]. rewrite Hhw1. exact Hi.
Qed.

Lemma probe_unlocked_blocks_streams_witness :
  exists w' acks',
    apple_dart_probe probe_env_t8103 world_t8103 0%nat (repeat true 257)
    = Done (Probed.mk 0 true true true, w', acks') /\
    Dart.num_streams (darts w' 0%nat) = 16 /\
    readl w' 0%nat (DART_TCR (darts w' 0%nat) 3) = 0.
Proof.
  destruct (probe_unlocked_blocks_streams probe_env_t8103 world_t8103 0%nat
              (repeat true 257) 0x4000)
    as (w' & acks' & Hrun & _ & Hn & Htcr & _).
  - cbn. auto.
  - reflexivity.
  - reflexivity.
  - lia.
  - cbn. lia.
  - cbn. lia.
  - reflexivity.
  - reflexivity.
  - reflexivity.
  - reflexivity.
  - reflexivity.
  - reflexivity.
  - cbn. intros Ht. discriminate Ht.
  - reflexivity.
  - apply Forall_repeat_true.
  - rewrite repeat_length. lia.
  - exists w', acks'. split; [exact Hrun |]. split; [exact Hn |].
    apply Htcr. rewrite Hn. cbn. lia.
Defined.

(** ** IOMMU groups *)

Lemma is_stream_in : forall p sid l,
  existsb (is_stream p sid) l = true <-> In (p, sid) l.
Proof.
  intros p sid l. rewrite existsb_exists. unfold is_stream. split.
  - intros ([q s] & Hin & He). cbn [fst snd] in He.
    apply andb_true_iff in He. destruct He as [Hp Hs].
    apply Nat.eqb_eq in Hp. apply Z.eqb_eq in Hs. subst. exact Hin.
  - intros Hin. exists (p, sid). split; [exact Hin |]. cbn [fst snd].
    rewrite Nat.eqb_refl, Z.eqb_refl. reflexivity.
Qed.

Lemma set_sid2group_spec : forall l t group p sid,
  set_sid2group t l group p sid
  = if existsb (is_stream p sid) l then group else t p sid.
Proof.
  unfold set_sid2group.
  induction l as [| a l IH]; intros t group p sid; [reflexivity |].
  cbn [fold_left existsb]. rewrite IH.
  destruct (is_stream p sid a); cbn [orb];
    destruct (existsb (is_stream p sid) l); reflexivity.
Qed.

Lemma set_sid2group_in : forall l t group p sid,
  In (p, sid) l -> set_sid2group t l group p sid = group.
Proof.
  intros l t group p sid Hin. rewrite set_sid2group_spec.
  apply is_stream_in in Hin. rewrite Hin. reflexivity.
Qed.

Lemma set_sid2group_other : forall l t group p sid,
  ~ In (p, sid) l -> set_sid2group t l group p sid = t p sid.
Proof.
  intros l t group p sid Hin. rewrite set_sid2group_spec.
  destruct (existsb (is_stream p sid) l) eqn:E; [| reflexivity].
  apply is_stream_in in E. contradiction.
Qed.

Lemma scan_groups_all : forall sid2group v l group,
  (forall p sid, In (p, sid) l -> sid2group p sid = v) ->
  group = None \/ group = v ->
  scan_groups sid2group l group
  = Some match l with [] => group | _ :: _ => v end.
Proof.
  intros sid2group v l. induction l as [| [p sid] l IH]; intros group Hall Hg.
  - reflexivity.
  - cbn [scan_groups]. cbv zeta.
    rewrite (Hall p sid) by (left; reflexivity).
    assert (Hc : negb (is_null group) && negb (group_ptr_eqb group v)
                 = false).
    { destruct Hg as [-> | ->]; [reflexivity |].
      destruct v as [g |]; cbn; [rewrite Nat.eqb_refl |]; reflexivity. }
    rewrite Hc, IH.
    + destruct l; reflexivity.
    + intros q s Hin. apply Hall. right. exact Hin.
    + right. reflexivity.
Qed.

(** X30. For a device none of whose streams belongs to a group,
    apple_dart_device_group, given a group without data by the core and a
    kmemdup that succeeds, returns that group with one more reference
    held, the device's config as its data and every stream of the device
    entered in sid2group, no other entry changed.  A further
    apple_dart_device_group for the same streams (at least one) finds the
    group in sid2group and returns it with another reference, whatever
    the core would offer.  apple_dart_release_group on the group's data
    leaves sid2group as it was before the first call. *)
Theorem device_group_then_release : forall w gs cfg group,
  (forall p sid, In (p, sid) (cfg_streams w cfg) ->
     Groups.sid2group gs p sid = None) ->
  Groups.iommudata gs group = None ->
  exists gs1,
    apple_dart_device_group w gs cfg (Some group) true
    = Done (GroupPtr group, w, gs1) /\
    (forall p sid, In (p, sid) (cfg_streams w cfg) ->
       Groups.sid2group gs1 p sid = Some group) /\
    (forall p sid, ~ In (p, sid) (cfg_streams w cfg) ->
       Groups.sid2group gs1 p sid = Groups.sid2group gs p sid) /\
    Groups.iommudata gs1 group = Some cfg /\
    Groups.refs gs1 group = Groups.refs gs group + 1 /\
    (cfg_streams w cfg <> [] ->
     forall device_group kmemdup_ok,
       apple_dart_device_group w gs1 cfg device_group kmemdup_ok
       = Done (GroupPtr group, w, group_ref gs1 group 1)) /\
    (forall p sid,
       Groups.sid2group (apple_dart_release_group w gs1 cfg) p sid
       = Groups.sid2group gs p sid).
Proof.
  intros w gs cfg group Hnone Hdata.
  unfold apple_dart_device_group.
  rewrite (scan_groups_all _ None) by (auto).
  assert (Hsn : match cfg_streams w cfg with
                | [] => @None nat | _ :: _ => None end = None)
    by (destruct (cfg_streams w cfg); reflexivity).
  rewrite Hsn. cbv zeta.
  cbn [group_ref Groups.iommudata]. rewrite Hdata. cbn [negb].
  eexists. split; [reflexivity |].
  cbn [assign_streams set_iommudata group_ref Groups.sid2group
       Groups.iommudata Groups.refs].
  rewrite !Nat.eqb_refl.
  split; [intros p sid Hin; apply set_sid2group_in; exact Hin |].
  split; [intros p sid Hin; apply set_sid2group_other; exact Hin |].
  split; [reflexivity |]. split; [reflexivity |]. split.
  - intros Hne device_group kmemdup_ok.
    rewrite (scan_groups_all _ (Some group)).
    + destruct (cfg_streams w cfg) as [| a l]; [contradiction |].
      reflexivity.
    + intros p sid Hin. apply set_sid2group_in. exact Hin.
    + left. reflexivity.
  - intros p sid. unfold apple_dart_release_group.
    cbn [assign_streams Groups.sid2group].
    destruct (in_dec (fun a b : nat * Z =>
                        ltac:(decide equality;
                              [apply Z.eq_dec | apply Nat.eq_dec])
                        : {a = b} + {a <> b})
                     (p, sid) (cfg_streams w cfg)) as [Hin | Hin].
    + rewrite set_sid2group_in by exact Hin. symmetry. apply Hnone.
      exact Hin.
    + rewrite !set_sid2group_other by exact Hin. reflexivity.
Qed.

Lemma device_group_then_release_witness :
  exists gs1,
    apple_dart_device_group world_t8103 no_groups cfg_unit_0 (Some 7%nat)
                            true
    = Done (GroupPtr 7, world_t8103, gs1) /\
    Groups.sid2group gs1 0%nat 0 = Some 7%nat.
Proof.
  destruct (device_group_then_release world_t8103 no_groups cfg_unit_0
              7%nat)
    as (gs1 & Hrun & Hin & _).
  - intros p sid _. reflexivity.
  - reflexivity.
  - exists gs1. split; [exact Hrun |]. apply Hin. vm_compute. left.
    reflexivity.
Defined.
